(* ===== verification/_CoqProject ===== *)
-Q . S2P
Prelude.v
Libc.v
Md5.v
Aes.v
Client.v
Config.v
Os.v
Tun.v
TunLinux.v
TunFreebsd.v
CMonad.v
Packet.v
OpenAck.v
Protocol.v
Server.v
Goroutines.v
ServerConfig.v
ServerTun.v
ServerMain.v
Frag.v
Recv.v
Machine.v
Main.v
Startup.v
Interop.v
Forgery.v
Traffic.v
Network.v
Runs.v
Neighbours.v
Recovery.v
Delivery.v
Convergence.v
