(* ===== verification/Prelude.v ===== *)
(** * iwand: a verified model of the SD-WAN client, and of its server

    [iwand] is a tunnel: a client daemon in C ([src/src/iwand.c], with one TUN backend per
    platform) that authenticates to a server over UDP, configures a TUN device with the
    address it is granted, and carries IPv4 packets between the device and the server; and a
    server in Go ([src/server/]) that keeps the sessions and routes between clients, or to an
    exit device.

    ** The files, and what they model

    - Prelude (this file): machine integers, bytes and buffers, little- and big-endian
      encodings, C strings, record updates, the hint databases [c_ints] and [c_len].
    - Libc: inet_pton, strtoul, snprintf, number and address printing.
    - Md5, Aes: md5_* and aes_* of iwand.c, against RFC 1321 and FIPS 197 stated apart.
    - Client: the constants, [config_t], [iwan_client_t], and their well-formedness
      ([cfg_ok], [client_ok]).  Config: cfg_load and cfg_valid.
    - Os: the system calls, the history of calls ([trace]), the operating system as a
      parameter ([OS]) with what the program relies on ([OSOk]), programs that only make
      calls ([IO]).  Tun: the interface of tun.h as a class ([TunBackend], its contract
      [TunOk]); TunLinux, TunFreebsd: its implementations.
    - CMonad: the monad of the C functions (client record, history, undefined behaviour) and
      its weakest precondition [wp]; the clocks.
    - Packet: xor_encrypt, pkt_sign, pkt_verify, the keys, build_open_pkt, build_echo_req,
      send_close.  OpenAck: handle_openack, its TLV parser, run_script.  Frag:
      handle_ipfrag.  Recv: the other handlers, handle_recv, handle_tun_recv.  Machine:
      resolve_server, client_reset, timer_tick.  Main: main, from its configuration:
      initialisation, event loop, cleanup.
    - Startup: main from its command line: options, paths, daemonize, logging, signals.
    - Protocol (protocol.go, ip.go), Server (server.go: the session table and the handlers),
      Goroutines (server.go: the two goroutines that share the table, and its lock),
      ServerConfig (config.go), ServerTun (tun_linux.go, tun_stub.go, New), ServerMain
      (cmd/iwand-server/main.go, LoadConfig, ListenAndServe, Serve): the server.
    - Interop: a client and the server.  Forgery: a client and somebody who forges the
      address of the server.
    - Traffic: what a client sends and writes as a function of what it receives.  Network:
      any number of clients, the server, outsiders and a lossy network, as one transition
      system, and its invariant.  Runs: executions of that system that compute.  Neighbours:
      what the steps of others leave alone.  Recovery and Delivery: what can still happen from
      each state.  Convergence: what does happen, second by second, when the network works.

    Functions keep their names.  A C function is a definition in [option] (pure), [IO] (only
    system calls) or [M] (client record and system calls); [None] is undefined behaviour.  A
    buffer is the list of its bytes, and every access goes through [rd], [rd_n], [wr_n] or
    [emit], which fail outside the buffer or its capacity; integers are [Z] with the wrap of
    their width written out ([u8] to [u64]).  In the server, [None] is a run-time panic, and
    the sessions are locations of a store that its two maps share.

    ** The state, and how the parts interact

    The client is one record, which the event loop hands to the handlers: [main_turn] polls
    the two descriptors, [handle_event] dispatches to [handle_tun_recv] or, for a datagram
    from the server, to [handle_recv], and once a second [timer_tick] drives the states
    DNS_NEEDED, IP_READY, AUTH_SENT, ESTABLISHED, CLOSED.  The configuration does not change
    after initialisation (which stores the device name and the links with it).  Every call
    goes to the history; the invariant [inv] (Machine) ties the record to it: the open
    descriptors are the ones the record holds.  The server handles one input at a time
    ([serve]): a datagram, with the time and random bytes it draws, or a packet of the exit
    device.  Two goroutines read these, and share the session table under a lock: Goroutines
    has their handlers as programs of sections under the lock and sends, with every
    interleaving, and shows that it comes to handling the inputs one at a time, which is why
    the other files do so.

    The system of Network has the state of every end ([net]) and the history of what was
    sent, read and written.  Its steps ([step]): a client starts, or runs one turn of its
    event loop on any operating system; the server handles a datagram that its client has
    sent at some time, which covers loss, duplication, delay and reordering; somebody with
    neither a password nor a session sends anything, from any address; the exit device
    delivers.  Datagrams that reach a client from the server's address are datagrams the
    server sent to it: nothing in the protocol authenticates them.  Each client is described
    by what it assumes and guarantees ([env_ok], [emits], [client_inv] in Traffic), and the
    network discharges the assumptions.

    ** What the theorems show

    - The whole client ([program_safe], [main_turn_safe], [handle_recv_safe],
      [handle_ipfrag_safe]): no undefined behaviour and no leaked descriptor on any system,
      command line, configuration file and traffic; state changes only along the state
      machine.  It stops when asked ([sigterm_stops]), gives up silent servers
      ([data_timeout], [auth_timeout]) and reconnects ([reconnects]).
    - Each handler, on every branch, against a specification ([handle_openack_spec],
      [parse_tlvs_spec], [handle_ipfrag_refines]), what it ignores ([foreign_ignored],
      [handle_recv_unsigned], [handle_recv_no_session]), and the fragment cases
      ([reassemble_two], [reassemble_three]).
    - The server: its session table stays consistent from every accepted configuration
      ([configured_server]); it starts with its exit device or with an error and nothing open
      ([New_spec]); who is let in and who is not ([open_accepted], [open_rejected],
      [foreign_session]); answers are bounded by what they answer ([reply_bounds]).  Its two
      goroutines are serialisable and finish ([serialisable], [goroutines_finish]); the
      program, from its command line, never panics ([server_main_safe]).
    - Both ends ([handshake], [refused], [forwarded], [exit_to_client], [keepalive],
      [leaving]): the session one grants is the one the other holds, packets cross unchanged.
    - The whole system, in every reachable state: what a device is given is what another
      delivered for it ([integrity], [exit_integrity]); sessions are granted ones, addresses
      are not shared ([sessions_agree], [addresses_distinct]); nothing gets stuck
      ([network_total]); outsiders change nothing ([outsider_ignored]), and no other
      client or account touches a session ([isolation]); a client can get back
      in session ([recoverable]) and packets can get through ([deliverable_packet]).  The
      ends may disagree for a while ([stale_session]), but not for long: with a network that
      works, a client is in session 22 seconds later and stays there, whatever others do
      ([converges]).
    - What none of this covers: the server's address is all that authenticates it
      ([forged_openack], [forged_close], [forged_data]).
    - Cryptography ([md5_hash_rfc1321], [aes_encrypt_fips197], [aes_roundtrip]), the TUN
      backends ([linux_backend_ok], [freebsd_backend_ok]), the configuration file
      ([cfg_load_ok], [config_roundtrip]) and the command line ([options_roundtrip]).

    ** Assumptions, fuel and bounds

    The host is little-endian with 64-bit [long]; [sendto] and [write] take whole packets.
    [OSOk] asks what POSIX documents: a read returns at most what was asked, a clock is
    nonnegative, poll answers for every descriptor.  Reading [g_reconnect] when it is set
    also clears it.  Loops over input carry a fuel of the length of the input, or one more,
    which is enough as each turn consumes some ([parse_tlvs_spec], [load_lines_fuel],
    [getopt_fuel], [parseTLVs_loop_spec]); the event loop takes the number of turns to run, and
    the theorems hold for every number.  A hook script is one call that forks and executes.
    The executions of Runs use a system that is told what to return ([driver]).
    In the server, signatures and ciphers of Go's standard library are the functions of the
    two standards; [net.ResolveUDPAddr], the JSON decoder and whether the socket can be bound
    are parameters.  In Convergence, a second is one turn of the client's loop, in which its
    timer expires, and the server's answers to what it sends ([second]); the others act
    between the seconds ([others]).  The bound of 22 seconds is that of the farthest client
    ([stage]): sixteen until the data timeout has passed, then the reset, the lookup of the
    name, up to three to ask, and the answer.

    ** Not modelled

    The messages that functions log (log_msg itself is); getopt's own diagnostics; signals
    before their handlers are installed; the contents of hook scripts; in the server, errors
    of writes to the socket, which are only logged, and [UDPAddr], which nothing calls.
    Packaging and the LuCI pages are glue.

    ** What is left

    Of the C program, the messages of log_msg: they would be calls in the history like the
    others, but for their texts, which depend on [strerror] and on libc's formatting, nothing
    in the program depends on them.  Of the system, convergence while late copies of the
    client's own datagrams still arrive: a late OPEN has the server replace the session in
    use, a late OPENACK has the client take up one that is gone ([stale_session]), and either
    costs the data timeout again. *)
From Stdlib Require Export ZArith Lia Ascii String.
From stdpp Require Export prelude strings.

#[export] Set Default Goal Selector "!".
#[global] Open Scope Z_scope.

(** ** Fixed-width unsigned integers

    A C [uintN_t] is a [Z]; every assignment the code makes to such a variable
    is wrapped explicitly with the function of its width. *)
Definition u8 (z : Z) : Z := z mod 2 ^ 8.
Definition u16 (z : Z) : Z := z mod 2 ^ 16.
Definition u32 (z : Z) : Z := z mod 2 ^ 32.
Definition u64 (z : Z) : Z := z mod 2 ^ 64.

Definition is_u (w z : Z) : Prop := 0 ≤ z < 2 ^ w.
Abbreviation is_byte := (is_u 8).
Abbreviation is_u16 := (is_u 16).
Abbreviation is_u32 := (is_u 32).
Abbreviation is_u64 := (is_u 64).
Abbreviation bytes := (Forall (is_u 8)).

#[export] Instance is_u_dec w z : Decision (is_u w z).
Proof. unfold is_u. apply _. Defined.

(** The length of a buffer as a C integer. *)
Definition len {A} (l : list A) : Z := Z.of_nat (length l).

Create HintDb c_ints.
Create Rewrite HintDb c_len.

Section integers.
Implicit Types (x y z w k : Z).

Lemma u8_is z : is_byte (u8 z).
Proof. apply Z.mod_pos_bound. done. Qed.
Lemma u16_is z : is_u16 (u16 z).
Proof. apply Z.mod_pos_bound. done. Qed.
Lemma u32_is z : is_u32 (u32 z).
Proof. apply Z.mod_pos_bound. done. Qed.
Lemma u64_is z : is_u64 (u64 z).
Proof. apply Z.mod_pos_bound. done. Qed.

Lemma u8_id z : is_byte z → u8 z = z.
Proof. apply Z.mod_small. Qed.
Lemma u16_id z : is_u16 z → u16 z = z.
Proof. apply Z.mod_small. Qed.
Lemma u32_id z : is_u32 z → u32 z = z.
Proof. apply Z.mod_small. Qed.
Lemma u64_id z : is_u64 z → u64 z = z.
Proof. apply Z.mod_small. Qed.

(** Truncation in two steps. *)
Lemma u32_u64 z : u32 (u64 z) = u32 z.
Proof. unfold u32, u64. apply Z.mod_mod_divide. by exists (2 ^ 32). Qed.

(** An unsigned integer is characterised by having no bit at or above its width. *)
Lemma is_u_bits w z :
  0 ≤ w → 0 ≤ z → is_u w z ↔ ∀ i, w ≤ i → Z.testbit z i = false.
Proof. intros Hw Hz. unfold is_u. rewrite <-Z.bounded_iff_bits_nonneg by done. lia. Qed.

Lemma is_u_lxor w x y : 0 ≤ w → is_u w x → is_u w y → is_u w (Z.lxor x y).
Proof.
  intros Hw Hx Hy. pose proof Hx as [? _]. pose proof Hy as [? _].
  apply is_u_bits; [done|by apply Z.lxor_nonneg|].
  intros i Hi. rewrite Z.lxor_spec.
  by rewrite (proj1 (is_u_bits w x Hw ltac:(done)) Hx i Hi),
    (proj1 (is_u_bits w y Hw ltac:(done)) Hy i Hi).
Qed.

Lemma is_u_lor w x y : 0 ≤ w → is_u w x → is_u w y → is_u w (Z.lor x y).
Proof.
  intros Hw Hx Hy. pose proof Hx as [? _]. pose proof Hy as [? _].
  apply is_u_bits; [done|by apply Z.lor_nonneg|].
  intros i Hi. rewrite Z.lor_spec.
  by rewrite (proj1 (is_u_bits w x Hw ltac:(done)) Hx i Hi),
    (proj1 (is_u_bits w y Hw ltac:(done)) Hy i Hi).
Qed.

Lemma is_u_land_r w x y : 0 ≤ w → is_u w y → is_u w (Z.land x y).
Proof.
  intros Hw Hy. pose proof Hy as [? _].
  apply is_u_bits; [done|apply Z.land_nonneg; auto|].
  intros i Hi. rewrite Z.land_spec.
  by rewrite (proj1 (is_u_bits w y Hw ltac:(done)) Hy i Hi), andb_false_r.
Qed.

Lemma is_u_le w w' z : 0 ≤ w ≤ w' → is_u w z → is_u w' z.
Proof.
  intros Hw [Hz1 Hz2]. split; [done|].
  pose proof (Z.pow_le_mono_r 2 w w' ltac:(lia) ltac:(lia)). lia.
Qed.

Lemma is_u_0 w : 0 ≤ w → is_u w 0.
Proof. intros. split; [done|]. by apply Z.pow_pos_nonneg. Qed.

(** Disjoint bit fields: [|] is [+]. *)
Lemma lor_add x y k :
  0 ≤ k → x mod 2 ^ k = 0 → is_u k y → Z.lor x y = x + y.
Proof.
  intros Hk Hx Hy. pose proof Hy as [? _].
  assert (Z.land x y = 0) as Hl.
  { apply Z.bits_inj'. intros i Hi. rewrite Z.land_spec, Z.bits_0.
    destruct (decide (i < k)) as [Hik|Hik].
    - rewrite <-(Z.mod_pow2_bits_low x k i) by lia. by rewrite Hx, Z.bits_0.
    - rewrite (proj1 (is_u_bits k y Hk ltac:(done)) Hy i) by lia. apply andb_false_r. }
  rewrite <-Z.lxor_lor by done. symmetry. by apply Z.add_nocarry_lxor.
Qed.

Lemma land_0xff z : Z.land z 255 = u8 z.
Proof. unfold u8. change 255 with (Z.ones 8). by apply Z.land_ones. Qed.

Lemma lxor_cancel_r x y : Z.lxor (Z.lxor x y) y = x.
Proof. by rewrite Z.lxor_assoc, Z.lxor_nilpotent, Z.lxor_0_r. Qed.
End integers.

#[export] Hint Resolve u8_is u16_is u32_is u64_is is_u_lxor is_u_lor is_u_land_r is_u_0
  : c_ints.

(** Exhaustive checking of a boolean property over all byte values, used for the
    byte-indexed tables. *)
Lemma forallb_seq_spec (P : nat → bool) (n : nat) :
  forallb P (seq 0 n) = true → ∀ i, (i < n)%nat → P i = true.
Proof.
  intros H i Hi. rewrite forallb_forall in H. apply H, in_seq. lia.
Qed.

Lemma byte_forall (P : Z → bool) :
  forallb (λ n, P (Z.of_nat n)) (seq 0 256) = true →
  ∀ b, is_byte b → P b = true.
Proof.
  intros H b Hb. replace b with (Z.of_nat (Z.to_nat b)) by (unfold is_u in Hb; lia).
  apply (forallb_seq_spec (λ n, P (Z.of_nat n)) 256 H). unfold is_u in Hb. lia.
Qed.

Definition byteb (x : Z) : bool := (0 <=? x) && (x <? 256).
Lemma byteb_spec x : byteb x = true ↔ is_byte x.
Proof. unfold byteb, is_u. rewrite andb_true_iff, Z.leb_le, Z.ltb_lt. done. Qed.

Lemma byte_list_ok l : forallb byteb l = true → bytes l.
Proof.
  intros Hl. rewrite forallb_forall in Hl. apply Forall_forall. intros x Hx.
  apply byteb_spec, Hl. by apply list_elem_of_In.
Qed.

(** [byte_table P x H]: the boolean property [P] of bytes holds of [x], by checking it on
    the 256 bytes; its conjuncts are then available as propositions. *)
Ltac byte_table P x H :=
  let T := fresh in
  pose proof (byte_forall P ltac:(vm_compute; reflexivity) x H) as T;
  cbv beta in T; rewrite ?andb_true_iff, ?Z.eqb_eq, ?byteb_spec in T;
  destruct_and? T.

(** [Forall] over an explicit list. *)
Ltac forall_list tac :=
  repeat first [apply Forall_nil; exact I | apply Forall_cons; split; [cbv beta; tac|]].

(** ** Byte order

    [le_decode]/[le_encode] are the memory representation of an unsigned integer on the
    little-endian targets of the program (what [memcpy] to and from an integer object
    does); the big-endian pair is the network order the TLVs use. *)
Fixpoint le_decode (l : list Z) : Z :=
  match l with [] => 0 | b :: l' => b + 256 * le_decode l' end.
Fixpoint le_encode (n : nat) (z : Z) : list Z :=
  match n with O => [] | S n' => u8 z :: le_encode n' (z / 256) end.
Definition be_decode (l : list Z) : Z := le_decode (reverse l).
Definition be_encode (n : nat) (z : Z) : list Z := reverse (le_encode n z).

(** [htonl] on a little-endian host. *)
Definition htonl (z : Z) : Z := le_decode (be_encode 4 z).

Section byte_order.
Implicit Types (l : list Z) (z : Z) (n : nat).

Lemma length_le_encode n z : length (le_encode n z) = n.
Proof. revert z. induction n; intros; simpl; auto. Qed.
Lemma length_be_encode n z : length (be_encode n z) = n.
Proof. unfold be_encode. by rewrite length_reverse, length_le_encode. Qed.

Lemma le_encode_bytes n z : bytes (le_encode n z).
Proof. revert z. induction n; intros; simpl; constructor; auto with c_ints. Qed.
Lemma be_encode_bytes n z : bytes (be_encode n z).
Proof. apply Forall_reverse, le_encode_bytes. Qed.

Lemma le_decode_encode n z : le_decode (le_encode n z) = z mod 2 ^ (8 * Z.of_nat n).
Proof.
  revert z. induction n as [|n IH]; intros z; simpl le_encode; simpl le_decode.
  - by rewrite Z.mod_1_r.
  - rewrite IH. replace (8 * Z.of_nat (S n)) with (8 + 8 * Z.of_nat n) by lia.
    rewrite Z.pow_add_r by lia. change (2 ^ 8) with 256.
    unfold u8. change (2 ^ 8) with 256.
    pose proof (Z.pow_pos_nonneg 2 (8 * Z.of_nat n) ltac:(lia) ltac:(lia)).
    rewrite Z.rem_mul_r by lia. lia.
Qed.

Lemma le_encode_decode l : bytes l → le_encode (length l) (le_decode l) = l.
Proof.
  induction 1 as [|b l Hb Hl IH]; simpl; [done|].
  unfold is_u in Hb. change (2 ^ 8) with 256 in Hb.
  f_equal.
  - unfold u8. change (2 ^ 8) with 256. rewrite (Z.mul_comm 256), Z.mod_add by lia.
    apply Z.mod_small. lia.
  - rewrite (Z.mul_comm 256), Z.div_add, Z.div_small by lia. by rewrite Z.add_0_l.
Qed.

Lemma le_decode_is_u l : bytes l → is_u (8 * len l) (le_decode l).
Proof.
  intros Hl. rewrite <-(le_encode_decode l Hl), le_decode_encode.
  unfold len. rewrite length_le_encode. apply Z.mod_pos_bound, Z.pow_pos_nonneg; lia.
Qed.

Lemma be_decode_encode n z : be_decode (be_encode n z) = z mod 2 ^ (8 * Z.of_nat n).
Proof. unfold be_decode, be_encode. by rewrite reverse_involutive, le_decode_encode. Qed.

Lemma be_encode_decode l : bytes l → be_encode (length l) (be_decode l) = l.
Proof.
  intros Hl. unfold be_decode, be_encode. rewrite <-(length_reverse l).
  rewrite le_encode_decode by (by apply Forall_reverse). apply reverse_involutive.
Qed.

Lemma be_decode_is_u l : bytes l → is_u (8 * len l) (be_decode l).
Proof.
  intros Hl. unfold be_decode, len. rewrite <-length_reverse.
  apply le_decode_is_u. by apply Forall_reverse.
Qed.

(** Writing an integer byte by byte with shifts. *)
Lemma le_encode_shiftr n z (k : nat) :
  le_encode n (Z.shiftr z (Z.of_nat k * 8)) =
  map (λ i, u8 (Z.shiftr z (Z.of_nat i * 8))) (seq k n).
Proof.
  revert k. induction n as [|n IH]; intros k; simpl; [done|].
  f_equal. rewrite <-IH. f_equal.
  change 256 with (2 ^ 8). rewrite <-Z.shiftr_div_pow2 by done.
  rewrite Z.shiftr_shiftr by lia. f_equal. lia.
Qed.

Lemma le_encode_map n z :
  le_encode n z = map (λ i, u8 (Z.shiftr z (Z.of_nat i * 8))) (seq 0 n).
Proof. by rewrite <-le_encode_shiftr, Z.shiftr_0_r. Qed.

Lemma le_encode_mod n z : le_encode n (z mod 2 ^ (8 * Z.of_nat n)) = le_encode n z.
Proof.
  rewrite <-le_decode_encode, <-(length_le_encode n z) at 1.
  by rewrite le_encode_decode by apply le_encode_bytes.
Qed.
End byte_order.

#[export] Hint Resolve le_encode_bytes be_encode_bytes : c_ints.

(** The shift-and-or expressions with which the code assembles integers from bytes. *)
Lemma lor_shift_low x y k : 0 ≤ k → is_u k x → Z.lor x (Z.shiftl y k) = x + y * 2 ^ k.
Proof.
  intros Hk Hx. rewrite Z.shiftl_mul_pow2, Z.lor_comm by done.
  pose proof (Z.pow_pos_nonneg 2 k).
  rewrite (lor_add _ _ k); [lia|done|apply Z.mod_mul; lia|done].
Qed.

Lemma le4_value x y z w :
  is_byte x → is_byte y → is_byte z → is_byte w →
  Z.lor (Z.lor (Z.lor x (Z.shiftl y 8)) (Z.shiftl z 16)) (Z.shiftl w 24)
  = le_decode [x; y; z; w].
Proof.
  intros Hx Hy Hz Hw. unfold is_u in *. cbn [le_decode].
  rewrite (lor_shift_low x), (lor_shift_low _ z), (lor_shift_low _ w);
    unfold is_u; lia.
Qed.

Lemma be4_value x y z w :
  is_byte x → is_byte y → is_byte z → is_byte w →
  Z.lor (Z.lor (Z.lor (Z.shiftl x 24) (Z.shiftl y 16)) (Z.shiftl z 8)) w
  = be_decode [x; y; z; w].
Proof.
  intros. rewrite (Z.lor_comm _ w), (Z.lor_comm _ (Z.shiftl z 8)),
    (Z.lor_comm (Z.shiftl x 24)), !Z.lor_assoc.
  by rewrite le4_value.
Qed.

Lemma be2_value x y :
  is_byte x → is_byte y → Z.lor (Z.shiftl x 8) y = be_decode [x; y].
Proof.
  intros. rewrite Z.lor_comm, lor_shift_low by done. cbn. unfold is_u in *. lia.
Qed.

(** ** Buffers

    A buffer is the list of its bytes.  Reading and writing are partial: [None] is a
    memory access outside the object, which is undefined behaviour in C.  The theorems of
    the development show that the program never produces it. *)
Definition rd (b : list Z) (i : Z) : option Z :=
  if 0 <=? i then b !! Z.to_nat i else None.

(** [memcpy] out of a buffer: [n] bytes from offset [off]. *)
Definition rd_n (b : list Z) (off n : Z) : option (list Z) :=
  if (0 <=? off) && (0 <=? n) && (off + n <=? len b)
  then Some (take (Z.to_nat n) (drop (Z.to_nat off) b)) else None.

(** Overwriting part of a buffer, and the bounds-checked [memcpy] into it. *)
Definition blit (dst : list Z) (off : nat) (src : list Z) : list Z :=
  take off dst ++ src ++ drop (off + length src) dst.

Definition wr_n (dst : list Z) (off : Z) (src : list Z) : option (list Z) :=
  if (0 <=? off) && (off + len src <=? len dst)
  then Some (blit dst (Z.to_nat off) src) else None.

(** A buffer under construction: the bytes initialised so far, out of [cap].  Storing is
    defined at an offset that leaves no uninitialised gap and within the capacity. *)
Definition store (cap : Z) (buf : list Z) (off : Z) (src : list Z) : option (list Z) :=
  if (0 <=? off) && (off <=? len buf) && (off + len src <=? cap)
  then Some (take (Z.to_nat off) buf ++ src ++ drop (Z.to_nat (off + len src)) buf) else None.
(** [*p++ = ...] at the end of what is initialised. *)
Definition emit (cap : Z) (buf src : list Z) : option (list Z) := store cap buf (len buf) src.

(** C strings: the bytes before the first NUL. *)
Fixpoint c_str (b : list Z) : list Z :=
  match b with [] => [] | x :: b' => if x =? 0 then [] else x :: c_str b' end.
Definition strlen (b : list Z) : Z := len (c_str b).
Definition streq (a b : list Z) : bool := bool_decide (c_str a = c_str b).

(** [strncpy(dst, src, n)]: at most [n] bytes of the string, padded with NULs up to [n];
    the rest of [dst] is left alone. *)
Definition strncpy (dst src : list Z) (n : nat) : list Z :=
  take n (c_str src ++ replicate n 0) ++ drop n dst.

(** String literals as bytes. *)
Definition lit (s : string) : list Z :=
  map (λ c, Z.of_N (N_of_ascii c)) (list_ascii_of_string s).

Lemma len_nonneg {A} (l : list A) : 0 ≤ len l.
Proof. unfold len. lia. Qed.
Lemma to_nat_len {A} (l : list A) : Z.to_nat (len l) = length l.
Proof. unfold len. lia. Qed.
Lemma len_nil {A} : len (@nil A) = 0.
Proof. done. Qed.
Lemma len_cons {A} (x : A) l : len (x :: l) = 1 + len l.
Proof. unfold len. simpl. lia. Qed.
Lemma len_app {A} (l k : list A) : len (l ++ k) = len l + len k.
Proof. unfold len. rewrite length_app. lia. Qed.
Lemma len_take {A} n (l : list A) : len (take n l) = Z.of_nat n `min` len l.
Proof. unfold len. rewrite length_take. lia. Qed.
Lemma len_drop {A} n (l : list A) : len (drop n l) = 0 `max` (len l - Z.of_nat n).
Proof. unfold len. rewrite length_drop. lia. Qed.
Lemma len_replicate {A} n (x : A) : len (replicate n x) = Z.of_nat n.
Proof. unfold len. by rewrite length_replicate. Qed.
Lemma len_le_encode n z : len (le_encode n z) = Z.of_nat n.
Proof. unfold len. by rewrite length_le_encode. Qed.
Lemma len_be_encode n z : len (be_encode n z) = Z.of_nat n.
Proof. unfold len. by rewrite length_be_encode. Qed.

#[export] Hint Rewrite @len_nil @len_cons @len_app @len_take @len_drop @len_replicate
  len_le_encode len_be_encode : c_len.

(** [len_lia] normalises buffer lengths and calls [lia]. *)
Ltac len_lia :=
  repeat match goal with
  | l : list ?A |- _ =>
      lazymatch goal with H : 0 ≤ len l |- _ => fail | _ => pose proof (len_nonneg l) end
  end;
  autorewrite with c_len in *; lia.

Section buffers.
Implicit Types (b dst src l : list Z) (off n i : Z).

Lemma rd_Some b i : 0 ≤ i < len b → ∃ x, rd b i = Some x ∧ x ∈ b.
Proof.
  unfold len, rd. intros Hi. rewrite (proj2 (Z.leb_le 0 i)) by lia.
  destruct (lookup_lt_is_Some_2 b (Z.to_nat i)) as [x Hx]; [lia|].
  exists x. split; [done|]. by eapply list_elem_of_lookup_2.
Qed.

Lemma rd_byte b i x : bytes b → rd b i = Some x → is_byte x.
Proof.
  unfold rd. intros Hb. case_match; [|done]. intros Hx.
  by eapply (Forall_lookup_1 _ _ _ _ Hb).
Qed.

Lemma rd_drop b off i : 0 ≤ off → 0 ≤ i → rd b (off + i) = rd (drop (Z.to_nat off) b) i.
Proof.
  intros. unfold rd. rewrite !(proj2 (Z.leb_le 0 _)) by lia.
  rewrite lookup_drop. f_equal. lia.
Qed.

Lemma rd_head b off x l : 0 ≤ off → drop (Z.to_nat off) b = x :: l → rd b off = Some x.
Proof. intros Hoff Hd. rewrite <-(Z.add_0_r off), rd_drop by done. by rewrite Hd. Qed.

Lemma rd_middle pre x post off : len pre = off → rd (pre ++ x :: post) off = Some x.
Proof.
  intros <-. pose proof (len_nonneg pre). apply (rd_head _ _ _ post); [done|].
  by rewrite to_nat_len, drop_app_length.
Qed.

Lemma rd_app_l b l i : i < len b → rd (b ++ l) i = rd b i.
Proof.
  unfold rd, len. intros Hi. destruct (Z.leb_spec 0 i); [|done].
  apply lookup_app_l. lia.
Qed.

Lemma rd_n_Some b off n :
  0 ≤ off → 0 ≤ n → off + n ≤ len b →
  rd_n b off n = Some (take (Z.to_nat n) (drop (Z.to_nat off) b)).
Proof.
  intros. unfold rd_n.
  by rewrite (proj2 (Z.leb_le _ _)), (proj2 (Z.leb_le 0 n)), (proj2 (Z.leb_le _ (len b))).
Qed.

Lemma rd_n_inv b off n l :
  rd_n b off n = Some l →
  0 ≤ off ∧ 0 ≤ n ∧ off + n ≤ len b ∧ l = take (Z.to_nat n) (drop (Z.to_nat off) b).
Proof.
  unfold rd_n. destruct (_ && _) eqn:E; [|done]. intros [= <-].
  rewrite !andb_true_iff, !Z.leb_le in E. destruct_and?. auto.
Qed.

Lemma rd_n_len b off n l : rd_n b off n = Some l → len l = n.
Proof. intros (?&?&?&->)%rd_n_inv. len_lia. Qed.

Lemma rd_n_bytes b off n l : bytes b → rd_n b off n = Some l → bytes l.
Proof. intros Hb (?&?&?&->)%rd_n_inv. by apply Forall_take, Forall_drop. Qed.

(** Reading a field out of a concatenation. *)
Lemma rd_n_app pre l post off n :
  len pre = off → len l = n → rd_n (pre ++ l ++ post) off n = Some l.
Proof.
  intros <- <-. unfold len. rewrite rd_n_Some by (unfold len; rewrite ?length_app; lia).
  by rewrite !Nat2Z.id, drop_app_length, take_app_length.
Qed.

Lemma rd_n_tail pre l off n :
  len pre = off → len l = n → rd_n (pre ++ l) off n = Some l.
Proof. intros. rewrite <-(app_nil_r l) at 1. by apply rd_n_app. Qed.

Lemma rd_n_full l n : len l = n → rd_n l 0 n = Some l.
Proof. intros. by apply (rd_n_tail []). Qed.

Lemma rd_n_head l post n : len l = n → rd_n (l ++ post) 0 n = Some l.
Proof. intros. by apply (rd_n_app []). Qed.

Lemma length_blit dst (off : nat) src :
  (off + length src ≤ length dst)%nat → length (blit dst off src) = length dst.
Proof. intros. unfold blit. rewrite !length_app, length_take, length_drop. lia. Qed.

Lemma blit_bytes dst (off : nat) src : bytes dst → bytes src → bytes (blit dst off src).
Proof. intros. unfold blit. rewrite !Forall_app. auto using Forall_take, Forall_drop. Qed.

Lemma blit_app a b (off : nat) src :
  (off + length src ≤ length a)%nat → blit (a ++ b) off src = blit a off src ++ b.
Proof.
  intros. unfold blit. rewrite take_app_le, drop_app_le by lia. by rewrite <-!app_assoc.
Qed.

(** Overwriting the front of a buffer. *)
Lemma blit_0 a b src : length src = length a → blit (a ++ b) 0 src = src ++ b.
Proof. intros E. unfold blit. by rewrite take_0, Nat.add_0_l, E, drop_app_length. Qed.

Lemma take_blit_0 dst src : take (length src) (blit dst 0 src) = src.
Proof. unfold blit. by rewrite take_0, app_nil_l, take_app_length. Qed.

Lemma wr_n_Some dst off src :
  0 ≤ off → off + len src ≤ len dst →
  wr_n dst off src = Some (blit dst (Z.to_nat off) src).
Proof.
  intros. unfold wr_n. by rewrite (proj2 (Z.leb_le _ _)), (proj2 (Z.leb_le _ (len dst))).
Qed.

Lemma wr_n_inv dst off src b :
  wr_n dst off src = Some b →
  0 ≤ off ∧ off + len src ≤ len dst ∧ b = blit dst (Z.to_nat off) src.
Proof.
  unfold wr_n. destruct (_ && _) eqn:E; [|done]. intros [= <-].
  rewrite !andb_true_iff, !Z.leb_le in E. destruct_and?. auto.
Qed.

Lemma wr_n_len dst off src b : wr_n dst off src = Some b → len b = len dst.
Proof.
  intros (?&?&->)%wr_n_inv. unfold len in *. rewrite length_blit; lia.
Qed.

Lemma wr_n_bytes dst off src b :
  bytes dst → bytes src → wr_n dst off src = Some b → bytes b.
Proof. intros ?? (?&?&->)%wr_n_inv. by apply blit_bytes. Qed.

Lemma emit_Some cap b src : len b + len src ≤ cap → emit cap b src = Some (b ++ src).
Proof.
  intros Hc. unfold emit, store. pose proof (len_nonneg b). pose proof (len_nonneg src).
  rewrite (proj2 (Z.leb_le _ _)), (proj2 (Z.leb_le _ (len b))), (proj2 (Z.leb_le _ cap)) by lia.
  simpl. rewrite to_nat_len, firstn_all, (drop_ge b), app_nil_r; [done|].
  unfold len in *. lia.
Qed.

(** *** C strings *)
Lemma c_str_bytes b : bytes b → bytes (c_str b).
Proof. induction 1; simpl; [done|]. case_match; [done|]. by constructor. Qed.

Lemma c_str_nonzero b : Forall (λ x, x ≠ 0) (c_str b).
Proof.
  induction b as [|x b IH]; simpl; [done|].
  destruct (Z.eqb_spec x 0); [done|]. by constructor.
Qed.

Lemma c_str_id b : Forall (λ x, x ≠ 0) b → c_str b = b.
Proof.
  induction 1 as [|x b Hx Hb IH]; simpl; [done|].
  destruct (Z.eqb_spec x 0); [done|]. by rewrite IH.
Qed.

Lemma c_str_app_0 b l : Forall (λ x, x ≠ 0) b → c_str (b ++ 0 :: l) = b.
Proof.
  induction 1 as [|x b Hx Hb IH]; simpl; [done|].
  destruct (Z.eqb_spec x 0); [done|]. by rewrite IH.
Qed.

(** A buffer holding a NUL below index [k] has a string shorter than [k]. *)
Lemma c_str_lt b k : b !! k = Some 0 → (length (c_str b) ≤ k)%nat.
Proof.
  revert k. induction b as [|x b IH]; intros k; simpl; [lia|].
  destruct (Z.eqb_spec x 0); simpl; [lia|].
  destruct k as [|k]; simpl; [congruence|]. intros Hk. apply IH in Hk. lia.
Qed.

Lemma c_str_prefix b : ∃ l, b = c_str b ++ l.
Proof.
  induction b as [|x b [l IH]]; simpl; [by exists []|].
  destruct (x =? 0); [by eexists|]. exists l. simpl. by rewrite <-IH.
Qed.

Lemma len_strncpy dst src (n : nat) :
  (n ≤ length dst)%nat → length (strncpy dst src n) = length dst.
Proof.
  intros. unfold strncpy.
  rewrite length_app, length_take, length_app, length_replicate, length_drop. lia.
Qed.

Lemma strncpy_bytes dst src (n : nat) :
  bytes dst → bytes src → bytes (strncpy dst src n).
Proof.
  intros. unfold strncpy. rewrite Forall_app. split; [|by apply Forall_drop].
  apply Forall_take, Forall_app. split; [by apply c_str_bytes|].
  apply Forall_replicate. by apply is_u_0.
Qed.

(** What [strncpy] leaves after position [n] is what was there. *)
Lemma strncpy_last dst src (n : nat) :
  (n < length dst)%nat → strncpy dst src n !! n = dst !! n.
Proof.
  intros. unfold strncpy. rewrite lookup_app_r.
  - rewrite length_take, length_app, length_replicate.
    rewrite lookup_drop. f_equal. lia.
  - rewrite length_take, length_app, length_replicate. lia.
Qed.

Lemma c_str_replicate_0 (n : nat) l : (0 < n)%nat → c_str (replicate n 0 ++ l) = [].
Proof. destruct n; [lia|done]. Qed.

Lemma c_str_app_r a l : Forall (λ x, x ≠ 0) a → c_str (a ++ l) = a ++ c_str l.
Proof.
  induction 1 as [|x a Hx Ha IH]; simpl; [done|].
  destruct (Z.eqb_spec x 0); [done|]. by rewrite IH.
Qed.

(** [strncpy] into a buffer whose byte [n] is NUL stores the string cut at [n]. *)
Lemma c_str_strncpy dst src (n : nat) :
  dst !! n = Some 0 → c_str (strncpy dst src n) = take n (c_str src).
Proof.
  intros Hn. unfold strncpy.
  pose proof (c_str_nonzero src) as Hnz. revert Hnz. generalize (c_str src). intros s Hnz.
  rewrite take_app, take_replicate, <-app_assoc.
  rewrite c_str_app_r by (by apply Forall_take).
  rewrite <-(app_nil_r (take n s)) at 2. f_equal.
  destruct (decide (length s < n)%nat) as [Hs|Hs].
  - apply c_str_replicate_0. lia.
  - replace ((n - length s) `min` n)%nat with 0%nat by lia. simpl.
    by rewrite (drop_S _ 0 n).
Qed.

Lemma rd_n_c_str b : rd_n b 0 (strlen b) = Some (c_str b).
Proof.
  destruct (c_str_prefix b) as [l Hl]. rewrite Hl at 1. by apply rd_n_head.
Qed.
End buffers.

(** A C [char] array of size [n] whose last byte is NUL. *)
Definition is_cbuf (n : nat) (b : list Z) : Prop :=
  length b = n ∧ bytes b ∧ b !! (n - 1)%nat = Some 0.

Lemma is_cbuf_strlen n b : is_cbuf n b → 0 ≤ strlen b < Z.of_nat n.
Proof.
  intros (Hl & _ & H0). unfold strlen, len. pose proof (c_str_lt b _ H0).
  destruct n; [|lia]. destruct b; simpl in *; congruence || lia.
Qed.

Lemma is_cbuf_strncpy n b src :
  is_cbuf n b → bytes src → is_cbuf n (strncpy b src (n - 1)).
Proof.
  intros (Hl & Hb & H0) Hs.
  assert (n - 1 < length b)%nat by (apply lookup_lt_is_Some; by exists 0).
  split_and!.
  - rewrite len_strncpy; lia.
  - by apply strncpy_bytes.
  - by rewrite strncpy_last.
Qed.

(** ** Record update

    [r <| f := v |>] is C's [r.f = v].  The update function of a field is found from the
    record's eta expansion, which each record declares once. *)
Class Eta (R : Type) := eta : R → R.
Class Setter {R T : Type} (f : R → T) := set_field : (T → T) → R → R.
Arguments set_field {R T} f {_} _ _ : simpl never.

Ltac build_setter :=
  lazymatch goal with
  | |- @Setter ?R ?T ?f =>
      exact (λ (g : T → T) (r : R),
        ltac:(let e := eval hnf in (@eta R _ r) in
              let p := eval pattern (f r) in e in
              lazymatch p with ?F _ => let b := eval cbv beta in (F (g (f r))) in exact b end))
  end.
#[export] Hint Extern 0 (Setter _) => build_setter : typeclass_instances.

Declare Scope record_scope.
Notation "r <| f := v |>" := (set_field f (λ _, v) r)
  (at level 1, f at next level, left associativity, format "r  <| f  :=  v |>") : record_scope.
#[global] Open Scope record_scope.
