(* ===== verification/Libc.v ===== *)
(** The C library functions the program parses text with: inet_pton (AF_INET), strtoul in
    base 10, snprintf with "%s", strchr; and the printing of addresses.  They follow POSIX;
    [unsigned long] has 64 bits. *)
From stdpp Require Import pretty.
From S2P Require Import Prelude.

(** [snprintf(dst, n, "%s", src)]: the string cut at [n - 1] bytes and a NUL. *)
Definition snprintf_s (dst : list Z) (n : nat) (src : list Z) : list Z :=
  blit dst 0 (take (n - 1) (c_str src) ++ [0]).

(** ** Characters *)
Definition is_digit (x : Z) : bool := (48 <=? x) && (x <=? 57).
Definition is_space (x : Z) : bool := (x =? 32) || ((9 <=? x) && (x <=? 13)).
Definition DOT : Z := 46.
Definition COMMA : Z := 44.

(** The string before the first [ch] and what follows it, if it occurs. *)
Fixpoint split_at (ch : Z) (s : list Z) : list Z * option (list Z) :=
  match s with
  | [] => ([], None)
  | x :: s' =>
      if x =? ch then ([], Some s')
      else let '(a, r) := split_at ch s' in (x :: a, r)
  end.

(** The value of a digit string. *)
Definition digits_value (s : list Z) : Z := foldl (λ acc x, acc * 10 + (x - 48)) 0 s.

(** ** inet_pton(AF_INET)

    Four decimal numbers of one to three digits up to 255, without leading zeros. *)
Definition octet (s : list Z) : option Z :=
  match s with
  | [] => None
  | x :: rest =>
      if forallb is_digit s && (length s <=? 3)%nat &&
         (negb (x =? 48) || (length rest =? 0)%nat) && (digits_value s <=? 255)
      then Some (digits_value s) else None
  end.

Fixpoint octets (n : nat) (s : list Z) : option (list Z) :=
  match n with
  | O => None
  | S n' =>
      match split_at DOT s, n' with
      | (a, None), O => b ← octet a; Some [b]
      | (a, Some s'), S _ => b ← octet a; l ← octets n' s'; Some (b :: l)
      | _, _ => None
      end
  end.

(** [s_addr], in network byte order. *)
Definition inet_pton (s : list Z) : option Z :=
  l ← octets 4 (c_str s); Some (le_decode l).

(** ** strtoul(s, NULL, 10) *)
Definition ULONG_MAX : Z := 2 ^ 64 - 1.
Fixpoint skip_space (s : list Z) : list Z :=
  match s with x :: s' => if is_space x then skip_space s' else s | [] => [] end.
Fixpoint take_digits (s : list Z) : list Z :=
  match s with x :: s' => if is_digit x then x :: take_digits s' else [] | [] => [] end.
Definition strtoul (s : list Z) : Z :=
  let s := skip_space (c_str s) in
  let '(neg, s) := match s with
                   | x :: s' => if x =? 43 then (false, s') else if x =? 45 then (true, s') else (false, s)
                   | [] => (false, []) end in
  let v := digits_value (take_digits s) in
  if ULONG_MAX <? v then ULONG_MAX else if neg : bool then u64 (- v) else v.

(** ** Printing: ["%u"] and ["%d"] of a nonnegative number; ["%u.%u.%u.%u"] of an address. *)
Definition dec (z : Z) : list Z := lit (pretty z).
Definition ip_string (ip : Z) : list Z :=
  dec (Z.land (Z.shiftr ip 24) 0xff) ++ lit "." ++ dec (Z.land (Z.shiftr ip 16) 0xff) ++ lit "." ++
  dec (Z.land (Z.shiftr ip 8) 0xff) ++ lit "." ++ dec (Z.land ip 0xff).

(** * Properties *)

Lemma is_cbuf_snprintf n b src :
  is_cbuf n b → bytes src → (0 < n)%nat → is_cbuf n (snprintf_s b n src).
Proof.
  intros (Hl & Hb & H0) Hs Hn. unfold snprintf_s. set (s := take _ (c_str src)).
  assert (length s ≤ n - 1)%nat as Hsl by (unfold s; rewrite length_take; lia).
  assert (bytes s) as Hsb by (by apply Forall_take, c_str_bytes).
  split_and!.
  - rewrite length_blit; [done|]. rewrite length_app. simpl. lia.
  - apply blit_bytes; [done|]. apply Forall_app. split; [done|]. by apply byte_list_ok.
  - unfold blit. rewrite take_0, app_nil_l, <-app_assoc, length_app.
    rewrite lookup_app_r by done. destruct (decide (length s = (n - 1)%nat)) as [Heq|Hne].
    + by rewrite Heq, Nat.sub_diag.
    + rewrite lookup_app_r by (simpl; lia). rewrite lookup_drop, <-H0. f_equal. simpl. lia.
Qed.

Lemma c_str_snprintf_nonempty n dst src :
  (1 < n)%nat → c_str src ≠ [] → c_str (snprintf_s dst n src) ≠ [].
Proof.
  intros Hn Hs. unfold snprintf_s, blit. rewrite take_0, app_nil_l, <-app_assoc.
  pose proof (c_str_nonzero src) as Hnz.
  destruct (c_str src) as [|x s]; [done|]. destruct n as [|[|n]]; [lia..|].
  cbn [Nat.sub take app]. apply Forall_cons in Hnz as [Hx _]. cbn [c_str].
  by rewrite (proj2 (Z.eqb_neq _ _) Hx).
Qed.

(** Every byte prints as an octet and without a dot. *)
Lemma octet_dec x : is_byte x → octet (dec x) = Some x ∧ Forall (λ y, y ≠ DOT ∧ y ≠ 0) (dec x).
Proof.
  intros Hx.
  pose proof (byte_forall (λ x, match octet (dec x) with Some y => y =? x | None => false end &&
    forallb (λ y, negb (y =? DOT) && negb (y =? 0)) (dec x)) ltac:(vm_compute; reflexivity) x Hx) as H.
  cbv beta in H. rewrite andb_true_iff, forallb_forall in H.
  destruct H as [H1 H2]. split; [destruct (octet (dec x)); [|done]; apply Z.eqb_eq in H1; by subst|]. apply Forall_forall. intros y Hy.
  apply list_elem_of_In, H2 in Hy. rewrite andb_true_iff, !negb_true_iff, !Z.eqb_neq in Hy. done.
Qed.

Lemma split_at_app ch a s :
  Forall (λ y, y ≠ ch ∧ y ≠ 0) a → split_at ch (a ++ ch :: s) = (a, Some s).
Proof.
  induction 1 as [|x a [Hx _] _ IH]; simpl; [by rewrite Z.eqb_refl|].
  by rewrite (proj2 (Z.eqb_neq _ _) Hx), IH.
Qed.
Lemma split_at_none ch a : Forall (λ y, y ≠ ch ∧ y ≠ 0) a → split_at ch a = (a, None).
Proof.
  induction 1 as [|x a [Hx _] _ IH]; simpl; [done|]. by rewrite (proj2 (Z.eqb_neq _ _) Hx), IH.
Qed.

(** Parsing an address that was printed gives it back, in network byte order. *)
Lemma inet_pton_ip_string ip : is_u32 ip → inet_pton (ip_string ip) = Some (htonl ip).
Proof.
  intros Hip. unfold inet_pton, ip_string, htonl. rewrite !land_0xff.
  set (a := u8 (Z.shiftr ip 24)). set (b := u8 (Z.shiftr ip 16)).
  set (c := u8 (Z.shiftr ip 8)). set (d := u8 ip).
  destruct (octet_dec a (u8_is _)) as [Ha Fa]. destruct (octet_dec b (u8_is _)) as [Hb Fb].
  destruct (octet_dec c (u8_is _)) as [Hc Fc]. destruct (octet_dec d (u8_is _)) as [Hd Fd].
  change (lit ".") with [DOT]. cbn [app].
  assert (∀ x, Forall (λ y, y ≠ DOT ∧ y ≠ 0) x → Forall (λ y, y ≠ 0) x) as Hnz.
  { intros x Hx. eapply Forall_impl; [exact Hx|]. by intros y [_ ?]. }
  rewrite c_str_id.
  2:{ repeat (apply Forall_app; split; [by apply Hnz|]; try (constructor; [done|])). by apply Hnz. }
  cbn [octets]. rewrite split_at_app, Ha by done. cbn [mbind option_bind].
  rewrite split_at_app, Hb by done. cbn [mbind option_bind].
  rewrite split_at_app, Hc by done. cbn [mbind option_bind].
  rewrite split_at_none, Hd by done. cbn [mbind option_bind].
  unfold be_encode. rewrite le_encode_map. done.
Qed.

Lemma digits_value_nonneg l acc :
  forallb is_digit l = true → 0 ≤ acc → 0 ≤ foldl (λ acc x, acc * 10 + (x - 48)) acc l.
Proof.
  revert acc. induction l as [|y l IH]; intros acc Hd Hacc; simpl in *; [done|].
  rewrite andb_true_iff in Hd. destruct Hd as [Hy Hl]. apply IH; [done|].
  unfold is_digit in Hy. rewrite andb_true_iff, !Z.leb_le in Hy. lia.
Qed.

Lemma octet_byte l b : octet l = Some b → is_byte b.
Proof.
  unfold octet. destruct l as [|x rest]; [done|].
  destruct (_ && _) eqn:E; [|done]. intros [= <-].
  rewrite !andb_true_iff, Z.leb_le in E. destruct E as [[[Hd _] _] Hle].
  unfold is_u. split; [by apply digits_value_nonneg|change (2 ^ 8) with 256; lia].
Qed.

Lemma octets_ok n s l : octets n s = Some l → bytes l ∧ length l = n.
Proof.
  revert s l. induction n as [|n IH]; intros s' l; cbn [octets]; [done|].
  destruct (split_at DOT s') as [a' [s''|]], n as [|n]; try done.
  - destruct (octet a') as [b|] eqn:Eb; [|done]. cbn [mbind option_bind].
    destruct (octets (S n) s'') as [l'|] eqn:El; [|done]. cbn [mbind option_bind].
    intros [= <-]. apply IH in El as [? <-]. split; [|done]. constructor; eauto using octet_byte.
  - destruct (octet a') as [b|] eqn:Eb; [|done]. cbn [mbind option_bind].
    intros [= <-]. split; [|done]. constructor; eauto using octet_byte.
Qed.

Lemma inet_pton_u32 s a : inet_pton s = Some a → is_u32 a.
Proof.
  unfold inet_pton. destruct (octets 4 (c_str s)) as [l|] eqn:E; [|done].
  cbn [mbind option_bind]. intros [= <-]. apply octets_ok in E as [Hb Hl].
  pose proof (le_decode_is_u l Hb) as Hu. unfold len in Hu. by rewrite Hl in Hu.
Qed.

Lemma strtoul_bound s : 0 ≤ strtoul s ≤ ULONG_MAX.
Proof.
  assert (∀ l acc, 0 ≤ acc → 0 ≤ foldl (λ acc x, acc * 10 + (x - 48)) acc (take_digits l)) as Hf.
  { induction l as [|y l IH]; intros acc Hacc; simpl; [done|].
    destruct (is_digit y) eqn:Hy; [|done]. simpl. apply IH.
    unfold is_digit in Hy. rewrite andb_true_iff, !Z.leb_le in Hy. lia. }
  unfold strtoul. destruct (match skip_space _ with [] => _ | _ => _ end) as [neg s'].
  pose proof (Hf s' 0 ltac:(done)) as H0. fold (digits_value (take_digits s')) in H0.
  destruct (Z.ltb_spec ULONG_MAX (digits_value (take_digits s'))); [unfold ULONG_MAX; lia|].
  destruct neg; [|lia]. pose proof (u64_is (- digits_value (take_digits s'))).
  unfold is_u, ULONG_MAX in *. lia.
Qed.

(** ** Numbers round trip *)

Definition add_digit (acc x : Z) : Z := acc * 10 + (x - 48).

Lemma lit_cons c s : lit (String c s) = Z.of_N (N_of_ascii c) :: lit s.
Proof. done. Qed.

(** One digit. *)
Lemma digit_char (d : N) : (d < 10)%N →
  Z.of_N (N_of_ascii (pretty_N_char d)) = 48 + Z.of_N d.
Proof.
  intros Hd. assert (∃ k : nat, d = N.of_nat k ∧ (k < 10)%nat) as (k & -> & Hk).
  { exists (N.to_nat d). lia. }
  do 10 (destruct k as [|k]; [done|]). lia.
Qed.

Lemma pretty_N_go_digits x s :
  foldl add_digit 0 (lit (pretty_N_go x s)) = foldl add_digit (Z.of_N x) (lit s) ∧
  (forallb is_digit (lit s) = true → forallb is_digit (lit (pretty_N_go x s)) = true) ∧
  (length (lit s) ≤ length (lit (pretty_N_go x s)))%nat ∧
  (x ≠ 0%N → lit (pretty_N_go x s) ≠ []).
Proof.
  revert s. induction (N.lt_wf_0 x) as [x _ IH]. intros s.
  destruct (decide (x = 0%N)) as [->|Hx]; [by rewrite pretty_N_go_0|].
  rewrite pretty_N_go_step by lia.
  destruct (IH (x / 10)%N ltac:(apply N.div_lt; lia) (String (pretty_N_char (x mod 10)) s))
    as (IH1 & IH2 & IH3 & _).
  pose proof (N.mod_lt x 10 ltac:(lia)) as Hm.
  rewrite lit_cons, digit_char in IH1, IH2, IH3 by done. split_and!.
  - rewrite IH1. cbn [foldl]. f_equal. unfold add_digit.
    rewrite N2Z.inj_mod, N2Z.inj_div by done. change (Z.of_N 10) with 10.
    pose proof (Z.div_mod (Z.of_N x) 10). lia.
  - intros Hs. apply IH2. cbn [forallb]. rewrite Hs, andb_true_r. unfold is_digit.
    rewrite andb_true_iff, !Z.leb_le. clear -Hm.
    revert Hm. generalize (x `mod` 10)%N. lia.
  - simpl in IH3. lia.
  - intros _ E. rewrite E in IH3. simpl in IH3. lia.
Qed.

Lemma dec_digits n :
  0 ≤ n → digits_value (dec n) = n ∧ forallb is_digit (dec n) = true ∧ dec n ≠ [].
Proof.
  intros Hn. destruct n as [|p|p]; [done| |lia].
  change (dec (Z.pos p)) with (lit (pretty_N_go (N.pos p) "")).
  destruct (pretty_N_go_digits (N.pos p) "") as (H1 & H2 & _ & H3). split_and!.
  - exact H1.
  - by apply H2.
  - by apply H3.
Qed.

Lemma take_digits_all s : forallb is_digit s = true → take_digits s = s.
Proof.
  induction s as [|x s IH]; simpl; [done|]. rewrite andb_true_iff. intros [-> Hs].
  by rewrite IH.
Qed.

(** Reading a number that was printed gives it back. *)
Lemma strtoul_dec n : 0 ≤ n ≤ ULONG_MAX → strtoul (dec n) = n.
Proof.
  intros [Hn Hmax]. destruct (dec_digits n Hn) as (Hv & Hd & Hne). unfold strtoul.
  rewrite c_str_id.
  2:{ rewrite forallb_forall in Hd. apply Forall_forall. intros y Hy%list_elem_of_In%Hd.
      unfold is_digit in Hy. rewrite andb_true_iff, !Z.leb_le in Hy. lia. }
  destruct (dec n) as [|x s] eqn:E; [done|].
  pose proof Hd as Hx. simpl in Hx. rewrite andb_true_iff in Hx. destruct Hx as [Hx _].
  unfold is_digit in Hx. rewrite andb_true_iff, !Z.leb_le in Hx.
  assert (is_space x = false) as Hsp.
  { unfold is_space. rewrite orb_false_iff, andb_false_iff, Z.eqb_neq, !Z.leb_gt. lia. }
  cbn [skip_space]. rewrite Hsp, (proj2 (Z.eqb_neq x 43)), (proj2 (Z.eqb_neq x 45)) by lia.
  rewrite take_digits_all, Hv by done. by rewrite (proj2 (Z.ltb_ge _ _)).
Qed.

Lemma pretty_N_go_length (k : nat) x s :
  (x < 10 ^ N.of_nat k)%N → (length (lit (pretty_N_go x s)) ≤ k + length (lit s))%nat.
Proof.
  revert x s. induction k as [|k IH]; intros x s Hx.
  - replace x with 0%N by (simpl in Hx; lia). rewrite pretty_N_go_0. lia.
  - destruct (decide (x = 0%N)) as [->|Hne]; [rewrite pretty_N_go_0; lia|].
    rewrite pretty_N_go_step by lia.
    rewrite Nat2N.inj_succ, N.pow_succ_r' in Hx.
    pose proof (IH (x / 10)%N (String (pretty_N_char (x mod 10)) s)
      ltac:(by apply N.Div0.div_lt_upper_bound)) as Hl.
    rewrite lit_cons in Hl. simpl in Hl. lia.
Qed.

Lemma dec_length n (k : nat) :
  (0 < k)%nat → 0 ≤ n < 10 ^ Z.of_nat k → (length (dec n) ≤ k)%nat.
Proof.
  intros Hk [Hn Hlt]. destruct n as [|p|p]; [simpl; lia| |lia].
  change (dec (Z.pos p)) with (lit (pretty_N_go (N.pos p) "")).
  pose proof (pretty_N_go_length k (N.pos p) "") as Hl. simpl in Hl.
  rewrite Nat.add_0_r in Hl. apply Hl. apply N2Z.inj_lt.
  rewrite N2Z.inj_pow, nat_N_Z. exact Hlt.
Qed.
