(* ===== verification/Md5.v ===== *)
(** MD5, as in [src/iwand.c] (md5_transform, md5_init, md5_update, md5_final, md5_hash),
    its RFC 1321 specification, and the refinement between the two: the streaming context
    represents the message absorbed so far. *)
From S2P Require Import Prelude.

(** ** The code *)

(** [uint32_t state[4]]. *)
Record md5_state := mk_st { st_a : Z; st_b : Z; st_c : Z; st_d : Z }.

Record md5_ctx := mk_ctx { ctx_state : md5_state; ctx_count : Z; ctx_buffer : list Z }.

(** [~x] on a [uint32_t]. *)
Definition not32 (x : Z) : Z := Z.lxor x (Z.ones 32).
Definition MD5_F (x y z : Z) : Z := Z.lor (Z.land x y) (Z.land (not32 x) z).
Definition MD5_G (x y z : Z) : Z := Z.lor (Z.land x z) (Z.land y (not32 z)).
Definition MD5_H (x y z : Z) : Z := Z.lxor (Z.lxor x y) z.
Definition MD5_I (x y z : Z) : Z := Z.lxor y (Z.lor x (not32 z)).
Definition MD5_ROT (x n : Z) : Z := Z.lor (u32 (Z.shiftl x n)) (Z.shiftr x (32 - n)).

(** The four step macros differ only in the round function: each assigns to its first
    argument [a = ROT (a + f(b,c,d) + x + ac, s) + b]. *)
Definition MD5_STEP (f : Z → Z → Z → Z) (a b c d x s ac : Z) : Z :=
  u32 (MD5_ROT (u32 (a + u32 (f b c d + x + u32 ac))) s + b).

(** The arguments [a, b, c, d] of a step macro are variables it reads and, for the first,
    assigns: a macro call is an instruction on the four local variables. *)
Inductive md5_var := A | B | C | D.
Record md5_insn := mk_insn {
  i_fun : Z → Z → Z → Z;
  i_a : md5_var; i_b : md5_var; i_c : md5_var; i_d : md5_var;
  i_x : nat; i_s : Z; i_ac : Z }.
Definition MD5_FF := mk_insn MD5_F.
Definition MD5_GG := mk_insn MD5_G.
Definition MD5_HH := mk_insn MD5_H.
Definition MD5_II := mk_insn MD5_I.

Definition get_var (v : md5_var) (s : md5_state) : Z :=
  match v with A => st_a s | B => st_b s | C => st_c s | D => st_d s end.
Definition set_var (v : md5_var) (z : Z) (s : md5_state) : md5_state :=
  let '(mk_st a b c d) := s in
  match v with A => mk_st z b c d | B => mk_st a z c d | C => mk_st a b z d | D => mk_st a b c z end.
Definition exec_insn (x : nat → Z) (s : md5_state) (i : md5_insn) : md5_state :=
  set_var (i_a i)
    (MD5_STEP (i_fun i) (get_var (i_a i) s) (get_var (i_b i) s) (get_var (i_c i) s)
       (get_var (i_d i) s) (x (i_x i)) (i_s i) (i_ac i)) s.

(** [x[i] = block[i*4] | block[i*4+1]<<8 | block[i*4+2]<<16 | block[i*4+3]<<24] *)
Definition md5_word (block : list Z) (i : nat) : Z :=
  let b k := nth k block 0 in
  Z.lor (Z.lor (Z.lor (b (i * 4)%nat) (Z.shiftl (b (i * 4 + 1)%nat) 8))
           (Z.shiftl (b (i * 4 + 2)%nat) 16)) (Z.shiftl (b (i * 4 + 3)%nat) 24).

(** The 64 macro calls, in the order of the source. *)
Definition md5_program : list md5_insn :=
  [MD5_FF A B C D 0 7 0xd76aa478; MD5_FF D A B C 1 12 0xe8c7b756;
   MD5_FF C D A B 2 17 0x242070db; MD5_FF B C D A 3 22 0xc1bdceee;
   MD5_FF A B C D 4 7 0xf57c0faf; MD5_FF D A B C 5 12 0x4787c62a;
   MD5_FF C D A B 6 17 0xa8304613; MD5_FF B C D A 7 22 0xfd469501;
   MD5_FF A B C D 8 7 0x698098d8; MD5_FF D A B C 9 12 0x8b44f7af;
   MD5_FF C D A B 10 17 0xffff5bb1; MD5_FF B C D A 11 22 0x895cd7be;
   MD5_FF A B C D 12 7 0x6b901122; MD5_FF D A B C 13 12 0xfd987193;
   MD5_FF C D A B 14 17 0xa679438e; MD5_FF B C D A 15 22 0x49b40821;
   MD5_GG A B C D 1 5 0xf61e2562; MD5_GG D A B C 6 9 0xc040b340;
   MD5_GG C D A B 11 14 0x265e5a51; MD5_GG B C D A 0 20 0xe9b6c7aa;
   MD5_GG A B C D 5 5 0xd62f105d; MD5_GG D A B C 10 9 0x02441453;
   MD5_GG C D A B 15 14 0xd8a1e681; MD5_GG B C D A 4 20 0xe7d3fbc8;
   MD5_GG A B C D 9 5 0x21e1cde6; MD5_GG D A B C 14 9 0xc33707d6;
   MD5_GG C D A B 3 14 0xf4d50d87; MD5_GG B C D A 8 20 0x455a14ed;
   MD5_GG A B C D 13 5 0xa9e3e905; MD5_GG D A B C 2 9 0xfcefa3f8;
   MD5_GG C D A B 7 14 0x676f02d9; MD5_GG B C D A 12 20 0x8d2a4c8a;
   MD5_HH A B C D 5 4 0xfffa3942; MD5_HH D A B C 8 11 0x8771f681;
   MD5_HH C D A B 11 16 0x6d9d6122; MD5_HH B C D A 14 23 0xfde5380c;
   MD5_HH A B C D 1 4 0xa4beea44; MD5_HH D A B C 4 11 0x4bdecfa9;
   MD5_HH C D A B 7 16 0xf6bb4b60; MD5_HH B C D A 10 23 0xbebfbc70;
   MD5_HH A B C D 13 4 0x289b7ec6; MD5_HH D A B C 0 11 0xeaa127fa;
   MD5_HH C D A B 3 16 0xd4ef3085; MD5_HH B C D A 6 23 0x04881d05;
   MD5_HH A B C D 9 4 0xd9d4d039; MD5_HH D A B C 12 11 0xe6db99e5;
   MD5_HH C D A B 15 16 0x1fa27cf8; MD5_HH B C D A 2 23 0xc4ac5665;
   MD5_II A B C D 0 6 0xf4292244; MD5_II D A B C 7 10 0x432aff97;
   MD5_II C D A B 14 15 0xab9423a7; MD5_II B C D A 5 21 0xfc93a039;
   MD5_II A B C D 12 6 0x655b59c3; MD5_II D A B C 3 10 0x8f0ccc92;
   MD5_II C D A B 10 15 0xffeff47d; MD5_II B C D A 1 21 0x85845dd1;
   MD5_II A B C D 8 6 0x6fa87e4f; MD5_II D A B C 15 10 0xfe2ce6e0;
   MD5_II C D A B 6 15 0xa3014314; MD5_II B C D A 13 21 0x4e0811a1;
   MD5_II A B C D 4 6 0xf7537e82; MD5_II D A B C 11 10 0xbd3af235;
   MD5_II C D A B 2 15 0x2ad7d2bb; MD5_II B C D A 9 21 0xeb86d391].

Definition md5_transform (state : md5_state) (block : list Z) : md5_state :=
  let r := foldl (exec_insn (md5_word block)) state md5_program in
  mk_st (u32 (st_a state + st_a r)) (u32 (st_b state + st_b r))
        (u32 (st_c state + st_c r)) (u32 (st_d state + st_d r)).

Definition md5_init (ctx : md5_ctx) : md5_ctx :=
  mk_ctx (mk_st 0x67452301 0xefcdab89 0x98badcfe 0x10325476) 0 (ctx_buffer ctx).

(** [for (i = part_len; i + 63 < len; i += 64) md5_transform(ctx->state, input + i);]
    with [i] a [uint32_t]; the result is the new state and the final [i]. *)
Fixpoint md5_blocks (fuel : nat) (st : md5_state) (input : list Z) (i len : Z)
  : md5_state * Z :=
  match fuel with
  | O => (st, i)
  | S fuel' =>
      if u32 (i + 63) <? len
      then md5_blocks fuel'
             (md5_transform st (take 64 (drop (Z.to_nat i) input))) input (u32 (i + 64)) len
      else (st, i)
  end.

Definition md5_update (ctx : md5_ctx) (input : list Z) : md5_ctx :=
  let n := len input in
  let idx := u32 (Z.land (ctx_count ctx) 0x3f) in
  let count := u64 (ctx_count ctx + n) in
  let part_len := u32 (64 - idx) in
  let '(st, buf, idx, i) :=
    if part_len <=? n then
      let buf := blit (ctx_buffer ctx) (Z.to_nat idx) (take (Z.to_nat part_len) input) in
      let st := md5_transform (ctx_state ctx) buf in
      let '(st, i) := md5_blocks (S (length input / 64)) st input part_len n in
      (st, buf, 0, i)
    else (ctx_state ctx, ctx_buffer ctx, idx, 0) in
  mk_ctx st count (blit buf (Z.to_nat idx) (drop (Z.to_nat i) input)).

(** [static const uint8_t padding[64] = { 0x80 };] *)
Definition padding : list Z := 0x80 :: replicate 63 0.

Definition md5_final (ctx : md5_ctx) : list Z :=
  let bit_count := u64 (Z.shiftl (ctx_count ctx) 3) in
  let bits := map (λ i, u8 (Z.shiftr bit_count (Z.of_nat i * 8))) (seq 0 8) in
  let idx := u32 (Z.land (ctx_count ctx) 0x3f) in
  let pad_len := if idx <? 56 then u32 (56 - idx) else u32 (120 - idx) in
  let ctx := md5_update ctx (take (Z.to_nat pad_len) padding) in
  let ctx := md5_update ctx bits in
  let out w := [u8 w; u8 (Z.shiftr w 8); u8 (Z.shiftr w 16); u8 (Z.shiftr w 24)] in
  out (st_a (ctx_state ctx)) ++ out (st_b (ctx_state ctx)) ++
  out (st_c (ctx_state ctx)) ++ out (st_d (ctx_state ctx)).

(** The local [md5_ctx_t ctx;]: its buffer is uninitialised, here any 64 bytes. *)
Definition md5_hash (uninit : list Z) (data : list Z) : list Z :=
  let ctx := md5_init (mk_ctx (mk_st 0 0 0 0) 0 uninit) in
  md5_final (md5_update ctx data).

(** ** The specification: RFC 1321 *)

(** Addition modulo 2^32 and rotation of a 32-bit word. *)
Definition rfc_rotl (x s : Z) : Z := (x * 2 ^ s) mod 2 ^ 32 + x / 2 ^ (32 - s).
Definition rfc_fun (i : nat) : Z → Z → Z → Z :=
  match (i / 16)%nat with 0%nat => MD5_F | 1%nat => MD5_G | 2%nat => MD5_H | _ => MD5_I end.
Definition rfc_index (i : nat) : nat :=
  match (i / 16)%nat with
  | 0%nat => i | 1%nat => (5 * i + 1) mod 16
  | 2%nat => (3 * i + 5) mod 16 | _ => (7 * i) mod 16
  end%nat.
Definition rfc_shift (i : nat) : Z :=
  nth (i mod 4)
    (nth (i / 16) [[7; 12; 17; 22]; [5; 9; 14; 20]; [4; 11; 16; 23]; [6; 10; 15; 21]] []) 0.
(** [T[i] = floor (2^32 * |sin (i + 1)|)]. *)
Definition rfc_T : list Z :=
  [0xd76aa478; 0xe8c7b756; 0x242070db; 0xc1bdceee; 0xf57c0faf; 0x4787c62a; 0xa8304613;
   0xfd469501; 0x698098d8; 0x8b44f7af; 0xffff5bb1; 0x895cd7be; 0x6b901122; 0xfd987193;
   0xa679438e; 0x49b40821; 0xf61e2562; 0xc040b340; 0x265e5a51; 0xe9b6c7aa; 0xd62f105d;
   0x02441453; 0xd8a1e681; 0xe7d3fbc8; 0x21e1cde6; 0xc33707d6; 0xf4d50d87; 0x455a14ed;
   0xa9e3e905; 0xfcefa3f8; 0x676f02d9; 0x8d2a4c8a; 0xfffa3942; 0x8771f681; 0x6d9d6122;
   0xfde5380c; 0xa4beea44; 0x4bdecfa9; 0xf6bb4b60; 0xbebfbc70; 0x289b7ec6; 0xeaa127fa;
   0xd4ef3085; 0x04881d05; 0xd9d4d039; 0xe6db99e5; 0x1fa27cf8; 0xc4ac5665; 0xf4292244;
   0x432aff97; 0xab9423a7; 0xfc93a039; 0x655b59c3; 0x8f0ccc92; 0xffeff47d; 0x85845dd1;
   0x6fa87e4f; 0xfe2ce6e0; 0xa3014314; 0x4e0811a1; 0xf7537e82; 0xbd3af235; 0x2ad7d2bb;
   0xeb86d391].

(** One of the 64 operations, [a = b + ((a + f(b,c,d) + X[k] + T[i]) <<< s)], followed by
    the renaming of the registers. *)
Definition rfc_round (X : nat → Z) (s : md5_state) (i : nat) : md5_state :=
  let '(mk_st a b c d) := s in
  let t := (a + rfc_fun i b c d + X (rfc_index i) + nth i rfc_T 0) mod 2 ^ 32 in
  mk_st d ((rfc_rotl t (rfc_shift i) + b) mod 2 ^ 32) b c.

Definition rfc_transform (s : md5_state) (block : list Z) : md5_state :=
  let X k := le_decode (take 4 (drop (4 * k) block)) in
  let r := foldl (rfc_round X) s (seq 0 64) in
  mk_st ((st_a s + st_a r) mod 2 ^ 32) ((st_b s + st_b r) mod 2 ^ 32)
        ((st_c s + st_c r) mod 2 ^ 32) ((st_d s + st_d r) mod 2 ^ 32).

(** Padding: a 1 bit, zeros up to 56 modulo 64, the length in bits modulo 2^64. *)
Definition md5_pad (msg : list Z) : list Z :=
  msg ++ 0x80 :: replicate (Z.to_nat ((55 - len msg) mod 64)) 0 ++ le_encode 8 (8 * len msg).

Fixpoint rfc_blocks (n : nat) (s : md5_state) (l : list Z) : md5_state :=
  match n with O => s | S n' => rfc_blocks n' (rfc_transform s (take 64 l)) (drop 64 l) end.

Definition rfc_init : md5_state := mk_st 0x67452301 0xefcdab89 0x98badcfe 0x10325476.
Definition rfc_output (s : md5_state) : list Z :=
  le_encode 4 (st_a s) ++ le_encode 4 (st_b s) ++ le_encode 4 (st_c s) ++ le_encode 4 (st_d s).
Definition md5_spec (msg : list Z) : list Z :=
  let p := md5_pad msg in rfc_output (rfc_blocks (length p / 64) rfc_init p).

(** ** The unrolled transform is the RFC's loop *)

Lemma MD5_ROT_rotl x s : 0 < s < 32 → is_u32 x → MD5_ROT x s = rfc_rotl x s.
Proof.
  intros Hs Hx. unfold MD5_ROT, rfc_rotl, u32.
  rewrite Z.shiftl_mul_pow2, Z.shiftr_div_pow2 by lia.
  apply (lor_add _ _ s); [lia| |].
  - replace (2 ^ 32) with (2 ^ s * 2 ^ (32 - s)) by (rewrite <-Z.pow_add_r by lia; f_equal; lia).
    rewrite (Z.mul_comm x), Z.mul_mod_distr_l by lia.
    rewrite Z.mul_comm. apply Z.mod_mul. lia.
  - split; [apply Z.div_pos; unfold is_u in Hx; lia|].
    apply Z.div_lt_upper_bound; [lia|].
    rewrite <-Z.pow_add_r by lia. replace (32 - s + s) with 32 by lia. apply Hx.
Qed.

Lemma MD5_STEP_rfc f a b c d x s ac :
  0 < s < 32 →
  MD5_STEP f a b c d x s ac =
  (rfc_rotl ((a + f b c d + x + ac) mod 2 ^ 32) s + b) mod 2 ^ 32.
Proof.
  intros Hs. unfold MD5_STEP. rewrite MD5_ROT_rotl by eauto with c_ints.
  unfold u32. do 2 f_equal.
  by rewrite Zplus_mod_idemp_r, !Z.add_assoc, Zplus_mod_idemp_r.
Qed.

(** The word of a block, as bytes. *)
Lemma md5_word_le block k :
  bytes block → (4 * k + 4 ≤ length block)%nat →
  md5_word block k = le_decode (take 4 (drop (4 * k) block)).
Proof.
  intros Hb Hk. unfold md5_word.
  rewrite (Nat.mul_comm k 4).
  assert (∃ x y z w l, drop (4 * k) block = x :: y :: z :: w :: l) as (x&y&z&w&l&Hd).
  { pose proof (length_drop block (4 * k)). destruct (drop (4 * k) block) as [|x [|y [|z [|w l]]]];
      simpl in *; try lia. by eexists _, _, _, _, _. }
  assert (∀ i v, (x :: y :: z :: w :: l) !! i = Some v → nth (4 * k + i) block 0 = v) as Hn.
  { intros i v. rewrite <-Hd, lookup_drop. intros Hi. by apply nth_lookup_Some. }
  rewrite <-(Nat.add_0_r (4 * k)), (Hn 0%nat x), Nat.add_0_r by done.
  rewrite (Hn 1%nat y), (Hn 2%nat z), (Hn 3%nat w), Hd by done.
  assert (bytes (x :: y :: z :: w :: l)) as Hx by (rewrite <-Hd; by apply Forall_drop).
  rewrite !Forall_cons in Hx. destruct Hx as (Hx&Hy&Hz&Hw&_). by rewrite le4_value.
Qed.

(** One round of the loop, in the vocabulary of the code: a step macro on the registers,
    which are then renamed. *)
Definition round_word (x : nat → Z) (s : md5_state) (i : nat) : md5_state :=
  let '(mk_st a b c d) := s in
  mk_st d (MD5_STEP (rfc_fun i) a b c d (x (rfc_index i)) (rfc_shift i) (nth i rfc_T 0)) b c.

Lemma rfc_shift_range i : (i < 64)%nat → 0 < rfc_shift i < 32.
Proof.
  intros Hi. pose proof (forallb_seq_spec (λ i, (0 <? rfc_shift i) && (rfc_shift i <? 32)) 64
    eq_refl i Hi) as H. simpl in H. lia.
Qed.

Lemma rfc_index_range i : (i < 64)%nat → (rfc_index i < 16)%nat.
Proof.
  intros Hi.
  pose proof (forallb_seq_spec (λ i, (rfc_index i <? 16)%nat) 64 eq_refl i Hi) as H.
  by apply Nat.ltb_lt in H.
Qed.

Lemma round_word_rfc block s i :
  bytes block → length block = 64%nat → (i < 64)%nat →
  round_word (md5_word block) s i =
  rfc_round (λ k, le_decode (take 4 (drop (4 * k) block))) s i.
Proof.
  intros Hb Hl Hi. destruct s as [a b c d]. unfold round_word, rfc_round.
  rewrite MD5_STEP_rfc by (by apply rfc_shift_range).
  rewrite md5_word_le; [done|done|].
  pose proof (rfc_index_range i Hi). lia.
Qed.

(** The code permutes the variables instead of renaming the registers: before macro call
    [i] the RFC's registers are the variables rotated [i mod 4] times. *)
Definition rot_regs (i : nat) (s : md5_state) : md5_state :=
  let '(mk_st a b c d) := s in
  match (i mod 4)%nat with
  | 0%nat => mk_st a b c d | 1%nat => mk_st d a b c | 2%nat => mk_st c d a b | _ => mk_st b c d a
  end.

Lemma exec_insn_round x s i insn :
  md5_program !! i = Some insn →
  rot_regs (S i) (exec_insn x s insn) = round_word x (rot_regs i s) i.
Proof.
  intros Hi. pose proof (lookup_lt_Some _ _ _ Hi) as Hlt. simpl in Hlt. destruct s as [a b c d].
  do 64 (destruct i as [|i]; [injection Hi as <-; reflexivity|]). lia.
Qed.

Lemma exec_loop x s n l k :
  md5_program = k ++ l → length k = n →
  rot_regs 64 (foldl (exec_insn x) s l) = foldl (round_word x) (rot_regs n s) (seq n (length l)).
Proof.
  revert s n k. induction l as [|i l IH]; intros s n k Hk Hn; simpl.
  - replace n with 64%nat; [done|]. rewrite <-Hn, <-(app_nil_r k), <-Hk. done.
  - rewrite (IH _ (S n) (k ++ [i])), (exec_insn_round x s n i).
    + done.
    + rewrite Hk. by rewrite <-Hn, list_lookup_middle.
    + by rewrite <-app_assoc.
    + rewrite length_app. simpl. lia.
Qed.

Lemma foldl_ext_in {A B} (f g : A → B → A) l a :
  (∀ x b, b ∈ l → f x b = g x b) → foldl f a l = foldl g a l.
Proof.
  revert a. induction l as [|b l IH]; intros a H; simpl; [done|].
  rewrite H by set_solver. apply IH. set_solver.
Qed.

Lemma md5_transform_rfc s block :
  bytes block → length block = 64%nat → md5_transform s block = rfc_transform s block.
Proof.
  intros Hb Hl. unfold md5_transform, rfc_transform.
  pose proof (exec_loop (md5_word block) s 0 md5_program [] eq_refl eq_refl) as H.
  replace (rot_regs 0 s) with s in H by (by destruct s).
  rewrite <-(foldl_ext_in (round_word (md5_word block)) _ (seq 0 64)).
  - change (length md5_program) with 64%nat in H. rewrite <-H.
    by destruct (foldl (exec_insn _) s md5_program).
  - intros r i Hi%elem_of_seq. apply round_word_rfc; [done|done|lia].
Qed.

(** ** Streaming *)

Lemma rfc_blocks_app n m s p q :
  length p = (64 * n)%nat → rfc_blocks (n + m) s (p ++ q) = rfc_blocks m (rfc_blocks n s p) q.
Proof.
  revert s p. induction n as [|n IH]; intros s p Hp; simpl.
  - destruct p; [done|simpl in Hp; lia].
  - assert (64 ≤ length p)%nat by lia.
    rewrite take_app_le, drop_app_le by lia. apply IH. rewrite length_drop. lia.
Qed.

Lemma rfc_blocks_take n s l :
  (64 * n ≤ length l)%nat → rfc_blocks n s (take (64 * n) l) = rfc_blocks n s l.
Proof.
  intros Hl. rewrite <-(take_drop (64 * n) l) at 2. rewrite <-(Nat.add_0_r n) at 3.
  by rewrite rfc_blocks_app by (rewrite length_take; lia).
Qed.

(** The context [ctx] has absorbed the message [msg]: its state is the RFC's state after
    the complete blocks, its buffer starts with the incomplete one. *)
Definition md5_repr (ctx : md5_ctx) (msg : list Z) : Prop :=
  ∃ n full tail,
    msg = full ++ tail ∧ length full = (64 * n)%nat ∧ (length tail < 64)%nat ∧
    ctx_state ctx = rfc_blocks n rfc_init full ∧
    ctx_count ctx = u64 (len msg) ∧
    length (ctx_buffer ctx) = 64%nat ∧ take (length tail) (ctx_buffer ctx) = tail.

Lemma u64_land_63 z : Z.land (u64 z) 63 = z mod 64.
Proof.
  change 63 with (Z.ones 6). rewrite Z.land_ones by done. unfold u64.
  change (2 ^ 64) with (2 ^ 6 * 2 ^ 58). rewrite Z.rem_mul_r by done.
  by rewrite (Z.mul_comm (2 ^ 6)), Z.mod_add, Z.mod_mod by done.
Qed.

Lemma md5_repr_idx ctx n (full tail : list Z) :
  length full = (64 * n)%nat → (length tail < 64)%nat →
  ctx_count ctx = u64 (len (full ++ tail)) →
  u32 (Z.land (ctx_count ctx) 0x3f) = len tail.
Proof.
  intros Hf Ht ->. rewrite u64_land_63, len_app. unfold len in *. rewrite Hf.
  replace (Z.of_nat (64 * n) + Z.of_nat (length tail))
    with (Z.of_nat (length tail) + Z.of_nat n * 64) by lia.
  rewrite Z.mod_add, Z.mod_small by lia. apply u32_id. unfold is_u. lia.
Qed.

(** The block loop of [md5_update]: it terminates within its fuel, having processed every
    complete block from offset [i]. *)
Lemma md5_blocks_spec (m fuel : nat) st input (i rest : nat) :
  bytes input → len input + 64 < 2 ^ 32 →
  (m < fuel)%nat → length input = (i + 64 * m + rest)%nat → (rest < 64)%nat →
  md5_blocks fuel st input (Z.of_nat i) (len input) =
  (rfc_blocks m st (drop i input), Z.of_nat (i + 64 * m)).
Proof.
  intros Hb Hlen. revert st i fuel. induction m as [|m IH]; intros st i fuel Hm Hi Hr;
    (destruct fuel as [|fuel]; [lia|]); unfold len in *; simpl md5_blocks.
  - rewrite u32_id by (unfold is_u; lia).
    rewrite (proj2 (Z.ltb_ge _ _)) by lia. simpl. do 2 f_equal. lia.
  - rewrite !u32_id by (unfold is_u; lia).
    rewrite (proj2 (Z.ltb_lt _ _)) by lia.
    replace (Z.of_nat i + 64) with (Z.of_nat (i + 64)) by lia.
    rewrite IH by lia. simpl rfc_blocks. rewrite drop_drop, Nat2Z.id.
    rewrite md5_transform_rfc.
    + do 2 f_equal; lia.
    + by apply Forall_take, Forall_drop.
    + rewrite length_take, length_drop. lia.
Qed.

Lemma blit_prefix (buf tail src : list Z) :
  (length tail + length src ≤ length buf)%nat → take (length tail) buf = tail →
  take (length tail + length src) (blit buf (length tail) src) = tail ++ src.
Proof.
  intros Hl Ht. unfold blit. rewrite Ht, app_assoc.
  rewrite <-length_app. apply take_app_length.
Qed.

(** [md5_update] is appending, on the represented message. *)
(** An update, from a context that represents [full ++ tail]: an input that fills the buffer
    completes blocks, a shorter one is only stored. *)
Section update.
Variables (ctx : md5_ctx) (n : nat) (full tail input : list Z).
Hypotheses (Hfull : length full = (64 * n)%nat) (Htail : (length tail < 64)%nat)
  (Hst : ctx_state ctx = rfc_blocks n rfc_init full) (Hcnt : ctx_count ctx = u64 (len (full ++ tail)))
  (Hbuf : length (ctx_buffer ctx) = 64%nat) (Htk : take (length tail) (ctx_buffer ctx) = tail)
  (Hmb : bytes (full ++ tail)) (Hib : bytes input) (Hlen : len input + 64 < 2 ^ 32).

Lemma md5_update_count : u64 (ctx_count ctx + len input) = u64 (len ((full ++ tail) ++ input)).
Proof. rewrite Hcnt. unfold u64. by rewrite Zplus_mod_idemp_l, (len_app (full ++ tail)). Qed.

Lemma md5_update_full :
  64 - len tail ≤ len input → md5_repr (md5_update ctx input) ((full ++ tail) ++ input).
Proof.
  intros Hle. pose proof (md5_repr_idx ctx n full tail Hfull Htail Hcnt) as Hidx.
  pose proof md5_update_count as Hc'. unfold md5_update. rewrite Hidx.
  rewrite (u32_id (64 - len tail)), (proj2 (Z.leb_le _ _) Hle) by (unfold is_u, len; lia).
  set (pl := (64 - length tail)%nat).
  assert (Z.to_nat (64 - len tail) = pl) as Hpl by (unfold len; lia).
  assert (64 - len tail = Z.of_nat pl) as Hpl' by (unfold len; lia).
  rewrite Hpl, Hpl', to_nat_len.
  assert (pl ≤ length input)%nat as Hple by (unfold len in Hle; lia).
  set (m := ((length input - pl) / 64)%nat). set (rest := ((length input - pl) mod 64)%nat).
  assert (length input - pl = 64 * m + rest)%nat as Hmr by (apply Nat.div_mod_eq).
  assert (rest < 64)%nat as Hrest by (apply Nat.mod_upper_bound; lia).
  set (blk := blit (ctx_buffer ctx) (length tail) (take pl input)).
  assert (length (take pl input) = pl) as Hltk by (rewrite length_take; lia).
  assert (length blk = 64%nat) as Hlblk by (unfold blk; rewrite length_blit; lia).
  assert (blk = tail ++ take pl input) as Hblk.
  { unfold blk. rewrite <-(blit_prefix (ctx_buffer ctx)) by (try done; lia). fold blk.
    rewrite (take_ge blk); [done|lia]. }
  rewrite (md5_blocks_spec m _ _ input pl rest); [|done|lia| |lia|lia].
  2:{ unfold m. pose proof (Nat.Div0.div_le_mono (length input - pl) (length input) 64). lia. }
  exists (n + 1 + m)%nat, (full ++ blk ++ take (64 * m) (drop pl input)),
    (drop (pl + 64 * m) input). cbn [ctx_state ctx_count ctx_buffer].
  assert (length (take (64 * m) (drop pl input)) = 64 * m)%nat as Hltm
    by (rewrite length_take, length_drop; lia).
  fold blk. rewrite Nat2Z.id. split_and!.
  - rewrite Hblk, <-!app_assoc. do 2 f_equal.
    by rewrite <-drop_drop, take_drop, take_drop.
  - rewrite !length_app. lia.
  - rewrite length_drop. lia.
  - rewrite <-Nat.add_assoc, rfc_blocks_app, Hst by lia.
    rewrite rfc_blocks_app by lia. cbn [rfc_blocks].
    rewrite (take_ge blk) by lia.
    rewrite rfc_blocks_take by (rewrite length_drop; lia).
    rewrite (md5_transform_rfc _ blk); [done| |lia].
    rewrite Hblk. rewrite Forall_app in Hmb |- *. split; [apply Hmb|by apply Forall_take].
  - done.
  - rewrite length_blit; [lia|rewrite length_drop; lia].
  - unfold blit. change (Z.to_nat 0) with 0%nat. rewrite take_0, app_nil_l.
    apply take_app_length.
Qed.

Lemma md5_update_short :
  len input < 64 - len tail → md5_repr (md5_update ctx input) ((full ++ tail) ++ input).
Proof.
  intros Hgt. pose proof (md5_repr_idx ctx n full tail Hfull Htail Hcnt) as Hidx.
  pose proof md5_update_count as Hc'. unfold md5_update. rewrite Hidx.
  rewrite (u32_id (64 - len tail)), (proj2 (Z.leb_gt _ _) Hgt) by (unfold is_u, len; lia).
  exists n, full, (tail ++ input). simpl. unfold len in *. rewrite Nat2Z.id.
  change (Z.to_nat 0) with 0%nat. rewrite drop_0. split_and!.
  - by rewrite <-app_assoc.
  - done.
  - rewrite length_app. lia.
  - done.
  - done.
  - rewrite length_blit; lia.
  - rewrite length_app. apply blit_prefix; [lia|done].
Qed.
End update.

Lemma md5_update_repr ctx msg input :
  md5_repr ctx msg → bytes msg → bytes input → len input + 64 < 2 ^ 32 →
  md5_repr (md5_update ctx input) (msg ++ input).
Proof.
  intros (n & full & tail & -> & Hfull & Htail & Hst & Hcnt & Hbuf & Htk) Hmb Hib Hlen.
  destruct (Z.le_gt_cases (64 - len tail) (len input)) as [Hle|Hgt].
  - by apply (md5_update_full ctx n).
  - by apply (md5_update_short ctx n).
Qed.

(** A represented message of whole blocks has been absorbed entirely. *)
Lemma md5_repr_blocks ctx msg k :
  md5_repr ctx msg → length msg = (64 * k)%nat → ctx_state ctx = rfc_blocks k rfc_init msg.
Proof.
  intros (n & full & tail & -> & Hf & Ht & -> & _) Hl. rewrite length_app in Hl.
  assert (length tail = 0%nat) as ->%nil_length_inv by lia.
  rewrite app_nil_r. f_equal. simpl in Hl. lia.
Qed.

Lemma md5_init_repr uninit :
  length uninit = 64%nat → md5_repr (md5_init (mk_ctx (mk_st 0 0 0 0) 0 uninit)) [].
Proof. intros. exists 0%nat, [], []. split_and!; simpl; try done; lia. Qed.

Definition pad_zeros (msg : list Z) : nat := Z.to_nat ((55 - len msg) mod 64).

(** The padding [md5_final] selects is the RFC's. *)
Lemma padding_rfc msg (idx : Z) :
  idx = len msg mod 64 →
  take (Z.to_nat (if idx <? 56 then u32 (56 - idx) else u32 (120 - idx))) padding =
  0x80 :: replicate (pad_zeros msg) 0.
Proof.
  intros ->. pose proof (Z.mod_pos_bound (len msg) 64 eq_refl) as Hm.
  assert ((if len msg mod 64 <? 56 then u32 (56 - len msg mod 64)
           else u32 (120 - len msg mod 64)) = Z.of_nat (S (pad_zeros msg))) as ->.
  { unfold pad_zeros. rewrite Zminus_mod. change (55 mod 64) with 55.
    destruct (Z.ltb_spec (len msg mod 64) 56); cbv iota; rewrite u32_id by (unfold is_u; lia).
    - rewrite (Z.mod_small (55 - _)) by lia. lia.
    - rewrite <-(Z.mod_add (55 - _) 1), (Z.mod_small (55 - _ + _)) by lia. lia. }
  unfold pad_zeros, padding. rewrite Nat2Z.id. simpl take. f_equal.
  change (0 :: _) with (replicate 63 0). rewrite take_replicate. f_equal.
  pose proof (Z.mod_pos_bound (55 - len msg) 64 eq_refl). lia.
Qed.

Lemma md5_pad_length msg :
  ∃ k, length (md5_pad msg) = (64 * k)%nat.
Proof.
  assert (len (md5_pad msg) = len msg + 9 + (55 - len msg) mod 64) as Hl.
  { unfold md5_pad. autorewrite with c_len.
    pose proof (Z.mod_pos_bound (55 - len msg) 64 eq_refl). lia. }
  exists (Z.to_nat (1 - (55 - len msg) / 64)).
  pose proof (Z.div_mod (55 - len msg) 64 ltac:(done)).
  pose proof (len_nonneg (md5_pad msg)). unfold len in *. lia.
Qed.

Lemma md5_final_repr ctx msg :
  md5_repr ctx msg → bytes msg → md5_final ctx = md5_spec msg.
Proof.
  intros Hr Hb. pose proof Hr as (n & full & tail & Hm & Hf & Ht & _ & Hc & _).
  unfold md5_final.
  rewrite (padding_rfc msg) by (subst msg; rewrite (md5_repr_idx ctx n full tail) by done;
    rewrite len_app; unfold len; rewrite Hf;
    replace (Z.of_nat (64 * n) + Z.of_nat (length tail))
      with (Z.of_nat (length tail) + Z.of_nat n * 64) by lia;
    rewrite Z.mod_add, Z.mod_small by lia; done).
  assert (map (λ i, u8 (Z.shiftr (u64 (Z.shiftl (ctx_count ctx) 3)) (Z.of_nat i * 8))) (seq 0 8)
          = le_encode 8 (8 * len msg)) as ->.
  { rewrite <-le_encode_map, Hc. unfold u64. change 64 with (8 * Z.of_nat 8).
    rewrite le_encode_mod, <-(le_encode_mod _ (8 * len msg)), Z.shiftl_mul_pow2 by done.
    rewrite <-le_encode_mod, Zmult_mod_idemp_l. do 2 f_equal. lia. }
  assert (bytes (0x80 :: replicate (pad_zeros msg) 0)) as Hbp.
  { constructor; [done|]. apply Forall_replicate. by apply is_u_0. }
  assert (len (0x80 :: replicate (pad_zeros msg) 0) + 64 < 2 ^ 32) as Hlp.
  { autorewrite with c_len. unfold pad_zeros.
    pose proof (Z.mod_pos_bound (55 - len msg) 64 eq_refl). lia. }
  pose proof (md5_update_repr ctx msg _ Hr Hb Hbp Hlp) as H1.
  pose proof (md5_update_repr _ _ (le_encode 8 (8 * len msg)) H1
    ltac:(by apply Forall_app) (le_encode_bytes _ _) eq_refl) as H2.
  destruct (md5_pad_length msg) as [k Hk].
  assert ((msg ++ 0x80 :: replicate (pad_zeros msg) 0) ++ le_encode 8 (8 * len msg)
          = md5_pad msg) as Hpad by (unfold md5_pad; by rewrite <-app_assoc).
  rewrite Hpad in H2. apply (md5_repr_blocks _ _ k) in H2; [|done].
  unfold md5_spec. rewrite Hk, (Nat.mul_comm 64), Nat.div_mul, <-H2 by done.
  unfold rfc_output. rewrite !le_encode_map. cbn [map seq].
  change (Z.of_nat 0 * 8) with 0. by rewrite !Z.shiftr_0_r.
Qed.

Lemma md5_hash_spec uninit data :
  length uninit = 64%nat → bytes data → len data + 64 < 2 ^ 32 →
  md5_hash uninit data = md5_spec data.
Proof.
  intros Hu Hb Hl. unfold md5_hash. apply md5_final_repr; [|done].
  apply (md5_update_repr _ []); try done. by apply md5_init_repr.
Qed.

Lemma length_md5_spec msg : length (md5_spec msg) = 16%nat.
Proof. unfold md5_spec, rfc_output. by rewrite !length_app, !length_le_encode. Qed.
Lemma md5_spec_bytes msg : bytes (md5_spec msg).
Proof. unfold md5_spec, rfc_output. rewrite !Forall_app. auto with c_ints. Qed.

(** ** The theorems *)

(** C34: md5_hash computes the MD5 of RFC 1321 of every message that fits a 32-bit length,
    whatever the uninitialised context buffer held. *)
Theorem md5_hash_rfc1321 uninit data :
  length uninit = 64%nat → bytes data → len data + 64 < 2 ^ 32 →
  md5_hash uninit data = md5_spec data.
Proof. apply md5_hash_spec. Qed.

(** Feeding a message in pieces, of any sizes, gives the digest of the whole. *)
Theorem md5_streaming ctx (pieces : list (list Z)) :
  length (ctx_buffer ctx) = 64%nat →
  Forall (λ p, bytes p ∧ len p + 64 < 2 ^ 32) pieces →
  md5_final (foldl md5_update (md5_init ctx) pieces) = md5_spec (concat pieces).
Proof.
  intros Hb Hp.
  assert (∀ l c msg, bytes msg → md5_repr c msg → Forall (λ p, bytes p ∧ len p + 64 < 2 ^ 32) l →
    bytes (msg ++ concat l) ∧ md5_repr (foldl md5_update c l) (msg ++ concat l)) as H.
  { induction l as [|p l IH]; intros c msg Hm Hc Hl; simpl; [by rewrite app_nil_r|].
    apply Forall_cons in Hl as [[Hpb Hpl] Hl]. rewrite app_assoc. apply IH; [by apply Forall_app| |done].
    by apply md5_update_repr. }
  destruct (H pieces (md5_init ctx) []) as [Hbytes Hrepr]; [done|by apply md5_init_repr|done|].
  by apply md5_final_repr.
Qed.

Lemma md5_hash_rfc1321_witness :
  md5_hash (replicate 64 0) [97; 98; 99] = md5_spec [97; 98; 99] ∧
  md5_spec [97; 98; 99] =
    [0x90; 0x01; 0x50; 0x98; 0x3c; 0xd2; 0x4f; 0xb0; 0xd6; 0x96; 0x3f; 0x7d; 0x28; 0xe1; 0x7f; 0x72].
Proof.
  split; [|vm_compute; reflexivity].
  apply md5_hash_rfc1321; [reflexivity|by apply byte_list_ok|done].
Defined.

Lemma md5_streaming_witness :
  md5_final (foldl md5_update (md5_init (mk_ctx (mk_st 0 0 0 0) 0 (replicate 64 7))) [[97]; [98; 99]])
  = md5_spec [97; 98; 99].
Proof.
  apply md5_streaming; [reflexivity|].
  forall_list ltac:(split; [by apply byte_list_ok|done]).
Defined.
