(* ===== verification/Aes.v ===== *)
(** AES-128, as in [src/iwand.c] (aes_set_encrypt_key, aes_encrypt_block,
    aes_set_decrypt_key, aes_decrypt_block), its FIPS-197 specification, and the two
    facts the program relies on: the block functions are the standard's, and decryption
    inverts encryption. *)
From Stdlib Require Import Btauto.
From S2P Require Import Prelude.

(** ** The code *)

Definition aes_sbox : list Z :=
  [0x63;0x7c;0x77;0x7b;0xf2;0x6b;0x6f;0xc5;0x30;0x01;0x67;0x2b;0xfe;0xd7;0xab;0x76;
   0xca;0x82;0xc9;0x7d;0xfa;0x59;0x47;0xf0;0xad;0xd4;0xa2;0xaf;0x9c;0xa4;0x72;0xc0;
   0xb7;0xfd;0x93;0x26;0x36;0x3f;0xf7;0xcc;0x34;0xa5;0xe5;0xf1;0x71;0xd8;0x31;0x15;
   0x04;0xc7;0x23;0xc3;0x18;0x96;0x05;0x9a;0x07;0x12;0x80;0xe2;0xeb;0x27;0xb2;0x75;
   0x09;0x83;0x2c;0x1a;0x1b;0x6e;0x5a;0xa0;0x52;0x3b;0xd6;0xb3;0x29;0xe3;0x2f;0x84;
   0x53;0xd1;0x00;0xed;0x20;0xfc;0xb1;0x5b;0x6a;0xcb;0xbe;0x39;0x4a;0x4c;0x58;0xcf;
   0xd0;0xef;0xaa;0xfb;0x43;0x4d;0x33;0x85;0x45;0xf9;0x02;0x7f;0x50;0x3c;0x9f;0xa8;
   0x51;0xa3;0x40;0x8f;0x92;0x9d;0x38;0xf5;0xbc;0xb6;0xda;0x21;0x10;0xff;0xf3;0xd2;
   0xcd;0x0c;0x13;0xec;0x5f;0x97;0x44;0x17;0xc4;0xa7;0x7e;0x3d;0x64;0x5d;0x19;0x73;
   0x60;0x81;0x4f;0xdc;0x22;0x2a;0x90;0x88;0x46;0xee;0xb8;0x14;0xde;0x5e;0x0b;0xdb;
   0xe0;0x32;0x3a;0x0a;0x49;0x06;0x24;0x5c;0xc2;0xd3;0xac;0x62;0x91;0x95;0xe4;0x79;
   0xe7;0xc8;0x37;0x6d;0x8d;0xd5;0x4e;0xa9;0x6c;0x56;0xf4;0xea;0x65;0x7a;0xae;0x08;
   0xba;0x78;0x25;0x2e;0x1c;0xa6;0xb4;0xc6;0xe8;0xdd;0x74;0x1f;0x4b;0xbd;0x8b;0x8a;
   0x70;0x3e;0xb5;0x66;0x48;0x03;0xf6;0x0e;0x61;0x35;0x57;0xb9;0x86;0xc1;0x1d;0x9e;
   0xe1;0xf8;0x98;0x11;0x69;0xd9;0x8e;0x94;0x9b;0x1e;0x87;0xe9;0xce;0x55;0x28;0xdf;
   0x8c;0xa1;0x89;0x0d;0xbf;0xe6;0x42;0x68;0x41;0x99;0x2d;0x0f;0xb0;0x54;0xbb;0x16].

Definition aes_rcon : list Z :=
  [0x01000000;0x02000000;0x04000000;0x08000000;0x10000000;
   0x20000000;0x40000000;0x80000000;0x1b000000;0x36000000].

(** [aes_key_t] is its [rd_key] array of 44 words. *)
Definition sbox (x : Z) : Z := nth (Z.to_nat x) aes_sbox 0.

Definition aes_sub_word (w : Z) : Z :=
  Z.lor (Z.lor (Z.lor (Z.shiftl (sbox (Z.land (Z.shiftr w 24) 0xff)) 24)
                      (Z.shiftl (sbox (Z.land (Z.shiftr w 16) 0xff)) 16))
               (Z.shiftl (sbox (Z.land (Z.shiftr w 8) 0xff)) 8))
        (sbox (Z.land w 0xff)).

(** [rk[i] = key[4*i]<<24 | key[4*i+1]<<16 | key[4*i+2]<<8 | key[4*i+3]] *)
Definition key_word (key : list Z) (i : nat) : Z :=
  let k j := nth (4 * i + j) key 0 in
  Z.lor (Z.lor (Z.lor (Z.shiftl (k 0%nat) 24) (Z.shiftl (k 1%nat) 16)) (Z.shiftl (k 2%nat) 8))
        (k 3%nat).

(** One iteration of the expansion loop; the array is filled from the left. *)
Definition expand_step (rk : list Z) (i : nat) : list Z :=
  let t := nth (i - 1) rk 0 in
  let t := if Z.land (Z.of_nat i) 3 =? 0
           then Z.lxor (aes_sub_word (Z.lor (u32 (Z.shiftl t 8)) (Z.shiftr t 24)))
                       (nth (i / 4 - 1) aes_rcon 0)
           else t in
  rk ++ [Z.lxor (nth (i - 4) rk 0) t].

Definition aes_set_encrypt_key (key : list Z) : list Z :=
  foldl expand_step (map (key_word key) (seq 0 4)) (seq 4 40).

Definition xtime_table : list Z :=
  [0x00;0x02;0x04;0x06;0x08;0x0a;0x0c;0x0e;0x10;0x12;0x14;0x16;0x18;0x1a;0x1c;0x1e;
   0x20;0x22;0x24;0x26;0x28;0x2a;0x2c;0x2e;0x30;0x32;0x34;0x36;0x38;0x3a;0x3c;0x3e;
   0x40;0x42;0x44;0x46;0x48;0x4a;0x4c;0x4e;0x50;0x52;0x54;0x56;0x58;0x5a;0x5c;0x5e;
   0x60;0x62;0x64;0x66;0x68;0x6a;0x6c;0x6e;0x70;0x72;0x74;0x76;0x78;0x7a;0x7c;0x7e;
   0x80;0x82;0x84;0x86;0x88;0x8a;0x8c;0x8e;0x90;0x92;0x94;0x96;0x98;0x9a;0x9c;0x9e;
   0xa0;0xa2;0xa4;0xa6;0xa8;0xaa;0xac;0xae;0xb0;0xb2;0xb4;0xb6;0xb8;0xba;0xbc;0xbe;
   0xc0;0xc2;0xc4;0xc6;0xc8;0xca;0xcc;0xce;0xd0;0xd2;0xd4;0xd6;0xd8;0xda;0xdc;0xde;
   0xe0;0xe2;0xe4;0xe6;0xe8;0xea;0xec;0xee;0xf0;0xf2;0xf4;0xf6;0xf8;0xfa;0xfc;0xfe;
   0x1b;0x19;0x1f;0x1d;0x13;0x11;0x17;0x15;0x0b;0x09;0x0f;0x0d;0x03;0x01;0x07;0x05;
   0x3b;0x39;0x3f;0x3d;0x33;0x31;0x37;0x35;0x2b;0x29;0x2f;0x2d;0x23;0x21;0x27;0x25;
   0x5b;0x59;0x5f;0x5d;0x53;0x51;0x57;0x55;0x4b;0x49;0x4f;0x4d;0x43;0x41;0x47;0x45;
   0x7b;0x79;0x7f;0x7d;0x73;0x71;0x77;0x75;0x6b;0x69;0x6f;0x6d;0x63;0x61;0x67;0x65;
   0x9b;0x99;0x9f;0x9d;0x93;0x91;0x97;0x95;0x8b;0x89;0x8f;0x8d;0x83;0x81;0x87;0x85;
   0xbb;0xb9;0xbf;0xbd;0xb3;0xb1;0xb7;0xb5;0xab;0xa9;0xaf;0xad;0xa3;0xa1;0xa7;0xa5;
   0xdb;0xd9;0xdf;0xdd;0xd3;0xd1;0xd7;0xd5;0xcb;0xc9;0xcf;0xcd;0xc3;0xc1;0xc7;0xc5;
   0xfb;0xf9;0xff;0xfd;0xf3;0xf1;0xf7;0xf5;0xeb;0xe9;0xef;0xed;0xe3;0xe1;0xe7;0xe5].

Definition XT (x : Z) : Z := nth (Z.to_nat x) xtime_table 0.

(** [(rk[base + (i>>2)] >> (24 - 8*(i&3))) & 0xff] *)
Definition rk_byte (rk : list Z) (base i : nat) : Z :=
  Z.land (Z.shiftr (nth (base + i / 4) rk 0) (24 - 8 * Z.land (Z.of_nat i) 3)) 0xff.
Definition add_round_key (rk : list Z) (base : nat) (s : list Z) : list Z :=
  imap (λ i x, Z.lxor x (rk_byte rk base i)) s.

Definition sub_bytes (s : list Z) : list Z := map sbox s.

Definition pick (s : list Z) (idx : list nat) : list Z := map (λ i, nth i s 0) idx.
Definition shift_rows (t : list Z) : list Z :=
  pick t [0; 5; 10; 15; 4; 9; 14; 3; 8; 13; 2; 7; 12; 1; 6; 11]%nat.

Definition mix_column (a0 a1 a2 a3 : Z) : list Z :=
  [Z.lxor (Z.lxor (Z.lxor (Z.lxor (XT a0) (XT a1)) a1) a2) a3;
   Z.lxor (Z.lxor (Z.lxor (Z.lxor a0 (XT a1)) (XT a2)) a2) a3;
   Z.lxor (Z.lxor (Z.lxor (Z.lxor a0 a1) (XT a2)) (XT a3)) a3;
   Z.lxor (Z.lxor (Z.lxor (Z.lxor (XT a0) a0) a1) a2) (XT a3)].
(** The loop over the four columns of the state. *)
Definition on_columns (f : Z → Z → Z → Z → list Z) (s : list Z) : list Z :=
  let a i := nth i s 0 in
  concat (map (λ c, f (a (c * 4)%nat) (a (c * 4 + 1)%nat) (a (c * 4 + 2)%nat)
                      (a (c * 4 + 3)%nat)) (seq 0 4)).
Definition mix_columns : list Z → list Z := on_columns mix_column.

Definition aes_round (rk s : list Z) (round : nat) : list Z :=
  add_round_key rk (round * 4) (mix_columns (shift_rows (sub_bytes s))).

Definition aes_encrypt_block (inp rk : list Z) : list Z :=
  let s := add_round_key rk 0 inp in
  let s := foldl (aes_round rk) s (seq 1 9) in
  add_round_key rk 40 (shift_rows (sub_bytes s)).

Definition aes_inv_sbox : list Z :=
  [0x52;0x09;0x6a;0xd5;0x30;0x36;0xa5;0x38;0xbf;0x40;0xa3;0x9e;0x81;0xf3;0xd7;0xfb;
   0x7c;0xe3;0x39;0x82;0x9b;0x2f;0xff;0x87;0x34;0x8e;0x43;0x44;0xc4;0xde;0xe9;0xcb;
   0x54;0x7b;0x94;0x32;0xa6;0xc2;0x23;0x3d;0xee;0x4c;0x95;0x0b;0x42;0xfa;0xc3;0x4e;
   0x08;0x2e;0xa1;0x66;0x28;0xd9;0x24;0xb2;0x76;0x5b;0xa2;0x49;0x6d;0x8b;0xd1;0x25;
   0x72;0xf8;0xf6;0x64;0x86;0x68;0x98;0x16;0xd4;0xa4;0x5c;0xcc;0x5d;0x65;0xb6;0x92;
   0x6c;0x70;0x48;0x50;0xfd;0xed;0xb9;0xda;0x5e;0x15;0x46;0x57;0xa7;0x8d;0x9d;0x84;
   0x90;0xd8;0xab;0x00;0x8c;0xbc;0xd3;0x0a;0xf7;0xe4;0x58;0x05;0xb8;0xb3;0x45;0x06;
   0xd0;0x2c;0x1e;0x8f;0xca;0x3f;0x0f;0x02;0xc1;0xaf;0xbd;0x03;0x01;0x13;0x8a;0x6b;
   0x3a;0x91;0x11;0x41;0x4f;0x67;0xdc;0xea;0x97;0xf2;0xcf;0xce;0xf0;0xb4;0xe6;0x73;
   0x96;0xac;0x74;0x22;0xe7;0xad;0x35;0x85;0xe2;0xf9;0x37;0xe8;0x1c;0x75;0xdf;0x6e;
   0x47;0xf1;0x1a;0x71;0x1d;0x29;0xc5;0x89;0x6f;0xb7;0x62;0x0e;0xaa;0x18;0xbe;0x1b;
   0xfc;0x56;0x3e;0x4b;0xc6;0xd2;0x79;0x20;0x9a;0xdb;0xc0;0xfe;0x78;0xcd;0x5a;0xf4;
   0x1f;0xdd;0xa8;0x33;0x88;0x07;0xc7;0x31;0xb1;0x12;0x10;0x59;0x27;0x80;0xec;0x5f;
   0x60;0x51;0x7f;0xa9;0x19;0xb5;0x4a;0x0d;0x2d;0xe5;0x7a;0x9f;0x93;0xc9;0x9c;0xef;
   0xa0;0xe0;0x3b;0x4d;0xae;0x2a;0xf5;0xb0;0xc8;0xeb;0xbb;0x3c;0x83;0x53;0x99;0x61;
   0x17;0x2b;0x04;0x7e;0xba;0x77;0xd6;0x26;0xe1;0x69;0x14;0x63;0x55;0x21;0x0c;0x7d].

Definition inv_sbox (x : Z) : Z := nth (Z.to_nat x) aes_inv_sbox 0.

(** One swap of the loop of [aes_set_decrypt_key]:
    [t = rk[i*4+j]; rk[i*4+j] = rk[(10-i)*4+j]; rk[(10-i)*4+j] = t]. *)
Definition swap_step (rk : list Z) (ij : nat * nat) : list Z :=
  let '(i, j) := ij in
  let t := nth (i * 4 + j) rk 0 in
  <[((10 - i) * 4 + j)%nat := t]> (<[(i * 4 + j)%nat := nth ((10 - i) * 4 + j) rk 0]> rk).

Definition aes_set_decrypt_key (key : list Z) : list Z :=
  foldl swap_step (aes_set_encrypt_key key) (list_prod (seq 0 5) (seq 0 4)).

Definition inv_shift_rows (s : list Z) : list Z :=
  pick s [0; 13; 10; 7; 4; 1; 14; 11; 8; 5; 2; 15; 12; 9; 6; 3]%nat.
Definition inv_sub_bytes (t : list Z) : list Z := map inv_sbox t.

(** The macros work on [int]s: only the assignment to the [uint8_t] state truncates. *)
Definition xtime (x : Z) : Z := Z.lxor (Z.shiftl x 1) (Z.land (Z.shiftr x 7) 1 * 0x1b).
Definition mul9 (x : Z) : Z := Z.lxor (xtime (xtime (xtime x))) x.
Definition mul11 (x : Z) : Z := Z.lxor (xtime (Z.lxor (xtime (xtime x)) x)) x.
Definition mul13 (x : Z) : Z := Z.lxor (xtime (xtime (Z.lxor (xtime x) x))) x.
Definition mul14 (x : Z) : Z := xtime (Z.lxor (xtime (Z.lxor (xtime x) x)) x).
Definition inv_mix_column (a0 a1 a2 a3 : Z) : list Z :=
  [u8 (Z.lxor (Z.lxor (Z.lxor (mul14 a0) (mul11 a1)) (mul13 a2)) (mul9 a3));
   u8 (Z.lxor (Z.lxor (Z.lxor (mul9 a0) (mul14 a1)) (mul11 a2)) (mul13 a3));
   u8 (Z.lxor (Z.lxor (Z.lxor (mul13 a0) (mul9 a1)) (mul14 a2)) (mul11 a3));
   u8 (Z.lxor (Z.lxor (Z.lxor (mul11 a0) (mul13 a1)) (mul9 a2)) (mul14 a3))].
Definition inv_mix_columns : list Z → list Z := on_columns inv_mix_column.

Definition aes_inv_round (rk s : list Z) (round : nat) : list Z :=
  inv_mix_columns (add_round_key rk (round * 4) (inv_sub_bytes (inv_shift_rows s))).

Definition aes_decrypt_block (inp rk : list Z) : list Z :=
  let s := add_round_key rk 0 inp in
  let s := foldl (aes_inv_round rk) s (seq 1 9) in
  add_round_key rk 40 (inv_sub_bytes (inv_shift_rows s)).

(** ** The specification: FIPS-197 *)

(** Arithmetic in GF(2^8) modulo x^8 + x^4 + x^3 + x + 1. *)
Definition gf_xtime (a : Z) : Z := if a <? 128 then 2 * a else Z.lxor (2 * a) 0x11b.
Definition gf_mul (a b : Z) : Z :=
  foldl (λ acc i, if Z.testbit b (Z.of_nat i)
                  then Z.lxor acc (Nat.iter i gf_xtime a) else acc) 0 (seq 0 8).
(** The multiplicative inverse, x^254 = x^2 x^4 ... x^128, which sends 0 to 0. *)
Definition gf_inv (x : Z) : Z :=
  let sq y := gf_mul y y in
  foldl gf_mul 1 (map (λ n, Nat.iter n sq x) (seq 1 7)).

Definition fips_affine (b : Z) : Z :=
  let bit i := Z.testbit b (Z.of_nat (i mod 8)) in
  foldl (λ acc i,
    if xorb (xorb (xorb (xorb (bit i) (bit (i + 4)%nat)) (bit (i + 5)%nat)) (bit (i + 6)%nat))
            (xorb (bit (i + 7)%nat) (Z.testbit 0x63 (Z.of_nat i)))
    then acc + 2 ^ Z.of_nat i else acc) 0 (seq 0 8).
Definition fips_sbox (x : Z) : Z := fips_affine (gf_inv x).

(** Byte [r + 4c] of the state is row [r], column [c]. *)
Definition fips_shift_rows (s : list Z) : list Z :=
  map (λ i, let r := (i mod 4)%nat in let c := (i / 4)%nat in
            nth (r + 4 * ((c + r) mod 4)) s 0) (seq 0 16).
Definition fips_matrix (coef s : list Z) : list Z :=
  map (λ i, let r := (i mod 4)%nat in let c := (i / 4)%nat in
            foldl (λ acc k, Z.lxor acc (gf_mul (nth ((4 + k - r) mod 4) coef 0)
                                               (nth (k + 4 * c) s 0))) 0 (seq 0 4))
      (seq 0 16).
Definition fips_mix_columns : list Z → list Z := fips_matrix [2; 3; 1; 1].
Definition fips_inv_mix_columns : list Z → list Z := fips_matrix [14; 11; 13; 9].

Definition SubWord (w : Z) : Z := be_decode (map fips_sbox (be_encode 4 w)).
Definition RotWord (w : Z) : Z :=
  be_decode (match be_encode 4 w with x :: l => l ++ [x] | [] => [] end).
Definition Rcon (i : nat) : Z := be_decode [Nat.iter (i - 1) gf_xtime 1; 0; 0; 0].
Definition fips_expand (w : list Z) (i : nat) : list Z :=
  let t := nth (i - 1) w 0 in
  let t := if (i mod 4 =? 0)%nat then Z.lxor (SubWord (RotWord t)) (Rcon (i / 4)) else t in
  w ++ [Z.lxor (nth (i - 4) w 0) t].
Definition fips_key_expansion (key : list Z) : list Z :=
  foldl fips_expand (map (λ i, be_decode (take 4 (drop (4 * i) key))) (seq 0 4)) (seq 4 40).

Definition fips_add_round_key (w : list Z) (round : nat) (s : list Z) : list Z :=
  imap (λ i x, Z.lxor x (nth (i mod 4) (be_encode 4 (nth (4 * round + i / 4) w 0)) 0)) s.
Definition fips_cipher (key inp : list Z) : list Z :=
  let w := fips_key_expansion key in
  let s := fips_add_round_key w 0 inp in
  let s := foldl (λ s r, fips_add_round_key w r
                           (fips_mix_columns (fips_shift_rows (map fips_sbox s)))) s (seq 1 9) in
  fips_add_round_key w 10 (fips_shift_rows (map fips_sbox s)).

(** ** The tables *)

Lemma sbox_fips x : is_byte x → sbox x = fips_sbox x ∧ is_byte (sbox x) ∧ inv_sbox (sbox x) = x.
Proof.
  intros Hx.
  byte_table (λ x, (sbox x =? fips_sbox x) && byteb (sbox x) && (inv_sbox (sbox x) =? x)) x Hx.
  done.
Qed.

Lemma inv_sbox_byte x : is_byte x → is_byte (inv_sbox x) ∧ sbox (inv_sbox x) = x.
Proof.
  intros Hx. byte_table (λ x, byteb (inv_sbox x) && (sbox (inv_sbox x) =? x)) x Hx. done.
Qed.

Lemma XT_fips x :
  is_byte x → XT x = gf_mul 2 x ∧ Z.lxor (XT x) x = gf_mul 3 x ∧ gf_mul 1 x = x ∧
  is_byte (XT x) ∧ XT x = u8 (xtime x).
Proof.
  intros Hx.
  byte_table (λ x, (XT x =? gf_mul 2 x) && (Z.lxor (XT x) x =? gf_mul 3 x) &&
    (gf_mul 1 x =? x) && byteb (XT x) && (XT x =? u8 (xtime x))) x Hx.
  done.
Qed.

Lemma mul_fips x :
  is_byte x → u8 (mul9 x) = gf_mul 9 x ∧ u8 (mul11 x) = gf_mul 11 x ∧
  u8 (mul13 x) = gf_mul 13 x ∧ u8 (mul14 x) = gf_mul 14 x.
Proof.
  intros Hx.
  byte_table (λ x, (u8 (mul9 x) =? gf_mul 9 x) && (u8 (mul11 x) =? gf_mul 11 x) &&
    (u8 (mul13 x) =? gf_mul 13 x) && (u8 (mul14 x) =? gf_mul 14 x)) x Hx.
  done.
Qed.

(** ** The cipher state *)

Definition is_block (s : list Z) : Prop := length s = 16%nat ∧ bytes s.

(** Symbolic execution on a block: name its 16 bytes. *)
Lemma is_block_inv s :
  is_block s →
  ∃ a0 a1 a2 a3 b0 b1 b2 b3 c0 c1 c2 c3 d0 d1 d2 d3,
    s = [a0; a1; a2; a3; b0; b1; b2; b3; c0; c1; c2; c3; d0; d1; d2; d3] ∧
    is_byte a0 ∧ is_byte a1 ∧ is_byte a2 ∧ is_byte a3 ∧
    is_byte b0 ∧ is_byte b1 ∧ is_byte b2 ∧ is_byte b3 ∧
    is_byte c0 ∧ is_byte c1 ∧ is_byte c2 ∧ is_byte c3 ∧
    is_byte d0 ∧ is_byte d1 ∧ is_byte d2 ∧ is_byte d3.
Proof.
  intros [Hl Hb]. do 16 (destruct s as [|? s]; [done|]). destruct s; [|done].
  rewrite !Forall_cons in Hb. destruct_and!. eexists _, _, _, _, _, _, _, _, _, _, _, _, _, _, _, _.
  by split_and!.
Qed.

Ltac block_inv H :=
  apply is_block_inv in H;
  destruct H as (?&?&?&?&?&?&?&?&?&?&?&?&?&?&?&?&->&?&?&?&?&?&?&?&?&?&?&?&?&?&?&?&?).

(** Exclusive-or expressions up to associativity, commutativity and [x ^ x = 0], bit by
    bit. *)
Ltac lxor_ac :=
  apply Z.bits_inj'; let i := fresh "i" in intros i _; rewrite ?Z.lxor_spec, ?Z.bits_0; btauto.

(** ** Encryption is the standard's cipher *)

Lemma pick_block s l : is_block s → length l = 16%nat → Forall (λ i, (i < 16)%nat) l → is_block (pick s l).
Proof.
  intros [Hs Hb] Hl Hi. split; [unfold pick; by rewrite length_map|].
  unfold pick. rewrite Forall_map. eapply Forall_impl; [exact Hi|]. intros i Hlt; simpl in *.
  rewrite nth_lookup. destruct (lookup_lt_is_Some_2 s i) as [x Hx]; [lia|].
  rewrite Hx. by eapply (Forall_lookup_1 _ _ _ _ Hb).
Qed.

Lemma shift_rows_block s : is_block s → is_block (shift_rows s).
Proof. intros. apply pick_block; [done|done|]. forall_list lia. Qed.
Lemma sub_bytes_block s : is_block s → is_block (sub_bytes s).
Proof.
  intros [Hl Hb]. split; [unfold sub_bytes; by rewrite length_map|].
  unfold sub_bytes. rewrite Forall_map. eapply Forall_impl; [exact Hb|].
  intros x Hx. by apply sbox_fips.
Qed.

Lemma mix_columns_block s : is_block s → is_block (mix_columns s).
Proof.
  intros Hs. block_inv Hs. split; [done|].
  cbn -[XT Z.lxor]. forall_list ltac:(repeat apply is_u_lxor; try done; by apply XT_fips).
Qed.

Lemma rk_byte_byte rk base i : is_byte (rk_byte rk base i).
Proof. unfold rk_byte. apply is_u_land_r; done. Qed.

Lemma add_round_key_block rk base s : is_block s → is_block (add_round_key rk base s).
Proof.
  intros [Hl Hb]. unfold add_round_key. split; [by rewrite length_imap|].
  apply Forall_lookup_2. intros i x. rewrite list_lookup_imap, fmap_Some.
  intros (y & Hy & ->). apply is_u_lxor; [done| |apply rk_byte_byte].
  by eapply (Forall_lookup_1 _ _ _ _ Hb).
Qed.

Lemma aes_round_block rk r s : is_block s → is_block (aes_round rk s r).
Proof.
  intros. by apply add_round_key_block, mix_columns_block, shift_rows_block, sub_bytes_block.
Qed.

Lemma foldl_block {B} (f : list Z → B → list Z) l s :
  (∀ s r, is_block s → is_block (f s r)) → is_block s → is_block (foldl f s l).
Proof. intros Hf. revert s. induction l; simpl; auto. Qed.

Lemma aes_encrypt_block_block inp rk : is_block inp → is_block (aes_encrypt_block inp rk).
Proof.
  intros. apply add_round_key_block, shift_rows_block, sub_bytes_block, foldl_block.
  - intros. by apply aes_round_block.
  - by apply add_round_key_block.
Qed.

Lemma sub_bytes_fips s : is_block s → sub_bytes s = map fips_sbox s.
Proof.
  intros [_ Hb]. unfold sub_bytes. apply map_ext_in. intros x Hx%list_elem_of_In.
  apply sbox_fips. by eapply (proj1 (Forall_forall _ _) Hb).
Qed.

Lemma shift_rows_fips s : is_block s → shift_rows s = fips_shift_rows s.
Proof. intros Hs. by block_inv Hs. Qed.

Lemma mix_columns_fips s : is_block s → mix_columns s = fips_mix_columns s.
Proof.
  intros Hs. block_inv Hs. unfold fips_mix_columns, fips_matrix. cbn -[gf_mul Z.lxor XT].
  repeat match goal with
  | H : is_byte ?x |- _ =>
      let H2 := fresh in let H3 := fresh in let H1 := fresh in
      destruct (XT_fips x H) as (H2 & H3 & H1 & _); clear H;
      rewrite <-H2, <-H3, H1; clear H1 H2 H3
  end.
  by rewrite !Z.lxor_0_l, <-!Z.lxor_assoc.
Qed.

(** *** Round keys *)

Lemma be_encode4 w :
  be_encode 4 w = [u8 (Z.shiftr w 24); u8 (Z.shiftr w 16); u8 (Z.shiftr w 8); u8 w].
Proof.
  unfold be_encode. rewrite le_encode_map. cbn [map seq].
  change (Z.of_nat 0 * 8) with 0. by rewrite Z.shiftr_0_r.
Qed.

Lemma add_round_key_fips rk round s :
  is_block s → add_round_key rk (round * 4) s = fips_add_round_key rk round s.
Proof.
  intros [Hl _]. unfold add_round_key, fips_add_round_key.
  apply imap_ext. intros i x Hi. f_equal.
  apply lookup_lt_Some in Hi. unfold rk_byte. rewrite (Nat.mul_comm round).
  generalize (nth (4 * round + i / 4) rk 0). intros w.
  rewrite be_encode4, land_0xff. rewrite Hl in Hi.
  do 16 (destruct i as [|i]; [cbn; rewrite ?Z.shiftr_0_r; reflexivity|]). lia.
Qed.

Lemma rcon_fips i : (1 ≤ i ≤ 10)%nat → nth (i - 1) aes_rcon 0 = Rcon i.
Proof.
  intros Hi.
  pose proof (forallb_seq_spec (λ j, nth j aes_rcon 0 =? Rcon (S j)) 10
    ltac:(vm_compute; reflexivity) (i - 1)%nat ltac:(lia)) as H.
  apply Z.eqb_eq in H. rewrite H. f_equal. lia.
Qed.

Lemma sub_word_fips w : aes_sub_word w = SubWord w.
Proof.
  unfold aes_sub_word, SubWord. rewrite be_encode4. cbn [map].
  rewrite !land_0xff.
  rewrite (be4_value (sbox _) (sbox _) (sbox _) (sbox _)) by (apply sbox_fips, u8_is).
  by rewrite !(λ z, proj1 (sbox_fips (u8 z) (u8_is z))).
Qed.

Lemma rot_word_fips t :
  is_u32 t → Z.lor (u32 (Z.shiftl t 8)) (Z.shiftr t 24) = RotWord t.
Proof.
  intros Ht. unfold RotWord. rewrite be_encode4. cbn [app].
  rewrite Z.shiftl_mul_pow2, !Z.shiftr_div_pow2 by done. unfold is_u in Ht.
  rewrite (lor_add _ _ 8); [|done| |].
  - unfold be_decode. cbn. unfold u8, u32. Z.div_mod_to_equations. lia.
  - unfold u32. Z.div_mod_to_equations. lia.
  - unfold is_u. Z.div_mod_to_equations. lia.
Qed.

Lemma SubWord_u32 w : is_u32 (SubWord w).
Proof.
  unfold SubWord. rewrite be_encode4. cbn [map].
  apply (be_decode_is_u [_; _; _; _]).
  forall_list ltac:(rewrite <-(proj1 (sbox_fips _ (u8_is _))); apply sbox_fips, u8_is).
Qed.

Lemma Rcon_u32 i : (1 ≤ i ≤ 10)%nat → is_u32 (Rcon i).
Proof.
  intros Hi. rewrite <-rcon_fips by done.
  pose proof (forallb_seq_spec (λ j, (0 <=? nth j aes_rcon 0) && (nth j aes_rcon 0 <? 2 ^ 32)) 10
    ltac:(vm_compute; reflexivity) (i - 1)%nat ltac:(lia)) as H.
  unfold is_u. cbv beta in H. lia.
Qed.

Lemma nth_u32 rk n : Forall (is_u 32) rk → is_u32 (nth n rk 0).
Proof.
  intros H. rewrite nth_lookup. destruct (rk !! n) as [x|] eqn:E; simpl.
  - by eapply (Forall_lookup_1 _ _ _ _ H).
  - by apply is_u_0.
Qed.

Lemma expand_step_fips rk i :
  Forall (is_u 32) rk → (4 ≤ i < 44)%nat →
  expand_step rk i = fips_expand rk i ∧ Forall (is_u 32) (fips_expand rk i).
Proof.
  intros Hrk Hi. unfold expand_step, fips_expand.
  assert ((Z.land (Z.of_nat i) 3 =? 0) = (i mod 4 =? 0)%nat) as ->.
  { change 3 with (Z.ones 2). rewrite Z.land_ones by done. change (2 ^ 2) with (Z.of_nat 4).
    rewrite <-Nat2Z.inj_mod. destruct (Nat.eqb_spec (i mod 4) 0); [lia|].
    apply Z.eqb_neq. lia. }
  destruct (Nat.eqb_spec (i mod 4) 0) as [E|E].
  - assert (1 ≤ i / 4 ≤ 10)%nat as Hq.
    { split; [by apply (Nat.div_le_lower_bound i 4 1); lia|].
      apply Nat.lt_succ_r, Nat.Div0.div_lt_upper_bound. lia. }
    rewrite rot_word_fips, sub_word_fips, rcon_fips by (by apply nth_u32 || done).
    split; [done|]. apply Forall_app; split; [done|].
    forall_list ltac:(eauto using nth_u32, SubWord_u32, Rcon_u32, is_u_lxor with lia).
  - split; [done|]. apply Forall_app; split; [done|].
    forall_list ltac:(eauto using nth_u32, is_u_lxor with lia).
Qed.

Lemma foldl_fips_expand rk n m :
  Forall (is_u 32) rk → (4 ≤ n)%nat → (n + m ≤ 44)%nat →
  foldl expand_step rk (seq n m) = foldl fips_expand rk (seq n m).
Proof.
  revert rk n. induction m as [|m IH]; intros rk n Hrk Hn Hm; simpl; [done|].
  destruct (expand_step_fips rk n Hrk) as [-> ?]; [lia|]. apply IH; [done|lia|lia].
Qed.

Lemma aes_set_encrypt_key_fips key :
  is_block key → aes_set_encrypt_key key = fips_key_expansion key.
Proof.
  intros Hk. block_inv Hk. unfold aes_set_encrypt_key, fips_key_expansion.
  rewrite foldl_fips_expand; [|cbn -[Z.lor Z.shiftl]|lia|lia].
  - f_equal. unfold key_word. cbn -[Z.lor Z.shiftl be_decode]. by rewrite !be4_value.
  - unfold key_word. cbn -[Z.lor Z.shiftl]. rewrite !be4_value by done.
    forall_list ltac:(apply (be_decode_is_u [_; _; _; _]); forall_list done).
Qed.

Lemma aes_encrypt_block_fips key inp :
  is_block key → is_block inp →
  aes_encrypt_block inp (aes_set_encrypt_key key) = fips_cipher key inp.
Proof.
  intros Hk Hi. unfold aes_encrypt_block, fips_cipher.
  rewrite <-aes_set_encrypt_key_fips by done.
  generalize (aes_set_encrypt_key key). intros rk.
  change (add_round_key rk 0 inp) with (add_round_key rk (0 * 4) inp).
  rewrite add_round_key_fips by done.
  assert (is_block (fips_add_round_key rk 0 inp)) as Hb.
  { rewrite <-add_round_key_fips by done. by apply add_round_key_block. }
  revert Hb. generalize (fips_add_round_key rk 0 inp). intros s Hs.
  assert (∀ l, foldl (aes_round rk) s l = foldl (λ s r, fips_add_round_key rk r
    (fips_mix_columns (fips_shift_rows (map fips_sbox s)))) s l) as <-.
  { intros l. revert s Hs. induction l as [|r l IH]; intros s Hs; simpl; [done|].
    rewrite IH by (by apply aes_round_block). f_equal. unfold aes_round.
    rewrite add_round_key_fips by
      (by apply mix_columns_block, shift_rows_block, sub_bytes_block).
    by rewrite mix_columns_fips, shift_rows_fips, sub_bytes_fips
      by (try apply shift_rows_block; try apply sub_bytes_block; done). }
  assert (is_block (foldl (aes_round rk) s (seq 1 9))) as Hf.
  { apply foldl_block; [intros; by apply aes_round_block|done]. }
  revert Hf. generalize (foldl (aes_round rk) s (seq 1 9)). intros s' Hs'.
  change 40%nat with (10 * 4)%nat.
  rewrite add_round_key_fips by (by apply shift_rows_block, sub_bytes_block).
  by rewrite shift_rows_fips, sub_bytes_fips by (try apply sub_bytes_block; done).
Qed.

(** ** Decryption inverts encryption *)

Lemma u8_lxor x y : u8 (Z.lxor x y) = Z.lxor (u8 x) (u8 y).
Proof.
  unfold u8. rewrite <-!(Z.land_ones _ 8) by done.
  apply Z.bits_inj'. intros i Hi. rewrite !Z.land_spec, !Z.lxor_spec, !Z.land_spec.
  destruct (Z.testbit x i), (Z.testbit y i), (Z.testbit (Z.ones 8) i); done.
Qed.

Lemma xtime_lxor x y : xtime (Z.lxor x y) = Z.lxor (xtime x) (xtime y).
Proof.
  unfold xtime. rewrite Z.shiftl_lxor, Z.shiftr_lxor.
  assert (Z.land (Z.lxor (Z.shiftr x 7) (Z.shiftr y 7)) 1 * 27 =
    Z.lxor (Z.land (Z.shiftr x 7) 1 * 27) (Z.land (Z.shiftr y 7) 1 * 27)) as ->.
  { generalize (Z.shiftr x 7) (Z.shiftr y 7). intros a b. change 1 with (Z.ones 1).
    rewrite !Z.land_ones by done. change (2 ^ 1) with 2.
    rewrite !Zmod_odd, <-!Z.bit0_odd, Z.lxor_spec. by destruct (Z.testbit a 0), (Z.testbit b 0). }
  lxor_ac.
Qed.

Lemma mul9_lxor x y : mul9 (Z.lxor x y) = Z.lxor (mul9 x) (mul9 y).
Proof. unfold mul9. rewrite !xtime_lxor. lxor_ac. Qed.
Lemma mul11_lxor x y : mul11 (Z.lxor x y) = Z.lxor (mul11 x) (mul11 y).
Proof. unfold mul11. rewrite !xtime_lxor. lxor_ac. Qed.
Lemma mul13_lxor x y : mul13 (Z.lxor x y) = Z.lxor (mul13 x) (mul13 y).
Proof. unfold mul13. rewrite !xtime_lxor. lxor_ac. Qed.
Lemma mul14_lxor x y : mul14 (Z.lxor x y) = Z.lxor (mul14 x) (mul14 y).
Proof. unfold mul14. rewrite !xtime_lxor. lxor_ac. Qed.

(** The contributions of one byte of a column to the four rows of
    InvMixColumns (MixColumns column): itself to its own row, nothing to the others. *)
Definition contrib (f2 f3 f1 f1' : Z → Z) (a : Z) : Z :=
  u8 (Z.lxor (Z.lxor (Z.lxor (Z.lxor (f2 (XT a)) (f3 a)) (f1 a)) (f1' a)) (f1' (XT a))).

Lemma contrib_own a : is_byte a → contrib mul14 mul11 mul13 mul9 a = a.
Proof. intros H. byte_table (λ a, contrib mul14 mul11 mul13 mul9 a =? a) a H. done. Qed.
Lemma contrib_next a : is_byte a → contrib mul11 mul13 mul9 mul14 a = 0.
Proof. intros H. byte_table (λ a, contrib mul11 mul13 mul9 mul14 a =? 0) a H. done. Qed.
Lemma contrib_opp a : is_byte a → contrib mul13 mul9 mul14 mul11 a = 0.
Proof. intros H. byte_table (λ a, contrib mul13 mul9 mul14 mul11 a =? 0) a H. done. Qed.
Lemma contrib_prev a : is_byte a → contrib mul9 mul14 mul11 mul13 a = 0.
Proof. intros H. byte_table (λ a, contrib mul9 mul14 mul11 mul13 a =? 0) a H. done. Qed.

Lemma inv_mix_row (f2 f3 f1 f1' : Z → Z) a0 a1 a2 a3 :
  (∀ x y, f2 (Z.lxor x y) = Z.lxor (f2 x) (f2 y)) →
  (∀ x y, f3 (Z.lxor x y) = Z.lxor (f3 x) (f3 y)) →
  (∀ x y, f1 (Z.lxor x y) = Z.lxor (f1 x) (f1 y)) →
  (∀ x y, f1' (Z.lxor x y) = Z.lxor (f1' x) (f1' y)) →
  u8 (Z.lxor (Z.lxor (Z.lxor
        (f2 (Z.lxor (Z.lxor (Z.lxor (Z.lxor (XT a0) (XT a1)) a1) a2) a3))
        (f3 (Z.lxor (Z.lxor (Z.lxor (Z.lxor a0 (XT a1)) (XT a2)) a2) a3)))
        (f1 (Z.lxor (Z.lxor (Z.lxor (Z.lxor a0 a1) (XT a2)) (XT a3)) a3)))
        (f1' (Z.lxor (Z.lxor (Z.lxor (Z.lxor (XT a0) a0) a1) a2) (XT a3)))) =
  Z.lxor (Z.lxor (Z.lxor (contrib f2 f3 f1 f1' a0) (contrib f3 f1 f1' f2 a1))
                 (contrib f1 f1' f2 f3 a2)) (contrib f1' f2 f3 f1 a3).
Proof.
  intros L2 L3 L1 L1'. unfold contrib. rewrite !L2, !L3, !L1, !L1', <-!u8_lxor. f_equal.
  lxor_ac.
Qed.

Definition inv_mix_mix (a0 a1 a2 a3 : Z) : list Z :=
  match mix_column a0 a1 a2 a3 with [r0; r1; r2; r3] => inv_mix_column r0 r1 r2 r3 | _ => [] end.

Lemma inv_mix_mix_column a0 a1 a2 a3 :
  is_byte a0 → is_byte a1 → is_byte a2 → is_byte a3 →
  inv_mix_mix a0 a1 a2 a3 = [a0; a1; a2; a3].
Proof.
  intros H0 H1 H2 H3. unfold inv_mix_mix, mix_column, inv_mix_column.
  repeat (apply (f_equal2 cons);
    [rewrite inv_mix_row by auto using mul9_lxor, mul11_lxor, mul13_lxor, mul14_lxor;
     rewrite ?contrib_own, ?contrib_next, ?contrib_opp, ?contrib_prev by done;
     by rewrite ?Z.lxor_0_r, ?Z.lxor_0_l|]).
  done.
Qed.

Lemma inv_mix_columns_mix s : is_block s → inv_mix_columns (mix_columns s) = s.
Proof.
  intros Hs. block_inv Hs.
  match goal with
  | |- _ = [?a0; ?a1; ?a2; ?a3; ?b0; ?b1; ?b2; ?b3; ?c0; ?c1; ?c2; ?c3; ?d0; ?d1; ?d2; ?d3] =>
      transitivity (inv_mix_mix a0 a1 a2 a3 ++ inv_mix_mix b0 b1 b2 b3 ++
                    inv_mix_mix c0 c1 c2 c3 ++ inv_mix_mix d0 d1 d2 d3); [reflexivity|]
  end.
  by rewrite !inv_mix_mix_column.
Qed.

Lemma inv_shift_rows_shift s : is_block s → inv_shift_rows (shift_rows s) = s.
Proof. intros Hs. by block_inv Hs. Qed.

Lemma inv_sub_bytes_sub s : is_block s → inv_sub_bytes (sub_bytes s) = s.
Proof.
  intros [_ Hb]. unfold inv_sub_bytes, sub_bytes. rewrite map_map.
  induction Hb as [|x s Hx _ IH]; simpl; [done|]. f_equal; [by apply sbox_fips|done].
Qed.

Lemma add_round_key_twice rk base s :
  add_round_key rk base (add_round_key rk base s) = s.
Proof.
  apply list_eq. intros i. unfold add_round_key. rewrite !list_lookup_imap.
  destruct (s !! i); simpl; [|done]. by rewrite lxor_cancel_r.
Qed.

(** The decryption schedule is the encryption schedule with its round keys reversed. *)
Lemma length_encrypt_key key : length (aes_set_encrypt_key key) = 44%nat.
Proof.
  unfold aes_set_encrypt_key.
  assert (∀ l rk, length (foldl expand_step rk l) = (length rk + length l)%nat) as ->; [|done].
  induction l as [|i l IH]; intros rk; simpl; [lia|].
  rewrite IH. unfold expand_step. rewrite length_app. simpl. lia.
Qed.

Lemma swap_round_keys rk :
  length rk = 44%nat →
  foldl swap_step rk (list_prod (seq 0 5) (seq 0 4)) =
  concat (map (λ r, take 4 (drop ((10 - r) * 4) rk)) (seq 0 11)).
Proof.
  intros Hl. do 44 (destruct rk as [|? rk]; [done|]). by destruct rk.
Qed.

Lemma decrypt_round_key key r i :
  (r ≤ 10)%nat → (i < 16)%nat →
  rk_byte (aes_set_decrypt_key key) (r * 4) i = rk_byte (aes_set_encrypt_key key) ((10 - r) * 4) i.
Proof.
  intros Hr Hi. unfold rk_byte, aes_set_decrypt_key.
  pose proof (length_encrypt_key key) as Hl. rewrite swap_round_keys by done.
  revert Hl. generalize (aes_set_encrypt_key key). intros rk Hl. do 2 f_equal.
  assert (i / 4 < 4)%nat as Hq by (apply Nat.Div0.div_lt_upper_bound; lia).
  revert Hq. generalize (i / 4)%nat. intros q Hq.
  do 44 (destruct rk as [|? rk]; [done|]). destruct rk; [|done].
  do 4 (destruct q as [|q]; [do 11 (destruct r as [|r]; [reflexivity|]); lia|]). lia.
Qed.

Lemma add_decrypt_key key r s :
  (r ≤ 10)%nat → is_block s →
  add_round_key (aes_set_decrypt_key key) (r * 4) s =
  add_round_key (aes_set_encrypt_key key) ((10 - r) * 4) s.
Proof.
  intros Hr [Hl _]. apply imap_ext. intros i x Hi%lookup_lt_Some.
  f_equal. apply decrypt_round_key; lia.
Qed.

Lemma aes_decrypt_encrypt key inp :
  is_block inp →
  aes_decrypt_block (aes_encrypt_block inp (aes_set_encrypt_key key)) (aes_set_decrypt_key key)
  = inp.
Proof.
  intros Hi. set (rk := aes_set_encrypt_key key).
  set (E r := foldl (aes_round rk) (add_round_key rk 0 inp) (seq 1 r)).
  assert (∀ r, is_block (E r)) as HE.
  { intros r. apply foldl_block; [intros; by apply aes_round_block|by apply add_round_key_block]. }
  assert (∀ r, E (S r) = aes_round rk (E r) (S r)) as HES.
  { intros r. unfold E. rewrite seq_S, foldl_app. done. }
  unfold aes_decrypt_block, aes_encrypt_block. fold (E 9%nat).
  change (add_round_key (aes_set_decrypt_key key) 0) with
    (add_round_key (aes_set_decrypt_key key) (0 * 4)).
  rewrite add_decrypt_key by
    (try lia; by apply add_round_key_block, shift_rows_block, sub_bytes_block).
  fold rk. change ((10 - 0) * 4)%nat with 40%nat. rewrite add_round_key_twice.
  assert (∀ r, (r ≤ 9)%nat →
    foldl (aes_inv_round (aes_set_decrypt_key key)) (shift_rows (sub_bytes (E 9%nat))) (seq 1 r)
    = shift_rows (sub_bytes (E (9 - r)%nat))) as Hrounds.
  { intros r. induction r as [|r IH]; intros Hr; [done|].
    rewrite seq_S, foldl_app, IH by lia. simpl foldl. unfold aes_inv_round.
    rewrite inv_shift_rows_shift, inv_sub_bytes_sub by auto using sub_bytes_block.
    change (1 + r)%nat with (S r). rewrite add_decrypt_key by (auto || lia). fold rk.
    replace (9 - r)%nat with (S (9 - S r))%nat by lia. rewrite HES. unfold aes_round.
    replace (10 - S r)%nat with (S (9 - S r))%nat by lia.
    rewrite add_round_key_twice, inv_mix_columns_mix by auto using shift_rows_block, sub_bytes_block.
    done. }
  rewrite Hrounds by lia.
  rewrite inv_shift_rows_shift, inv_sub_bytes_sub by auto using sub_bytes_block.
  change 40%nat with (10 * 4)%nat. rewrite add_decrypt_key by (auto || lia).
  apply add_round_key_twice.
Qed.

Lemma inv_shift_rows_block s : is_block s → is_block (inv_shift_rows s).
Proof. intros. apply pick_block; [done|done|]. forall_list lia. Qed.
Lemma inv_sub_bytes_block s : is_block s → is_block (inv_sub_bytes s).
Proof.
  intros [Hl Hb]. split; [unfold inv_sub_bytes; by rewrite length_map|].
  unfold inv_sub_bytes. rewrite Forall_map. eapply Forall_impl; [exact Hb|].
  intros x Hx. by apply inv_sbox_byte.
Qed.

(** Decryption keeps blocks blocks, whatever the block and the key. *)
Lemma inv_round_block rk s r : is_block s → is_block (aes_inv_round rk s r).
Proof.
  intros Hs. unfold aes_inv_round, inv_mix_columns.
  assert (is_block (add_round_key rk (r * 4) (inv_sub_bytes (inv_shift_rows s)))) as H.
  { by apply add_round_key_block, inv_sub_bytes_block, inv_shift_rows_block. }
  revert H. generalize (add_round_key rk (r * 4) (inv_sub_bytes (inv_shift_rows s))).
  intros t Ht. block_inv Ht. split; [done|]. cbn. forall_list ltac:(apply u8_is).
Qed.

Lemma aes_decrypt_block_block inp rk : is_block inp → is_block (aes_decrypt_block inp rk).
Proof.
  intros. apply add_round_key_block, inv_sub_bytes_block, inv_shift_rows_block, foldl_block.
  - intros. by apply inv_round_block.
  - by apply add_round_key_block.
Qed.

(** ** The theorems *)

(** C35: encryption with the schedule of aes_set_encrypt_key is the AES-128 cipher of
    FIPS-197, for every key and block. *)
Theorem aes_encrypt_fips197 key inp :
  is_block key → is_block inp →
  aes_encrypt_block inp (aes_set_encrypt_key key) = fips_cipher key inp.
Proof. apply aes_encrypt_block_fips. Qed.

(** C36: decryption with the schedule of aes_set_decrypt_key inverts encryption. *)
Theorem aes_roundtrip key inp :
  is_block inp →
  aes_decrypt_block (aes_encrypt_block inp (aes_set_encrypt_key key)) (aes_set_decrypt_key key)
  = inp.
Proof. apply aes_decrypt_encrypt. Qed.

(** The example of FIPS-197, appendix B. *)
Definition fips_key : list Z :=
  [0x2b; 0x7e; 0x15; 0x16; 0x28; 0xae; 0xd2; 0xa6; 0xab; 0xf7; 0x15; 0x88; 0x09; 0xcf; 0x4f; 0x3c].
Definition fips_input : list Z :=
  [0x32; 0x43; 0xf6; 0xa8; 0x88; 0x5a; 0x30; 0x8d; 0x31; 0x31; 0x98; 0xa2; 0xe0; 0x37; 0x07; 0x34].

Lemma aes_encrypt_fips197_witness :
  aes_encrypt_block fips_input (aes_set_encrypt_key fips_key) = fips_cipher fips_key fips_input ∧
  fips_cipher fips_key fips_input =
    [0x39; 0x25; 0x84; 0x1d; 0x02; 0xdc; 0x09; 0xfb; 0xdc; 0x11; 0x85; 0x97; 0x19; 0x6a; 0x0b; 0x32].
Proof.
  split; [|vm_compute; reflexivity].
  apply aes_encrypt_fips197; (split; [reflexivity|by apply byte_list_ok]).
Defined.

Lemma aes_roundtrip_witness :
  aes_decrypt_block (aes_encrypt_block fips_input (aes_set_encrypt_key fips_key))
    (aes_set_decrypt_key fips_key) = fips_input.
Proof. apply aes_roundtrip. split; [reflexivity|by apply byte_list_ok]. Defined.
