(* ===== verification/Client.v ===== *)
(** The data of [src/iwand.c]: the protocol constants, the configuration [config_t], the
    fragment slots and the client state [iwan_client_t]. *)
From S2P Require Import Prelude.

(** ** Packet types *)
Definition PKT_OPENREJ : Z := 0x11.
Definition PKT_OPENACK : Z := 0x12.
Definition PKT_OPEN : Z := 0x13.
Definition PKT_DATA : Z := 0x14.
Definition PKT_ECHOREQ : Z := 0x15.
Definition PKT_ECHORESP : Z := 0x16.
Definition PKT_CLOSE : Z := 0x17.
Definition PKT_DATA_ENC : Z := 0x18.
Definition PKT_IPFRAG : Z := 0x21.
Definition PKT_IPFRAG_SR : Z := 0x22.
Definition PKT_SEGRT : Z := 0x27.

(** ** Client states *)
Definition STATE_NOT_READY : Z := 0.
Definition STATE_DNS_NEEDED : Z := 2.
Definition STATE_IP_READY : Z := 3.
Definition STATE_AUTH_SENT : Z := 4.
Definition STATE_ESTABLISHED : Z := 5.
Definition STATE_CLOSED : Z := 6.

(** ** Timeouts and sizes *)
Definition AUTH_TIMEOUT : Z := 6.
Definition AUTH_RETRY_INTERVAL : Z := 2.
Definition DATA_TIMEOUT : Z := 15.
Definition MAX_PKT_SIZE : Z := 2048.
Definition HDR_SIZE : Z := 8.
Definition SIGN_SIZE : Z := 16.
Definition FRAG_SLOTS : nat := 10.
Definition FRAG_BUF_SIZE : Z := 2048.
Definition FRAG_CONTENT_SIZE : Z := 4096.
Definition FRAG_TIMEOUT : Z := 5.
Definition ETHPKT_SIZE : Z := 16.
Definition IFNAMSIZ : nat := 16.

(** ** [config_t] *)
Record config := mk_config {
  cfg_server : list Z;       (* char[64] *)
  cfg_username : list Z;     (* char[32] *)
  cfg_password : list Z;     (* char[32] *)
  cfg_tun_name : list Z;     (* char[IFNAMSIZ] *)
  cfg_port : Z;              (* uint16_t *)
  cfg_mtu : Z;               (* uint16_t *)
  cfg_encrypt : Z;           (* uint8_t *)
  cfg_pipeid : Z;            (* uint16_t *)
  cfg_pipeidx : Z;           (* uint16_t *)
  cfg_sr_count : Z;          (* uint8_t *)
  cfg_sr_links : list Z;     (* uint32_t[6] *)
  cfg_sr_encrypt_mode : Z;   (* uint8_t *)
  cfg_sr_password : list Z;  (* char[32] *)
  cfg_up_script : list Z;    (* char[256] *)
  cfg_down_script : list Z   (* char[256] *)
}.

#[export] Instance config_eta : Eta config := λ c,
  mk_config (cfg_server c) (cfg_username c) (cfg_password c) (cfg_tun_name c) (cfg_port c)
    (cfg_mtu c) (cfg_encrypt c) (cfg_pipeid c) (cfg_pipeidx c) (cfg_sr_count c)
    (cfg_sr_links c) (cfg_sr_encrypt_mode c) (cfg_sr_password c) (cfg_up_script c)
    (cfg_down_script c).

(** [memset(&g_cfg, 0, sizeof(g_cfg))]. *)
Definition config_zero : config :=
  mk_config (replicate 64 0) (replicate 32 0) (replicate 32 0) (replicate IFNAMSIZ 0)
    0 0 0 0 0 0 (replicate 6 0) 0 (replicate 32 0) (replicate 256 0) (replicate 256 0).

(** ** Fragment reassembly slots *)
Record frag := mk_frag {
  f_buf : list Z;     (* uint8_t[FRAG_BUF_SIZE] *)
  f_timestamp : Z;    (* uint32_t *)
  f_id : Z;           (* uint32_t *)
  f_off : Z;          (* uint16_t *)
  f_len : Z;          (* uint16_t *)
  f_in_use : Z        (* uint8_t *)
}.
#[export] Instance frag_eta : Eta frag := λ f,
  mk_frag (f_buf f) (f_timestamp f) (f_id f) (f_off f) (f_len f) (f_in_use f).

(** ** [iwan_client_t] *)
Record client := mk_client {
  c_state : Z;              (* uint8_t *)
  c_encrypt : Z;            (* uint8_t: server-confirmed encryption flag *)
  c_peer_dup_pkt : Z;       (* uint8_t *)
  c_peer_ip : Z;            (* uint32_t, host order *)
  c_dns0 : Z;               (* uint32_t, host order *)
  c_dns1 : Z;               (* uint32_t, host order *)
  c_server_mtu : Z;         (* uint16_t *)
  c_session_token : Z;      (* uint16_t holding wire bytes *)
  c_session_id : Z;         (* uint32_t holding wire bytes *)
  c_xor_key : list Z;       (* uint8_t[8] *)
  c_server_domain : list Z; (* char[64] *)
  c_server_addr : Z;        (* uint32_t, network order *)
  c_server_port : Z;        (* uint16_t, host order *)
  c_udp_fd : Z;             (* int *)
  c_tun_fd : Z;             (* int *)
  c_last_recv_time : Z;     (* uint32_t *)
  c_last_open_time : Z;     (* uint32_t *)
  c_echo_counter : Z;       (* uint32_t *)
  c_rx_pkts : Z;            (* uint32_t *)
  c_tx_pkts : Z;            (* uint32_t *)
  c_tun_rx : Z;             (* uint32_t *)
  c_tun_tx : Z;             (* uint32_t *)
  c_cur_delay : Z;          (* uint32_t *)
  c_min_delay : Z;          (* uint32_t *)
  c_max_delay : Z;          (* uint32_t *)
  c_rt_magic : Z;           (* uint32_t *)
  c_sr_decrypt_key : list Z; (* aes_key_t: uint32_t[44] *)
  c_sr_encrypt_key : list Z; (* aes_key_t: uint32_t[44] *)
  c_frags : list frag       (* [FRAG_SLOTS] *)
}.

#[export] Instance client_eta : Eta client := λ c,
  mk_client (c_state c) (c_encrypt c) (c_peer_dup_pkt c) (c_peer_ip c) (c_dns0 c) (c_dns1 c)
    (c_server_mtu c) (c_session_token c) (c_session_id c) (c_xor_key c) (c_server_domain c)
    (c_server_addr c) (c_server_port c) (c_udp_fd c) (c_tun_fd c) (c_last_recv_time c)
    (c_last_open_time c) (c_echo_counter c) (c_rx_pkts c) (c_tx_pkts c) (c_tun_rx c)
    (c_tun_tx c) (c_cur_delay c) (c_min_delay c) (c_max_delay c) (c_rt_magic c)
    (c_sr_decrypt_key c) (c_sr_encrypt_key c) (c_frags c).

Definition frag_zero : frag := mk_frag (replicate 2048 0) 0 0 0 0 0.

(** [memset(&g_clnt, 0, sizeof(g_clnt)); udp_fd = -1; tun_fd = -1; min_delay = 5000000]. *)
Definition client_init : client :=
  mk_client STATE_NOT_READY 0 0 0 0 0 0 0 0 (replicate 8 0) (replicate 64 0) 0 0 (-1) (-1)
    0 0 0 0 0 0 0 0 5000000 0 0 (replicate 44 0) (replicate 44 0)
    (replicate FRAG_SLOTS frag_zero).

(** ** Well-formedness

    What C's types and the program's own discipline guarantee of the two records. *)
Record cfg_ok (cfg : config) : Prop := {
  ok_server : is_cbuf 64 (cfg_server cfg);
  ok_username : is_cbuf 32 (cfg_username cfg);
  ok_password : is_cbuf 32 (cfg_password cfg);
  ok_tun_name : is_cbuf IFNAMSIZ (cfg_tun_name cfg);
  ok_port : is_u16 (cfg_port cfg);
  ok_mtu : is_u16 (cfg_mtu cfg);
  ok_cfg_encrypt : is_byte (cfg_encrypt cfg);
  ok_pipeid : 0 ≤ cfg_pipeid cfg ≤ 32767;
  ok_pipeidx : 0 ≤ cfg_pipeidx cfg ≤ 1;
  ok_sr_count : 0 ≤ cfg_sr_count cfg ≤ 6;
  ok_sr_links : length (cfg_sr_links cfg) = 6%nat ∧ Forall (is_u 32) (cfg_sr_links cfg);
  ok_sr_mode : 0 ≤ cfg_sr_encrypt_mode cfg ≤ 2;
  ok_sr_password : is_cbuf 32 (cfg_sr_password cfg);
  ok_up_script : is_cbuf 256 (cfg_up_script cfg);
  ok_down_script : is_cbuf 256 (cfg_down_script cfg)
}.

Record frag_ok (f : frag) : Prop := {
  ok_f_buf : length (f_buf f) = 2048%nat ∧ bytes (f_buf f);
  ok_f_timestamp : is_u32 (f_timestamp f);
  ok_f_len : 0 ≤ f_len f ≤ FRAG_BUF_SIZE
}.

Record client_ok (c : client) : Prop := {
  ok_encrypt : is_byte (c_encrypt c);
  ok_token : is_u16 (c_session_token c);
  ok_session_id : is_u32 (c_session_id c);
  ok_peer_ip : is_u32 (c_peer_ip c);
  ok_server_mtu : is_u16 (c_server_mtu c);
  ok_xor_key : length (c_xor_key c) = 8%nat ∧ bytes (c_xor_key c);
  ok_server_domain : is_cbuf 64 (c_server_domain c);
  ok_last_recv : is_u32 (c_last_recv_time c);
  ok_delays : is_u32 (c_cur_delay c) ∧ is_u32 (c_min_delay c) ∧ is_u32 (c_max_delay c);
  ok_frags : length (c_frags c) = FRAG_SLOTS ∧ Forall frag_ok (c_frags c)
}.

Lemma config_zero_ok : cfg_ok config_zero.
Proof.
  assert (∀ n, (0 < n)%nat → is_cbuf n (replicate n 0)) as H.
  { intros n Hn. split_and!; [apply length_replicate|by apply Forall_replicate, is_u_0|].
    apply lookup_replicate_2. lia. }
  split; cbn [config_zero cfg_server cfg_username cfg_password cfg_tun_name cfg_port cfg_mtu
    cfg_encrypt cfg_pipeid cfg_pipeidx cfg_sr_count cfg_sr_links cfg_sr_encrypt_mode
    cfg_sr_password cfg_up_script cfg_down_script];
    try (apply H; unfold IFNAMSIZ; lia); try (by apply is_u_0); try lia.
  split; [done|]. by apply Forall_replicate, is_u_0.
Qed.

Lemma frag_zero_ok : frag_ok frag_zero.
Proof. split; [split; [done|by apply Forall_replicate, is_u_0]|by apply is_u_0|done]. Qed.

Lemma client_init_ok : client_ok client_init.
Proof.
  assert (∀ n, bytes (replicate n 0)) as H by (intros n; by apply Forall_replicate, is_u_0).
  split; cbn [client_init c_encrypt c_session_token c_session_id c_peer_ip c_server_mtu c_xor_key
    c_server_domain c_last_recv_time c_cur_delay c_min_delay c_max_delay c_frags];
    try by apply is_u_0.
  - done.
  - split_and!; [done|apply H|done].
  - done.
  - split; [done|]. apply Forall_replicate, frag_zero_ok.
Qed.
