(* ===== verification/Config.v ===== *)
(** Loading the configuration, as in [src/iwand.c] (cfg_load, cfg_valid). *)
From S2P Require Import Prelude Libc Client.

(** ** Reading lines *)

Definition NL : Z := 10.
Definition CR : Z := 13.

(** [fgets] with room for [n] characters: what was read, what remains of the file, and
    whether the end of the file was hit ([feof]). *)
Fixpoint fgets (n : nat) (file : list Z) : list Z * list Z * bool :=
  match n with
  | O => ([], file, false)
  | S n' =>
      match file with
      | [] => ([], [], true)
      | x :: file' =>
          if x =? NL then ([x], file', false)
          else let '(l, rest, eof) := fgets n' file' in (x :: l, rest, eof)
      end
  end.

(** [while ((ch = fgetc(fp)) != EOF && ch != '\n');] *)
Fixpoint skip_line (file : list Z) : list Z :=
  match file with [] => [] | x :: file' => if x =? NL then file' else skip_line file' end.

(** ** One line *)

Definition is_blank (x : Z) : bool := (x =? 32) || (x =? 9).

Fixpoint strip_left (P : Z → bool) (s : list Z) : list Z :=
  match s with x :: s' => if P x then strip_left P s' else s | [] => [] end.
Definition strip_right (P : Z → bool) (s : list Z) : list Z := rev (strip_left P (rev s)).
Definition trim (s : list Z) : list Z := strip_right is_blank (strip_left is_blank s).

(** The string before the last [ch] ([strrchr]). *)
Definition split_last (ch : Z) (s : list Z) : option (list Z) :=
  match split_at ch (rev s) with (_, None) => None | (_, Some r) => Some (rev r) end.

Definition num (v lo hi : Z) : bool := (lo <=? v) && (v <=? hi).

(** The loop over the comma-separated items, while there is one and [g_cfg.sr_count < 6];
    every turn shortens [p]. *)
Fixpoint load_links (fuel : nat) (p : list Z) (cfg : config) : config :=
  match fuel with
  | O => cfg
  | S fuel' =>
      match p with
      | [] => cfg
      | _ =>
          if cfg_sr_count cfg <? 6 then
            let '(item, rest) := split_at COMMA p in
            let a := match inet_pton item with
                     | Some a => a | None => htonl (u32 (strtoul item)) end in
            let cfg := cfg <| cfg_sr_links := <[Z.to_nat (cfg_sr_count cfg) := a]> (cfg_sr_links cfg) |>
                           <| cfg_sr_count := u8 (cfg_sr_count cfg + 1) |> in
            match rest with None => cfg | Some p => load_links fuel' p cfg end
          else cfg
      end
  end.

(** The [if (strcmp(key, ...) == 0)] chain. *)
Definition set_key (cfg : config) (key val : list Z) : config :=
  let key_is s := bool_decide (key = lit s) in
  let copy dst := strncpy dst val (length dst - 1) in
  let v := strtoul val in
  if key_is "server" then cfg <| cfg_server := copy (cfg_server cfg) |>
  else if key_is "username" then cfg <| cfg_username := copy (cfg_username cfg) |>
  else if key_is "password" then cfg <| cfg_password := copy (cfg_password cfg) |>
  else if key_is "port" then if num v 1 65535 then cfg <| cfg_port := v |> else cfg
  else if key_is "mtu" then if num v 46 1600 then cfg <| cfg_mtu := v |> else cfg
  else if key_is "encrypt" then
    cfg <| cfg_encrypt := match val with x :: _ => if x =? 49 then 1 else 0 | [] => 0 end |>
  else if key_is "pipeid" then if v <=? 32767 then cfg <| cfg_pipeid := v |> else cfg
  else if key_is "pipeidx" then if v <=? 1 then cfg <| cfg_pipeidx := v |> else cfg
  else if key_is "srlinks" then load_links (S (length val)) val (cfg <| cfg_sr_count := 0 |>)
  else if key_is "srpassword" then cfg <| cfg_sr_password := copy (cfg_sr_password cfg) |>
  else if key_is "srencryptmode" then if v <=? 2 then cfg <| cfg_sr_encrypt_mode := v |> else cfg
  else if key_is "up_script" then cfg <| cfg_up_script := copy (cfg_up_script cfg) |>
  else if key_is "down_script" then cfg <| cfg_down_script := copy (cfg_down_script cfg) |>
  else cfg.

(** A section header: the name between the first '[' and the last ']' after it. *)
Definition set_section (cfg : config) (after_lb : list Z) : config :=
  match split_last 93 after_lb with
  | Some name => cfg <| cfg_tun_name := strncpy (cfg_tun_name cfg) name (IFNAMSIZ - 1) |>
  | None => cfg
  end.

(** The body of the loop for a line that was read whole, as a string. *)
Definition load_line (cfg : config) (line : list Z) : config :=
  match line with
  | [] => cfg
  | x :: _ =>
      if (x =? 35) || (x =? CR) || (x =? NL) then cfg else
      let line := strip_right (λ y, (y =? CR) || (y =? NL)) line in
      if len line <? 2 then cfg else
      match split_at 91 line with
      | (_, Some after_lb) => set_section cfg after_lb
      | (_, None) =>
          match split_at 61 line with
          | (_, None) => cfg
          | (key, Some val) => set_key cfg (trim key) (trim val)
          end
      end
  end.

(** ** The file *)

Fixpoint load_lines (fuel : nat) (file : list Z) (cfg : config) : config :=
  match fuel with
  | O => cfg
  | S fuel' =>
      let '(chars, rest, eof) := fgets 255 file in
      match chars with
      | [] => cfg
      | _ =>
          let line := c_str chars in
          if (0 <? len line) && negb (bool_decide (last line = Some NL)) && negb eof
          then load_lines fuel' (skip_line rest) cfg
          else load_lines fuel' rest (load_line cfg line)
      end
  end.

(** [None] is the failure of [fopen]. *)
Definition cfg_load (file : option (list Z)) (cfg : config) : option config :=
  f ← file; Some (load_lines (S (length f)) f cfg).

Definition cfg_valid (cfg : config) : bool :=
  if streq (cfg_tun_name cfg) [] then false
  else if streq (cfg_server cfg) [] then false
  else if streq (cfg_username cfg) [] then false
  else if streq (cfg_password cfg) [] then false
  else if (cfg_mtu cfg <? 46) || (1600 <? cfg_mtu cfg) then false
  else if cfg_port cfg =? 0 then false
  else true.

(** * Properties *)

(** ** Every file yields a well-formed configuration *)

Lemma strip_left_bytes P s : bytes s → bytes (strip_left P s).
Proof. induction 1 as [|x s Hx Hs IH]; simpl; [done|]. case_match; [done|]. by constructor. Qed.
Lemma bytes_rev s : bytes s → bytes (rev s).
Proof. rewrite !Forall_forall. intros Hs x Hx. apply Hs. apply list_elem_of_In. apply in_rev.
  by apply list_elem_of_In. Qed.
Lemma strip_right_bytes P s : bytes s → bytes (strip_right P s).
Proof. intros. by apply bytes_rev, strip_left_bytes, bytes_rev. Qed.
Lemma trim_bytes s : bytes s → bytes (trim s).
Proof. intros. by apply strip_right_bytes, strip_left_bytes. Qed.

Lemma split_at_bytes ch s : bytes s →
  bytes (split_at ch s).1 ∧ ∀ r, (split_at ch s).2 = Some r → bytes r.
Proof.
  induction 1 as [|x s Hx Hs [IH1 IH2]]; simpl; [done|].
  destruct (x =? ch); simpl; [split; [done|by intros r [= <-]]|].
  destruct (split_at ch s) as [a r]; simpl in *. split; [by constructor|done].
Qed.

Lemma split_last_bytes ch s r : bytes s → split_last ch s = Some r → bytes r.
Proof.
  unfold split_last. intros Hs. pose proof (split_at_bytes ch (rev s) (bytes_rev _ Hs)) as [_ H].
  destruct (split_at ch (rev s)) as [a [r'|]]; [|done]. intros [= <-].
  by apply bytes_rev, H.
Qed.

Lemma fgets_split n file : ∀ l rest eof, fgets n file = (l, rest, eof) →
  file = l ++ rest ∧ (length l ≤ n)%nat.
Proof.
  revert file. induction n as [|n IH]; intros file l rest eof; simpl.
  - intros [= <- <- <-]. split; [done|simpl; lia].
  - destruct file as [|x file]; [intros [= <- <- <-]; split; [done|simpl; lia]|].
    destruct (x =? NL); [intros [= <- <- <-]; split; [done|simpl; lia]|].
    destruct (fgets n file) as [[l' rest'] eof'] eqn:E. intros [= <- <- <-].
    destruct (IH _ _ _ _ E) as [-> ?]. split; [done|simpl; lia].
Qed.

Lemma skip_line_suffix file : ∃ l, file = l ++ skip_line file.
Proof.
  induction file as [|x file [l IH]]; simpl; [by exists []|].
  destruct (x =? NL); [by exists [x]|]. exists (x :: l). simpl. by rewrite <-IH.
Qed.

(** Copying into one of the string fields. *)
Lemma copy_ok n dst val : is_cbuf n dst → bytes val → is_cbuf n (strncpy dst val (length dst - 1)).
Proof. intros Hd Hv. pose proof Hd as (Hl & _ & _). rewrite Hl. by apply is_cbuf_strncpy. Qed.

Ltac cfg_update := let H := fresh in intros H; destruct H; split; cbn; try assumption.

Lemma load_links_ok fuel p cfg : cfg_ok cfg → cfg_ok (load_links fuel p cfg).
Proof.
  revert p cfg. induction fuel as [|fuel IH]; intros p cfg Hcfg; [done|].
  cbn [load_links]. destruct p as [|x p]; [done|].
  destruct (Z.ltb_spec (cfg_sr_count cfg) 6) as [Hc|]; [|done].
  destruct (split_at COMMA (x :: p)) as [item rest].
  set (a := match inet_pton item with Some a => a | None => _ end).
  assert (is_u32 a) as Ha.
  { unfold a. destruct (inet_pton item) as [b|] eqn:Eb; [by eapply inet_pton_u32|].
    unfold htonl. pose proof (le_decode_is_u (be_encode 4 (u32 (strtoul item)))
      (be_encode_bytes _ _)) as Hu. by rewrite len_be_encode in Hu. }
  clearbody a. set (cfg' := cfg <| cfg_sr_links := _ |> <| cfg_sr_count := _ |>).
  assert (cfg_ok cfg') as Hcfg'.
  { revert Hcfg. cfg_update.
    - change (0 ≤ u8 (cfg_sr_count cfg + 1) ≤ 6). rewrite u8_id by (unfold is_u; lia). lia.
    - change (length (<[Z.to_nat (cfg_sr_count cfg):=a]> (cfg_sr_links cfg)) = 6%nat ∧
        Forall (is_u 32) (<[Z.to_nat (cfg_sr_count cfg):=a]> (cfg_sr_links cfg))).
      destruct ok_sr_links as [Hl Hf]. split; [by rewrite length_insert|]. by apply Forall_insert. }
  destruct rest; [by apply IH|done].
Qed.

Lemma set_key_ok cfg key val : bytes val → cfg_ok cfg → cfg_ok (set_key cfg key val).
Proof.
  intros Hv Hcfg. unfold set_key, num. pose proof (strtoul_bound val) as [Hv0 _].
  repeat match goal with
  | |- cfg_ok (if bool_decide ?P then _ else _) => destruct (bool_decide P)
  end; try done;
  try (revert Hcfg; cfg_update; by apply copy_ok).
  - destruct (_ && _) eqn:E; [|done]. rewrite andb_true_iff, !Z.leb_le in E.
    revert Hcfg. cfg_update. change (is_u16 (strtoul val)). unfold is_u. lia.
  - destruct (_ && _) eqn:E; [|done]. rewrite andb_true_iff, !Z.leb_le in E.
    revert Hcfg. cfg_update. change (is_u16 (strtoul val)). unfold is_u. lia.
  - revert Hcfg. cfg_update.
    change (is_byte (match val with x :: _ => if x =? 49 then 1 else 0 | [] => 0 end)).
    destruct val as [|x val]; [done|]. by destruct (x =? 49).
  - destruct (Z.leb_spec (strtoul val) 32767); [|done]. revert Hcfg. cfg_update.
    change (0 ≤ strtoul val ≤ 32767). lia.
  - destruct (Z.leb_spec (strtoul val) 1); [|done]. revert Hcfg. cfg_update.
    change (0 ≤ strtoul val ≤ 1). lia.
  - apply load_links_ok. revert Hcfg. cfg_update. change (0 ≤ 0 ≤ 6). lia.
  - destruct (Z.leb_spec (strtoul val) 2); [|done]. revert Hcfg. cfg_update.
    change (0 ≤ strtoul val ≤ 2). lia.
Qed.

Lemma load_line_ok cfg line : bytes line → cfg_ok cfg → cfg_ok (load_line cfg line).
Proof.
  intros Hb Hcfg. unfold load_line. destruct line as [|x line]; [done|].
  destruct (_ || _); [done|]. set (s := strip_right _ _).
  assert (bytes s) as Hs by (by apply strip_right_bytes).
  destruct (len s <? 2); [done|].
  pose proof (split_at_bytes 91 s Hs) as [_ Hlb].
  destruct (split_at 91 s) as [a [after|]].
  - unfold set_section. destruct (split_last 93 after) as [name|] eqn:En; [|done].
    apply split_last_bytes in En; [|by apply Hlb].
    revert Hcfg. cfg_update. by apply is_cbuf_strncpy.
  - pose proof (split_at_bytes 61 s Hs) as [_ Hval].
    destruct (split_at 61 s) as [key [val|]]; [|done].
    apply set_key_ok; [|done]. by apply trim_bytes, Hval.
Qed.

Lemma load_lines_ok fuel file cfg :
  bytes file → cfg_ok cfg → cfg_ok (load_lines fuel file cfg).
Proof.
  revert file cfg. induction fuel as [|fuel IH]; intros file cfg Hb Hcfg; [done|].
  cbn [load_lines]. destruct (fgets 255 file) as [[chars rest] eof] eqn:E.
  destruct (fgets_split _ _ _ _ _ E) as [-> _]. apply Forall_app in Hb as [Hc Hr].
  destruct chars as [|x chars]; [done|]. cbv zeta. destruct (_ && _ && _).
  - apply IH; [|done]. destruct (skip_line_suffix rest) as [l Hl].
    rewrite Hl in Hr. by apply Forall_app in Hr as [_ ?].
  - apply IH; [done|]. apply load_line_ok; [by apply c_str_bytes|done].
Qed.

(** Fuel beyond the length of the file changes nothing: every line consumes a byte. *)
Lemma load_lines_fuel f1 f2 file cfg :
  (length file < f1)%nat → (length file < f2)%nat →
  load_lines f1 file cfg = load_lines f2 file cfg.
Proof.
  revert f2 file cfg. induction f1 as [|f1 IH]; intros [|f2] file cfg H1 H2; try lia.
  cbn [load_lines]. destruct (fgets 255 file) as [[chars rest] eof] eqn:E.
  destruct (fgets_split _ _ _ _ _ E) as [-> _]. destruct chars as [|x chars]; [done|].
  rewrite length_app in H1, H2. simpl in H1, H2. cbv zeta. destruct (_ && _ && _).
  - destruct (skip_line_suffix rest) as [l Hl].
    assert (length rest = length l + length (skip_line rest))%nat as Hlr
      by (rewrite Hl at 1; by rewrite length_app).
    apply IH; lia.
  - apply IH; lia.
Qed.

(** ** Written configurations are read back *)

(** A [key=value] line, and a configuration file in the order of the documentation. *)
Definition kv_line (key val : list Z) : list Z := key ++ 61 :: val ++ [NL].
Definition section_line (name : list Z) : list Z := 91 :: name ++ [93; NL].

Definition config_file (tun server user pass : list Z) (port mtu encrypt pipeid pipeidx : Z)
  : list Z :=
  section_line tun ++
  kv_line (lit "server") server ++ kv_line (lit "username") user ++
  kv_line (lit "password") pass ++ kv_line (lit "port") (dec port) ++
  kv_line (lit "mtu") (dec mtu) ++ kv_line (lit "encrypt") (dec encrypt) ++
  kv_line (lit "pipeid") (dec pipeid) ++ kv_line (lit "pipeidx") (dec pipeidx).

(** A character a value may contain anywhere; a value that survives the trimming. *)
Definition plain_char (x : Z) : bool :=
  negb (existsb (Z.eqb x) [0; NL; CR; 91; 93]) && byteb x.
Definition plain_value (n : nat) (v : list Z) : Prop :=
  v ≠ [] ∧ (length v ≤ n)%nat ∧ forallb plain_char v = true ∧
  head v ≠ Some 32 ∧ head v ≠ Some 9 ∧ last v ≠ Some 32 ∧ last v ≠ Some 9.
Definition key_char (x : Z) : bool := ((97 <=? x) && (x <=? 122)) || (x =? 95).
Definition plain_key (k : list Z) : Prop :=
  k ≠ [] ∧ (length k ≤ 20)%nat ∧ forallb key_char k = true.

Lemma plain_char_spec x : plain_char x = true →
  is_byte x ∧ x ≠ 0 ∧ x ≠ NL ∧ x ≠ CR ∧ x ≠ 91 ∧ x ≠ 93.
Proof.
  unfold plain_char. rewrite andb_true_iff, negb_true_iff, byteb_spec. cbn [existsb].
  rewrite !orb_false_iff, !Z.eqb_neq. tauto.
Qed.

Lemma key_plain k : forallb key_char k = true →
  forallb plain_char k = true ∧ Forall (λ x, x ≠ 61 ∧ is_blank x = false ∧ x ≠ 35) k.
Proof.
  intros Hk. rewrite forallb_forall in Hk. split.
  - apply forallb_forall. intros x Hx%Hk. unfold key_char in Hx.
    rewrite orb_true_iff, andb_true_iff, !Z.leb_le, Z.eqb_eq in Hx.
    unfold plain_char. rewrite andb_true_iff, negb_true_iff, byteb_spec. cbn [existsb].
    rewrite !orb_false_iff, !Z.eqb_neq. unfold NL, CR, is_u. lia.
  - apply Forall_forall. intros x Hx%list_elem_of_In%Hk. unfold key_char in Hx.
    rewrite orb_true_iff, andb_true_iff, !Z.leb_le, Z.eqb_eq in Hx.
    unfold is_blank. rewrite orb_false_iff, !Z.eqb_neq. lia.
Qed.

Lemma fgets_line l rest n :
  Forall (λ x, x ≠ NL) l → (length l < n)%nat → fgets n (l ++ NL :: rest) = (l ++ [NL], rest, false).
Proof.
  revert n. induction l as [|x l IH]; intros [|n] Hl Hn; simpl in *; try lia; [done|].
  apply Forall_cons in Hl as [Hx Hl]. rewrite (proj2 (Z.eqb_neq _ _) Hx).
  by rewrite IH by (done || lia).
Qed.

Lemma strip_left_id P s : (∀ x, head s = Some x → P x = false) → strip_left P s = s.
Proof. destruct s as [|x s]; [done|]. intros Hs. simpl. by rewrite Hs. Qed.
Lemma strip_right_id P s : (∀ x, last s = Some x → P x = false) → strip_right P s = s.
Proof.
  intros Hs. unfold strip_right. rewrite strip_left_id; [apply rev_involutive|].
  intros x. rewrite <-(rev_involutive s), rev_alt in Hs. fold (reverse (rev s)) in Hs.
  rewrite last_reverse in Hs. apply Hs.
Qed.
Lemma strip_right_snoc P s x : P x = true → strip_right P (s ++ [x]) = strip_right P s.
Proof. intros Hx. unfold strip_right. rewrite rev_app_distr. simpl. by rewrite Hx. Qed.

Lemma split_at_absent ch s : Forall (λ x, x ≠ ch) s → split_at ch s = (s, None).
Proof.
  induction 1 as [|x s Hx _ IH]; simpl; [done|]. by rewrite (proj2 (Z.eqb_neq _ _) Hx), IH.
Qed.
Lemma split_at_first ch a s : Forall (λ x, x ≠ ch) a → split_at ch (a ++ ch :: s) = (a, Some s).
Proof.
  induction 1 as [|x a Hx _ IH]; simpl; [by rewrite Z.eqb_refl|].
  by rewrite (proj2 (Z.eqb_neq _ _) Hx), IH.
Qed.

Lemma plain_forall (Q : Z → Prop) v :
  (∀ x, plain_char x = true → Q x) → forallb plain_char v = true → Forall Q v.
Proof.
  intros HQ Hv. rewrite forallb_forall in Hv. apply Forall_forall.
  intros x Hx%list_elem_of_In. auto.
Qed.

(** A complete line whose content is plain is read whole. *)
Lemma load_lines_line fuel s rest cfg :
  Forall (λ x, x ≠ 0 ∧ x ≠ NL) s → (length s < 255)%nat →
  load_lines (S fuel) (s ++ NL :: rest) cfg = load_lines fuel rest (load_line cfg (s ++ [NL])).
Proof.
  intros Hs Hl. cbn [load_lines]. rewrite fgets_line; [| |done].
  2:{ eapply Forall_impl; [exact Hs|]. by intros x [_ ?]. }
  rewrite c_str_id, last_snoc, bool_decide_eq_true_2, andb_false_r by
    (done || (apply Forall_app; split; [eapply Forall_impl; [exact Hs|]; by intros x [? _]|by constructor])).
  cbn [andb]. destruct (s ++ [NL]) eqn:E; [by destruct s|done].
Qed.

Lemma Forall_head {A} (P : A → Prop) s x : Forall P s → head s = Some x → P x.
Proof. destruct 1; simpl; [done|]. by intros [= <-]. Qed.
Lemma Forall_last {A} (P : A → Prop) s x : Forall P s → last s = Some x → P x.
Proof. intros Hs Hx. rewrite Forall_forall in Hs. apply Hs. by apply last_Some_elem_of. Qed.

Lemma trim_id s :
  (∀ x, head s = Some x ∨ last s = Some x → is_blank x = false) → trim s = s.
Proof.
  intros Hs. unfold trim. rewrite strip_left_id by auto. apply strip_right_id. auto.
Qed.

Lemma trim_value n v : plain_value n v → trim v = v.
Proof.
  intros (_ & _ & _ & H1 & H2 & H3 & H4). apply trim_id. intros x Hx. unfold is_blank.
  rewrite orb_false_iff, !Z.eqb_neq. split; intros ->; destruct Hx; congruence.
Qed.

Lemma load_line_kv k v n cfg :
  plain_key k → plain_value n v → load_line cfg (k ++ 61 :: v ++ [NL]) = set_key cfg k v.
Proof.
  intros (Hk & _ & Hkc) Hval. pose proof (trim_value n v Hval) as Htv.
  destruct Hval as (Hv & _ & Hvc & _). destruct (key_plain k Hkc) as [Hkp Hk61].
  assert (trim k = k) as Htk.
  { apply trim_id. intros x [Hx|Hx];
      [apply (Forall_head _ _ _ Hk61) in Hx|apply (Forall_last _ _ _ Hk61) in Hx]; tauto. }
  assert (∀ x, plain_char x = true → x ≠ CR ∧ x ≠ NL ∧ x ≠ 91) as Hpc
    by (intros x Hx%plain_char_spec; tauto).
  assert (Forall (λ x, x ≠ CR ∧ x ≠ NL ∧ x ≠ 91) (k ++ 61 :: v)) as Hall.
  { apply Forall_app. split; [by eapply plain_forall|].
    constructor; [done|by eapply plain_forall]. }
  change (61 :: v ++ [NL]) with ((61 :: v) ++ [NL]). rewrite app_assoc.
  unfold load_line. destruct ((k ++ 61 :: v) ++ [NL]) as [|x s] eqn:E; [by destruct k|].
  assert (head k = Some x) as Hx by (destruct k; [done|]; simpl in *; congruence).
  pose proof (Forall_head _ _ _ Hk61 Hx) as (_ & _ & H35).
  assert (x ≠ CR ∧ x ≠ NL ∧ x ≠ 91) as (Hcr & Hnl & _).
  { apply (Forall_head (λ x, x ≠ CR ∧ x ≠ NL ∧ x ≠ 91) k); [by eapply plain_forall|done]. }
  rewrite (proj2 (Z.eqb_neq _ _) H35), (proj2 (Z.eqb_neq _ _) Hcr), (proj2 (Z.eqb_neq _ _) Hnl).
  cbn [orb]. rewrite <-E, strip_right_snoc by done. rewrite strip_right_id.
  2:{ intros y Hy. pose proof (Forall_last _ _ _ Hall Hy) as (H1 & H2 & _).
      by rewrite orb_false_iff, !Z.eqb_neq. }
  assert (2 ≤ len (k ++ 61 :: v)) as Hlen.
  { rewrite len_app, len_cons. destruct k, v; try done. unfold len. simpl. lia. }
  rewrite (proj2 (Z.ltb_ge _ 2)), split_at_absent by
    (done || (eapply Forall_impl; [exact Hall|]; by intros y (_ & _ & ?))).
  rewrite split_at_first, Htk, Htv; [done|]. eapply Forall_impl; [exact Hk61|]. by intros y [? _].
Qed.

Lemma load_lines_kv fuel k v n rest cfg :
  plain_key k → plain_value n v → (n ≤ 200)%nat →
  load_lines (S fuel) (kv_line k v ++ rest) cfg = load_lines fuel rest (set_key cfg k v).
Proof.
  intros Hk Hv Hn. rewrite <-(load_line_kv k v n) by done.
  assert (kv_line k v ++ rest = (k ++ 61 :: v) ++ NL :: rest) as ->.
  { unfold kv_line. rewrite <-!app_assoc. simpl. by rewrite <-app_assoc. }
  rewrite load_lines_line; [by rewrite <-app_assoc| |].
  - destruct Hk as (_ & _ & Hk), Hv as (_ & _ & Hv & _). apply key_plain in Hk as [Hk _].
    assert (∀ x, plain_char x = true → x ≠ 0 ∧ x ≠ NL) as Hpc
      by (intros x Hx%plain_char_spec; tauto).
    apply Forall_app. split; [by eapply plain_forall|]. constructor; [done|by eapply plain_forall].
  - destruct Hk as (_ & Hk & _), Hv as (_ & Hv & _). rewrite length_app. simpl. lia.
Qed.

Lemma load_lines_section fuel name n rest cfg :
  plain_value n name → (n ≤ 200)%nat →
  load_lines (S fuel) (section_line name ++ rest) cfg =
  load_lines fuel rest (cfg <| cfg_tun_name := strncpy (cfg_tun_name cfg) name (IFNAMSIZ - 1) |>).
Proof.
  intros (_ & Hl & Hc & _) Hn.
  assert (section_line name ++ rest = (91 :: name ++ [93]) ++ NL :: rest) as ->.
  { unfold section_line. simpl. by rewrite <-!app_assoc. }
  assert (∀ x, plain_char x = true → x ≠ 0 ∧ x ≠ NL) as Hpc
    by (intros x Hx%plain_char_spec; tauto).
  rewrite load_lines_line.
  2:{ constructor; [done|]. apply Forall_app. split; [by eapply plain_forall|by constructor]. }
  2:{ simpl. rewrite length_app. simpl. lia. }
  f_equal. unfold load_line. cbn [app]. cbn [Z.eqb Pos.eqb CR NL orb].
  change (91 :: (name ++ [93]) ++ [NL]) with ((91 :: name ++ [93]) ++ [NL]).
  rewrite strip_right_snoc by done. rewrite strip_right_id.
  2:{ intros x. change (91 :: name ++ [93]) with ((91 :: name) ++ [93]). rewrite last_snoc.
      by intros [= <-]. }
  rewrite (proj2 (Z.ltb_ge _ 2)) by (rewrite len_cons, len_app; unfold len; simpl; lia).
  cbn [split_at Z.eqb Pos.eqb]. unfold set_section, split_last.
  rewrite rev_app_distr. cbn [rev app split_at Z.eqb Pos.eqb]. by rewrite rev_involutive.
Qed.

(** Printed numbers are plain values. *)
Lemma dec_value n (k : nat) :
  (0 < k)%nat → 0 ≤ n < 10 ^ Z.of_nat k → plain_value k (dec n).
Proof.
  intros Hk Hn. destruct (dec_digits n ltac:(lia)) as (_ & Hd & Hne).
  assert (∀ x, is_digit x = true → plain_char x = true ∧ x ≠ 32 ∧ x ≠ 9) as Hc.
  { intros x Hx. unfold is_digit in Hx. rewrite andb_true_iff, !Z.leb_le in Hx.
    unfold plain_char. rewrite andb_true_iff, negb_true_iff, byteb_spec. cbn [existsb].
    rewrite !orb_false_iff, !Z.eqb_neq. unfold NL, CR, is_u. lia. }
  assert (Forall (λ x, x ≠ 32 ∧ x ≠ 9) (dec n)) as Hb.
  { rewrite forallb_forall in Hd. apply Forall_forall. intros x Hx%list_elem_of_In%Hd%Hc. tauto. }
  split_and!; [done|by apply dec_length| |..].
  - apply forallb_forall. intros x Hx. rewrite forallb_forall in Hd. by apply Hc, Hd.
  - intros Hx. by apply (Forall_head _ _ _ Hb) in Hx as [? _].
  - intros Hx. by apply (Forall_head _ _ _ Hb) in Hx as [_ ?].
  - intros Hx. by apply (Forall_last _ _ _ Hb) in Hx as [? _].
  - intros Hx. by apply (Forall_last _ _ _ Hb) in Hx as [_ ?].
Qed.

Lemma plain_key_lit s :
  forallb key_char (lit s) && (length (lit s) <=? 20)%nat && negb (length (lit s) =? 0)%nat = true →
  plain_key (lit s).
Proof.
  rewrite !andb_true_iff, negb_true_iff, Nat.eqb_neq, Nat.leb_le. intros [[? ?] Hne].
  split_and!; [|done|done]. intros E. by rewrite E in Hne.
Qed.

Lemma plain_value_le n m v : (n ≤ m)%nat → plain_value n v → plain_value m v.
Proof. intros Hn (?&?&?&?&?&?&?). split_and!; try done. lia. Qed.

Lemma plain_c_str n v : plain_value n v → c_str v = v.
Proof.
  intros (_ & _ & Hc & _). apply c_str_id. eapply plain_forall; [|done].
  intros x Hx%plain_char_spec. tauto.
Qed.

(** A field of size [m + 1] after copying a plain value that fits. *)
Lemma copied dst (m n : nat) v :
  is_cbuf (S m) dst → plain_value n v → (n ≤ m)%nat → c_str (strncpy dst v m) = v.
Proof.
  intros (_ & _ & H0) Hv Hn. rewrite Nat.sub_succ, Nat.sub_0_r in H0.
  rewrite c_str_strncpy, (plain_c_str _ _ Hv) by done.
  apply take_ge. destruct Hv as (_ & Hl & _). lia.
Qed.

Lemma streq_nil b : streq b [] = bool_decide (c_str b = []).
Proof. unfold streq. by apply bool_decide_ext. Qed.

(** What the keys of a file in the documented form do. *)
Lemma set_key_string cfg v :
  set_key cfg (lit "server") v =
    cfg <| cfg_server := strncpy (cfg_server cfg) v (length (cfg_server cfg) - 1) |> ∧
  set_key cfg (lit "username") v =
    cfg <| cfg_username := strncpy (cfg_username cfg) v (length (cfg_username cfg) - 1) |> ∧
  set_key cfg (lit "password") v =
    cfg <| cfg_password := strncpy (cfg_password cfg) v (length (cfg_password cfg) - 1) |>.
Proof. done. Qed.

Section numeric_keys.
Implicit Types (cfg : config) (n : Z).

Lemma strtoul_dec_u16 n : 0 ≤ n ≤ 65535 → strtoul (dec n) = n.
Proof. intros Hn. apply strtoul_dec. unfold ULONG_MAX. lia. Qed.

Lemma set_key_port cfg n :
  1 ≤ n ≤ 65535 → set_key cfg (lit "port") (dec n) = cfg <| cfg_port := n |>.
Proof.
  intros Hn. transitivity (if num (strtoul (dec n)) 1 65535
                           then cfg <| cfg_port := strtoul (dec n) |> else cfg); [done|].
  rewrite strtoul_dec_u16 by lia. unfold num. by rewrite !(proj2 (Z.leb_le _ _)) by lia.
Qed.

Lemma set_key_mtu cfg n :
  46 ≤ n ≤ 1600 → set_key cfg (lit "mtu") (dec n) = cfg <| cfg_mtu := n |>.
Proof.
  intros Hn. transitivity (if num (strtoul (dec n)) 46 1600
                           then cfg <| cfg_mtu := strtoul (dec n) |> else cfg); [done|].
  rewrite strtoul_dec_u16 by lia. unfold num. by rewrite !(proj2 (Z.leb_le _ _)) by lia.
Qed.

Lemma set_key_encrypt cfg n :
  0 ≤ n ≤ 1 → set_key cfg (lit "encrypt") (dec n) = cfg <| cfg_encrypt := n |>.
Proof. intros Hn. assert (n = 0 ∨ n = 1) as [-> | ->] by lia; done. Qed.

Lemma set_key_pipeid cfg n :
  0 ≤ n ≤ 32767 → set_key cfg (lit "pipeid") (dec n) = cfg <| cfg_pipeid := n |>.
Proof.
  intros Hn. transitivity (if strtoul (dec n) <=? 32767
                           then cfg <| cfg_pipeid := strtoul (dec n) |> else cfg); [done|].
  rewrite strtoul_dec_u16 by lia. by rewrite (proj2 (Z.leb_le _ _)) by lia.
Qed.

Lemma set_key_pipeidx cfg n :
  0 ≤ n ≤ 1 → set_key cfg (lit "pipeidx") (dec n) = cfg <| cfg_pipeidx := n |>.
Proof.
  intros Hn. transitivity (if strtoul (dec n) <=? 1
                           then cfg <| cfg_pipeidx := strtoul (dec n) |> else cfg); [done|].
  rewrite strtoul_dec_u16 by lia. by rewrite (proj2 (Z.leb_le _ _)) by lia.
Qed.
End numeric_keys.

Lemma strip_left_elem P s x : P x = false → x ∈ s → x ∈ strip_left P s.
Proof.
  intros HP. induction s as [|y s IH]; simpl; [done|]. intros Hx.
  destruct (P y) eqn:E; [|done]. apply elem_of_cons in Hx as [->|?]; [congruence|auto].
Qed.

Lemma split_at_elem ch s : ch ∈ s → ∃ a r, split_at ch s = (a, Some r).
Proof.
  induction s as [|y s IH]; [by intros ?%elem_of_nil|]. intros Hx. simpl.
  destruct (Z.eqb_spec y ch); [eauto|]. apply elem_of_cons in Hx as [->|Hx]; [done|].
  destruct (IH Hx) as (a & r & ->). eauto.
Qed.

(** ** The theorems *)

Lemma cfg_valid_iff cfg :
  cfg_valid cfg = true ↔
  c_str (cfg_tun_name cfg) ≠ [] ∧ c_str (cfg_server cfg) ≠ [] ∧ c_str (cfg_username cfg) ≠ [] ∧
  c_str (cfg_password cfg) ≠ [] ∧ 46 ≤ cfg_mtu cfg ≤ 1600 ∧ cfg_port cfg ≠ 0.
Proof.
  unfold cfg_valid. rewrite !streq_nil.
  repeat case_bool_decide; try (split; [done|tauto]).
  destruct (Z.ltb_spec (cfg_mtu cfg) 46), (Z.ltb_spec 1600 (cfg_mtu cfg)),
    (Z.eqb_spec (cfg_port cfg) 0); cbn [orb]; (split; [done || (intros _; tauto || (split_and!; (done || lia)))|try lia; try tauto]).
Qed.

(** C39: loading any file whatsoever yields a configuration whose strings are terminated inside
    their buffers and whose numbers are in range. *)
Theorem cfg_load_ok file :
  bytes file → ∃ cfg, cfg_load (Some file) config_zero = Some cfg ∧ cfg_ok cfg.
Proof.
  intros Hb. eexists. split; [done|]. apply load_lines_ok; [done|apply config_zero_ok].
Qed.


(** A line with a '[' anywhere is taken for a section header: whatever key it sets, it
    changes nothing but the device name. *)
Theorem load_line_bracket cfg line :
  91 ∈ line → ∃ name, load_line cfg line = cfg <| cfg_tun_name := name |>.
Proof.
  intros Hin. assert (cfg = cfg <| cfg_tun_name := cfg_tun_name cfg |>) as Hid by by destruct cfg.
  unfold load_line. destruct line as [|x line]; [by exists (cfg_tun_name cfg)|].
  destruct (_ || _); [by exists (cfg_tun_name cfg)|].
  set (s := strip_right _ _). destruct (len s <? 2); [by exists (cfg_tun_name cfg)|].
  assert (91 ∈ s) as Hs.
  { unfold s, strip_right. apply list_elem_of_In, in_rev. rewrite rev_involutive.
    apply list_elem_of_In, strip_left_elem; [done|].
    apply list_elem_of_In, in_rev. rewrite rev_involutive. by apply list_elem_of_In. }
  destruct (split_at_elem 91 s Hs) as (a & after & ->).
  unfold set_section. destruct (split_last 93 after) as [name|]; [eauto|by exists (cfg_tun_name cfg)].
Qed.

(** A configuration is accepted exactly when it names a device, a server, a user and a
    password, its MTU is between 46 and 1600 and its port is not 0. *)
Theorem cfg_valid_spec cfg :
  cfg_valid cfg = true ↔
  c_str (cfg_tun_name cfg) ≠ [] ∧ c_str (cfg_server cfg) ≠ [] ∧ c_str (cfg_username cfg) ≠ [] ∧
  c_str (cfg_password cfg) ≠ [] ∧ 46 ≤ cfg_mtu cfg ≤ 1600 ∧ cfg_port cfg ≠ 0.
Proof. apply cfg_valid_iff. Qed.

(** ** Witnesses *)

Lemma cfg_load_ok_witness :
  ∃ cfg, cfg_load (Some (lit "# iwand
[iwan0]
port = 70000
mtu=9999")) config_zero = Some cfg ∧ cfg_ok cfg.
Proof. apply cfg_load_ok. by apply byte_list_ok. Defined.


(** A password with a bracket does not reach the configuration. *)
Lemma load_line_bracket_witness :
  ∃ name, load_line config_zero (lit "password=a[1]") = config_zero <| cfg_tun_name := name |>.
Proof. apply load_line_bracket. refine (bool_decide_unpack _ _). vm_compute. exact I. Defined.
