(* ===== verification/Os.v ===== *)
(** The operating system as the program sees it: the calls it makes, the history of calls
    and results, and programs that only make calls.

    The operating system is not part of the repository: it is a parameter, a function
    giving the result of each call from the whole history before it ([OS]).  What the
    program relies on is stated by [OSOk]. *)
From S2P Require Import Prelude.

(** ** Calls *)

Inductive ioctl_req :=
  (* Linux *)
  | TUNSETIFF (name : list Z) (flags : Z)
  | SIOCSIFADDR (name : list Z) (addr : Z)
  | SIOCSIFNETMASK (name : list Z) (mask : Z)
  (* both *)
  | SIOCGIFFLAGS (name : list Z)
  | SIOCSIFFLAGS (name : list Z) (flags : Z)
  | SIOCSIFMTU (name : list Z) (mtu : Z)
  (* FreeBSD *)
  | TUNSLMODE (on : Z)
  | TUNSIFHEAD (on : Z)
  | TUNSIFMODE (mode : Z)
  | TUNSTRANSIENT (on : Z)
  | TUNGIFNAME
  | SIOCSIFNAME (old new : list Z)
  | SIOCAIFADDR (name : list Z) (addr broadcast mask : Z)
  | SIOCDIFADDR (name : list Z) (addr : Z)
  | SIOCGIFADDR (name : list Z).

(** What an [ioctl] returns: the result, [errno], and what it stores in its argument. *)
Record ioctl_res := mk_ioctl {
  io_ret : Z; io_errno : Z; io_flags : Z; io_addr : Z; io_name : list Z }.

(** [poll]: interrupted by a signal, another error, or for each descriptor whether
    [revents & POLLIN]. *)
Inductive poll_res := PollEintr | PollError | PollOk (revents : list bool).

(** The signals the program handles, and what [sigaction] installs. *)
Inductive signal := SIGINT | SIGTERM | SIGUSR1 | SIGPIPE | SIGSEGV.
#[export] Instance signal_eq_dec : EqDecision signal.
Proof. solve_decision. Defined.
Inductive handler := SIG_DFL | SIG_IGN | sig_handler | sig_reconnect | sig_segfault.

(** [struct tm]: [tm_year], [tm_mon], [tm_mday], [tm_hour], [tm_min], [tm_sec]. *)
Record tm := mk_tm { tm_year : Z; tm_mon : Z; tm_mday : Z; tm_hour : Z; tm_min : Z; tm_sec : Z }.

Inductive stream := Stdout | Stderr | LogFile.

Inductive sys :=
  | SClock                                       (* clock_gettime(CLOCK_MONOTONIC) *)
  | SSocket                                      (* socket(AF_INET, SOCK_DGRAM|SOCK_CLOEXEC, 0) *)
  | SSetReuseAddr (fd : Z)                       (* setsockopt(SO_REUSEADDR) *)
  | SOpen (path : list Z)                        (* open(path, O_RDWR | O_CLOEXEC) *)
  | SClose (fd : Z)
  | SIoctl (fd : Z) (req : ioctl_req)
  | SSendto (fd addr port : Z) (pkt : list Z)    (* port in host order *)
  | SWrite (fd : Z) (data : list Z)
  | SRead (fd n : Z)
  | SRecvfrom (fd n : Z)
  | SAccess (path : list Z)                      (* access(path, X_OK) *)
  | SFork (argv : list (list Z))                 (* fork(); the child execs argv *)
  | SWaitpid (pid : Z)
  | SGetaddrinfo (name : list Z)
  | SPoll (fds : list Z)
  | SQuit                                        (* reading g_quit *)
  | SReconnect                                   (* reading and clearing g_reconnect *)
  (* starting up and logging *)
  | SRealpath (path : list Z)
  | SGetcwd
  | SReadFile (path : list Z)                    (* fopen(path, "r") and its contents *)
  | SDaemonFork                                  (* fork() *)
  | SSetsid
  | SChdir (path : list Z)
  | SUmask (mask : Z)
  | SOpenNull                                    (* open("/dev/null", O_RDWR) *)
  | SDup2 (fd to : Z)
  | SFopenLog (path : list Z)                    (* fopen(path, "ae") *)
  | SFcloseLog
  | SOpenlog | SCloselog
  | SSyslog (msg : list Z)                       (* vsyslog(LOG_INFO, ...) *)
  | SLocaltime                                   (* localtime(time(NULL)) *)
  | SFprintf (out : stream) (text : list Z)
  | SFflush (out : stream)
  | SSigaction (signo : signal) (h : handler) (resethand : bool).

Definition resp (s : sys) : Type :=
  match s with
  | SClock => Z * Z                              (* tv_sec, tv_nsec *)
  | SIoctl _ _ => ioctl_res
  | SRead _ _ => option (list Z)                 (* None: error; the data read *)
  | SRecvfrom _ _ => option (list Z * Z * Z)     (* data, s_addr, ntohs(sin_port) *)
  | SGetaddrinfo _ => option Z                   (* s_addr of the first result *)
  | SPoll _ => poll_res
  | SQuit | SReconnect => bool
  | SRealpath _ | SGetcwd | SReadFile _ => option (list Z)   (* None: error *)
  | SFopenLog _ => bool                          (* not NULL *)
  | SLocaltime => tm
  | _ => Z
  end.

(** ** Histories *)

Record event := Ev { ev_call : sys; ev_resp : resp ev_call }.

(** Newest event first. *)
Abbreviation trace := (list event).

Class OS := os : trace → ∀ s, resp s.

(** What the program relies on, as POSIX documents it. *)
Class OSOk `{OS} : Prop := {
  os_clock_ok tr : 0 ≤ (os tr SClock).1 ∧ 0 ≤ (os tr SClock).2 < 1000000000;
  os_read_ok tr fd n d : os tr (SRead fd n) = Some d → len d ≤ n ∧ bytes d;
  os_recvfrom_ok tr fd n d a p :
    os tr (SRecvfrom fd n) = Some (d, a, p) → len d ≤ n ∧ bytes d;
  os_ioctl_ok tr fd req : bytes (io_name (os tr (SIoctl fd req)));
  os_poll_ok tr fds rev : os tr (SPoll fds) = PollOk rev → length rev = length fds;
  os_file_ok tr path f : os tr (SReadFile path) = Some f → bytes f
}.

(** Descriptors opened and not closed, most recent first. *)
Fixpoint remove_fd (fd : Z) (l : list Z) : list Z :=
  match l with [] => [] | x :: l' => if x =? fd then l' else x :: remove_fd fd l' end.

Definition fd_effect (ev : event) (live : list Z) : list Z :=
  let opened (r : Z) := if 0 <=? r then r :: live else live in
  match ev with
  | Ev SSocket r => opened r
  | Ev (SOpen _) r => opened r
  | Ev (SClose fd) _ => remove_fd fd live
  | _ => live
  end.
Definition live_fds_from (live : list Z) (tr : trace) : list Z := foldr fd_effect live tr.
Definition live_fds (tr : trace) : list Z := live_fds_from [] tr.

(** ** Programs that only call the system *)

Definition IO (A : Type) : Type := trace → A * trace.
#[export] Instance io_ret_inst : MRet IO := λ A x tr, (x, tr).
#[export] Instance io_bind_inst : MBind IO := λ A B f m tr, let '(x, tr) := m tr in f x tr.

Section io.
Context `{OS}.

Definition call (s : sys) : IO (resp s) := λ tr, let r := os tr s in (r, Ev s r :: tr).

(** [m] adds to the history events [new] satisfying [Q]. *)
Definition io_spec {A} (m : IO A) (Q : A → trace → Prop) : Prop :=
  ∀ tr, ∃ x new, m tr = (x, new ++ tr) ∧ Q x new.

Lemma io_spec_ret {A} (x : A) (Q : A → trace → Prop) : Q x [] → io_spec (mret x) Q.
Proof. intros HQ tr. by exists x, []. Qed.

Lemma io_spec_bind {A B} (m : IO A) (f : A → IO B) (Q : A → trace → Prop) (R : B → trace → Prop) :
  io_spec m Q →
  (∀ x new, Q x new → io_spec (f x) (λ y new', R y (new' ++ new))) →
  io_spec (m ≫= f) R.
Proof.
  intros Hm Hf tr. destruct (Hm tr) as (x & new & Hx & HQ).
  destruct (Hf x new HQ (new ++ tr)) as (y & new' & Hy & HR).
  exists y, (new' ++ new). split; [|done].
  unfold mbind, io_bind_inst. by rewrite Hx, Hy, app_assoc.
Qed.

Lemma io_spec_mret_bind {A B} (x : A) (f : A → IO B) (R : B → trace → Prop) :
  io_spec (f x) R → io_spec (mret x ≫= f) R.
Proof. done. Qed.

Lemma io_spec_assoc {A B C} (m : IO A) (g : A → IO B) (f : B → IO C) (R : C → trace → Prop) :
  io_spec (m ≫= λ x, g x ≫= f) R → io_spec ((m ≫= g) ≫= f) R.
Proof.
  intros Hm tr. destruct (Hm tr) as (z & new & Hz & HR). exists z, new. split; [|done].
  rewrite <-Hz. unfold mbind, io_bind_inst. by destruct (m tr).
Qed.

Lemma io_spec_call s (Q : resp s → trace → Prop) :
  (∀ r, Q r [Ev s r]) → io_spec (call s) Q.
Proof. intros HQ tr. exists (os tr s), [Ev s (os tr s)]. by split. Qed.

Lemma io_spec_mono {A} (m : IO A) (Q R : A → trace → Prop) :
  io_spec m Q → (∀ x new, Q x new → R x new) → io_spec m R.
Proof. intros Hm HQR tr. destruct (Hm tr) as (x & new & ? & ?). naive_solver. Qed.
End io.

Lemma live_fds_app live new tr :
  live_fds_from live (new ++ tr) = live_fds_from (live_fds_from live tr) new.
Proof. apply foldr_app. Qed.

Lemma remove_fd_head fd l : remove_fd fd (fd :: l) = l.
Proof. simpl. by rewrite Z.eqb_refl. Qed.

(** The data written to descriptor [fd], oldest first. *)
Fixpoint written (fd : Z) (tr : trace) : list (list Z) :=
  match tr with
  | [] => []
  | Ev (SWrite fd' d) _ :: tr => if fd' =? fd then written fd tr ++ [d] else written fd tr
  | _ :: tr => written fd tr
  end.

Definition no_write (ev : event) : Prop := match ev_call ev with SWrite _ _ => False | _ => True end.

(** Calls that move no data and look no name up. *)
Definition quiet (ev : event) : Prop :=
  match ev_call ev with
  | SSendto _ _ _ _ | SWrite _ _ | SRead _ _ | SRecvfrom _ _ | SGetaddrinfo _ => False
  | _ => True
  end.
Lemma quiet_no_write ev : quiet ev → no_write ev.
Proof. destruct ev as [s r]. by destruct s. Qed.

Lemma written_no_write fd new tr : Forall no_write new → written fd (new ++ tr) = written fd tr.
Proof.
  induction 1 as [|[s r] new Hev _ IH]; [done|]. rewrite <-app_comm_cons. simpl.
  by destruct s.
Qed.

(** ** A concrete system

    Every call succeeds, the clock stands still, nothing is ever readable.  It shows that
    [OSOk] is satisfiable and runs the examples. *)
Definition still_os : OS := λ tr s,
  match s return resp s with
  | SClock => (100, 0)
  | SIoctl _ _ => mk_ioctl 0 0 0 0 []
  | SRead _ _ => None
  | SRecvfrom _ _ => None
  | SGetaddrinfo _ => None
  | SPoll fds => PollOk (map (λ _, false) fds)
  | SQuit | SReconnect => false
  | SRealpath _ | SGetcwd | SReadFile _ => None
  | SFopenLog _ => true
  | SLocaltime => mk_tm 126 0 1 0 0 0
  | SSocket => 4
  | SOpen _ => 3
  | SFork _ => 1000
  | SWrite _ d => len d
  | SSendto _ _ _ d => len d
  | _ => 0
  end.

Lemma still_os_ok : @OSOk still_os.
Proof. split; try done. intros tr fds rev [= <-]. apply length_map. Qed.

(** The same, with [data] readable from every descriptor and [dgram] received. *)
Definition feeding_os (data : list Z) (dgram : list Z * Z * Z) : OS := λ tr s,
  match s return resp s with
  | SRead _ _ => Some data
  | SRecvfrom _ _ => Some dgram
  | s => still_os tr s
  end.
