(* ===== verification/Tun.v ===== *)
(** The interface of [src/tun.h]: what a platform backend provides to the client
    ([TunBackend]) and what the client relies on ([TunOk]).  The client's theorems are
    proved against the interface; [TunLinux] and [TunFreebsd] implement it. *)
From S2P Require Import Prelude Client Os.

(** [snprintf(ifr_name, IFNAMSIZ, "%s", dev)]. *)
Definition ifname (dev : list Z) : list Z := take (IFNAMSIZ - 1) (c_str dev).

(** [tun_open] may overwrite the buffer of the device name: it also returns the buffer. *)
Class TunBackend := {
  tun_open (dev : list Z) (dev_len : Z) : IO (Z * list Z);
  tun_set_ip (dev : list Z) (ip mask : Z) : IO Z;
  tun_set_mtu (dev : list Z) (mtu : Z) : IO Z;
  tun_clear_ip (dev : list Z) : IO unit
}.

(** Device configuration makes no use of the network sockets' data path, the TUN data path,
    timers or signals. *)
Definition config_event (ev : event) : Prop :=
  match ev_call ev with SSocket | SOpen _ | SClose _ | SIoctl _ _ => True | _ => False end.

(** The calls [new] leave the set of open descriptors as it was. *)
Definition fd_neutral (new : trace) : Prop := ∀ live, live_fds_from live new = live.
Definition opens_fd (fd : Z) (new : trace) : Prop :=
  ∀ live, live_fds_from live new = if 0 <=? fd then fd :: live else live.

(** A device-name buffer: [char tun_name[IFNAMSIZ]], NUL-terminated. *)
Definition is_devname (dev : list Z) : Prop := is_cbuf IFNAMSIZ dev.

Class TunOk `{OS, TunBackend} : Prop := {
  tun_open_ok dev :
    is_devname dev →
    io_spec (tun_open dev (Z.of_nat IFNAMSIZ)) (λ r new,
      Forall config_event new ∧ opens_fd r.1 new ∧ is_devname r.2);
  tun_set_ip_ok dev ip mask :
    io_spec (tun_set_ip dev ip mask) (λ _ new, Forall config_event new ∧ fd_neutral new);
  tun_set_mtu_ok dev mtu :
    io_spec (tun_set_mtu dev mtu) (λ _ new, Forall config_event new ∧ fd_neutral new);
  tun_clear_ip_ok dev :
    io_spec (tun_clear_ip dev) (λ _ new, Forall config_event new ∧ fd_neutral new)
}.

(** Symbolic execution of a system-call program: every call is given an arbitrary result of the system's,
    every branch is explored, and the calls made are remembered exactly. *)
Lemma io_spec_call_bind `{OS} {B} s (f : resp s → IO B) (R : B → trace → Prop) :
  (∀ r, (∃ tr, r = os tr s) → io_spec (f r) (λ y new', R y (new' ++ [Ev s r]))) →
  io_spec (call s ≫= f) R.
Proof.
  intros Hf. eapply (io_spec_bind _ _ (λ r new, new = [Ev s r] ∧ ∃ tr, r = os tr s)).
  - intros tr. exists (os tr s), [Ev s (os tr s)]. eauto.
  - intros r new [-> Hr]. by apply Hf.
Qed.

Ltac io_exec :=
  repeat first
    [ progress cbn [fst snd]
    | progress cbv beta zeta
    | lazymatch goal with
      | |- io_spec (@mbind _ _ _ _ ?f ?m) ?R =>
          lazymatch m with
          | @call _ ?s => apply (io_spec_call_bind s f R); intros ? ?
          | mret _ => apply io_spec_mret_bind
          | _ ≫= _ => apply io_spec_assoc
          | (if ?b then _ else _) => destruct b eqn:?
          | (match ?x with _ => _ end) => destruct x eqn:?
          end
      | |- io_spec (mret _) _ => apply io_spec_ret
      | |- io_spec (if ?b then _ else _) _ => destruct b eqn:?
      | |- io_spec (match ?x with _ => _ end) _ => destruct x eqn:?
      end ].

(** Closing the bookkeeping goals of an execution: every call is a configuration call, and
    every descriptor opened on the way was closed. *)
Ltac io_config := repeat (apply Forall_cons; split; [exact I|]); apply Forall_nil; exact I.
Ltac io_fds :=
  intros live; unfold live_fds_from, fd_effect; cbn [app foldr fst snd];
  repeat match goal with
  | |- context [0 <=? ?x] => destruct (Z.leb_spec 0 x); try lia
  end;
  rewrite ?remove_fd_head; reflexivity.
