(* ===== verification/TunLinux.v ===== *)
(** The Linux TUN backend, [src/tun_linux.c], and the backend of unsupported platforms. *)
From S2P Require Import Prelude Client Os Tun.

Definition IFF_TUN : Z := 0x0001.
Definition IFF_NO_PI : Z := 0x1000.
Definition IFF_UP : Z := 0x1.
Definition IFF_RUNNING : Z := 0x40.

Module Linux.
Section backend.
Context `{OS}.

Definition tun_open (dev : list Z) (dev_len : Z) : IO (Z * list Z) :=
  fd ← call (SOpen (lit "/dev/net/tun"));
  if fd <? 0 then mret (-1, dev) else
  r ← call (SIoctl fd (TUNSETIFF (ifname dev) (Z.lor IFF_TUN IFF_NO_PI)));
  if io_ret r <? 0 then
    _ ← call (SClose fd); mret (-1, dev)
  else mret (fd, dev).

Definition tun_set_ip (dev : list Z) (ip mask : Z) : IO Z :=
  sockfd ← call SSocket;
  if sockfd <? 0 then mret (-1) else
  let ifr_name := ifname dev in
  r ← call (SIoctl sockfd (SIOCSIFADDR ifr_name ip));
  if io_ret r <? 0 then _ ← call (SClose sockfd); mret (-1) else
  r ← call (SIoctl sockfd (SIOCSIFNETMASK ifr_name mask));
  if io_ret r <? 0 then _ ← call (SClose sockfd); mret (-1) else
  r ← call (SIoctl sockfd (SIOCGIFFLAGS ifr_name));
  if io_ret r <? 0 then _ ← call (SClose sockfd); mret (-1) else
  let ifr_flags := Z.lor (io_flags r) (Z.lor IFF_UP IFF_RUNNING) in
  r ← call (SIoctl sockfd (SIOCSIFFLAGS ifr_name ifr_flags));
  if io_ret r <? 0 then _ ← call (SClose sockfd); mret (-1) else
  _ ← call (SClose sockfd); mret 0.

Definition tun_set_mtu (dev : list Z) (mtu : Z) : IO Z :=
  sockfd ← call SSocket;
  if sockfd <? 0 then mret (-1) else
  r ← call (SIoctl sockfd (SIOCSIFMTU (ifname dev) mtu));
  _ ← call (SClose sockfd);
  mret (io_ret r).

(** [ifr] is zeroed before [SIOCGIFFLAGS]: when that call fails the flags are 0. *)
Definition tun_clear_ip (dev : list Z) : IO unit :=
  sockfd ← call SSocket;
  if sockfd <? 0 then mret () else
  let ifr_name := ifname dev in
  _ ← call (SIoctl sockfd (SIOCSIFADDR ifr_name 0));
  r ← call (SIoctl sockfd (SIOCGIFFLAGS ifr_name));
  let ifr_flags := if io_ret r <? 0 then 0 else io_flags r in
  let ifr_flags := Z.land ifr_flags (Z.lnot (Z.lor IFF_UP IFF_RUNNING)) in
  _ ← call (SIoctl sockfd (SIOCSIFFLAGS ifr_name ifr_flags));
  _ ← call (SClose sockfd);
  mret ().

Definition backend : TunBackend := Build_TunBackend tun_open tun_set_ip tun_set_mtu tun_clear_ip.

Lemma linux_tun_ok : @TunOk _ backend.
Proof.
  split; cbn.
  - intros dev Hdev. unfold tun_open. io_exec; (split_and!; [io_config|io_fds|done]).
  - intros dev ip mask. unfold tun_set_ip. io_exec; (split; [io_config|io_fds]).
  - intros dev mtu. unfold tun_set_mtu. io_exec; (split; [io_config|io_fds]).
  - intros dev. unfold tun_clear_ip. io_exec; (split; [io_config|io_fds]).
Qed.
End backend.
End Linux.

(** The backend of other platforms. *)
Module Unsupported.
Section backend.
Context `{OS}.
Definition tun_open (dev : list Z) (dev_len : Z) : IO (Z * list Z) := mret (-1, dev).
Definition tun_set_ip (dev : list Z) (ip mask : Z) : IO Z := mret (-1).
Definition tun_set_mtu (dev : list Z) (mtu : Z) : IO Z := mret (-1).
Definition tun_clear_ip (dev : list Z) : IO unit := mret ().
Definition backend : TunBackend := Build_TunBackend tun_open tun_set_ip tun_set_mtu tun_clear_ip.

Lemma unsupported_tun_ok : @TunOk _ backend.
Proof.
  split; cbn.
  - intros dev Hdev. by apply io_spec_ret.
  - intros dev ip mask. by apply io_spec_ret.
  - intros dev mtu. by apply io_spec_ret.
  - intros dev. by apply io_spec_ret.
Qed.
End backend.
End Unsupported.

(** ** The theorems *)

Section theorems.
Context `{OS}.

(** The successful requests of [tun_set_ip], newest first. *)
Definition configured (fd : Z) (name : list Z) (ip mask : Z) (r1 r2 r3 r4 : ioctl_res)
  (closed : Z) : trace :=
  [Ev (SClose fd) closed;
   Ev (SIoctl fd (SIOCSIFFLAGS name (Z.lor (io_flags r3) (Z.lor IFF_UP IFF_RUNNING)))) r4;
   Ev (SIoctl fd (SIOCGIFFLAGS name)) r3;
   Ev (SIoctl fd (SIOCSIFNETMASK name mask)) r2;
   Ev (SIoctl fd (SIOCSIFADDR name ip)) r1;
   Ev SSocket fd].

(** Tun_set_ip returns 0 exactly when the address, the netmask and the flags were all
    set, in that order and with the flags read back and UP and RUNNING added; otherwise it
    returns -1.  Either way every descriptor it opened is closed. *)
Theorem tun_set_ip_spec dev ip mask tr :
  ∃ r new, Linux.tun_set_ip dev ip mask tr = (r, new ++ tr) ∧ fd_neutral new ∧
    (r = 0 ∧ (∃ fd r1 r2 r3 r4 closed, new = configured fd (ifname dev) ip mask r1 r2 r3 r4 closed ∧
        0 ≤ fd ∧ Forall (λ x, 0 ≤ io_ret x) [r1; r2; r3; r4]) ∨
     r = -1 ∧ ∃ ev, ev ∈ new ∧
       match ev with
       | Ev SSocket fd => fd < 0 | Ev (SIoctl _ _) x => io_ret x < 0 | _ => False end).
Proof.
  enough (io_spec (Linux.tun_set_ip dev ip mask) (λ r new, fd_neutral new ∧
    (r = 0 ∧ (∃ fd r1 r2 r3 r4 closed, new = configured fd (ifname dev) ip mask r1 r2 r3 r4 closed ∧
        0 ≤ fd ∧ Forall (λ x, 0 ≤ io_ret x) [r1; r2; r3; r4]) ∨
     r = -1 ∧ ∃ ev, ev ∈ new ∧
       match ev with
       | Ev SSocket fd => fd < 0 | Ev (SIoctl _ _) x => io_ret x < 0 | _ => False end))) as Hs
    by (destruct (Hs tr) as (r & new & ? & ?); eauto).
  unfold Linux.tun_set_ip. io_exec; (split; [io_fds|]); rewrite ?Z.ltb_lt, ?Z.ltb_ge in *.
  6:{ left. split; [done|]. do 6 eexists. split; [reflexivity|]. split; [done|].
      repeat (constructor; [done|]). constructor. }
  all: right; split; [done|].
  - eexists. split; [apply elem_of_cons; by left|]. done.
  - eexists. split; [do 1 (apply elem_of_cons; right); apply elem_of_cons; by left|]. done.
  - eexists. split; [do 1 (apply elem_of_cons; right); apply elem_of_cons; by left|]. done.
  - eexists. split; [do 1 (apply elem_of_cons; right); apply elem_of_cons; by left|]. done.
  - eexists. split; [do 1 (apply elem_of_cons; right); apply elem_of_cons; by left|]. done.
Qed.

(** C37: the Linux backend promises what the client relies on: configuration calls only, and
    the set of open descriptors as it was, but for the device itself. *)
Theorem linux_backend_ok : @TunOk _ Linux.backend.
Proof. apply Linux.linux_tun_ok. Qed.
End theorems.
