(* ===== verification/TunFreebsd.v ===== *)
(** The FreeBSD TUN backend, [src/tun_freebsd.c]. *)
From S2P Require Import Prelude Libc Client Os Tun.

Definition IFF_UP : Z := 0x1.
Definition IFF_BROADCAST : Z := 0x2.
Definition IFF_MULTICAST : Z := 0x8000.
Definition EEXIST : Z := 17.

(** [strncmp(dev, "tun", 3) == 0], then at least one digit and only digits. *)
Definition freebsd_is_tun_unit (dev : list Z) : bool :=
  let s := c_str dev in
  bool_decide (take 3 s = lit "tun") &&
  match drop 3 s with [] => false | p => forallb is_digit p end.

Module FreeBSD.
Section backend.
Context `{OS}.
(** Whether the headers define [TUNSTRANSIENT]. *)
Context (has_transient : bool).

(** The descriptor, and whether the clone device was opened. *)
Definition freebsd_open_tun_device (dev : list Z) : IO (Z * bool) :=
  fd ← call (SOpen (lit "/dev/tun"));
  if 0 <=? fd then mret (fd, true) else
  if freebsd_is_tun_unit dev then
    let path := take (6 + IFNAMSIZ - 1) (lit "/dev/" ++ c_str dev) in
    fd ← call (SOpen path);
    if 0 <=? fd then mret (fd, false) else mret (-1, false)
  else mret (-1, false).

(** The name read, as a string; [None] for the error return. *)
Definition freebsd_get_tun_name (fd : Z) (name_len : nat) : IO (option (list Z)) :=
  r ← call (SIoctl fd TUNGIFNAME);
  if io_ret r <? 0 then mret None
  else mret (Some (take (name_len - 1) (take (IFNAMSIZ - 1) (c_str (io_name r))))).

Definition freebsd_rename_tun (old_name new_name : list Z) : IO Z :=
  if streq old_name new_name then mret 0 else
  sockfd ← call SSocket;
  if sockfd <? 0 then mret (-1) else
  r ← call (SIoctl sockfd (SIOCSIFNAME (ifname old_name) (ifname new_name)));
  _ ← call (SClose sockfd);
  mret (io_ret r).

(** [if (ioctl(...) < 0) { close(fd); return -1; }], for the three mode settings. *)
Definition set_mode (fd : Z) (req : ioctl_req) (dev : list Z) (k : IO (Z * list Z))
  : IO (Z * list Z) :=
  r ← call (SIoctl fd req);
  if io_ret r <? 0 then _ ← call (SClose fd); mret (-1, dev) else k.

Definition tun_open (dev : list Z) (dev_len : Z) : IO (Z * list Z) :=
  '(fd, cloned) ← freebsd_open_tun_device dev;
  if fd <? 0 then mret (-1, dev) else
  set_mode fd (TUNSLMODE 0) dev (
  set_mode fd (TUNSIFHEAD 0) dev (
  set_mode fd (TUNSIFMODE (Z.lor IFF_BROADCAST IFF_MULTICAST)) dev (
  _ ← (if has_transient && cloned
       then r ← call (SIoctl fd (TUNSTRANSIENT 1)); mret () else mret ());
  name ← freebsd_get_tun_name fd IFNAMSIZ;
  match name with
  | None => _ ← call (SClose fd); mret (-1, dev)
  | Some actual =>
      if streq actual dev then mret (fd, dev) else
      ret ← freebsd_rename_tun actual dev;
      if ret =? 0 then mret (fd, dev)
      else mret (fd, snprintf_s dev (Z.to_nat dev_len) actual)
  end))).

Definition tun_set_ip (dev : list Z) (ip mask : Z) : IO Z :=
  sockfd ← call SSocket;
  if sockfd <? 0 then mret (-1) else
  let name := ifname dev in
  let ip_h := htonl ip in
  let mask_h := htonl mask in
  let broad := htonl (Z.lor (Z.land ip_h mask_h) (Z.lxor mask_h (Z.ones 32))) in
  r ← call (SIoctl sockfd (SIOCAIFADDR name ip broad mask));
  ret ← (if (io_ret r <? 0) && (io_errno r =? EEXIST) then
           d ← call (SIoctl sockfd (SIOCDIFADDR name ip));
           if io_ret d =? 0 then
             r' ← call (SIoctl sockfd (SIOCAIFADDR name ip broad mask)); mret (io_ret r')
           else mret (io_ret r)
         else mret (io_ret r));
  if ret <? 0 then _ ← call (SClose sockfd); mret (-1) else
  r ← call (SIoctl sockfd (SIOCGIFFLAGS name));
  if io_ret r <? 0 then _ ← call (SClose sockfd); mret (-1) else
  r' ← call (SIoctl sockfd (SIOCSIFFLAGS name (Z.lor (io_flags r) IFF_UP)));
  if io_ret r' <? 0 then _ ← call (SClose sockfd); mret (-1) else
  _ ← call (SClose sockfd); mret 0.

Definition tun_set_mtu (dev : list Z) (mtu : Z) : IO Z :=
  sockfd ← call SSocket;
  if sockfd <? 0 then mret (-1) else
  r ← call (SIoctl sockfd (SIOCSIFMTU (ifname dev) mtu));
  _ ← call (SClose sockfd);
  mret (io_ret r).

Definition tun_clear_ip (dev : list Z) : IO unit :=
  sockfd ← call SSocket;
  if sockfd <? 0 then mret () else
  let name := ifname dev in
  a ← call (SIoctl sockfd (SIOCGIFADDR name));
  _ ← (if io_ret a =? 0
       then r ← call (SIoctl sockfd (SIOCDIFADDR name (io_addr a))); mret () else mret ());
  f ← call (SIoctl sockfd (SIOCGIFFLAGS name));
  _ ← (if io_ret f =? 0
       then r ← call (SIoctl sockfd (SIOCSIFFLAGS name (Z.land (io_flags f) (Z.lnot IFF_UP))));
            mret ()
       else mret ());
  _ ← call (SClose sockfd);
  mret ().

Definition backend : TunBackend := Build_TunBackend tun_open tun_set_ip tun_set_mtu tun_clear_ip.

Lemma freebsd_tun_ok `{!OSOk} : @TunOk _ backend.
Proof.
  split; cbn.
  - intros dev Hdev. unfold tun_open, freebsd_open_tun_device, set_mode, freebsd_get_tun_name,
      freebsd_rename_tun.
    io_exec; (split_and!; [io_config|io_fds|]); try done.
    all: apply is_cbuf_snprintf; [done| |unfold IFNAMSIZ; lia].
    all: match goal with
         | E : ∃ tr, ?r = os tr (SIoctl _ TUNGIFNAME) |- _ => destruct E as [? ->]
         end; apply Forall_take, Forall_take, c_str_bytes, os_ioctl_ok.
  - intros dev ip mask. unfold tun_set_ip. io_exec; (split; [io_config|io_fds]).
  - intros dev mtu. unfold tun_set_mtu. io_exec; (split; [io_config|io_fds]).
  - intros dev. unfold tun_clear_ip. io_exec; (split; [io_config|io_fds]).
Qed.
End backend.
End FreeBSD.

(** ** The theorems *)

(** C38: the FreeBSD backend promises what the client relies on, whether or not the kernel has
    TUNSTRANSIENT: configuration calls only, the set of open descriptors as it was but for the
    device itself, and a device name that stays terminated inside its buffer. *)
Theorem freebsd_backend_ok `{OSOk} has_transient : @TunOk _ (FreeBSD.backend has_transient).
Proof. apply FreeBSD.freebsd_tun_ok, _. Qed.

Lemma freebsd_backend_ok_witness : @TunOk still_os (@FreeBSD.backend still_os true).
Proof. exact (@freebsd_backend_ok still_os still_os_ok true). Defined.
