(* ===== verification/CMonad.v ===== *)
(** The monad of the client's functions: they read and write the client record
    ([iwan_client_t *c]), call the system, and may have undefined behaviour ([None]).
    [wp] is its weakest precondition: total correctness, so in particular absence of
    undefined behaviour. *)
From S2P Require Import Prelude Client Os Tun.

Record world := mk_world { w_c : client; w_t : trace }.

Definition M (A : Type) : Type := world → option (A * world).
#[export] Instance m_ret_inst : MRet M := λ A x w, Some (x, w).
#[export] Instance m_bind_inst : MBind M := λ A B f m w,
  match m w with Some (x, w') => f x w' | None => None end.

Definition get_c : M client := λ w, Some (w_c w, w).
Definition mod_c (f : client → client) : M unit := λ w, Some ((), mk_world (f (w_c w)) (w_t w)).
(** A memory access. *)
Definition mem {A} (o : option A) : M A := λ w,
  match o with Some x => Some (x, w) | None => None end.
(** A program that only calls the system. *)
Definition io {A} (m : IO A) : M A := λ w,
  let '(x, tr) := m (w_t w) in Some (x, mk_world (w_c w) tr).
Definition when (b : bool) (m : M unit) : M unit := if b then m else mret ().

(** [clock_gettime(CLOCK_MONOTONIC)], in seconds and in microseconds. *)
Section clock.
Context `{OS}.
Definition mono_secs : IO Z := ts ← call SClock; mret (u32 ts.1).
Definition mono_usecs : IO Z := ts ← call SClock; mret (u64 (ts.1 * 1000000 + ts.2 / 1000)).
End clock.

Definition wp {A} (m : M A) (w : world) (Q : A → world → Prop) : Prop :=
  match m w with Some (x, w') => Q x w' | None => False end.

Section wp.
Context {A B : Type}.
Implicit Types (m : M A) (w : world) (Q : A → world → Prop).

Lemma wp_ret (x : A) w Q : Q x w → wp (mret x) w Q.
Proof. done. Qed.

Lemma wp_bind m (f : A → M B) w (Q : B → world → Prop) :
  wp m w (λ x w', wp (f x) w' Q) → wp (m ≫= f) w Q.
Proof. unfold wp, mbind, m_bind_inst. by destruct (m w) as [[x w']|]. Qed.

Lemma wp_mono m w Q Q' : wp m w Q → (∀ x w', Q x w' → Q' x w') → wp m w Q'.
Proof. unfold wp. destruct (m w) as [[x w']|]; auto. Qed.

Lemma wp_and m w Q Q' : wp m w Q → wp m w Q' → wp m w (λ x w', Q x w' ∧ Q' x w').
Proof. unfold wp. destruct (m w) as [[x w']|]; auto. Qed.

Lemma wp_mem (o : option A) x w Q : o = Some x → Q x w → wp (mem o) w Q.
Proof. by intros ->. Qed.

(** The result of a run whose weakest precondition is known. *)
Lemma wp_run m w Q : wp m w Q → ∃ x w', m w = Some (x, w') ∧ Q x w'.
Proof. unfold wp. destruct (m w) as [[x w']|]; [eauto|done]. Qed.

Lemma wp_exact m w x w' : m w = Some (x, w') → wp m w (λ y v, y = x ∧ v = w').
Proof. unfold wp. by intros ->. Qed.
(** What is known of a run that has happened. *)
Lemma wp_exact_with m w x w' Q : m w = Some (x, w') → wp m w Q → Q x w'.
Proof. unfold wp. by intros ->. Qed.
End wp.

Lemma wp_get_c w (Q : client → world → Prop) : Q (w_c w) w → wp get_c w Q.
Proof. done. Qed.
Lemma wp_mod_c f w (Q : unit → world → Prop) :
  Q () (mk_world (f (w_c w)) (w_t w)) → wp (mod_c f) w Q.
Proof. done. Qed.

Lemma wp_io `{OS} {A} (m : IO A) w (P : A → trace → Prop) (Q : A → world → Prop) :
  io_spec m P →
  (∀ x new, P x new → Q x (mk_world (w_c w) (new ++ w_t w))) → wp (io m) w Q.
Proof.
  intros Hm HQ. destruct (Hm (w_t w)) as (x & new & Hx & HP).
  unfold wp, io. rewrite Hx. by apply HQ.
Qed.

Lemma wp_call `{OS} s w (Q : resp s → world → Prop) :
  Q (os (w_t w) s) (mk_world (w_c w) (Ev s (os (w_t w) s) :: w_t w)) → wp (io (call s)) w Q.
Proof. done. Qed.

Lemma wp_mono_secs `{OS} w (Q : Z → world → Prop) :
  Q (u32 (os (w_t w) SClock).1) (mk_world (w_c w) (Ev SClock (os (w_t w) SClock) :: w_t w)) →
  wp (io mono_secs) w Q.
Proof. done. Qed.
Lemma wp_mono_usecs `{OS} w (Q : Z → world → Prop) :
  Q (u64 ((os (w_t w) SClock).1 * 1000000 + (os (w_t w) SClock).2 / 1000))
    (mk_world (w_c w) (Ev SClock (os (w_t w) SClock) :: w_t w)) →
  wp (io mono_usecs) w Q.
Proof. done. Qed.

(** One step of symbolic execution. *)
Ltac wp_step :=
  cbv beta;
  lazymatch goal with
  | |- wp (mbind _ _) _ _ => apply wp_bind
  | |- wp (mret _) _ _ => apply wp_ret
  | |- wp get_c _ _ => apply wp_get_c
  | |- wp (mod_c _) _ _ => apply wp_mod_c
  | |- wp (io mono_secs) _ _ => apply wp_mono_secs
  | |- wp (io mono_usecs) _ _ => apply wp_mono_usecs
  | |- wp (io (call ?s)) _ _ => apply (wp_call s)
  | |- wp (when ?b _) _ _ => unfold when; destruct b eqn:?
  | |- wp (if ?b then _ else _) _ _ => destruct b eqn:?
  | |- wp (let _ := _ in _) _ _ => cbv zeta
  end; cbv beta; cbn [w_c w_t].
Ltac wp_steps := repeat wp_step.

(** ** Frames

    What every packet handler leaves alone: the descriptors, the server's address, the data
    key and the set of open descriptors; and that the client stays well-formed. *)
Record framed (w w' : world) : Prop := {
  fr_udp : c_udp_fd (w_c w') = c_udp_fd (w_c w);
  fr_tun : c_tun_fd (w_c w') = c_tun_fd (w_c w);
  fr_addr : c_server_addr (w_c w') = c_server_addr (w_c w);
  fr_port : c_server_port (w_c w') = c_server_port (w_c w);
  fr_domain : c_server_domain (w_c w') = c_server_domain (w_c w);
  fr_key : c_xor_key (w_c w') = c_xor_key (w_c w);
  fr_ok : client_ok (w_c w) → client_ok (w_c w');
  fr_calls : ∃ new, w_t w' = new ++ w_t w ∧ fd_neutral new
}.

#[export] Instance framed_preorder : PreOrder framed.
Proof.
  split.
  - intros w. split; try done. by exists [].
  - intros w1 w2 w3 [] []. split; try congruence; [auto|].
    destruct fr_calls0 as (n1 & E1 & H1), fr_calls1 as (n2 & E2 & H2).
    exists (n2 ++ n1). split; [by rewrite E2, E1, app_assoc|].
    intros live. by rewrite live_fds_app, H1.
Qed.

(** One event that opens or closes nothing. *)
Definition neutral_event (ev : event) : Prop := ∀ live, fd_effect ev live = live.

Lemma neutral_events new : Forall neutral_event new → fd_neutral new.
Proof.
  induction 1 as [|ev new Hev _ IH]; [done|]. intros live. simpl. by rewrite IH.
Qed.

(** A client update that keeps the frame, and neutral events. *)
Definition same_frame (c c' : client) : Prop :=
  c_udp_fd c' = c_udp_fd c ∧ c_tun_fd c' = c_tun_fd c ∧ c_server_addr c' = c_server_addr c ∧
  c_server_port c' = c_server_port c ∧ c_server_domain c' = c_server_domain c ∧
  c_xor_key c' = c_xor_key c ∧
  (client_ok c → client_ok c').

Lemma framed_intro c c' tr new :
  same_frame c c' → fd_neutral new → framed (mk_world c tr) (mk_world c' (new ++ tr)).
Proof. intros (?&?&?&?&?&?&?) Hn. split; try done. by exists new. Qed.

Lemma same_frame_refl c : same_frame c c.
Proof. unfold same_frame. by split_and!. Qed.
Lemma same_frame_trans c1 c2 c3 : same_frame c1 c2 → same_frame c2 c3 → same_frame c1 c3.
Proof. unfold same_frame. intros (?&?&?&?&?&?&?) (?&?&?&?&?&?&?). split_and!; try congruence; auto. Qed.

(** [same_frame] of an explicit sequence of field updates; [tac] proves the well-formedness
    of the fields that changed. *)
Ltac frame_update tac :=
  unfold same_frame; split_and!; try reflexivity;
  let H := fresh "Hok" in intros H; destruct H; split; cbn; try assumption; tac.

Lemma state_frame c s : same_frame c (c <| c_state := s |>).
Proof. frame_update ltac:(done). Qed.
Lemma last_recv_frame c t : is_u32 t → same_frame c (c <| c_last_recv_time := t |>).
Proof. intros Ht. frame_update ltac:(done). Qed.
