(* ===== verification/Packet.v ===== *)
(** Building and checking packets, as in [src/iwand.c]: the XOR cipher, packet signatures,
    key derivation, the OPEN, ECHO_REQ and CLOSE packets. *)
From S2P Require Import Prelude Md5 Aes Client Os CMonad.

(** ** xor_encrypt

    [for (i = 0; i < len; i++) data[i] ^= key[i & 7]], in place. *)
Definition xor_encrypt (key data : list Z) (n : Z) : option (list Z) :=
  if n <=? len data
  then Some (imap (λ i x, if Z.of_nat i <? n
                          then Z.lxor x (nth (Z.to_nat (Z.land (Z.of_nat i) 7)) key 0) else x) data)
  else None.

(** ** Signatures *)

Definition md5_uninit : md5_ctx := mk_ctx (mk_st 0 0 0 0) 0 (replicate 64 0).
Definition magic : list Z := [0x6d; 0x77].

Definition header_digest (hdr : list Z) : list Z :=
  let ctx := md5_init md5_uninit in
  let ctx := md5_update ctx hdr in
  let ctx := md5_update ctx magic in
  md5_final ctx.

(** The buffer with the signature stored, and the offset of the first byte after it. *)
Definition pkt_sign (cap : Z) (pkt : list Z) : option (list Z * Z) :=
  hdr ← rd_n pkt 0 HDR_SIZE;
  pkt ← store cap pkt HDR_SIZE (header_digest hdr);
  Some (pkt, HDR_SIZE + SIGN_SIZE).

Definition pkt_verify (pkt : list Z) (pktlen : Z) : option bool :=
  if pktlen <? HDR_SIZE + SIGN_SIZE then Some false else
  hdr ← rd_n pkt 0 HDR_SIZE;
  sig ← rd_n pkt HDR_SIZE SIGN_SIZE;
  Some (bool_decide (header_digest hdr = sig)).

(** ** Key derivation *)

(** [snprintf(buf, 128, "%s%s", username, password)] returns the untruncated length. *)
Definition derive_xor_key (cfg : config) (c : client) : option client :=
  let s := c_str (cfg_username cfg) ++ c_str (cfg_password cfg) in
  let buf := take 127 s ++ [0] in
  data ← rd_n buf 0 (len s);
  let digest := md5_hash (replicate 64 0) data in
  Some (c <| c_xor_key := take 8 digest |>).

(** The bytes of the array [uint32_t sr_links[6]]. *)
Definition links_bytes (links : list Z) : list Z := concat (map (le_encode 4) links).

Definition sr_setup_keys (cfg : config) (c : client) : option (config * client) :=
  if cfg_sr_count cfg =? 0 then Some (cfg, c) else
  let pwlen := strlen (cfg_sr_password cfg) in
  keybuf ← (if 0 <? pwlen then p ← rd_n (cfg_sr_password cfg) 0 pwlen; emit 128 [] p
            else Some []);
  let linkdata_len := cfg_sr_count cfg * 4 in
  keybuf ← (if len keybuf + linkdata_len <=? 128
            then l ← rd_n (links_bytes (cfg_sr_links cfg)) 0 linkdata_len; emit 128 keybuf l
            else Some keybuf);
  keybuf ← emit 128 keybuf (replicate (32 - length keybuf) 0);
  let cfg := if cfg_sr_encrypt_mode cfg =? 2 then cfg <| cfg_sr_encrypt_mode := 1 |> else cfg in
  key ← rd_n keybuf 0 16;
  Some (cfg, c <| c_sr_decrypt_key := aes_set_decrypt_key key |>
               <| c_sr_encrypt_key := aes_set_encrypt_key key |>).

(** ** The OPEN packet *)

Definition build_open_pkt (cfg : config) (cap : Z) : option (list Z * Z) :=
  buf ← emit cap [] [PKT_OPEN; cfg_encrypt cfg; 0; 0; 0; 0; 0; 0];
  '(buf, _) ← pkt_sign cap buf;
  (* type 3: MTU *)
  buf ← emit cap buf [3; 4; Z.land (Z.shiftr (cfg_mtu cfg) 8) 0xff; Z.land (cfg_mtu cfg) 0xff];
  (* type 1: username *)
  let ulen := strlen (cfg_username cfg) in
  user ← rd_n (cfg_username cfg) 0 ulen;
  buf ← emit cap buf [1; u8 (ulen + 2)];
  buf ← emit cap buf user;
  (* type 2: encrypted password *)
  keybuf ← emit 34 [0x6d; 0x77] user;
  key ← rd_n keybuf 0 (2 + ulen);
  let aeskey := aes_set_encrypt_key (md5_hash (replicate 64 0) key) in
  let plen := strlen (cfg_password cfg) in
  pass ← rd_n (cfg_password cfg) 0 (if 16 <? plen then 16 else plen);
  let pass_block := blit (replicate 16 0) 0 pass in
  buf ← emit cap buf [2; 0x12];
  buf ← emit cap buf (aes_encrypt_block pass_block aeskey);
  (* type 8: encryption *)
  buf ← (if negb (cfg_encrypt cfg =? 0) then emit cap buf [8; 3; cfg_encrypt cfg] else Some buf);
  (* type 0xa: pipe id and index *)
  buf ← (if negb (cfg_pipeid cfg =? 0) || negb (cfg_pipeidx cfg =? 0) then
           let val := Z.lor (cfg_pipeid cfg) (u32 (Z.shiftl (cfg_pipeidx cfg) 15)) in
           emit cap buf [0x0a; 4; Z.land (Z.shiftr val 8) 0xff; Z.land val 0xff]
         else Some buf);
  Some (buf, len buf).

Section packets.
Context `{OS}.

(** ** The ECHO_REQ packet *)
Definition session_header (ty : Z) (c : client) : list Z :=
  [ty; 0] ++ le_encode 2 (c_session_token c) ++ le_encode 4 (c_session_id c).

Definition build_echo_req (cap : Z) : M (list Z * Z) :=
  c ← get_c;
  buf ← mem (emit cap [] (session_header PKT_ECHOREQ c));
  '(buf, _) ← mem (pkt_sign cap buf);
  now ← io mono_usecs;
  buf ← mem (emit cap buf (le_encode 8 now));
  buf ← mem (emit cap buf (le_encode 4 (c_cur_delay c)));
  buf ← mem (emit cap buf (le_encode 4 (c_min_delay c)));
  buf ← mem (emit cap buf (le_encode 4 (c_max_delay c)));
  buf ← mem (emit cap buf [0; 0; 0; 0]);
  buf ← mem (emit cap buf (lit "TDR" ++ [0]));
  buf ← mem (emit cap buf (le_encode 4 (htonl (c_rt_magic c))));
  buf ← mem (emit cap buf [0; 0; 0; 0]);
  mret (buf, len buf).

(** ** Sending *)
Definition send_to_server (pkt : list Z) (n : Z) : M Z :=
  c ← get_c;
  data ← mem (rd_n pkt 0 n);
  io (call (SSendto (c_udp_fd c) (c_server_addr c) (c_server_port c) data)).

Definition send_close : M unit :=
  c ← get_c;
  if negb (c_state c =? STATE_ESTABLISHED) || (c_udp_fd c <? 0) then mret () else
  buf ← mem (emit (HDR_SIZE + SIGN_SIZE) [] (session_header PKT_CLOSE c));
  '(buf, _) ← mem (pkt_sign (HDR_SIZE + SIGN_SIZE) buf);
  _ ← send_to_server buf (HDR_SIZE + SIGN_SIZE);
  mret ().
End packets.

(** * Properties *)

(** ** XOR *)

Lemma xor_encrypt_Some key data n :
  n ≤ len data → ∃ d, xor_encrypt key data n = Some d ∧ length d = length data.
Proof.
  intros Hn. unfold xor_encrypt. rewrite (proj2 (Z.leb_le _ _)) by done.
  eexists. split; [done|]. apply length_imap.
Qed.

Lemma xor_encrypt_length key data n d : xor_encrypt key data n = Some d → length d = length data.
Proof. unfold xor_encrypt. case_match; [|done]. intros [= <-]. apply length_imap. Qed.

Lemma xor_encrypt_bytes key data n d :
  bytes key → bytes data → xor_encrypt key data n = Some d → bytes d.
Proof.
  unfold xor_encrypt. intros Hk Hd. case_match; [|done]. intros [= <-].
  apply Forall_lookup_2. intros i x. rewrite list_lookup_imap, fmap_Some.
  intros (y & Hy & ->). pose proof (Forall_lookup_1 _ _ _ _ Hd Hy) as Hyb.
  case_match; [|done]. apply is_u_lxor; [done|done|].
  rewrite nth_lookup. destruct (key !! _) eqn:E; simpl; [|by apply is_u_0].
  by eapply (Forall_lookup_1 _ _ _ _ Hk).
Qed.

(** Applying the cipher twice restores the data. *)
Lemma xor_encrypt_twice key data n d :
  xor_encrypt key data n = Some d → xor_encrypt key d n = Some data.
Proof.
  intros Hd. pose proof (xor_encrypt_length _ _ _ _ Hd) as Hl. unfold xor_encrypt in *.
  unfold len in *. rewrite Hl. case_match; [|done]. injection Hd as <-. f_equal.
  apply list_eq. intros i. rewrite !list_lookup_imap.
  destruct (data !! i); simpl; [|done]. case_match; [|done]. by rewrite lxor_cancel_r.
Qed.

(** The bytes at and after [n] are untouched. *)
Lemma xor_encrypt_drop key data n d :
  xor_encrypt key data n = Some d → drop (Z.to_nat n) d = drop (Z.to_nat n) data.
Proof.
  unfold xor_encrypt. case_match; [|done]. intros [= <-]. apply list_eq. intros i.
  rewrite !lookup_drop, list_lookup_imap.
  destruct (data !! (Z.to_nat n + i)%nat); simpl; [|done].
  destruct (Z.ltb_spec (Z.of_nat (Z.to_nat n + i)) n); [lia|done].
Qed.

(** What the cipher computes on the [n] bytes it is applied to. *)
Definition xor_bytes (key d : list Z) : list Z :=
  imap (λ i x, Z.lxor x (nth (i mod 8) key 0)) d.

Lemma xor_encrypt_app key d rest n :
  len d = n → xor_encrypt key (d ++ rest) n = Some (xor_bytes key d ++ rest).
Proof.
  intros <-. unfold xor_encrypt. rewrite len_app, (proj2 (Z.leb_le _ _)) by len_lia.
  f_equal. rewrite imap_app. unfold xor_bytes. f_equal.
  - apply imap_ext. intros i x Hi. apply lookup_lt_Some in Hi. cbv beta.
    rewrite (proj2 (Z.ltb_lt _ _)) by (unfold len; lia). do 2 f_equal.
    change 7 with (Z.ones 3). rewrite Z.land_ones by done. change (2 ^ 3) with (Z.of_nat 8).
    by rewrite <-Nat2Z.inj_mod, Nat2Z.id.
  - apply list_eq. intros i. rewrite list_lookup_imap. destruct (rest !! i); [|done]. simpl.
    by rewrite (proj2 (Z.ltb_ge _ _)) by (unfold len; lia).
Qed.

Lemma xor_encrypt_all key d n : len d = n → xor_encrypt key d n = Some (xor_bytes key d).
Proof.
  intros Hn. rewrite <-(app_nil_r d) at 1. rewrite (xor_encrypt_app _ _ _ _ Hn).
  by rewrite app_nil_r.
Qed.

Lemma length_xor_bytes key d : length (xor_bytes key d) = length d.
Proof. apply length_imap. Qed.

Lemma xor_bytes_bytes key d : bytes key → bytes d → bytes (xor_bytes key d).
Proof. intros. apply (xor_encrypt_bytes key d (len d)); [done..|]. by apply xor_encrypt_all. Qed.

Lemma xor_bytes_twice key d : xor_bytes key (xor_bytes key d) = d.
Proof.
  pose proof (xor_encrypt_twice _ _ _ _ (xor_encrypt_all key d (len d) eq_refl)) as Ht.
  rewrite xor_encrypt_all in Ht by (unfold len; by rewrite length_xor_bytes). by injection Ht.
Qed.

(** ** Signatures *)

(** What a signature is: MD5 of the 8 header bytes followed by the constant "mw".  No
    secret enters it. *)
Definition signature (hdr : list Z) : list Z := md5_spec (hdr ++ magic).

Lemma header_digest_spec hdr : bytes hdr → length hdr = 8%nat → header_digest hdr = signature hdr.
Proof.
  intros Hb Hl. unfold header_digest, signature. apply md5_final_repr.
  - assert (md5_repr (md5_update (md5_init md5_uninit) hdr) hdr) as H1.
    { apply (md5_update_repr _ []); [by apply md5_init_repr|done|done|unfold len; lia]. }
    apply md5_update_repr; [done|done| |done]. forall_list ltac:(done).
  - apply Forall_app. split; [done|]. forall_list ltac:(done).
Qed.

Lemma length_signature hdr : length (signature hdr) = 16%nat.
Proof. apply length_md5_spec. Qed.
Lemma signature_bytes hdr : bytes (signature hdr).
Proof. apply md5_spec_bytes. Qed.

(** Signing a packet whose header alone is initialised, as every builder does. *)
Lemma pkt_sign_hdr cap hdr :
  bytes hdr → length hdr = 8%nat → 24 ≤ cap → pkt_sign cap hdr = Some (hdr ++ signature hdr, 24).
Proof.
  intros Hb Hl Hc. unfold pkt_sign.
  rewrite rd_n_full by (unfold len, HDR_SIZE; lia). simpl.
  rewrite header_digest_spec by done.
  change (store cap hdr HDR_SIZE (signature hdr)) with (store cap hdr 8 (signature hdr)).
  replace 8 with (len hdr) by (unfold len; lia). fold (emit cap hdr (signature hdr)).
  rewrite emit_Some; [done|]. unfold len. rewrite length_signature. lia.
Qed.

Lemma pkt_verify_spec pkt pktlen :
  bytes pkt → pktlen ≤ len pkt →
  pkt_verify pkt pktlen =
  Some (bool_decide (24 ≤ pktlen ∧ take 16 (drop 8 pkt) = signature (take 8 pkt))).
Proof.
  intros Hb Hl. unfold pkt_verify, HDR_SIZE, SIGN_SIZE.
  destruct (Z.ltb_spec pktlen (8 + 16)) as [Hs|Hs].
  - rewrite bool_decide_eq_false_2 by lia. done.
  - rewrite rd_n_Some by lia. simpl. rewrite rd_n_Some by lia. simpl.
    rewrite header_digest_spec.
    + f_equal. change (Z.to_nat 16) with 16%nat. change (Z.to_nat 8) with 8%nat.
      rewrite drop_0. apply bool_decide_ext. split; [intros ->; split; [lia|done]|].
      by intros [_ ->].
    + by apply Forall_take, Forall_drop.
    + rewrite length_take, length_drop. unfold len in Hl. lia.
Qed.

(** A signed header followed by anything verifies. *)
Lemma pkt_verify_signed hdr payload :
  bytes hdr → length hdr = 8%nat → bytes payload →
  pkt_verify (hdr ++ signature hdr ++ payload) (len (hdr ++ signature hdr ++ payload)) = Some true.
Proof.
  intros Hh Hl Hp. pose proof (length_signature hdr) as Hs.
  rewrite pkt_verify_spec; [|by rewrite !Forall_app; auto using signature_bytes|lia].
  rewrite bool_decide_eq_true_2; [done|]. split.
  - unfold len. rewrite !length_app. lia.
  - by rewrite drop_app_length', !take_app_length'.
Qed.

(** The signature check reads nothing after the first 24 bytes. *)
Lemma pkt_verify_prefix hs payload payload' :
  length hs = 24%nat → bytes hs → bytes payload → bytes payload' →
  pkt_verify (hs ++ payload) (len (hs ++ payload)) =
  pkt_verify (hs ++ payload') (len (hs ++ payload')).
Proof.
  intros Hl Hh Hp Hp'.
  rewrite !pkt_verify_spec by (by apply Forall_app || lia).
  do 2 f_equal. apply bool_decide_ext.
  assert (∀ p, 24 ≤ len (hs ++ p)) as Hlen by (intros p; unfold len; rewrite length_app; lia).
  rewrite !drop_app_le, !take_app_le by (rewrite ?length_drop; lia). split; intros [_ ?]; auto.
Qed.

(** ** The OPEN packet *)

(** Its layout: signed header and TLVs, each with its total length in the second byte. *)
Definition open_header (cfg : config) : list Z := [PKT_OPEN; cfg_encrypt cfg; 0; 0; 0; 0; 0; 0].
Definition tlv (ty : Z) (v : list Z) : list Z := ty :: (len v + 2) :: v.

(** The password cut or zero-padded to one block, encrypted under MD5("mw" + username). *)
Definition password_block (password : list Z) : list Z :=
  take 16 (password ++ replicate 16 0).
Definition encrypted_password (username password : list Z) : list Z :=
  fips_cipher (md5_spec (magic ++ username)) (password_block password).

Definition open_tlvs (cfg : config) : list Z :=
  let user := c_str (cfg_username cfg) in
  tlv 3 (be_encode 2 (cfg_mtu cfg)) ++
  tlv 1 user ++
  tlv 2 (encrypted_password user (c_str (cfg_password cfg))) ++
  (if cfg_encrypt cfg =? 0 then [] else tlv 8 [cfg_encrypt cfg]) ++
  (if (cfg_pipeid cfg =? 0) && (cfg_pipeidx cfg =? 0) then []
   else tlv 0xa (be_encode 2 (cfg_pipeid cfg + cfg_pipeidx cfg * 2 ^ 15))).

Lemma password_block_blit pw :
  blit (replicate 16 0) 0 (take 16 pw) = password_block pw.
Proof.
  unfold blit, password_block. rewrite take_0, app_nil_l, length_take, drop_replicate, take_app.
  f_equal. rewrite take_replicate. f_equal. lia.
Qed.

Lemma password_block_is_block pw : bytes pw → is_block (password_block pw).
Proof.
  intros Hb. unfold password_block. split.
  - rewrite length_take, length_app, length_replicate. lia.
  - apply Forall_take, Forall_app. split; [done|]. by apply Forall_replicate, is_u_0.
Qed.

Lemma md5_spec_is_block msg : is_block (md5_spec msg).
Proof. split; [apply length_md5_spec|apply md5_spec_bytes]. Qed.

Lemma encrypted_password_is_block user pw :
  bytes pw → is_block (encrypted_password user pw).
Proof.
  intros. unfold encrypted_password.
  rewrite <-aes_encrypt_block_fips by auto using md5_spec_is_block, password_block_is_block.
  by apply aes_encrypt_block_block, password_block_is_block.
Qed.

(** Byte pairs written with shifts and masks are the big-endian encoding. *)
Lemma be_encode2 z : [Z.land (Z.shiftr z 8) 0xff; Z.land z 0xff] = be_encode 2 z.
Proof.
  unfold be_encode. rewrite le_encode_map. cbn [map seq].
  change (Z.of_nat 0 * 8) with 0. by rewrite Z.shiftr_0_r, !land_0xff.
Qed.

Lemma open_header_bytes cfg : cfg_ok cfg → bytes (open_header cfg).
Proof. intros H. unfold open_header. forall_list ltac:(apply H || done). Qed.

Lemma open_tlvs_len cfg :
  cfg_ok cfg → 24 ≤ len (open_tlvs cfg) ≤ 62.
Proof.
  intros H. unfold open_tlvs, tlv.
  pose proof (is_cbuf_strlen _ _ (ok_username _ H)) as Hu. unfold strlen in Hu.
  pose proof (encrypted_password_is_block (c_str (cfg_username cfg)) (c_str (cfg_password cfg)))
    as [He _]; [apply c_str_bytes, H|].
  assert (len (encrypted_password (c_str (cfg_username cfg)) (c_str (cfg_password cfg))) = 16)
    as He' by (unfold len; lia).
  repeat case_match; autorewrite with c_len; lia.
Qed.

Lemma open_tlvs_bytes cfg : cfg_ok cfg → bytes (open_tlvs cfg).
Proof.
  intros H. unfold open_tlvs, tlv.
  pose proof (is_cbuf_strlen _ _ (ok_username _ H)) as Hu. unfold strlen in Hu.
  pose proof (encrypted_password_is_block (c_str (cfg_username cfg)) (c_str (cfg_password cfg)))
    as [He Heb]; [apply c_str_bytes, H|].
  assert (bytes (c_str (cfg_username cfg))) as Hub by apply c_str_bytes, H.
  pose proof (ok_cfg_encrypt _ H).
  rewrite len_be_encode. unfold len at 2. rewrite He.
  repeat case_match; rewrite ?Forall_app, ?Forall_cons; split_and!; auto with c_ints;
    try done; try (unfold is_u in *; lia); rewrite ?len_be_encode; try done.
Qed.

(** Symbolic execution of a builder: every emission fits. *)
Ltac opt_step := cbn [mbind option_bind].
Ltac emit_step := rewrite emit_Some by (autorewrite with c_len; lia); opt_step.

Lemma some_len_eq (a b : list Z) : a = b → Some (a, len a) = Some (b, len b).
Proof. by intros ->. Qed.

(** [build_open_pkt] produces exactly that packet, whatever the buffer's capacity, as long
    as 86 bytes fit. *)
(** What build_open_pkt computes from the password and the pipe number. *)
Lemma rd_password_prefix b :
  rd_n b 0 (if 16 <? len (c_str b) then 16 else len (c_str b)) = Some (take 16 (c_str b)).
Proof.
  destruct (c_str_prefix b) as [l Hl]. rewrite Hl at 1. set (pass := c_str b).
  destruct (Z.ltb_spec 16 (len pass)).
  - rewrite <-(take_drop 16 pass), <-app_assoc at 1. apply rd_n_head. autorewrite with c_len. lia.
  - rewrite (take_ge pass) by (unfold len in *; lia). by apply rd_n_head.
Qed.

Lemma pipe_value cfg :
  cfg_ok cfg →
  Z.lor (cfg_pipeid cfg) (u32 (Z.shiftl (cfg_pipeidx cfg) 15)) = cfg_pipeid cfg + cfg_pipeidx cfg * 2 ^ 15.
Proof.
  intros H. pose proof (ok_pipeid _ H). pose proof (ok_pipeidx _ H).
  rewrite u32_id by (rewrite Z.shiftl_mul_pow2 by done; unfold is_u; lia).
  apply lor_shift_low; [done|unfold is_u; lia].
Qed.

Lemma build_open_pkt_spec cfg cap :
  cfg_ok cfg → 86 ≤ cap →
  let p := open_header cfg ++ signature (open_header cfg) ++ open_tlvs cfg in
  build_open_pkt cfg cap = Some (p, len p).
Proof.
  intros H Hcap p.
  pose proof (is_cbuf_strlen _ _ (ok_username _ H)) as Hu.
  pose proof (c_str_bytes _ (proj1 (proj2 (ok_username _ H)))) as Hub.
  pose proof (c_str_bytes _ (proj1 (proj2 (ok_password _ H)))) as Hpb.
  assert (len (signature (open_header cfg)) = 16) as Hsl
    by (unfold len; by rewrite length_signature).
  assert (len (open_header cfg) = 8) as Hh by done.
  assert (len (encrypted_password (c_str (cfg_username cfg)) (c_str (cfg_password cfg))) = 16)
    as Hel.
  { unfold len. by rewrite (proj1 (encrypted_password_is_block _ _ Hpb)). }
  unfold build_open_pkt. emit_step. rewrite app_nil_l. fold (open_header cfg).
  rewrite pkt_sign_hdr by first [by apply open_header_bytes | done | lia]. opt_step.
  emit_step. rewrite rd_n_c_str. opt_step.
  unfold strlen in *. set (user := c_str (cfg_username cfg)) in *.
  set (pass := c_str (cfg_password cfg)) in *.
  do 3 emit_step.
  rewrite (rd_n_full ([0x6d; 0x77] ++ user)) by (autorewrite with c_len; lia). opt_step.
  unfold pass at 1 2. rewrite rd_password_prefix. fold pass.
  opt_step. rewrite password_block_blit, (md5_hash_spec _ (magic ++ user)).
  2: apply length_replicate.
  2: apply Forall_app; split; [forall_list ltac:(done)|done].
  2: unfold magic; autorewrite with c_len; lia.
  rewrite aes_encrypt_block_fips by auto using md5_spec_is_block, password_block_is_block.
  fold (encrypted_password user pass).
  do 2 emit_step. rewrite be_encode2, (u8_id (len user + 2)) by (unfold is_u; lia).
  rewrite pipe_value by done.
  rewrite be_encode2.
  assert (p = (open_header cfg ++ signature (open_header cfg)) ++ open_tlvs cfg) as ->
    by (unfold p; by rewrite <-app_assoc).
  unfold open_tlvs, tlv. fold user pass. rewrite len_be_encode, Hel.
  rewrite <-!(app_assoc (open_header cfg ++ _)).
  destruct (cfg_encrypt cfg =? 0), (cfg_pipeid cfg =? 0), (cfg_pipeidx cfg =? 0);
    cbn [negb orb andb]; opt_step; repeat emit_step; apply some_len_eq;
    rewrite <-?app_assoc, ?app_nil_r; reflexivity.
Qed.

(** ** Session packets: ECHO_REQ and CLOSE *)

Lemma session_header_ok ty c :
  is_byte ty → bytes (session_header ty c) ∧ length (session_header ty c) = 8%nat.
Proof.
  intros Hty. unfold session_header. split; [|by rewrite !length_app, !length_le_encode].
  rewrite !Forall_app. split_and!; auto using le_encode_bytes.
  forall_list ltac:(done || by apply is_u_0).
Qed.

Lemma le_encode_htonl z : le_encode 4 (htonl z) = be_encode 4 z.
Proof.
  unfold htonl. rewrite <-(length_be_encode 4 z) at 1.
  apply le_encode_decode, be_encode_bytes.
Qed.

(** A CLOSE packet, or the header and signature of an ECHO_REQ. *)
Definition signed_header (ty : Z) (c : client) : list Z :=
  session_header ty c ++ signature (session_header ty c).

Definition echo_payload (now : Z) (c : client) : list Z :=
  le_encode 8 now ++
  le_encode 4 (c_cur_delay c) ++ le_encode 4 (c_min_delay c) ++ le_encode 4 (c_max_delay c) ++
  [0; 0; 0; 0] ++ lit "TDR" ++ [0] ++ be_encode 4 (c_rt_magic c) ++ [0; 0; 0; 0].

Lemma len_signed_header ty c : len (signed_header ty c) = 24.
Proof.
  unfold signed_header, session_header, len.
  by rewrite !length_app, !length_le_encode, length_signature.
Qed.

Lemma len_echo_payload now c : len (echo_payload now c) = 36.
Proof. unfold echo_payload. by autorewrite with c_len. Qed.

Ltac wp_emit := eapply wp_mem; [apply emit_Some; autorewrite with c_len; lia|].

Section session_packets.
Context `{OS}.
Implicit Types (w : world).

Lemma wp_signed_header ty cap w Q :
  is_byte ty → 24 ≤ cap → Q (signed_header ty (w_c w), 24) w →
  wp (buf ← mem (emit cap [] (session_header ty (w_c w))); mem (pkt_sign cap buf)) w Q.
Proof.
  intros Hty Hcap HQ. destruct (session_header_ok ty (w_c w) Hty) as [Hb Hl].
  wp_step. eapply wp_mem; [apply emit_Some; rewrite len_nil; unfold len; lia|].
  eapply wp_mem; [|exact HQ]. by apply pkt_sign_hdr.
Qed.

Lemma wp_build_echo_req cap w (Q : list Z * Z → world → Prop) :
  60 ≤ cap →
  (let ts := os (w_t w) SClock in
   let now := u64 (ts.1 * 1000000 + ts.2 / 1000) in
   Q (signed_header PKT_ECHOREQ (w_c w) ++ echo_payload now (w_c w), 60)
     (mk_world (w_c w) (Ev SClock ts :: w_t w))) →
  wp (build_echo_req cap) w Q.
Proof.
  intros Hcap HQ. unfold build_echo_req. wp_step. wp_step.
  destruct (session_header_ok PKT_ECHOREQ (w_c w) ltac:(done)) as [Hb Hl].
  wp_step. eapply wp_mem; [apply emit_Some; rewrite len_nil; unfold len; lia|].
  rewrite app_nil_l.
  wp_step. eapply wp_mem; [apply pkt_sign_hdr; [done|done|lia]|]. cbv beta iota.
  fold (signed_header PKT_ECHOREQ (w_c w)).
  pose proof (len_signed_header PKT_ECHOREQ (w_c w)) as Hsl.
  assert (len (lit "TDR") = 3) as Htdr by done.
  wp_step. wp_step.
  do 8 (wp_step; wp_emit). wp_step.
  rewrite le_encode_htonl, <-!app_assoc.
  fold (echo_payload (u64 ((os (w_t w) SClock).1 * 1000000 + (os (w_t w) SClock).2 / 1000))
          (w_c w)).
  rewrite len_app, Hsl, len_echo_payload. apply HQ.
Qed.

Lemma wp_send_to_server pkt n w (Q : Z → world → Prop) :
  len pkt = n →
  (let s := SSendto (c_udp_fd (w_c w)) (c_server_addr (w_c w)) (c_server_port (w_c w)) pkt in
   Q (os (w_t w) s) (mk_world (w_c w) (Ev s (os (w_t w) s) :: w_t w))) →
  wp (send_to_server pkt n) w Q.
Proof.
  intros Hn HQ. unfold send_to_server. wp_step. wp_step. wp_step.
  eapply wp_mem; [by apply rd_n_full|]. wp_step. apply HQ.
Qed.

(** [send_close] sends the signed CLOSE of the current session when there is one, and
    otherwise does nothing. *)
Lemma wp_send_close w (Q : unit → world → Prop) :
  (let c := w_c w in
   if bool_decide (c_state c = STATE_ESTABLISHED ∧ 0 ≤ c_udp_fd c) then
     let s := SSendto (c_udp_fd c) (c_server_addr c) (c_server_port c)
                (signed_header PKT_CLOSE c) in
     Q () (mk_world c (Ev s (os (w_t w) s) :: w_t w))
   else Q () w) →
  wp send_close w Q.
Proof.
  intros HQ. cbv zeta in HQ. unfold send_close. wp_step. wp_step.
  case_bool_decide as Hc.
  - destruct Hc as [Hs Hf].
    rewrite (proj2 (Z.eqb_eq _ _) Hs), (proj2 (Z.ltb_ge _ 0)) by done. cbn [negb orb].
    destruct (session_header_ok PKT_CLOSE (w_c w) ltac:(done)) as [Hb Hl].
    wp_step. eapply wp_mem; [apply emit_Some; rewrite len_nil; unfold len; rewrite Hl; done|].
    wp_step. eapply wp_mem; [by apply pkt_sign_hdr|]. cbv beta iota.
    wp_step. apply wp_send_to_server; [apply len_signed_header|]. cbv zeta. by wp_step.
  - assert (negb (c_state (w_c w) =? STATE_ESTABLISHED) || (c_udp_fd (w_c w) <? 0) = true) as ->.
    { destruct (Z.eqb_spec (c_state (w_c w)) STATE_ESTABLISHED); [|done]. cbn [negb orb].
      apply Z.ltb_lt. destruct (Z.lt_ge_cases (c_udp_fd (w_c w)) 0); [done|]. tauto. }
    by destruct w.
Qed.
End session_packets.

(** ** Keys *)

Lemma derive_xor_key_spec cfg c :
  cfg_ok cfg →
  derive_xor_key cfg c =
  Some (c <| c_xor_key :=
          take 8 (md5_spec (c_str (cfg_username cfg) ++ c_str (cfg_password cfg))) |>).
Proof.
  intros H. unfold derive_xor_key.
  set (s := c_str (cfg_username cfg) ++ c_str (cfg_password cfg)).
  pose proof (is_cbuf_strlen _ _ (ok_username _ H)) as Hu.
  pose proof (is_cbuf_strlen _ _ (ok_password _ H)) as Hp.
  assert (len s ≤ 62) as Hs by (unfold s, strlen in *; rewrite len_app; lia).
  rewrite (take_ge s) by (unfold len in *; lia). rewrite rd_n_head by done.
  cbn [mbind option_bind]. rewrite (md5_hash_spec _ s); [done| | |lia].
  - apply length_replicate.
  - apply Forall_app. split; apply c_str_bytes, H.
Qed.

(** The segment-routing key: 16 bytes of the password followed by the links and zeros. *)
Definition sr_key (cfg : config) : list Z :=
  take 16 (c_str (cfg_sr_password cfg) ++
           take (Z.to_nat (cfg_sr_count cfg * 4)) (links_bytes (cfg_sr_links cfg)) ++
           replicate 32 0).

Definition sr_client (cfg : config) (c : client) : client :=
  c <| c_sr_decrypt_key := aes_set_decrypt_key (sr_key cfg) |>
    <| c_sr_encrypt_key := aes_set_encrypt_key (sr_key cfg) |>.
Definition sr_config (cfg : config) : config :=
  if cfg_sr_encrypt_mode cfg =? 2 then cfg <| cfg_sr_encrypt_mode := 1 |> else cfg.

Lemma length_links_bytes links : length (links_bytes links) = (4 * length links)%nat.
Proof.
  unfold links_bytes. induction links as [|l links IH]; [done|].
  cbn [map concat length]. rewrite length_app, length_le_encode, IH. lia.
Qed.

Lemma sr_setup_keys_spec cfg c :
  cfg_ok cfg →
  sr_setup_keys cfg c =
  Some (if cfg_sr_count cfg =? 0 then (cfg, c) else (sr_config cfg, sr_client cfg c)).
Proof.
  intros H. unfold sr_setup_keys. destruct (cfg_sr_count cfg =? 0); [done|].
  pose proof (is_cbuf_strlen _ _ (ok_sr_password _ H)) as Hpw. pose proof (ok_sr_count _ H) as Hcnt.
  destruct (ok_sr_links _ H) as [Hll _]. pose proof (length_links_bytes (cfg_sr_links cfg)) as Hlb.
  set (p := c_str (cfg_sr_password cfg)).
  set (l := take (Z.to_nat (cfg_sr_count cfg * 4)) (links_bytes (cfg_sr_links cfg))).
  assert (len l = cfg_sr_count cfg * 4) as Hl.
  { unfold l. rewrite len_take. unfold len. rewrite Hlb, Hll. lia. }
  assert ((if 0 <? strlen (cfg_sr_password cfg)
           then p ← rd_n (cfg_sr_password cfg) 0 (strlen (cfg_sr_password cfg)); emit 128 [] p
           else Some []) = Some p) as ->.
  { unfold strlen in *. fold p in Hpw |- *. destruct (Z.ltb_spec 0 (len p)).
    - pose proof (rd_n_c_str (cfg_sr_password cfg)) as E. unfold strlen in E. fold p in E.
      rewrite E. cbn [mbind option_bind]. rewrite emit_Some by (rewrite len_nil; lia). done.
    - destruct p; [done|]. rewrite len_cons in *. pose proof (len_nonneg p). lia. }
  unfold strlen in Hpw. fold p in Hpw. cbn [mbind option_bind].
  rewrite (proj2 (Z.leb_le _ _)) by lia. rewrite rd_n_Some by (unfold len; lia).
  cbn [mbind option_bind]. rewrite drop_0. fold l. rewrite emit_Some by lia.
  cbn [mbind option_bind]. rewrite emit_Some by
    (rewrite len_app, len_replicate; unfold len in *; rewrite length_app; lia).
  cbn [mbind option_bind]. rewrite rd_n_Some by
    (rewrite ?len_app, ?len_replicate; unfold len in *; rewrite ?length_app; lia).
  cbn [mbind option_bind]. rewrite drop_0. change (Z.to_nat 16) with 16%nat.
  assert (take 16 ((p ++ l) ++ replicate (32 - length (p ++ l)) 0) = sr_key cfg) as ->.
  { unfold sr_key. fold p l. rewrite app_assoc. rewrite !(take_app (p ++ l)). f_equal.
    rewrite !take_replicate. f_equal. lia. }
  done.
Qed.

Lemma sr_config_ok cfg : cfg_ok cfg → cfg_ok (sr_config cfg).
Proof.
  intros H. unfold sr_config. destruct (_ =? 2); [|done]. destruct H.
  split; try assumption. change (0 ≤ 1 ≤ 2). lia.
Qed.

(** ** The theorems *)

(** A configuration for the examples. *)
Definition buf_of (n : nat) (s : list Z) : list Z := strncpy (replicate n 0) s (n - 1).
Definition sample_cfg : config :=
  config_zero <| cfg_server := buf_of 64 (lit "192.0.2.1") |>
    <| cfg_username := buf_of 32 (lit "alice") |> <| cfg_password := buf_of 32 (lit "secret") |>
    <| cfg_tun_name := buf_of IFNAMSIZ (lit "iwan0") |> <| cfg_port := 8000 |> <| cfg_mtu := 1400 |>
    <| cfg_encrypt := 1 |> <| cfg_pipeid := 5 |> <| cfg_pipeidx := 1 |>
    <| cfg_sr_count := 1 |> <| cfg_sr_links := [0x0100007f; 0; 0; 0; 0; 0] |>
    <| cfg_sr_encrypt_mode := 1 |> <| cfg_sr_password := buf_of 32 (lit "sr") |>.

Lemma sample_cfg_ok : cfg_ok sample_cfg.
Proof.
  assert (∀ n l, (length l =? n)%nat && forallb byteb l && (nth (n - 1) l 1 =? 0) = true →
    (0 < n)%nat → is_cbuf n l) as Hbuf.
  { intros n l. rewrite !andb_true_iff, Nat.eqb_eq, Z.eqb_eq. intros [[Hl Hb] H0] Hn.
    split_and!; [done|by apply byte_list_ok|]. rewrite nth_lookup in H0.
    destruct (l !! (n - 1)%nat) eqn:E; simpl in H0; congruence. }
  split; try (apply Hbuf; [vm_compute; reflexivity|unfold IFNAMSIZ; lia]);
    try (refine (bool_decide_unpack _ _); vm_compute; exact I).
Qed.

(** Build_open_pkt writes exactly the OPEN packet of the configuration: signed header,
    MTU, user name, password encrypted under MD5("mw" + user name), and the optional TLVs;
    between 48 and 86 bytes, so that it fits the 2048-byte buffer of the caller. *)
Theorem build_open_pkt_layout cfg :
  cfg_ok cfg →
  let p := open_header cfg ++ signature (open_header cfg) ++ open_tlvs cfg in
  build_open_pkt cfg MAX_PKT_SIZE = Some (p, len p) ∧ 48 ≤ len p ≤ 86 ∧
  pkt_verify p (len p) = Some true.
Proof.
  intros H p. pose proof (open_tlvs_len cfg H) as Hl.
  assert (len p = 24 + len (open_tlvs cfg)) as Hp.
  { unfold p. rewrite !len_app. change (len (open_header cfg)) with 8.
    unfold len at 1. rewrite length_signature. lia. }
  split_and!; [by apply build_open_pkt_spec|lia|lia|].
  apply pkt_verify_signed; [by apply open_header_bytes|done|by apply open_tlvs_bytes].
Qed.

(** What pkt_sign signs, pkt_verify accepts, whatever payload is appended. *)
Theorem sign_verify cap hdr payload :
  bytes hdr → length hdr = 8%nat → bytes payload → 24 ≤ cap →
  ∃ p, pkt_sign cap hdr = Some (p, 24) ∧
    pkt_verify (p ++ payload) (len (p ++ payload)) = Some true.
Proof.
  intros Hh Hl Hp Hc. eexists. split; [by apply pkt_sign_hdr|].
  rewrite <-app_assoc. by apply pkt_verify_signed.
Qed.

(** A packet is accepted exactly when it has 24 bytes and bytes 8 to 23 are the MD5 of
    its first 8 bytes and "mw".  No secret enters this, and no byte after the 24th. *)
Theorem pkt_verify_iff pkt :
  bytes pkt →
  (pkt_verify pkt (len pkt) = Some true ↔
   24 ≤ len pkt ∧ take 16 (drop 8 pkt) = md5_spec (take 8 pkt ++ [0x6d; 0x77])).
Proof.
  intros Hb. rewrite pkt_verify_spec by (done || lia).
  case_bool_decide as Hv; split; intros H; try done; congruence.
Qed.

(** The XOR cipher is an involution on the bytes it covers and leaves the rest alone. *)
Theorem xor_encrypt_involutive key data n :
  n ≤ len data →
  ∃ d, xor_encrypt key data n = Some d ∧ xor_encrypt key d n = Some data ∧
    length d = length data ∧ drop (Z.to_nat n) d = drop (Z.to_nat n) data.
Proof.
  intros Hn. destruct (xor_encrypt_Some key data n Hn) as (d & Hd & Hl).
  exists d. split_and!; [done|by apply xor_encrypt_twice|done|by eapply xor_encrypt_drop].
Qed.

(** The two segment-routing schedules are those of one key, so that what is encrypted with
    one is decrypted with the other; AES-256 falls back to AES-128. *)
Theorem sr_setup_keys_agree cfg c block :
  cfg_ok cfg → cfg_sr_count cfg ≠ 0 → is_block block →
  ∃ cfg' c', sr_setup_keys cfg c = Some (cfg', c') ∧
    cfg_sr_encrypt_mode cfg' ≤ 1 ∧
    aes_decrypt_block (aes_encrypt_block block (c_sr_encrypt_key c')) (c_sr_decrypt_key c') = block.
Proof.
  intros H Hc Hb. do 2 eexists. rewrite sr_setup_keys_spec by done.
  rewrite (proj2 (Z.eqb_neq _ _) Hc). split; [done|]. split.
  - pose proof (ok_sr_mode _ H). unfold sr_config.
    destruct (Z.eqb_spec (cfg_sr_encrypt_mode cfg) 2); [change (1 ≤ 1)|]; lia.
  - by apply aes_decrypt_encrypt.
Qed.

(** The XOR key is the first 8 bytes of MD5(user name + password); nothing is read past
    the 128-byte buffer. *)
Theorem derive_xor_key_md5 cfg c :
  cfg_ok cfg →
  derive_xor_key cfg c =
  Some (c <| c_xor_key :=
          take 8 (md5_spec (c_str (cfg_username cfg) ++ c_str (cfg_password cfg))) |>).
Proof. apply derive_xor_key_spec. Qed.

Section theorems.
Context `{OS}.

(** An ECHO_REQ is the signed session header and 36 bytes: the time in microseconds,
    the delays, and the fixed fields; it fits any buffer of 60 bytes. *)
Theorem build_echo_req_layout cap w :
  60 ≤ cap →
  let ts := os (w_t w) SClock in
  let now := u64 (ts.1 * 1000000 + ts.2 / 1000) in
  build_echo_req cap w =
    Some ((signed_header PKT_ECHOREQ (w_c w) ++ echo_payload now (w_c w), 60),
          mk_world (w_c w) (Ev SClock ts :: w_t w)).
Proof.
  intros Hcap ts now.
  assert (wp (build_echo_req cap) w (λ r w', r =
    (signed_header PKT_ECHOREQ (w_c w) ++ echo_payload now (w_c w), 60) ∧
    w' = mk_world (w_c w) (Ev SClock ts :: w_t w))) as Hwp by by apply wp_build_echo_req.
  by apply wp_run in Hwp as (r & w' & E & -> & ->).
Qed.

(** Send_close sends the signed CLOSE of the session to the server when there is a
    session and a socket, and otherwise does nothing at all. *)
Theorem send_close_spec w :
  let c := w_c w in
  let s := SSendto (c_udp_fd c) (c_server_addr c) (c_server_port c) (signed_header PKT_CLOSE c) in
  send_close w = Some ((),
    if bool_decide (c_state c = STATE_ESTABLISHED ∧ 0 ≤ c_udp_fd c)
    then mk_world c (Ev s (os (w_t w) s) :: w_t w) else w).
Proof.
  intros c s.
  assert (wp send_close w (λ _ w', w' =
    if bool_decide (c_state c = STATE_ESTABLISHED ∧ 0 ≤ c_udp_fd c)
    then mk_world c (Ev s (os (w_t w) s) :: w_t w) else w)) as Hwp.
  { apply wp_send_close. cbv zeta. fold c. by destruct (bool_decide _). }
  by apply wp_run in Hwp as ([] & w' & E & ->).
Qed.
End theorems.

(** ** Witnesses *)

Lemma build_open_pkt_layout_witness :
  let p := open_header sample_cfg ++ signature (open_header sample_cfg) ++ open_tlvs sample_cfg in
  build_open_pkt sample_cfg MAX_PKT_SIZE = Some (p, len p) ∧ 48 ≤ len p ≤ 86 ∧
  pkt_verify p (len p) = Some true.
Proof. apply (build_open_pkt_layout sample_cfg sample_cfg_ok). Defined.

Lemma sign_verify_witness :
  ∃ p, pkt_sign 2048 [0x17; 0; 1; 2; 3; 4; 5; 6] = Some (p, 24) ∧
    pkt_verify (p ++ [9]) (len (p ++ [9])) = Some true.
Proof. apply sign_verify; [by apply byte_list_ok|reflexivity|by apply byte_list_ok|done]. Defined.

Lemma pkt_verify_iff_witness :
  pkt_verify (replicate 24 0) 24 = Some true ↔
  24 ≤ 24 ∧ replicate 16 0 = md5_spec (replicate 8 0 ++ [0x6d; 0x77]).
Proof. apply (pkt_verify_iff (replicate 24 0)). by apply byte_list_ok. Defined.

Lemma xor_encrypt_involutive_witness :
  ∃ d, xor_encrypt [1; 2; 3; 4; 5; 6; 7; 8] [10; 20; 30] 2 = Some d ∧
    xor_encrypt [1; 2; 3; 4; 5; 6; 7; 8] d 2 = Some [10; 20; 30] ∧
    length d = 3%nat ∧ drop 2 d = [30].
Proof. apply (xor_encrypt_involutive [1; 2; 3; 4; 5; 6; 7; 8] [10; 20; 30] 2). done. Defined.

Lemma sr_setup_keys_agree_witness :
  ∃ cfg' c', sr_setup_keys sample_cfg client_init = Some (cfg', c') ∧
    cfg_sr_encrypt_mode cfg' ≤ 1 ∧
    aes_decrypt_block (aes_encrypt_block fips_input (c_sr_encrypt_key c')) (c_sr_decrypt_key c')
    = fips_input.
Proof.
  apply sr_setup_keys_agree; [exact sample_cfg_ok|done|].
  split; [reflexivity|by apply byte_list_ok].
Defined.

Lemma derive_xor_key_md5_witness :
  derive_xor_key sample_cfg client_init =
  Some (client_init <| c_xor_key := take 8 (md5_spec (lit "alicesecret")) |>).
Proof. apply (derive_xor_key_md5 sample_cfg client_init sample_cfg_ok). Defined.

Lemma build_echo_req_layout_witness :
  build_echo_req (H := still_os) 60 (mk_world client_init []) =
    Some ((signed_header PKT_ECHOREQ client_init ++ echo_payload 100000000 client_init, 60),
          mk_world client_init [Ev SClock (100, 0)]).
Proof. apply (build_echo_req_layout (H := still_os) 60 (mk_world client_init [])). done. Defined.
