(* ===== verification/OpenAck.v ===== *)
(** Establishing a session, as in [src/iwand.c]: the hook scripts (run_script) and the
    OPENACK handler (handle_openack) with its TLV parser. *)
From S2P Require Import Prelude Libc Md5 Client Os Tun TunLinux CMonad Packet.

(** ** Hook scripts *)

Section run_script.
Context `{OS}.

(** [argv] of the child: script, event, interface, address, MTU and DNS servers. *)
Definition script_argv (script event : list Z) (cfg : config) (c : client) : list (list Z) :=
  let mtu := if 0 <? c_server_mtu c then c_server_mtu c else cfg_mtu cfg in
  [c_str script; event; c_str (cfg_tun_name cfg); ip_string (c_peer_ip c); dec mtu;
   ip_string (c_dns0 c); ip_string (c_dns1 c)].

Definition run_script (cfg : config) (script event : list Z) : M unit :=
  c ← get_c;
  s0 ← mem (rd script 0);
  if s0 =? 0 then mret () else
  a ← io (call (SAccess (c_str script)));
  if negb (a =? 0) then mret () else
  pid ← io (call (SFork (script_argv script event cfg c)));
  if pid <? 0 then mret () else
  _ ← io (call (SWaitpid pid));
  mret ().
End run_script.

(** ** The TLV parser *)

(** [(uint16_t)val[0] << 8 | val[1]] and the 32-bit version. *)
Definition rd_be16 (b : list Z) (off : Z) : option Z :=
  x ← rd b off; y ← rd b (off + 1); Some (Z.lor (Z.shiftl x 8) y).
Definition rd_be32 (b : list Z) (off : Z) : option Z :=
  x ← rd b off; y ← rd b (off + 1); z ← rd b (off + 2); w ← rd b (off + 3);
  Some (Z.lor (Z.lor (Z.lor (Z.shiftl x 24) (Z.shiftl y 16)) (Z.shiftl z 8)) w).

(** The [switch (type)] on one TLV whose value is at [val]. *)
Definition tlv_case (pkt : list Z) (type vlen val : Z) : M unit :=
  if type =? 3 then
    when (2 <=? vlen) (m ← mem (rd_be16 pkt val); mod_c (λ c, c <| c_server_mtu := m |>))
  else if type =? 4 then
    when (4 <=? vlen) (a ← mem (rd_be32 pkt val); mod_c (λ c, c <| c_peer_ip := a |>))
  else if type =? 5 then
    when (4 <=? vlen) (a ← mem (rd_be32 pkt val); mod_c (λ c, c <| c_dns0 := a |>))
  else if type =? 6 then
    _ ← when (4 <=? vlen) (a ← mem (rd_be32 pkt val); mod_c (λ c, c <| c_dns0 := a |>));
    when (8 <=? vlen) (a ← mem (rd_be32 pkt (val + 4)); mod_c (λ c, c <| c_dns1 := a |>))
  else if type =? 7 then
    when (1 <=? vlen) (x ← mem (rd pkt val); mod_c (λ c, c <| c_peer_dup_pkt := x |>))
  else if type =? 8 then
    when (1 <=? vlen) (x ← mem (rd pkt val); mod_c (λ c, c <| c_encrypt := x |>))
  else mret ().

(** The [while (remain > 0)] loop at offset [p].  Running out of fuel is [None], which the
    theorems exclude. *)
Fixpoint parse_tlvs (fuel : nat) (pkt : list Z) (p remain : Z) : M unit :=
  match fuel with
  | O => mem None
  | S fuel' =>
      if negb (0 <? remain) then mret () else
      if remain <? 2 then mret () else
      type ← mem (rd pkt p);
      tlen ← mem (rd pkt (p + 1));
      if (tlen <? 2) || (remain <? tlen) then mret () else
      _ ← tlv_case pkt type (tlen - 2) (p + 2);
      parse_tlvs fuel' pkt (p + tlen) (remain - tlen)
  end.

(** ** The handler *)
Section handle_openack.
Context `{OS, TunBackend}.

Definition eff_mtu (cfg : config) (c : client) : Z :=
  if (68 <=? c_server_mtu c) && (c_server_mtu c <? cfg_mtu cfg)
  then c_server_mtu c else cfg_mtu cfg.

Definition handle_openack (cfg : config) (pkt : list Z) (pktlen : Z) : M Z :=
  c ← get_c;
  if negb (c_state c =? STATE_AUTH_SENT) then mret 0 else
  valid ← mem (pkt_verify pkt pktlen);
  if negb valid then mret 0 else
  let remain := pktlen - HDR_SIZE - SIGN_SIZE in
  _ ← parse_tlvs (S (Z.to_nat remain)) pkt (HDR_SIZE + SIGN_SIZE) remain;
  c ← get_c;
  if c_peer_ip c =? 0 then mret 0 else
  _ ← mod_c (λ c, c <| c_state := STATE_ESTABLISHED |>);
  token ← mem (rd_n pkt 2 2);
  _ ← mod_c (λ c, c <| c_session_token := le_decode token |>);
  id ← mem (rd_n pkt 4 4);
  _ ← mod_c (λ c, c <| c_session_id := le_decode id |>);
  now ← io mono_secs;
  _ ← mod_c (λ c, c <| c_last_recv_time := now |>);
  _ ← mod_c (λ c, c <| c_echo_counter := 0 |>);
  c ← get_c;
  let mtu := eff_mtu cfg c in
  let mask := htonl 0xffffff00 in
  r1 ← io (tun_set_ip (cfg_tun_name cfg) (htonl (c_peer_ip c)) mask);
  failed ← (if r1 <? 0 then mret true
            else r2 ← io (tun_set_mtu (cfg_tun_name cfg) mtu); mret (r2 <? 0));
  if (failed : bool) then
    _ ← mod_c (λ c, c <| c_state := STATE_CLOSED |>); mret 0
  else
  _ ← run_script cfg (cfg_up_script cfg) (lit "up");
  mret 1.
End handle_openack.

(** * Properties *)

(** ** The TLVs of a byte string *)

(** The specification of the parser: the well-formed TLVs at the front; parsing stops at
    the first malformed one. *)
Fixpoint tlv_split (fuel : nat) (l : list Z) : list (Z * list Z) :=
  match fuel, l with
  | S fuel', ty :: n :: rest =>
      if (n <? 2) || (len l <? n) then []
      else (ty, take (Z.to_nat (n - 2)) rest) :: tlv_split fuel' (drop (Z.to_nat (n - 2)) rest)
  | _, _ => []
  end.
Definition tlvs (l : list Z) : list (Z * list Z) := tlv_split (length l) l.

(** What one TLV means to the client. *)
Definition apply_tlv (c : client) (t : Z * list Z) : client :=
  let '(ty, v) := t in
  let be n l := be_decode (take n l) in
  if ty =? 3 then if 2 <=? len v then c <| c_server_mtu := be 2%nat v |> else c
  else if ty =? 4 then if 4 <=? len v then c <| c_peer_ip := be 4%nat v |> else c
  else if ty =? 5 then if 4 <=? len v then c <| c_dns0 := be 4%nat v |> else c
  else if ty =? 6 then
    let c := if 4 <=? len v then c <| c_dns0 := be 4%nat v |> else c in
    if 8 <=? len v then c <| c_dns1 := be 4%nat (drop 4 v) |> else c
  else if ty =? 7 then
    match v with x :: _ => c <| c_peer_dup_pkt := x |> | [] => c end
  else if ty =? 8 then
    match v with x :: _ => c <| c_encrypt := x |> | [] => c end
  else c.

Lemma tlv_split_fuel f1 f2 l :
  (length l ≤ f1)%nat → (length l ≤ f2)%nat → tlv_split f1 l = tlv_split f2 l.
Proof.
  revert f2 l. induction f1 as [|f1 IH]; intros f2 l H1 H2.
  { destruct l; [|simpl in H1; lia]. by destruct f2. }
  destruct f2 as [|f2]; [destruct l; [done|simpl in H2; lia]|].
  destruct l as [|ty [|n rest]]; [done|done|]. simpl.
  case_match; [done|]. f_equal. simpl in *. apply IH; rewrite length_drop; lia.
Qed.

(** Parsing a TLV that was printed. *)
Lemma tlvs_tlv ty v rest :
  len v + 2 ≤ 255 → tlvs (tlv ty v ++ rest) = (ty, v) :: tlvs rest.
Proof.
  intros Hv. pose proof (len_nonneg v). pose proof (len_nonneg rest).
  change (tlvs (tlv ty v ++ rest)) with
    (tlv_split (S (S (length (v ++ rest)))) (ty :: len v + 2 :: v ++ rest)).
  set (r := tlvs rest). cbn [tlv_split].
  assert ((len v + 2 <? 2) || (len (ty :: len v + 2 :: v ++ rest) <? len v + 2) = false) as ->.
  { apply orb_false_iff. rewrite !Z.ltb_ge. autorewrite with c_len. lia. }
  replace (Z.to_nat (len v + 2 - 2)) with (length v) by (unfold len; lia).
  rewrite take_app_length, drop_app_length. f_equal.
  apply (tlv_split_fuel (S (length (v ++ rest)))); rewrite ?length_app; lia.
Qed.

Lemma tlvs_nil : tlvs [] = [].
Proof. done. Qed.

(** ** The parser implements the specification *)

Lemma rd_be16_spec b off :
  bytes b → 0 ≤ off → off + 2 ≤ len b →
  rd_be16 b off = Some (be_decode (take 2 (drop (Z.to_nat off) b))).
Proof.
  intros Hb Ho Hl. unfold rd_be16.
  assert (bytes (drop (Z.to_nat off) b)) as Hd by (by apply Forall_drop).
  pose proof (length_drop b (Z.to_nat off)) as Hdl. unfold len in Hl.
  rewrite rd_drop by lia. rewrite <-(Z.add_0_r off) at 1. rewrite rd_drop by lia.
  destruct (drop _ b) as [|x [|y l]]; simpl in Hdl; [lia|lia|].
  rewrite !Forall_cons in Hd. transitivity (Some (Z.lor (Z.shiftl x 8) y)); [done|].
  f_equal. apply be2_value; tauto.
Qed.

Lemma rd_be32_spec b off :
  bytes b → 0 ≤ off → off + 4 ≤ len b →
  rd_be32 b off = Some (be_decode (take 4 (drop (Z.to_nat off) b))).
Proof.
  intros Hb Ho Hl. unfold rd_be32.
  assert (bytes (drop (Z.to_nat off) b)) as Hd by (by apply Forall_drop).
  pose proof (length_drop b (Z.to_nat off)) as Hdl. unfold len in Hl.
  rewrite !(rd_drop b off) by lia. rewrite <-(Z.add_0_r off) at 1. rewrite rd_drop by lia.
  destruct (drop _ b) as [|x [|y [|z [|t l]]]]; simpl in Hdl; try lia.
  rewrite !Forall_cons in Hd.
  transitivity (Some (Z.lor (Z.lor (Z.lor (Z.shiftl x 24) (Z.shiftl y 16)) (Z.shiftl z 8)) t));
    [done|]. f_equal. apply be4_value; tauto.
Qed.

Lemma wp_when_mem {A} (b : bool) (o : option A) (f : A → client → client) w (Q : unit → world → Prop) :
  (b = true → ∃ x, o = Some x ∧ Q () (mk_world (f x (w_c w)) (w_t w))) →
  (b = false → Q () w) →
  wp (when b (x ← mem o; mod_c (f x))) w Q.
Proof.
  intros Ht Hf. destruct b; simpl; [|by apply Hf].
  destruct Ht as (x & Hx & HQ); [done|]. wp_step. by eapply wp_mem.
Qed.

Lemma wp_tlv_case pkt ty vlen val w Q :
  bytes pkt → 0 ≤ val → 0 ≤ vlen → val + vlen ≤ len pkt →
  (let v := take (Z.to_nat vlen) (drop (Z.to_nat val) pkt) in
   Q () (mk_world (apply_tlv (w_c w) (ty, v)) (w_t w))) →
  wp (tlv_case pkt ty vlen val) w Q.
Proof.
  intros Hb Hval Hvlen Hl. cbv zeta. set (d := drop (Z.to_nat val) pkt). intros HQ.
  assert (len d = len pkt - val) as Hd by (unfold d; rewrite len_drop; lia).
  assert (len (take (Z.to_nat vlen) d) = vlen) as Hv by (rewrite len_take; lia).
  unfold apply_tlv in HQ. rewrite Hv in HQ. unfold tlv_case.
  destruct w as [c tr]; cbn [w_c w_t] in *.
  (* the byte-valued TLVs *)
  assert (∀ f : Z → client → client,
    Q () (mk_world (match take (Z.to_nat vlen) d with x :: _ => f x c | [] => c end) tr) →
    wp (when (1 <=? vlen) (x ← mem (rd pkt val); mod_c (f x))) (mk_world c tr) Q) as Hbyte.
  { intros f Hf. apply wp_when_mem; intros Hlt.
    - apply Z.leb_le in Hlt. destruct d as [|x d'] eqn:Ed; [rewrite len_nil in Hd; lia|].
      exists x. split; [by apply (rd_head _ _ _ d')|].
      replace (Z.to_nat vlen) with (S (Z.to_nat (vlen - 1))) in Hf by lia. exact Hf.
    - apply Z.leb_gt in Hlt. replace (Z.to_nat vlen) with 0%nat in Hf by lia. exact Hf. }
  (* the integer-valued ones *)
  assert (∀ (n : nat) o (f : Z → client → client) (Q : unit → world → Prop) c',
    (Z.of_nat n ≤ vlen → o = Some (be_decode (take n d))) →
    Q () (mk_world (if Z.of_nat n <=? vlen
                    then f (be_decode (take n (take (Z.to_nat vlen) d))) c' else c') tr) →
    wp (when (Z.of_nat n <=? vlen) (x ← mem o; mod_c (f x))) (mk_world c' tr) Q) as Hint.
  { intros n o f Q' c' Ho Hf. apply wp_when_mem; intros Hlt; rewrite Hlt in Hf.
    - apply Z.leb_le in Hlt. eexists. split; [by apply Ho|].
      rewrite take_take, Nat.min_l in Hf by lia. exact Hf.
    - exact Hf. }
  destruct (ty =? 3); [apply (Hint 2%nat); [intros; apply rd_be16_spec; lia || done|exact HQ]|].
  destruct (ty =? 4); [apply (Hint 4%nat); [intros; apply rd_be32_spec; lia || done|exact HQ]|].
  destruct (ty =? 5); [apply (Hint 4%nat); [intros; apply rd_be32_spec; lia || done|exact HQ]|].
  destruct (ty =? 6).
  { wp_step. apply (Hint 4%nat); [intros; apply rd_be32_spec; lia || done|].
    apply wp_when_mem; intros Hlt; rewrite Hlt in HQ; [|exact HQ].
    apply Z.leb_le in Hlt. eexists. split; [apply rd_be32_spec; lia || done|].
    replace (Z.to_nat (val + 4)) with (Z.to_nat val + 4)%nat by lia.
    rewrite <-drop_drop. fold d. cbn [w_c w_t].
    rewrite skipn_firstn_comm, take_take, Nat.min_l in HQ by lia. exact HQ. }
  destruct (ty =? 7); [by apply Hbyte|].
  destruct (ty =? 8); [by apply Hbyte|]. exact HQ.
Qed.

Lemma wp_parse_tlvs fuel pkt p remain w Q :
  bytes pkt → 0 ≤ p → 0 ≤ remain → p + remain ≤ len pkt → (Z.to_nat remain < fuel)%nat →
  (let l := take (Z.to_nat remain) (drop (Z.to_nat p) pkt) in
   Q () (mk_world (foldl apply_tlv (w_c w) (tlvs l)) (w_t w))) →
  wp (parse_tlvs fuel pkt p remain) w Q.
Proof.
  intros Hb. cbv zeta. revert p remain w.
  induction fuel as [|fuel IH]; intros p remain w Hp Hr Hl Hf HQ; [lia|].
  cbn [parse_tlvs]. pose proof (len_drop (Z.to_nat p) pkt) as Hd.
  destruct (Z.ltb_spec 0 remain); cbn [negb].
  2:{ replace remain with 0 in HQ by lia. by destruct w. }
  destruct (Z.ltb_spec remain 2) as [H2|H2].
  { replace remain with 1 in HQ by lia.
    destruct (drop (Z.to_nat p) pkt) as [|x l]; [rewrite len_nil in Hd; lia|].
    by destruct w. }
  destruct (drop (Z.to_nat p) pkt) as [|ty [|n rest]] eqn:Ed;
    [rewrite len_nil in Hd; lia|rewrite len_cons, len_nil in Hd; lia|].
  assert (drop (Z.to_nat (p + 2)) pkt = rest) as Ed2.
  { replace (Z.to_nat (p + 2)) with (Z.to_nat p + 2)%nat by lia.
    by rewrite <-drop_drop, Ed. }
  wp_step. eapply wp_mem; [by eapply rd_head|].
  wp_step. eapply wp_mem.
  { apply (rd_head _ _ n rest); [lia|].
    replace (Z.to_nat (p + 1)) with (Z.to_nat p + 1)%nat by lia. by rewrite <-drop_drop, Ed. }
  rewrite !len_cons in Hd. pose proof (len_nonneg rest) as Hrest.
  replace (Z.to_nat remain) with (S (S (Z.to_nat (remain - 2)))) in HQ by lia.
  cbn [take] in HQ. set (r := take _ rest) in *.
  assert (len r = remain - 2) as Hlr by (unfold r; rewrite len_take; lia).
  unfold tlvs in HQ. cbn [length tlv_split] in HQ. rewrite !len_cons, Hlr in HQ.
  replace (1 + (1 + (remain - 2))) with remain in HQ by lia.
  destruct ((n <? 2) || (remain <? n)) eqn:E; [by destruct w|].
  rewrite orb_false_iff, !Z.ltb_ge in E. destruct E as [En Hn].
  cbn [foldl] in HQ. unfold r in HQ. rewrite take_take, Nat.min_l in HQ by lia.
  wp_step. apply wp_tlv_case; [done|lia|lia|lia|]. rewrite Ed2. cbn zeta.
  apply IH; [lia|lia|lia|lia|]. cbn [w_c w_t].
  replace (Z.to_nat (p + n)) with (Z.to_nat (p + 2) + Z.to_nat (n - 2))%nat by lia.
  rewrite <-drop_drop, Ed2. fold r in HQ. unfold tlvs.
  rewrite (tlv_split_fuel _ (S (length r))).
  - replace (Z.to_nat (remain - n)) with (Z.to_nat (remain - 2) - Z.to_nat (n - 2))%nat by lia.
    rewrite <-skipn_firstn_comm. exact HQ.
  - done.
  - unfold len in Hlr. rewrite length_take. lia.
Qed.

(** ** Hook scripts: what they run *)

(** The calls of a hook: nothing without a script, a probe, or a child that is waited for. *)
Inductive script_run (path : list Z) (argv : list (list Z)) : trace → Prop :=
  | no_script : path = [] → script_run path argv []
  | not_executable (a : Z) :
      path ≠ [] → a ≠ 0 → script_run path argv [Ev (SAccess path) a]
  | fork_failed (pid : Z) :
      path ≠ [] → pid < 0 → script_run path argv [Ev (SFork argv) pid; Ev (SAccess path) 0]
  | script_ran (pid status : Z) :
      path ≠ [] → 0 ≤ pid →
      script_run path argv
        [Ev (SWaitpid pid) status; Ev (SFork argv) pid; Ev (SAccess path) 0].

Definition script_event (ev : event) : Prop :=
  match ev_call ev with SAccess _ | SFork _ | SWaitpid _ => True | _ => False end.

Lemma script_run_events path argv new : script_run path argv new → Forall script_event new.
Proof. destruct 1; io_config. Qed.

Lemma script_events_neutral new : Forall script_event new → fd_neutral new.
Proof.
  induction 1 as [|[s r] new Hev _ IH]; [done|]. intros live. simpl. rewrite IH.
  by destruct s.
Qed.

Lemma wp_run_script `{OS} cfg script event w Q :
  is_cbuf 256 script →
  (∀ new, script_run (c_str script) (script_argv script event cfg (w_c w)) new →
    Q () (mk_world (w_c w) (new ++ w_t w))) →
  wp (run_script cfg script event) w Q.
Proof.
  intros (Hl & _ & _) HQ. unfold run_script. wp_step. wp_step. wp_step.
  destruct script as [|x script]; [done|]. eapply wp_mem; [done|].
  destruct (Z.eqb_spec x 0) as [->|Hx].
  { wp_step. destruct w. by apply (HQ []), no_script. }
  assert (c_str (x :: script) ≠ []) as Hne by (simpl; by rewrite (proj2 (Z.eqb_neq _ _) Hx)).
  set (path := c_str (x :: script)) in *.
  wp_step. wp_step.
  destruct (Z.eqb_spec (os (w_t w) (SAccess path)) 0) as [Ha|Ha]; cbn [negb].
  2:{ wp_step. by apply (HQ [_]), not_executable. }
  rewrite Ha. wp_step. wp_step. set (argv := script_argv _ _ _ _) in *.
  destruct (Z.ltb_spec (os (Ev (SAccess path) 0 :: w_t w) (SFork argv)) 0).
  { wp_step. by apply (HQ [_; _]), fork_failed. }
  wp_step. wp_step. wp_step. by apply (HQ [_; _; _]), script_ran.
Qed.

(** ** The handler *)

(** The session the server granted, before and after the network is configured. *)
Definition openack_fields (c : client) (pkt : list Z) : client :=
  foldl apply_tlv c (tlvs (drop 24 pkt)).
Definition established (c : client) (pkt : list Z) (now : Z) : client :=
  c <| c_state := STATE_ESTABLISHED |>
    <| c_session_token := le_decode (take 2 (drop 2 pkt)) |>
    <| c_session_id := le_decode (take 4 (drop 4 pkt)) |>
    <| c_last_recv_time := now |> <| c_echo_counter := 0 |>.

Section handler.
Context `{OS, TunBackend}.

(** Configuring the interface: both calls, the second only if the first succeeded. *)
Definition configure (cfg : config) (c : client) : IO bool :=
  r1 ← tun_set_ip (cfg_tun_name cfg) (htonl (c_peer_ip c)) (htonl 0xffffff00);
  if r1 <? 0 then mret false else
  r2 ← tun_set_mtu (cfg_tun_name cfg) (eff_mtu cfg c); mret (negb (r2 <? 0)).

(** The outcomes of an OPENACK: return value and resulting world. *)
Inductive openack (cfg : config) (pkt : list Z) (w : world) : Z → world → Prop :=
  | openack_ignored :
      c_state (w_c w) ≠ STATE_AUTH_SENT ∨ pkt_verify pkt (len pkt) = Some false →
      openack cfg pkt w 0 w
  | openack_no_ip :
      c_state (w_c w) = STATE_AUTH_SENT → pkt_verify pkt (len pkt) = Some true →
      c_peer_ip (openack_fields (w_c w) pkt) = 0 →
      openack cfg pkt w 0 (mk_world (openack_fields (w_c w) pkt) (w_t w))
  | openack_configured now tr (ok : bool) tr' r script :
      c_state (w_c w) = STATE_AUTH_SENT → pkt_verify pkt (len pkt) = Some true →
      c_peer_ip (openack_fields (w_c w) pkt) ≠ 0 →
      mono_secs (w_t w) = (now, tr) →
      let c := established (openack_fields (w_c w) pkt) pkt now in
      configure cfg c tr = (ok, tr') →
      (if ok then script_run (c_str (cfg_up_script cfg))
                    (script_argv (cfg_up_script cfg) (lit "up") cfg c) script ∧ r = 1
       else script = [] ∧ r = 0) →
      openack cfg pkt w r
        (mk_world (if ok then c else c <| c_state := STATE_CLOSED |>) (script ++ tr')).

Lemma wp_configure cfg c (k : bool → M Z) w Q :
  (∀ ok tr', configure cfg c (w_t w) = (ok, tr') →
    wp (k (negb ok)) (mk_world (w_c w) tr') Q) →
  wp (r1 ← io (tun_set_ip (cfg_tun_name cfg) (htonl (c_peer_ip c)) (htonl 0xffffff00));
      failed ← (if r1 <? 0 then mret true
                else r2 ← io (tun_set_mtu (cfg_tun_name cfg) (eff_mtu cfg c));
                     mret (r2 <? 0));
      k failed) w Q.
Proof.
  intros Hk. unfold wp, mbind, m_bind_inst, io.
  unfold configure, mbind, io_bind_inst in Hk.
  destruct (tun_set_ip _ _ _ (w_t w)) as [r1 tr1]. destruct (r1 <? 0).
  - exact (Hk false tr1 eq_refl).
  - cbn [w_t w_c]. destruct (tun_set_mtu _ _ tr1) as [r2 tr2].
    specialize (Hk _ _ eq_refl). cbn [w_t w_c] in *. by rewrite negb_involutive in Hk.
Qed.

Lemma wp_handle_openack cfg pkt w Q :
  cfg_ok cfg → bytes pkt →
  (∀ r w', openack cfg pkt w r w' → Q r w') →
  wp (handle_openack cfg pkt (len pkt)) w Q.
Proof.
  intros Hcfg Hb HQ. unfold handle_openack. wp_step. wp_step.
  destruct (Z.eqb_spec (c_state (w_c w)) STATE_AUTH_SENT) as [Hs|Hs]; cbn [negb].
  2:{ wp_step. apply HQ, openack_ignored. by left. }
  wp_step. rewrite pkt_verify_spec by done. apply wp_mem with (1 := eq_refl).
  case_bool_decide as Hv; cbn [negb].
  2:{ wp_step. apply HQ, openack_ignored. right. rewrite pkt_verify_spec by done.
      by rewrite bool_decide_eq_false_2. }
  assert (pkt_verify pkt (len pkt) = Some true) as Hvalid.
  { rewrite pkt_verify_spec by done. by rewrite bool_decide_eq_true_2. }
  destruct Hv as [Hl _]. wp_step. change (HDR_SIZE + SIGN_SIZE) with 24.
  apply wp_parse_tlvs; [done|lia|unfold HDR_SIZE, SIGN_SIZE; lia..|].
  cbv zeta. change (Z.to_nat 24) with 24%nat.
  rewrite (take_ge (drop 24 pkt)) by
    (rewrite length_drop; unfold HDR_SIZE, SIGN_SIZE, len in *; lia).
  fold (openack_fields (w_c w) pkt). wp_step. wp_step.
  destruct (Z.eqb_spec (c_peer_ip (openack_fields (w_c w) pkt)) 0) as [Hip|Hip].
  { wp_step. by apply HQ, openack_no_ip. }
  wp_step. wp_step. wp_step. eapply wp_mem; [apply rd_n_Some; lia|].
  wp_step. wp_step. wp_step. eapply wp_mem; [apply rd_n_Some; lia|].
  do 10 wp_step. destruct (mono_secs (w_t w)) as [now tr] eqn:Hnow.
  pose proof Hnow as [= Hnow1 Hnow2]. rewrite Hnow1, Hnow2.
  change (Z.to_nat 2) with 2%nat. change (Z.to_nat 4) with 4%nat.
  set (c := _ <| c_echo_counter := 0 |>).
  change c with (established (openack_fields (w_c w) pkt) pkt now) in *. clear c.
  set (c := established _ _ _). apply wp_configure. intros ok tr' Hconf. cbn [w_c w_t] in *.
  destruct ok; cbn [negb].
  - wp_step. apply wp_run_script; [apply Hcfg|]. intros new Hnew. cbn [w_c w_t] in *.
    wp_step. apply HQ. by apply (openack_configured cfg pkt w now tr true tr' 1 new).
  - wp_step. wp_step. wp_step. apply HQ.
    by apply (openack_configured cfg pkt w now tr false tr' 0 []).
Qed.
End handler.

(** ** What the handler leaves alone *)

Lemma tlvs_bytes l : bytes l → Forall (λ t, bytes t.2) (tlvs l).
Proof.
  unfold tlvs. generalize (length l) at 1. intros f. revert l.
  induction f as [|f IH]; intros l Hl; [constructor|].
  destruct l as [|ty [|n rest]]; [constructor..|]. cbn [tlv_split].
  rewrite !Forall_cons in Hl. destruct Hl as (_ & _ & Hl).
  case_match; constructor; [by apply Forall_take|by apply IH, Forall_drop].
Qed.

Lemma be_decode_take_is_u (n : nat) l :
  bytes l → Z.of_nat n ≤ len l → is_u (8 * Z.of_nat n) (be_decode (take n l)).
Proof.
  intros Hl Hn. replace (Z.of_nat n) with (len (take n l)) by (rewrite len_take; lia).
  by apply be_decode_is_u, Forall_take.
Qed.

Lemma apply_tlv_frame c t : bytes t.2 → same_frame c (apply_tlv c t).
Proof.
  destruct t as [ty v]. intros Hv. unfold apply_tlv. cbn [snd] in Hv.
  repeat match goal with
  | |- same_frame _ (if ?a <=? ?b then _ else _) => destruct (Z.leb_spec a b)
  | |- same_frame _ (if ?b then _ else _) => destruct b
  | |- same_frame _ (match v with _ => _ end) => destruct v as [|x v]; [|apply Forall_cons in Hv as [? _]]
  end; try apply same_frame_refl;
  try (frame_update ltac:(first [done | by apply (be_decode_take_is_u 2) | by apply (be_decode_take_is_u 4)])).
  all: destruct (Z.leb_spec 4 (len v)); try apply same_frame_refl; frame_update ltac:(done).
Qed.

Lemma openack_fields_frame c pkt : bytes pkt → same_frame c (openack_fields c pkt).
Proof.
  intros Hb. unfold openack_fields.
  assert (Forall (λ t, bytes t.2) (tlvs (drop 24 pkt))) as Ht by (by apply tlvs_bytes, Forall_drop).
  revert c. induction Ht as [|t l Ht _ IH]; intros c; [apply same_frame_refl|].
  simpl. eapply same_frame_trans; [by apply apply_tlv_frame|apply IH].
Qed.

Lemma le_decode_take_is_u (n : nat) l :
  bytes l → is_u (8 * Z.of_nat n) (le_decode (take n l)).
Proof.
  intros Hl. apply (is_u_le (8 * len (take n l))).
  - rewrite len_take. pose proof (len_nonneg l). lia.
  - by apply le_decode_is_u, Forall_take.
Qed.

Lemma established_frame c pkt now :
  bytes pkt → is_u32 now → same_frame c (established c pkt now).
Proof.
  intros Hb Hnow.
  pose proof (le_decode_take_is_u 2 (drop 2 pkt) ltac:(by apply Forall_drop)) as Htoken.
  pose proof (le_decode_take_is_u 4 (drop 4 pkt) ltac:(by apply Forall_drop)) as Hid.
  frame_update ltac:(assumption).
Qed.

Lemma configure_spec `{TunOk} cfg c :
  io_spec (configure cfg c) (λ _ new, Forall config_event new ∧ fd_neutral new).
Proof.
  eapply io_spec_bind; [apply tun_set_ip_ok|]. intros r1 new1 [Hc1 Hn1]. cbv beta.
  destruct (r1 <? 0); [by apply io_spec_ret|].
  eapply io_spec_bind; [apply tun_set_mtu_ok|]. intros r2 new2 [Hc2 Hn2].
  apply io_spec_ret. cbn [app]. split; [by apply Forall_app|].
  intros live. by rewrite live_fds_app, Hn1.
Qed.

Lemma openack_framed `{TunOk} cfg pkt w r w' :
  bytes pkt → openack cfg pkt w r w' → framed w w'.
Proof.
  intros Hb Hack. destruct w as [c0 tr0].
  destruct Hack as [Hv|? ? Hip|now tr ok tr' r script ? ? ? Hnow c Hconf Hres].
  - done.
  - apply (framed_intro _ _ _ []); [by apply openack_fields_frame|done].
  - injection Hnow as Hnow <-. cbn [w_c w_t] in *.
    destruct (configure_spec cfg c (Ev SClock (os tr0 SClock) :: tr0))
      as (ok' & new & Hconf' & _ & Hneu).
    rewrite Hconf in Hconf'. injection Hconf' as <- ->.
    assert (fd_neutral script) as Hs.
    { destruct ok; destruct Hres as [Hs _].
      - by eapply script_events_neutral, script_run_events.
      - by rewrite Hs. }
    rewrite (app_assoc script new), cons_middle, app_assoc.
    apply framed_intro.
    + eapply same_frame_trans; [by apply openack_fields_frame|].
      assert (same_frame (openack_fields c0 pkt) c) as Hc.
      { apply established_frame; [done|]. rewrite <-Hnow. apply u32_is. }
      destruct ok; [done|]. eapply same_frame_trans; [exact Hc|]. apply state_frame.
    + intros live. rewrite !live_fds_app. cbn [live_fds_from foldr fd_effect].
      change (live_fds_from (live_fds_from live new) script = live). by rewrite Hneu, Hs.
Qed.

(** ** The theorems *)

(** C33: the TLV loop terminates within its fuel, never reads outside the packet, and does to
    the client exactly what the well-formed TLVs at the front of the bytes say, in order. *)
Theorem parse_tlvs_spec pkt p remain c tr :
  bytes pkt → 0 ≤ p → 0 ≤ remain → p + remain ≤ len pkt →
  parse_tlvs (S (Z.to_nat remain)) pkt p remain (mk_world c tr) =
  Some ((), mk_world (foldl apply_tlv c
                       (tlvs (take (Z.to_nat remain) (drop (Z.to_nat p) pkt)))) tr).
Proof.
  intros Hb Hp Hr Hl.
  set (w' := mk_world (foldl apply_tlv c _) tr).
  assert (wp (parse_tlvs (S (Z.to_nat remain)) pkt p remain) (mk_world c tr) (λ _ w, w = w'))
    as Hwp by (apply wp_parse_tlvs; [done|done|done|done|lia|reflexivity]).
  by apply wp_run in Hwp as ([] & w & E & ->).
Qed.


(** The fields of an OPENACK with MTU, address, two name servers and the encryption flag,
    in network byte order, are the ones the client ends up with. *)
Theorem openack_fields_roundtrip c hs mtu ip dns0 dns1 enc :
  length hs = 24%nat → is_u16 mtu → is_u32 ip → is_u32 dns0 → is_u32 dns1 →
  openack_fields c (hs ++ tlv 3 (be_encode 2 mtu) ++ tlv 4 (be_encode 4 ip) ++
                    tlv 6 (be_encode 4 dns0 ++ be_encode 4 dns1) ++ tlv 8 [enc]) =
  c <| c_server_mtu := mtu |> <| c_peer_ip := ip |> <| c_dns0 := dns0 |> <| c_dns1 := dns1 |>
    <| c_encrypt := enc |>.
Proof.
  intros Hl Hm Hip H0 H1. unfold openack_fields.
  rewrite drop_app_length' by done. rewrite <-(app_nil_r (tlv 8 [enc])).
  rewrite !tlvs_tlv by (autorewrite with c_len; lia).
  rewrite tlvs_nil. cbn [foldl].
  assert (∀ z, is_u32 z → be_decode (be_encode 4 z) = z) as Hbe.
  { intros z Hz. rewrite be_decode_encode. by apply Z.mod_small. }
  assert (be_decode (be_encode 2 mtu) = mtu) as Hbm.
  { rewrite be_decode_encode. by apply Z.mod_small. }
  unfold apply_tlv. cbn [Z.eqb Pos.eqb].
  rewrite !len_app, !len_be_encode. cbn [Z.leb Z.compare Z.of_nat].
  assert (∀ n z l, take n (be_encode n z ++ l) = be_encode n z) as Htk
    by (intros n z l; apply take_app_length'; by rewrite length_be_encode).
  change (4 <=? 4 + 4) with true. change (8 <=? 4 + 4) with true. cbv iota.
  rewrite Htk, (drop_app_length' (be_encode 4 dns0)) by (by rewrite length_be_encode).
  rewrite !(take_ge (be_encode _ _)) by (by rewrite length_be_encode).
  rewrite Hbm, !Hbe by done. reflexivity.
Qed.

(** ** Witnesses *)

Lemma parse_tlvs_spec_witness :
  parse_tlvs 8 [4; 6; 10; 0; 0; 1; 9] 0 7 (mk_world client_init []) =
  Some ((), mk_world (client_init <| c_peer_ip := 0x0a000001 |>) []).
Proof.
  apply (parse_tlvs_spec [4; 6; 10; 0; 0; 1; 9] 0 7 client_init []); try done.
  by apply byte_list_ok.
Defined.

Lemma openack_fields_roundtrip_witness :
  openack_fields client_init (replicate 24 0 ++ tlv 3 (be_encode 2 1400) ++
    tlv 4 (be_encode 4 0x0a000001) ++ tlv 6 (be_encode 4 0x01010101 ++ be_encode 4 0x08080808) ++
    tlv 8 [1]) =
  client_init <| c_server_mtu := 1400 |> <| c_peer_ip := 0x0a000001 |>
    <| c_dns0 := 0x01010101 |> <| c_dns1 := 0x08080808 |> <| c_encrypt := 1 |>.
Proof. apply openack_fields_roundtrip; done. Defined.

(** A signed OPENACK that grants 10.0.0.1, on Linux with every call succeeding. *)
Definition sample_ack : list Z :=
  let hdr := [0x12; 1; 1; 2; 3; 4; 5; 6] in
  hdr ++ header_digest hdr ++ tlv 3 (be_encode 2 1400) ++ tlv 4 (be_encode 4 0x0a000001).
Definition waiting : client := client_init <| c_state := STATE_AUTH_SENT |>.


(** It is accepted. *)
Example sample_ack_accepted :
  match handle_openack (H := still_os) (H0 := @Linux.backend still_os) sample_cfg sample_ack
          (len sample_ack) (mk_world waiting []) with
  | Some (r, w') => (r, c_state (w_c w'), c_peer_ip (w_c w'), c_session_token (w_c w'))
                    = (1, STATE_ESTABLISHED, 0x0a000001, 0x0201)
  | None => False
  end.
Proof. vm_compute. reflexivity. Qed.
