(* ===== verification/Protocol.v ===== *)
(** The server's packets, as in [src/server/protocol.go] and [src/server/ip.go]: signing and
    checking, the TLV parser, the OPEN request, the replies, and the IPv4 header.

    [None] is a run-time panic (a slice expression out of range); an [error] is the [inl] of
    a sum.  Go's [crypto/md5] and [crypto/aes] are the functions of RFC 1321 and FIPS 197. *)
From S2P Require Import Prelude Md5 Aes Client Os CMonad Config Packet OpenAck.

Definition packetOpenReject : Z := 0x11.
Definition packetOpenAck : Z := 0x12.
Definition packetOpen : Z := 0x13.
Definition packetData : Z := 0x14.
Definition packetEchoReq : Z := 0x15.
Definition packetEchoResp : Z := 0x16.
Definition packetClose : Z := 0x17.
Definition packetDataEnc : Z := 0x18.
Definition headerSize : Z := 8.
Definition signSize : Z := 16.
Definition signedHeader : Z := headerSize + signSize.

Definition DefaultMTU : Z := 1400.
Definition MinMTU : Z := 46.
Definition MaxMTU : Z := 1600.

(** ** Fallible functions *)

Inductive error :=
  | ShortPacket | NotOpen | InvalidSignature | TruncatedTLV | InvalidTLVLength
  | InvalidPasswordLength | InvalidMTULength | MissingUsername | MissingPassword | InvalidMTU
  | ShortIPv4 | NotIPv4 | InvalidIHL | TruncatedHeader | InvalidTotalLength | TruncatedPayload.

Definition Res (A : Type) : Type := option (error + A).
#[export] Instance res_ret : MRet Res := λ A x, Some (inr x).
#[export] Instance res_bind : MBind Res := λ A B f m,
  match m with None => None | Some (inl e) => Some (inl e) | Some (inr x) => f x end.
Definition fail {A} (e : error) : Res A := Some (inl e).
(** A slice expression or an indexing. *)
Definition slice {A} (o : option A) : Res A := match o with Some x => Some (inr x) | None => None end.

(** [copy(dst[off:], src)]: as much as fits. *)
Definition copy_at (dst : list Z) (off : nat) (src : list Z) : list Z :=
  blit dst off (take (length dst - off) src).

(** ** Signatures *)

Definition go_magic : list Z := lit "mw".

Definition signPacket (packet : list Z) : list Z :=
  copy_at packet (Z.to_nat headerSize) (md5_spec (take (Z.to_nat headerSize) packet ++ go_magic)).

Definition verifyPacket (packet : list Z) : bool :=
  if len packet <? signedHeader then false
  else bool_decide (take (Z.to_nat signSize) (drop (Z.to_nat headerSize) packet) =
                    md5_spec (take (Z.to_nat headerSize) packet ++ go_magic)).

(** ** TLVs *)

Definition appendTLV (packet : list Z) (tlvType : Z) (value : list Z) : list Z :=
  packet ++ [tlvType; u8 (len value + 2)] ++ value.

(** The loop, whose turns shorten [data]; running out of fuel counts as a panic, which the
    theorems exclude. *)
Fixpoint parseTLVs_loop (fuel : nat) (data : list Z) (acc : list (Z * list Z))
  : Res (list (Z * list Z)) :=
  if negb (0 <? len data) then mret acc else
  match fuel with
  | O => None
  | S fuel' =>
      if len data <? 2 then fail TruncatedTLV else
      tlvLength ← slice (rd data 1);
      if (tlvLength <? 2) || (len data <? tlvLength) then fail InvalidTLVLength else
      typ ← slice (rd data 0);
      value ← slice (rd_n data 2 (tlvLength - 2));
      parseTLVs_loop fuel' (drop (Z.to_nat tlvLength) data) (acc ++ [(typ, value)])
  end.
Definition parseTLVs (data : list Z) : Res (list (Z * list Z)) :=
  parseTLVs_loop (length data) data [].

(** ** The OPEN request *)

Record openRequest := mk_request {
  r_username : list Z; r_passwordBlock : list Z; r_mtu : Z; r_encrypt : bool }.
#[export] Instance request_eta : Eta openRequest := λ r,
  mk_request (r_username r) (r_passwordBlock r) (r_mtu r) (r_encrypt r).

(** The body of [for _, item := range tlvs]. *)
Definition open_item (item : Z * list Z) (st : openRequest * bool) : Res (openRequest * bool) :=
  let '(typ, value) := item in
  let '(request, hasPassword) := st in
  if typ =? 1 then mret (request <| r_username := value |>, hasPassword)
  else if typ =? 2 then
    if negb (len value =? 16) then fail InvalidPasswordLength
    else mret (request <| r_passwordBlock := copy_at (r_passwordBlock request) 0 value |>, true)
  else if typ =? 3 then
    if len value <? 2 then fail InvalidMTULength
    else v ← slice (rd_n value 0 2); mret (request <| r_mtu := be_decode v |>, hasPassword)
  else if typ =? 8 then
    if 0 <? len value
    then x ← slice (rd value 0); mret (request <| r_encrypt := negb (x =? 0) |>, hasPassword)
    else mret (request, hasPassword)
  else mret (request, hasPassword).
Fixpoint open_items (items : list (Z * list Z)) (st : openRequest * bool)
  : Res (openRequest * bool) :=
  match items with
  | [] => mret st
  | item :: items => st ← open_item item st; open_items items st
  end.

Definition parseOpenPacket (packet : list Z) : Res openRequest :=
  if len packet <? signedHeader then fail ShortPacket else
  ty ← slice (rd packet 0);
  if negb (ty =? packetOpen) then fail NotOpen else
  if negb (verifyPacket packet) then fail InvalidSignature else
  enc ← slice (rd packet 1);
  let request := mk_request [] (replicate 16 0) DefaultMTU (negb (enc =? 0)) in
  tlvs ← parseTLVs (drop (Z.to_nat signedHeader) packet);
  '(request, hasPassword) ← open_items tlvs (request, false);
  if bool_decide (r_username request = []) then fail MissingUsername else
  if negb hasPassword then fail MissingPassword else
  if (r_mtu request <? MinMTU) || (MaxMTU <? r_mtu request) then fail InvalidMTU else
  mret request.

(** ** Keys *)

Definition encryptedPassword (username password : list Z) : list Z :=
  fips_cipher (md5_spec (go_magic ++ username)) (copy_at (replicate 16 0) 0 password).
Definition passwordMatches (username password block : list Z) : bool :=
  bool_decide (block = encryptedPassword username password).
Definition deriveXORKey (username password : list Z) : list Z :=
  take 8 (md5_spec (username ++ password)).
(** [data[index] ^= key[index&7]], in place. *)
Definition xorData (key data : list Z) : list Z :=
  imap (λ index x, Z.lxor x (nth (Z.to_nat (Z.land (Z.of_nat index) 7)) key 0)) data.

(** ** Replies *)

Definition buildOpenReject : list Z :=
  signPacket (<[0%nat := packetOpenReject]> (replicate (Z.to_nat signedHeader) 0)).

(** The header of a packet of the session: [copy(packet[2:4], token[:])] and
    [copy(packet[4:8], sessionID[:])]. *)
Definition put_ids (token sessionID packet : list Z) : list Z :=
  blit (blit packet 2 token) 4 sessionID.

Definition buildOpenAck (token sessionID : list Z) (mtu : Z) (address : list Z)
  (dns : list (list Z)) (encrypt : bool) : list Z :=
  let packet := <[0%nat := packetOpenAck]> (replicate (Z.to_nat signedHeader) 0) in
  let packet := if encrypt then <[1%nat := 1]> packet else packet in
  let packet := signPacket (put_ids token sessionID packet) in
  let packet := appendTLV packet 3 [u8 (Z.shiftr mtu 8); u8 mtu] in
  let packet := appendTLV packet 4 address in
  let packet := match dns with
                | [dns0] => appendTLV packet 5 dns0
                | dns0 :: dns1 :: _ => appendTLV packet 6 (dns0 ++ dns1)
                | [] => packet
                end in
  if encrypt then appendTLV packet 8 [1] else appendTLV packet 8 [0].

Definition buildEchoResp (token sessionID payload : list Z) : list Z :=
  let packet := replicate (Z.to_nat signedHeader + length payload) 0 in
  let packet := signPacket (put_ids token sessionID (<[0%nat := packetEchoResp]> packet)) in
  copy_at packet (Z.to_nat signedHeader) payload.

Definition buildDataPacket (token sessionID payload : list Z) (encrypt : bool) (key : list Z)
  : list Z :=
  let packet := replicate (Z.to_nat headerSize + length payload) 0 in
  let packet := if encrypt then <[1%nat := 1]> (<[0%nat := packetDataEnc]> packet)
                else <[0%nat := packetData]> packet in
  let packet := copy_at (put_ids token sessionID packet) (Z.to_nat headerSize) payload in
  if encrypt
  then take (Z.to_nat headerSize) packet ++ xorData key (drop (Z.to_nat headerSize) packet)
  else packet.

(** ** The IPv4 header *)

Record ipv4Packet := mk_ipv4 { p_packet : list Z; p_source : list Z; p_destination : list Z }.

Definition parseIPv4Packet (payload : list Z) : Res ipv4Packet :=
  if len payload <? 20 then fail ShortIPv4 else
  b0 ← slice (rd payload 0);
  if negb (Z.shiftr b0 4 =? 4) then fail NotIPv4 else
  let ihl := Z.land b0 0x0f * 4 in
  if ihl <? 20 then fail InvalidIHL else
  if len payload <? ihl then fail TruncatedHeader else
  l ← slice (rd_n payload 2 2);
  let totalLength := be_decode l in
  if totalLength <? ihl then fail InvalidTotalLength else
  if len payload <? totalLength then fail TruncatedPayload else
  source ← slice (rd_n payload 12 4);
  destination ← slice (rd_n payload 16 4);
  packet ← slice (rd_n payload 0 totalLength);
  mret (mk_ipv4 packet source destination).

(** * Properties *)

#[local] Opaque md5_spec fips_cipher.

(** ** Signatures *)

Lemma slice_bind {A B} (o : option A) x (f : A → Res B) :
  o = Some x → slice o ≫= f = f x.
Proof. by intros ->. Qed.

Lemma copy_at_app a b src n :
  length a = n → length b = length src → copy_at (a ++ b) n src = a ++ src.
Proof.
  intros <- Hl. unfold copy_at. rewrite length_app, take_ge by lia.
  unfold blit. rewrite take_app_length, <-drop_drop, drop_app_length, drop_ge, app_nil_r by lia. done.
Qed.

Lemma copy_at_middle a b rest src n :
  length a = n → length b = length src → copy_at (a ++ b ++ rest) n src = a ++ src ++ rest.
Proof.
  intros <- Hl. unfold copy_at. rewrite !length_app, take_ge by lia.
  unfold blit. rewrite take_app_length, <-drop_drop, drop_app_length, <-Hl, drop_app_length. done.
Qed.

(** Signing fills the 16 bytes after the header. *)
Lemma signPacket_app hdr s rest :
  length hdr = 8%nat → length s = 16%nat →
  signPacket (hdr ++ s ++ rest) = hdr ++ signature hdr ++ rest.
Proof.
  intros Hh Hs. unfold signPacket. change (Z.to_nat headerSize) with 8%nat.
  rewrite (take_app_length' hdr) by done.
  change go_magic with magic. fold (signature hdr).
  apply copy_at_middle; [done|]. by rewrite length_signature.
Qed.

(** The server checks signatures as the client does. *)
Lemma verifyPacket_pkt_verify packet :
  bytes packet → pkt_verify packet (len packet) = Some (verifyPacket packet).
Proof.
  intros Hb. rewrite pkt_verify_spec by (done || lia). f_equal. unfold verifyPacket.
  change signedHeader with 24. change (Z.to_nat signSize) with 16%nat.
  change (Z.to_nat headerSize) with 8%nat. change go_magic with magic.
  fold (signature (take 8 packet)).
  destruct (Z.ltb_spec (len packet) 24); [apply bool_decide_eq_false_2; lia|].
  apply bool_decide_ext. split; [tauto|]. split; [lia|done].
Qed.

Lemma verifyPacket_signed hdr payload :
  length hdr = 8%nat → verifyPacket (hdr ++ signature hdr ++ payload) = true.
Proof.
  intros Hl. pose proof (length_signature hdr) as Hs. unfold verifyPacket.
  change (Z.to_nat signSize) with 16%nat. change (Z.to_nat headerSize) with 8%nat.
  change go_magic with magic. rewrite (drop_app_length' hdr), !take_app_length' by done.
  destruct (Z.ltb_spec (len (hdr ++ signature hdr ++ payload)) signedHeader) as [H|H].
  - exfalso. change signedHeader with 24 in H. unfold len in H. rewrite !length_app in H. lia.
  - by apply bool_decide_eq_true_2.
Qed.

(** ** TLVs *)

Lemma appendTLV_tlv packet ty v : len v + 2 ≤ 255 → appendTLV packet ty v = packet ++ tlv ty v.
Proof.
  intros Hv. unfold appendTLV, tlv. pose proof (len_nonneg v). rewrite u8_id; [done|].
  unfold is_u. lia.
Qed.

(** One turn of the loop on a well-formed TLV. *)
Lemma parseTLVs_step fuel ty n rest acc :
  2 ≤ n → n ≤ len rest + 2 →
  parseTLVs_loop (S fuel) (ty :: n :: rest) acc =
  parseTLVs_loop fuel (drop (Z.to_nat (n - 2)) rest) (acc ++ [(ty, take (Z.to_nat (n - 2)) rest)]).
Proof.
  intros Hn Hl. cbn [parseTLVs_loop]. set (l := ty :: n :: rest). pose proof (len_nonneg rest).
  assert (len l = 2 + len rest) as El by (unfold l; len_lia).
  rewrite (proj2 (Z.ltb_lt 0 _)), (proj2 (Z.ltb_ge _ 2)) by lia. cbn [negb].
  rewrite (slice_bind _ n), (proj2 (orb_false_iff _ _)) by (done || rewrite !Z.ltb_ge; lia).
  rewrite (slice_bind _ ty) by done. erewrite slice_bind by (apply rd_n_Some; lia).
  replace (Z.to_nat n) with (2 + Z.to_nat (n - 2))%nat by lia. done.
Qed.

Lemma parseTLVs_loop_app fuel ty v rest acc :
  len v + 2 ≤ 255 →
  parseTLVs_loop (S fuel) (tlv ty v ++ rest) acc = parseTLVs_loop fuel rest (acc ++ [(ty, v)]).
Proof.
  intros Hv. pose proof (len_nonneg v). change (tlv ty v ++ rest) with (ty :: len v + 2 :: v ++ rest).
  rewrite parseTLVs_step by len_lia. rewrite Z.add_simpl_r, to_nat_len.
  by rewrite drop_app_length, take_app_length.
Qed.

(** A sequence of TLVs is read back. *)
Definition tlv_bytes (ts : list (Z * list Z)) : list Z := concat (map (λ '(ty, v), tlv ty v) ts).

Lemma parseTLVs_bytes ts :
  Forall (λ t, len t.2 + 2 ≤ 255) ts → parseTLVs (tlv_bytes ts) = mret ts.
Proof.
  enough (∀ fuel acc, Forall (λ t : Z * list Z, len t.2 + 2 ≤ 255) ts →
    (length (tlv_bytes ts) ≤ fuel)%nat → parseTLVs_loop fuel (tlv_bytes ts) acc = mret (acc ++ ts))
    as Hloop by (intros; by apply Hloop).
  induction ts as [|[ty v] ts IH]; intros fuel acc Hts Hf.
  { rewrite app_nil_r. by destruct fuel. }
  apply Forall_cons in Hts as [Hv Hts]. unfold tlv_bytes in *. cbn [map concat] in *.
  rewrite length_app in Hf. destruct fuel as [|fuel]; [cbn [length tlv] in Hf; lia|].
  rewrite parseTLVs_loop_app by done. rewrite IH; [by rewrite <-app_assoc|done|].
  cbn [length tlv] in Hf. lia.
Qed.

(** The server's parser is strict and the client's lenient: what the first accepts, the
    second reads in the same way. *)
Lemma parseTLVs_loop_spec fuel data acc :
  (length data ≤ fuel)%nat →
  ∃ r, parseTLVs_loop fuel data acc = Some r ∧
    match r with inl _ => True | inr ts => ts = acc ++ tlv_split (length data) data end.
Proof.
  revert data acc. induction fuel as [|fuel IH]; intros data acc Hf.
  { destruct data; [|simpl in Hf; lia]. eexists. split; [done|]. by rewrite app_nil_r. }
  destruct data as [|ty [|n rest]].
  { eexists. split; [reflexivity|]. by rewrite app_nil_r. }
  { by eexists; split; [reflexivity|]. }
  pose proof (len_nonneg rest).
  destruct ((n <? 2) || (len (ty :: n :: rest) <? n)) eqn:E.
  { exists (inl InvalidTLVLength). split; [|done]. cbn [parseTLVs_loop].
    rewrite (proj2 (Z.ltb_lt 0 _)), (proj2 (Z.ltb_ge _ 2)) by len_lia. cbn [negb].
    by rewrite (slice_bind _ n), E by done. }
  pose proof E as Hn. rewrite orb_false_iff, !Z.ltb_ge, !len_cons in Hn.
  rewrite parseTLVs_step by lia.
  destruct (IH (drop (Z.to_nat (n - 2)) rest) (acc ++ [(ty, take (Z.to_nat (n - 2)) rest)]))
    as (r & -> & Hr).
  { rewrite length_drop. cbn [length] in *. lia. }
  exists r. split; [done|]. destruct r as [|ts]; [done|]. rewrite Hr, <-app_assoc. f_equal.
  change (tlv_split (length (ty :: n :: rest)) (ty :: n :: rest)) with
    (if (n <? 2) || (len (ty :: n :: rest) <? n) then []
     else (ty, take (Z.to_nat (n - 2)) rest) ::
          tlv_split (S (length rest)) (drop (Z.to_nat (n - 2)) rest)).
  rewrite E. cbn [app]. f_equal.
  apply tlv_split_fuel; rewrite ?length_drop; cbn [length]; lia.
Qed.

(** ** The OPEN request *)

Lemma slice_rd b i : 0 ≤ i < len b → ∃ x, rd b i = Some x.
Proof. intros Hi. destruct (rd_Some b i Hi) as (x & ? & _). eauto. Qed.

Lemma open_item_total item st : ∃ r, open_item item st = Some r.
Proof.
  destruct item as [typ value], st as [request hasPassword]. unfold open_item.
  repeat (case_match; try by eexists).
  - erewrite slice_bind by (apply rd_n_Some; rewrite Z.ltb_ge in *; lia). by eexists.
  - destruct (slice_rd value 0) as [x Hx]; [rewrite Z.ltb_lt in *; lia|].
    erewrite slice_bind by exact Hx. by eexists.
Qed.

Lemma open_items_total items st : ∃ r, open_items items st = Some r.
Proof.
  revert st. induction items as [|item items IH]; intros st; [by eexists|]. cbn [open_items].
  destruct (open_item_total item st) as [[e|st'] ->]; [by eexists|]. apply IH.
Qed.

(** The parser of requests returns, whatever the packet: no slice expression is out of
    range. *)
Lemma parseOpenPacket_total packet : ∃ r, parseOpenPacket packet = Some r.
Proof.
  unfold parseOpenPacket. case_match eqn:Hl; [by eexists|].
  rewrite Z.ltb_ge in Hl. change signedHeader with 24 in *.
  destruct (slice_rd packet 0) as [ty Hty]; [lia|]. erewrite slice_bind by exact Hty.
  case_match; [by eexists|]. case_match; [by eexists|].
  destruct (slice_rd packet 1) as [enc Henc]; [lia|]. erewrite slice_bind by exact Henc. cbv zeta.
  destruct (parseTLVs_loop_spec (length (drop (Z.to_nat 24) packet)) (drop (Z.to_nat 24) packet) [])
    as ([e|ts] & Hts & _); [done|..]; unfold parseTLVs; rewrite Hts; [by eexists|].
  cbn [mbind res_bind].
  destruct (open_items_total ts (mk_request [] (replicate 16 0) DefaultMTU (negb (enc =? 0)), false))
    as [[e|[request hasPassword]] ->]; [by eexists|]. cbn [mbind res_bind].
  repeat (case_match; try by eexists).
Qed.

(** The TLVs of the client's OPEN packet. *)
Definition open_tlv_list (cfg : config) : list (Z * list Z) :=
  let user := c_str (cfg_username cfg) in
  [(3, be_encode 2 (cfg_mtu cfg)); (1, user);
   (2, encrypted_password user (c_str (cfg_password cfg)))] ++
  (if cfg_encrypt cfg =? 0 then [] else [(8, [cfg_encrypt cfg])]) ++
  (if (cfg_pipeid cfg =? 0) && (cfg_pipeidx cfg =? 0) then []
   else [(0xa, be_encode 2 (cfg_pipeid cfg + cfg_pipeidx cfg * 2 ^ 15))]).

Lemma open_tlvs_list cfg : open_tlvs cfg = tlv_bytes (open_tlv_list cfg).
Proof.
  unfold open_tlvs, open_tlv_list, tlv_bytes. rewrite !map_app, !concat_app. cbn [map concat].
  rewrite app_nil_r, <-!app_assoc. repeat f_equal; by case_match; cbn [map concat]; rewrite ?app_nil_r.
Qed.

Definition client_request (cfg : config) : openRequest :=
  let user := c_str (cfg_username cfg) in
  mk_request user (encrypted_password user (c_str (cfg_password cfg))) (cfg_mtu cfg)
    (negb (cfg_encrypt cfg =? 0)).

(** What each kind of item does. *)
Lemma open_item_username v r h : open_item (1, v) (r, h) = mret (r <| r_username := v |>, h).
Proof. done. Qed.
Lemma open_item_password v r h :
  length v = 16%nat → length (r_passwordBlock r) = 16%nat →
  open_item (2, v) (r, h) = mret (r <| r_passwordBlock := v |>, true).
Proof.
  intros Hv Hr. unfold open_item. cbn [Z.eqb Pos.eqb].
  rewrite (proj2 (Z.eqb_eq _ _)) by (unfold len; lia). cbn [negb].
  assert (copy_at (r_passwordBlock r) 0 v = v) as ->; [|done].
  apply (copy_at_app [] (r_passwordBlock r) v 0); [done|]. by rewrite Hv.
Qed.
Lemma open_item_mtu z r h :
  is_u16 z → open_item (3, be_encode 2 z) (r, h) = mret (r <| r_mtu := z |>, h).
Proof.
  intros Hz. unfold open_item. cbn [Z.eqb Pos.eqb].
  rewrite (proj2 (Z.ltb_ge _ _)) by (by rewrite len_be_encode).
  erewrite slice_bind by (apply rd_n_full; by rewrite len_be_encode).
  by rewrite be_decode_encode, Z.mod_small.
Qed.
Lemma open_item_encrypt x r h :
  open_item (8, [x]) (r, h) = mret (r <| r_encrypt := negb (x =? 0) |>, h).
Proof. done. Qed.
Lemma open_item_pipe v r h : open_item (0xa, v) (r, h) = mret (r, h).
Proof. done. Qed.

Lemma open_items_client cfg :
  cfg_ok cfg →
  open_items (open_tlv_list cfg)
    (mk_request [] (replicate 16 0) DefaultMTU (negb (cfg_encrypt cfg =? 0)), false) =
  mret (client_request cfg, true).
Proof.
  intros H. unfold open_tlv_list, client_request.
  pose proof (encrypted_password_is_block (c_str (cfg_username cfg)) (c_str (cfg_password cfg)))
    as [Hl _]; [apply c_str_bytes, H|].
  set (user := c_str (cfg_username cfg)) in *. set (pw := encrypted_password _ _) in *.
  cbn [app open_items]. rewrite open_item_mtu by apply H.
  change (mret ?x ≫= ?f) with (f x). cbv beta. rewrite open_item_username.
  change (mret ?x ≫= ?f) with (f x). cbv beta. rewrite open_item_password by done.
  change (mret ?x ≫= ?f) with (f x). cbv beta.
  destruct (cfg_encrypt cfg =? 0) eqn:He; cbn [app open_items]; rewrite ?open_item_encrypt, ?He;
    change (mret ?x ≫= ?f) with (f x); cbv beta; by case_match.
Qed.

(** The server understands the client's request. *)
Lemma parseOpenPacket_client cfg :
  cfg_ok cfg → cfg_valid cfg = true →
  parseOpenPacket (open_header cfg ++ signature (open_header cfg) ++ open_tlvs cfg) =
  mret (client_request cfg).
Proof.
  intros H Hv. apply cfg_valid_iff in Hv as (_ & _ & Hu & _ & Hm & _).
  unfold parseOpenPacket. set (p := _ ++ _ ++ _).
  assert (len p = 24 + len (open_tlvs cfg)) as Hl.
  { unfold p, open_header, len. rewrite !length_app, length_signature. cbn [length]. lia. }
  pose proof (len_nonneg (open_tlvs cfg)).
  rewrite (proj2 (Z.ltb_ge _ _)) by (change signedHeader with 24; lia).
  rewrite (slice_bind _ packetOpen) by done. cbn [Z.eqb Pos.eqb negb packetOpen].
  unfold p at 1. rewrite verifyPacket_signed by done. cbn [negb].
  rewrite (slice_bind _ (cfg_encrypt cfg)) by done. cbv zeta.
  assert (drop (Z.to_nat signedHeader) p = tlv_bytes (open_tlv_list cfg)) as ->.
  { rewrite <-open_tlvs_list. unfold p. rewrite app_assoc. apply drop_app_length'.
    by rewrite length_app, length_signature. }
  rewrite parseTLVs_bytes.
  - change (mret ?x ≫= ?f) with (f x). cbv beta. rewrite open_items_client by done.
    change (mret ?x ≫= ?f) with (f x). cbv beta iota. cbn [r_username client_request].
    rewrite bool_decide_eq_false_2 by done. cbn [negb r_mtu client_request].
    change MinMTU with 46. change MaxMTU with 1600.
    by rewrite (proj2 (orb_false_iff _ _)) by (rewrite !Z.ltb_ge; lia).
  - pose proof (is_cbuf_strlen _ _ (ok_username _ H)) as Hul. unfold strlen in Hul.
    pose proof (encrypted_password_is_block (c_str (cfg_username cfg)) (c_str (cfg_password cfg)))
      as [He _]; [apply c_str_bytes, H|].
    unfold open_tlv_list. rewrite !Forall_app. split_and!.
    + repeat constructor; cbn [snd]; autorewrite with c_len; try lia. unfold len. lia.
    + case_match; repeat constructor. cbn [snd]. autorewrite with c_len. lia.
    + case_match; repeat constructor. cbn [snd]. autorewrite with c_len. lia.
Qed.

(** ** Replies *)

(** A packet header: type, flag, token and session identifier. *)
Definition go_header (ty flag : Z) (token sessionID : list Z) : list Z :=
  [ty; flag] ++ token ++ sessionID.
Definition ids_ok (token sessionID : list Z) : Prop :=
  length token = 2%nat ∧ length sessionID = 4%nat ∧ bytes token ∧ bytes sessionID.

Lemma length_go_header ty flag token sessionID :
  ids_ok token sessionID → length (go_header ty flag token sessionID) = 8%nat.
Proof. intros (Ht & Hs & _). unfold go_header. by rewrite !length_app, Ht, Hs. Qed.

Lemma go_header_bytes ty flag token sessionID :
  is_byte ty → is_byte flag → ids_ok token sessionID → bytes (go_header ty flag token sessionID).
Proof. intros Hty Hf (_ & _ & Ht & Hs). unfold go_header. rewrite !Forall_app. auto. Qed.

Lemma put_ids_header ty flag token sessionID rest :
  ids_ok token sessionID →
  put_ids token sessionID ([ty; flag] ++ replicate 6 0 ++ rest) =
  go_header ty flag token sessionID ++ rest.
Proof.
  intros (Ht & Hs & _). do 3 (destruct token as [|? token]; try done).
  by do 5 (destruct sessionID as [|? sessionID]; try done).
Qed.

Lemma appendTLV_app a b ty v : len v + 2 ≤ 255 → appendTLV (a ++ b) ty v = a ++ b ++ tlv ty v.
Proof. intros. rewrite appendTLV_tlv, <-app_assoc by done. done. Qed.

Definition flag_of (b : bool) : Z := if b then 1 else 0.
Definition dns_tlvs (dns : list (list Z)) : list Z :=
  match dns with [] => [] | [d] => tlv 5 d | d0 :: d1 :: _ => tlv 6 (d0 ++ d1) end.

Lemma go_be2 z : [u8 (Z.shiftr z 8); u8 z] = be_encode 2 z.
Proof. by rewrite <-be_encode2, !land_0xff. Qed.

Lemma buildOpenAck_layout token sessionID mtu address dns encrypt :
  ids_ok token sessionID → length address = 4%nat → Forall (λ d, length d = 4%nat) dns →
  let hdr := go_header packetOpenAck (flag_of encrypt) token sessionID in
  buildOpenAck token sessionID mtu address dns encrypt =
  hdr ++ signature hdr ++ tlv 3 (be_encode 2 mtu) ++ tlv 4 address ++ dns_tlvs dns ++
  tlv 8 [flag_of encrypt].
Proof.
  intros Hids Ha Hdns hdr. unfold buildOpenAck.
  assert ((if encrypt then <[1%nat := 1]> (<[0%nat := packetOpenAck]> (replicate (Z.to_nat signedHeader) 0))
           else <[0%nat := packetOpenAck]> (replicate (Z.to_nat signedHeader) 0)) =
          [packetOpenAck; flag_of encrypt] ++ replicate 6 0 ++ replicate 16 0 ++ []) as ->
    by by destruct encrypt.
  rewrite put_ids_header by done. fold hdr.
  rewrite signPacket_app by (done || by apply length_go_header).
  rewrite app_nil_r, go_be2, (appendTLV_tlv _ 3) by (by rewrite len_be_encode).
  rewrite (appendTLV_tlv _ 4) by (unfold len; lia).
  assert (∀ p, (match dns with
                | [dns0] => appendTLV p 5 dns0
                | dns0 :: dns1 :: _ => appendTLV p 6 (dns0 ++ dns1)
                | [] => p end) = p ++ dns_tlvs dns) as Hd.
  { intros p. destruct dns as [|d0 [|d1 dns]]; unfold dns_tlvs; [by rewrite app_nil_r|..];
      rewrite !Forall_cons in Hdns; apply appendTLV_tlv; unfold len; rewrite ?length_app; lia. }
  rewrite Hd. destruct encrypt; rewrite appendTLV_tlv by done; by rewrite <-!app_assoc.
Qed.

Lemma buildOpenReject_layout :
  buildOpenReject = go_header packetOpenReject 0 [0; 0] [0; 0; 0; 0] ++
                    signature (go_header packetOpenReject 0 [0; 0] [0; 0; 0; 0]).
Proof.
  unfold buildOpenReject.
  change (<[0%nat := packetOpenReject]> (replicate (Z.to_nat signedHeader) 0)) with
    (go_header packetOpenReject 0 [0; 0] [0; 0; 0; 0] ++ replicate 16 0 ++ []).
  by rewrite signPacket_app, app_nil_r.
Qed.

Lemma buildEchoResp_layout token sessionID payload :
  ids_ok token sessionID →
  let hdr := go_header packetEchoResp 0 token sessionID in
  buildEchoResp token sessionID payload = hdr ++ signature hdr ++ payload.
Proof.
  intros Hids hdr. unfold buildEchoResp.
  change (<[0%nat := packetEchoResp]> (replicate (Z.to_nat signedHeader + length payload) 0)) with
    ([packetEchoResp; 0] ++ replicate 6 0 ++ replicate 16 0 ++ replicate (length payload) 0).
  rewrite put_ids_header by done. fold hdr.
  rewrite signPacket_app by (done || by apply length_go_header).
  rewrite app_assoc, copy_at_app; [by rewrite <-app_assoc| |by rewrite length_replicate].
  rewrite length_app, length_signature. unfold hdr. by rewrite length_go_header.
Qed.

Lemma xorData_xor_bytes key data : xorData key data = xor_bytes key data.
Proof.
  unfold xorData, xor_bytes. apply imap_ext. intros i x _. do 2 f_equal.
  change 7 with (Z.ones 3). rewrite Z.land_ones by done. change (2 ^ 3) with (Z.of_nat 8).
  by rewrite <-Nat2Z.inj_mod, Nat2Z.id.
Qed.

Lemma buildDataPacket_layout token sessionID payload encrypt key :
  ids_ok token sessionID →
  buildDataPacket token sessionID payload encrypt key =
  go_header (if encrypt then packetDataEnc else packetData) (flag_of encrypt) token sessionID ++
  (if encrypt then xor_bytes key payload else payload).
Proof.
  intros Hids. unfold buildDataPacket. set (ty := if encrypt then packetDataEnc else packetData).
  assert ((if encrypt then <[1%nat := 1]> (<[0%nat := packetDataEnc]>
             (replicate (Z.to_nat headerSize + length payload) 0))
           else <[0%nat := packetData]> (replicate (Z.to_nat headerSize + length payload) 0)) =
          [ty; flag_of encrypt] ++ replicate 6 0 ++ replicate (length payload) 0) as ->
    by by destruct encrypt.
  rewrite put_ids_header by done.
  pose proof (length_go_header ty (flag_of encrypt) _ _ Hids) as Hl.
  rewrite copy_at_app by (done || by rewrite length_replicate).
  destruct encrypt; [|done].
  change (Z.to_nat headerSize) with 8%nat.
  by rewrite take_app_length', drop_app_length', xorData_xor_bytes by done.
Qed.

(** ** Keys *)

Lemma encryptedPassword_client username password :
  encryptedPassword username password = encrypted_password username password.
Proof.
  unfold encryptedPassword, encrypted_password. change go_magic with magic. f_equal.
  rewrite <-password_block_blit. reflexivity.
Qed.
