(* ===== verification/Server.v ===== *)
(** The server, as in [src/server/server.go]: its sessions and the handlers of the packets
    that arrive from clients and from the exit device.

    A [*session] is a location of the store [sv_heap]: the two maps of the server share the
    session they point to.  [time.Now] and [rand.Read] are arguments of the handlers.  What
    a handler sends is returned; the error of a write is only logged. *)
From stdpp Require Import gmap.
From S2P Require Import Prelude Md5 Client Os CMonad Config Packet OpenAck Protocol.

(** ** The configuration, normalised ([src/server/config.go]) *)

Record configuredUser := mk_user {
  u_username : list Z; u_password : list Z; u_address : list Z; u_allowEncrypt : bool;
  u_xorKey : list Z }.

Record normalizedExitConfig := mk_exit {
  x_enabled : bool; x_tunName : list Z;
  x_tunAddress : list Z * Z;              (* the address of the prefix, and its bits *)
  x_mtu : Z; x_strictSource : bool }.
Record normalizedConfig := mk_sconfig {
  s_listen : list Z; s_mtu : Z; s_dns : list (list Z); s_exit : normalizedExitConfig;
  s_users : gmap (list Z) configuredUser }.
Abbreviation s_exit_enabled c := (x_enabled (s_exit c)).
Abbreviation s_strictSource c := (x_strictSource (s_exit c)).

(** ** The state *)

(** A [*net.UDPAddr]: address and port.  [remote.String()] identifies it. *)
Abbreviation udp_addr := (Z * Z)%type.
Abbreviation session_key := (udp_addr * list Z * list Z)%type.

Record user_session := mk_session {
  se_key : session_key; se_user : configuredUser; se_remote : udp_addr; se_encrypt : bool;
  se_mtu : Z; se_createdAt : Z; se_lastSeen : Z }.
#[export] Instance user_session_eta : Eta user_session := λ s,
  mk_session (se_key s) (se_user s) (se_remote s) (se_encrypt s) (se_mtu s) (se_createdAt s)
    (se_lastSeen s).

Record server := mk_server {
  sv_config : normalizedConfig;
  sv_exit : bool;                         (* exit != nil *)
  sv_heap : gmap nat user_session; sv_next : nat;
  sv_sessions : gmap session_key nat;
  sv_byAddress : gmap (list Z) nat }.
#[export] Instance server_eta : Eta server := λ s,
  mk_server (sv_config s) (sv_exit s) (sv_heap s) (sv_next s) (sv_sessions s) (sv_byAddress s).

(** [newServer], with the exit device it was given or opened. *)
Definition newServer (config : normalizedConfig) : server :=
  mk_server config (s_exit_enabled config) ∅ 0 ∅ ∅.

Inductive output :=
  | WriteToUDP (remote : udp_addr) (packet : list Z)
  | ExitWrite (packet : list Z).

(** A copy of what a reply needs of a session. *)
Record outboundSession := mk_outbound {
  o_remote : udp_addr; o_token : list Z; o_sessionID : list Z; o_encrypt : bool;
  o_xorKey : list Z; o_address : list Z }.

Definition sessionToOutbound (current : user_session) : outboundSession :=
  mk_outbound (se_remote current) (se_key current).1.2 (se_key current).2 (se_encrypt current)
    (u_xorKey (se_user current)) (u_address (se_user current)).

(** ** The session table

    [None] is a nil dereference or a slice out of range: a panic. *)

Definition removeSessionLocked (s : server) (current : nat) : option server :=
  c ← sv_heap s !! current;
  let s := s <| sv_sessions := delete (se_key c) (sv_sessions s) |> in
  let address := u_address (se_user c) in
  Some (if decide (sv_byAddress s !! address = Some current)
        then s <| sv_byAddress := delete address (sv_byAddress s) |> else s).

(** [for _, current := range s.sessions]: the entries the map had; only the current one is
    ever removed. *)
Fixpoint remove_matching (remote : udp_addr) (username : list Z) (entries : list (session_key * nat))
  (s : server) : option server :=
  match entries with
  | [] => Some s
  | (_, current) :: entries =>
      c ← sv_heap s !! current;
      s ← (if decide ((se_key c).1.1 = remote ∨ u_username (se_user c) = username)
           then removeSessionLocked s current else Some s);
      remove_matching remote username entries s
  end.
Definition removeSessionsForRemoteOrUserLocked (s : server) (remote : udp_addr)
  (username : list Z) : option server :=
  remove_matching remote username (map_to_list (sv_sessions s)) s.

Definition keyFromPacket (remote : udp_addr) (packet : list Z) : option session_key :=
  token ← rd_n packet 2 2;
  sessionID ← rd_n packet 4 4;
  Some (remote, token, sessionID).

(** The state with [lastSeen] updated, and the session. *)
Definition sessionForPacket (now : Z) (s : server) (remote : udp_addr) (packet : list Z)
  : option (server * option outboundSession) :=
  key ← keyFromPacket remote packet;
  match sv_sessions s !! key with
  | None => Some (s, None)
  | Some l =>
      current ← sv_heap s !! l;
      let current := current <| se_lastSeen := now |> in
      Some (s <| sv_heap := <[l := current]> (sv_heap s) |>, Some (sessionToOutbound current))
  end.

Definition outboundForAddress (s : server) (destination : list Z)
  : option (option outboundSession) :=
  match sv_byAddress s !! destination with
  | None => Some None
  | Some l => current ← sv_heap s !! l; Some (Some (sessionToOutbound current))
  end.

(** ** The handlers *)

Definition handleOpen (now : Z) (rnd : option (list Z * list Z)) (remote : udp_addr)
  (packet : list Z) (s : server) : option (server * list output) :=
  request ← parseOpenPacket packet;
  let reject := Some (s, [WriteToUDP remote buildOpenReject]) in
  match request with
  | inl _ => reject
  | inr request =>
      match s_users (sv_config s) !! r_username request with
      | None => reject
      | Some user =>
          if negb (passwordMatches (u_username user) (u_password user) (r_passwordBlock request))
          then reject else
          match rnd with
          | None => Some (s, [])
          | Some (token, sessionID) =>
              let effectiveMTU := s_mtu (sv_config s) in
              let effectiveMTU := if r_mtu request <? effectiveMTU then r_mtu request
                                  else effectiveMTU in
              let encrypt := r_encrypt request && u_allowEncrypt user in
              let key := (remote, token, sessionID) in
              let nextSession := mk_session key user remote encrypt effectiveMTU now now in
              s ← removeSessionsForRemoteOrUserLocked s remote (u_username user);
              let l := sv_next s in
              let s := s <| sv_heap := <[l := nextSession]> (sv_heap s) |> <| sv_next := S l |>
                         <| sv_sessions := <[key := l]> (sv_sessions s) |>
                         <| sv_byAddress := <[u_address user := l]> (sv_byAddress s) |> in
              Some (s, [WriteToUDP remote (buildOpenAck token sessionID effectiveMTU
                          (u_address user) (s_dns (sv_config s)) encrypt)])
          end
      end
  end.

Definition handleEchoReq (now : Z) (remote : udp_addr) (packet : list Z) (s : server)
  : option (server * list output) :=
  if negb (verifyPacket packet) then Some (s, []) else
  '(s, outbound) ← sessionForPacket now s remote packet;
  match outbound with
  | None => Some (s, [])
  | Some o =>
      payload ← rd_n packet signedHeader (len packet - signedHeader);
      Some (s, [WriteToUDP (o_remote o) (buildEchoResp (o_token o) (o_sessionID o) payload)])
  end.

Definition handleClose (remote : udp_addr) (packet : list Z) (s : server)
  : option (server * list output) :=
  if negb (verifyPacket packet) then Some (s, []) else
  key ← keyFromPacket remote packet;
  match sv_sessions s !! key with
  | None => Some (s, [])
  | Some current => s ← removeSessionLocked s current; Some (s, [])
  end.

Definition send_data (o : outboundSession) (payload : list Z) : list output :=
  [WriteToUDP (o_remote o)
     (buildDataPacket (o_token o) (o_sessionID o) payload (o_encrypt o) (o_xorKey o))].

(** The rest of [handleData], from [originalPayload := payload]: the decrypted payload of
    a client goes to the client it is addressed to, else to the exit device, else back. *)
Definition route_payload (source : outboundSession) (payload : list Z) (s : server)
  : option (server * list output) :=
  let originalPayload := payload in
  let enabled := s_exit_enabled (sv_config s) in
  parsed ← parseIPv4Packet payload;
  match parsed with
  | inr parsed =>
      let payload := if enabled then p_packet parsed else payload in
      if enabled && s_strictSource (sv_config s) && negb (bool_decide (p_source parsed = o_address source))
      then Some (s, []) else
      target ← outboundForAddress s (p_destination parsed);
      match target with
      | Some target => Some (s, send_data target payload)
      | None =>
          if enabled then
            if negb (sv_exit s) then Some (s, []) else Some (s, [ExitWrite payload])
          else Some (s, send_data source originalPayload)
      end
  | inl _ => if enabled then Some (s, []) else Some (s, send_data source originalPayload)
  end.

Definition handleData (now : Z) (remote : udp_addr) (packet : list Z) (s : server)
  : option (server * list output) :=
  if len packet <=? headerSize then Some (s, []) else
  '(s, source) ← sessionForPacket now s remote packet;
  match source with
  | None => Some (s, [])
  | Some source =>
      ty ← rd packet 0;
      if (ty =? packetDataEnc) && negb (o_encrypt source) then Some (s, []) else
      if (ty =? packetData) && o_encrypt source then Some (s, []) else
      payload ← rd_n packet headerSize (len packet - headerSize);
      let payload := if ty =? packetDataEnc then xorData (o_xorKey source) payload else payload in
      route_payload source payload s
  end.

Definition handlePacket (now : Z) (rnd : option (list Z * list Z)) (remote : udp_addr)
  (packet : list Z) (s : server) : option (server * list output) :=
  if len packet <? headerSize then Some (s, []) else
  ty ← rd packet 0;
  if ty =? packetOpen then handleOpen now rnd remote packet s
  else if ty =? packetEchoReq then handleEchoReq now remote packet s
  else if ty =? packetClose then handleClose remote packet s
  else if (ty =? packetData) || (ty =? packetDataEnc) then handleData now remote packet s
  else Some (s, []).

Definition handleExitPacket (payload : list Z) (s : server) : option (server * list output) :=
  parsed ← parseIPv4Packet payload;
  match parsed with
  | inl _ => Some (s, [])
  | inr parsed =>
      target ← outboundForAddress s (p_destination parsed);
      Some (s, match target with
               | None => [] | Some target => send_data target (p_packet parsed) end)
  end.

(** ** The server's inputs, and its runs *)

Inductive input :=
  | Datagram (now : Z) (rnd : option (list Z * list Z)) (remote : udp_addr) (packet : list Z)
  | FromExit (payload : list Z).

(** One iteration of [Serve], or of [serveExitDevice]. *)
Definition serve (i : input) (s : server) : option (server * list output) :=
  match i with
  | Datagram now rnd remote packet => handlePacket now rnd remote packet s
  | FromExit payload => handleExitPacket payload s
  end.

(** What the random generator returns. *)
Definition input_ok (i : input) : Prop :=
  match i with
  | Datagram _ (Some (token, sessionID)) _ _ => ids_ok token sessionID
  | _ => True
  end.

(** * Properties *)

(** ** The invariant

    The configuration names each user once and gives no address twice; every entry of
    either map is a session that is in the other one; no two sessions have the same client
    address or the same user. *)
Record sconfig_ok (c : normalizedConfig) : Prop := {
  sc_name name u : s_users c !! name = Some u → u_username u = name;
  sc_address n1 n2 u1 u2 :
    s_users c !! n1 = Some u1 → s_users c !! n2 = Some u2 → u_address u1 = u_address u2 → n1 = n2;
  sc_octets name u : s_users c !! name = Some u → length (u_address u) = 4%nat ∧ bytes (u_address u);
  sc_key name u : s_users c !! name = Some u → u_xorKey u = deriveXORKey (u_username u) (u_password u);
  sc_dns : Forall (λ d, length d = 4%nat ∧ bytes d) (s_dns c);
  sc_mtu : MinMTU ≤ s_mtu c ≤ MaxMTU
}.

Record session_ok (s : server) (k : session_key) (l : nat) (c : user_session) : Prop := {
  so_key : se_key c = k;
  so_remote : se_remote c = k.1.1;
  so_ids : ids_ok k.1.2 k.2;
  so_user : s_users (sv_config s) !! u_username (se_user c) = Some (se_user c);
  so_address : sv_byAddress s !! u_address (se_user c) = Some l
}.

Record server_inv (s : server) : Prop := {
  si_config : sconfig_ok (sv_config s);
  si_fresh l : is_Some (sv_heap s !! l) → (l < sv_next s)%nat;
  si_sessions k l : sv_sessions s !! k = Some l →
    ∃ c, sv_heap s !! l = Some c ∧ session_ok s k l c;
  si_address a l : sv_byAddress s !! a = Some l →
    ∃ c, sv_heap s !! l = Some c ∧ u_address (se_user c) = a ∧
         sv_sessions s !! se_key c = Some l;
  si_unique k1 k2 l1 l2 c1 c2 :
    sv_sessions s !! k1 = Some l1 → sv_sessions s !! k2 = Some l2 →
    sv_heap s !! l1 = Some c1 → sv_heap s !! l2 = Some c2 →
    k1.1.1 = k2.1.1 ∨ u_username (se_user c1) = u_username (se_user c2) → k1 = k2
}.

Lemma newServer_inv config : sconfig_ok config → server_inv (newServer config).
Proof.
  intros Hc. split; cbn [newServer sv_heap sv_sessions sv_byAddress]; [done|..];
    intros *; rewrite ?lookup_empty; done.
Qed.

(** Removing a session removes it from both maps, and nothing else. *)
Definition without (s : server) (k : session_key) (c : user_session) : server :=
  mk_server (sv_config s) (sv_exit s) (sv_heap s) (sv_next s) (delete k (sv_sessions s))
    (delete (u_address (se_user c)) (sv_byAddress s)).

Lemma removeSessionLocked_spec s k l c :
  server_inv s → sv_sessions s !! k = Some l → sv_heap s !! l = Some c →
  removeSessionLocked s l = Some (without s k c) ∧ server_inv (without s k c).
Proof.
  intros Hi Hk Hl. destruct (si_sessions _ Hi k l Hk) as (c' & Hl' & [Hkey Hrem Hids Hu Ha]).
  simplify_eq. split.
  { unfold removeSessionLocked. rewrite Hl. cbn [mbind option_bind].
    change (sv_byAddress (s <| sv_sessions := _ |>)) with (sv_byAddress s).
    by rewrite decide_True. }
  destruct Hi as [Hc Hf Hs Hb Huq].
  split; cbn [without sv_config sv_heap sv_next sv_sessions sv_byAddress]; try done.
  - intros k' l' H. apply lookup_delete_Some in H as [Hne H].
    destruct (Hs _ _ H) as (c' & Hc' & [E1 E2 E3 E4 E5]). exists c'. split; [done|].
    split; try done. cbn [without sv_byAddress].
    rewrite lookup_delete_ne; [done|]. intros Heq. rewrite Heq in Ha.
    assert (l' = l) as -> by congruence. by simplify_eq.
  - intros a l' H. apply lookup_delete_Some in H as [Hne H].
    destruct (Hb _ _ H) as (c' & Hc' & Ea & Es). exists c'. split_and!; [done|done|].
    rewrite lookup_delete_ne; [done|]. intros Heq. rewrite Heq, Es in Hk.
    assert (l' = l) as -> by congruence. by simplify_eq.
  - intros k1 k2 l1 l2 c1 c2 H1 H2. apply lookup_delete_Some in H1 as [_ H1], H2 as [_ H2].
    exact (Huq k1 k2 l1 l2 c1 c2 H1 H2).
Qed.

(** Whether a session is one that a new session of this client or user replaces. *)
Definition replaced (remote : udp_addr) (username : list Z) (c : user_session) : Prop :=
  (se_key c).1.1 = remote ∨ u_username (se_user c) = username.

(** What remains after the entries [es] have been visited. *)
Lemma remove_matching_spec remote username es s :
  server_inv s → NoDup es.*1 → (∀ k l, (k, l) ∈ es → sv_sessions s !! k = Some l) →
  ∃ s', remove_matching remote username es s = Some s' ∧ server_inv s' ∧
    sv_config s' = sv_config s ∧ sv_exit s' = sv_exit s ∧ sv_heap s' = sv_heap s ∧
    sv_next s' = sv_next s ∧
    ∀ k l, sv_sessions s' !! k = Some l ↔
      sv_sessions s !! k = Some l ∧
      ¬ ((k, l) ∈ es ∧ ∃ c, sv_heap s !! l = Some c ∧ replaced remote username c).
Proof.
  revert s. induction es as [|[k l] es IH]; intros s Hi Hnd Hes.
  { exists s. split_and!; try done. intros k l. rewrite elem_of_nil. tauto. }
  cbn [fmap list_fmap fst] in Hnd. apply NoDup_cons in Hnd as [Hnin Hnd].
  assert (sv_sessions s !! k = Some l) as Hk by (apply Hes; by left).
  destruct (si_sessions _ Hi k l Hk) as (c & Hl & Hok).
  cbn [remove_matching]. rewrite Hl. cbn [mbind option_bind].
  destruct (decide (replaced remote username c)) as [Hr|Hr].
  - rewrite decide_True by exact Hr.
    destruct (removeSessionLocked_spec s k l c Hi Hk Hl) as [-> Hi1]. cbn [mbind option_bind].
    destruct (IH (without s k c) Hi1 Hnd) as (s' & -> & Hi' & E1 & E2 & E3 & E4 & Hs').
    { intros k' l' H. cbn [without sv_sessions]. rewrite lookup_delete_ne; [apply Hes; by right|].
      intros ->. apply Hnin. apply list_elem_of_fmap. by exists (k', l'). }
    exists s'. split_and!; try done. intros k' l'. rewrite Hs'.
    cbn [without sv_sessions sv_heap]. rewrite lookup_delete_Some, elem_of_cons.
    split.
    + intros [[Hne H] Hn]. split; [done|]. intros [[[= -> ->]|Hin] Hex]; [done|]. auto.
    + intros [H Hn]. split; [split; [|done]|].
      * intros ->. apply Hn. assert (l' = l) as -> by congruence. eauto.
      * intros [Hin Hex]. auto.
  - rewrite decide_False by exact Hr. cbn [mbind option_bind].
    destruct (IH s Hi Hnd) as (s' & -> & Hi' & E1 & E2 & E3 & E4 & Hs').
    { intros k' l' H. apply Hes. by right. }
    exists s'. split_and!; try done. intros k' l'. rewrite Hs', elem_of_cons.
    split; (intros [H Hn]; split; [done|]).
    + intros [[[= -> ->]|Hin] Hex]; [|auto]. destruct Hex as (c' & Hc' & Hr').
      assert (c' = c) as -> by congruence. by destruct Hr.
    + intros [Hin Hex]. auto.
Qed.

Lemma removeSessions_spec s remote username :
  server_inv s →
  ∃ s', removeSessionsForRemoteOrUserLocked s remote username = Some s' ∧ server_inv s' ∧
    sv_config s' = sv_config s ∧ sv_exit s' = sv_exit s ∧ sv_heap s' = sv_heap s ∧
    sv_next s' = sv_next s ∧
    ∀ k l, sv_sessions s' !! k = Some l ↔
      sv_sessions s !! k = Some l ∧ ¬ ∃ c, sv_heap s !! l = Some c ∧ replaced remote username c.
Proof.
  intros Hi. destruct (remove_matching_spec remote username (map_to_list (sv_sessions s)) s Hi)
    as (s' & E & Hi' & E1 & E2 & E3 & E4 & Hs').
  - apply NoDup_fst_map_to_list.
  - intros k l. by rewrite elem_of_map_to_list.
  - exists s'. split_and!; try done. intros k l. rewrite Hs', elem_of_map_to_list. tauto.
Qed.

(** Adding the session of a client and a user who have none. *)
Definition with_session (s : server) (k : session_key) (c : user_session) : server :=
  mk_server (sv_config s) (sv_exit s) (<[sv_next s := c]> (sv_heap s)) (S (sv_next s))
    (<[k := sv_next s]> (sv_sessions s)) (<[u_address (se_user c) := sv_next s]> (sv_byAddress s)).

Lemma with_session_inv s k c :
  server_inv s → se_key c = k → se_remote c = k.1.1 → ids_ok k.1.2 k.2 →
  s_users (sv_config s) !! u_username (se_user c) = Some (se_user c) →
  (∀ k' l' c', sv_sessions s !! k' = Some l' → sv_heap s !! l' = Some c' →
    ¬ replaced k.1.1 (u_username (se_user c)) c') →
  server_inv (with_session s k c).
Proof.
  intros Hi Hkey Hrem Hids Hu Hnone.
  assert (sv_heap s !! sv_next s = None) as Hfresh.
  { destruct (sv_heap s !! sv_next s) eqn:E; [|done].
    pose proof (si_fresh _ Hi (sv_next s) ltac:(by eexists)). lia. }
  assert (∀ k' l', sv_sessions s !! k' = Some l' → ∃ c', l' ≠ sv_next s ∧
    sv_heap s !! l' = Some c' ∧ session_ok s k' l' c' ∧ k'.1.1 ≠ k.1.1 ∧
    u_username (se_user c') ≠ u_username (se_user c) ∧
    u_address (se_user c') ≠ u_address (se_user c)) as Hold.
  { intros k' l' H. destruct (si_sessions _ Hi _ _ H) as (c' & Hc' & Hok). exists c'.
    pose proof (Hnone k' l' c' H Hc') as Hn. unfold replaced in Hn. rewrite (so_key _ _ _ _ Hok) in Hn.
    split_and!; [congruence|done|done|tauto|tauto|]. intros Ha. apply Hn. right.
    by apply (sc_address _ (si_config _ Hi) _ _ _ _ (so_user _ _ _ _ Hok) Hu). }
  destruct Hi as [Hc Hf Hs Hb Huq].
  split; cbn [with_session sv_config sv_heap sv_next sv_sessions sv_byAddress]; [done|..].
  - intros l [x H]. apply lookup_insert_Some in H as [[<- _]|[_ H]]; [lia|].
    pose proof (Hf l ltac:(by eexists)). lia.
  - intros k' l' H. apply lookup_insert_Some in H as [[<- <-]|[Hne H]].
    { exists c. rewrite lookup_insert_eq. split; [done|]. split; try done.
      cbn [with_session sv_byAddress]. by rewrite lookup_insert_eq. }
    destruct (Hold _ _ H) as (c' & Hl & Hc' & [] & _ & _ & Ha). exists c'.
    rewrite lookup_insert_ne by done. split; [done|]. split; try done.
    cbn [with_session sv_byAddress]. by rewrite lookup_insert_ne.
  - intros a l' H. apply lookup_insert_Some in H as [[<- <-]|[Hne H]].
    { exists c. rewrite lookup_insert_eq, Hkey, lookup_insert_eq. done. }
    destruct (Hb _ _ H) as (c' & Hc' & Ha & Hk). exists c'.
    destruct (Hold _ _ Hk) as (c'' & Hl & _ & _ & Hr & _).
    rewrite !lookup_insert_ne by congruence. done.
  - intros k1 k2 l1 l2 c1 c2 H1 H2 Hc1 Hc2.
    apply lookup_insert_Some in H1 as [[<- <-]|[Hne1 H1]];
      apply lookup_insert_Some in H2 as [[<- <-]|[Hne2 H2]]; [done|..].
    + destruct (Hold _ _ H2) as (c' & Hl & Hc' & _ & Hr & Hn & _).
      rewrite lookup_insert_eq in Hc1. rewrite lookup_insert_ne in Hc2 by done. intros [?|?]; congruence.
    + destruct (Hold _ _ H1) as (c' & Hl & Hc' & _ & Hr & Hn & _).
      rewrite lookup_insert_eq in Hc2. rewrite lookup_insert_ne in Hc1 by done. intros [?|?]; congruence.
    + destruct (Hold _ _ H1) as (c1' & Hl1 & _), (Hold _ _ H2) as (c2' & Hl2 & _).
      rewrite lookup_insert_ne in Hc1, Hc2 by done. by eapply Huq.
Qed.

(** Updating what no invariant depends on. *)
Definition touched (s : server) (l : nat) (c : user_session) : server :=
  mk_server (sv_config s) (sv_exit s) (<[l := c]> (sv_heap s)) (sv_next s) (sv_sessions s)
    (sv_byAddress s).

Lemma touched_inv s l c c' :
  server_inv s → sv_heap s !! l = Some c → se_key c' = se_key c → se_user c' = se_user c →
  se_remote c' = se_remote c → server_inv (touched s l c').
Proof.
  intros [Hc Hf Hs Hb Huq] Hl Ek Eu Er.
  assert (∀ l1 c1, <[l := c']> (sv_heap s) !! l1 = Some c1 → ∃ c1', sv_heap s !! l1 = Some c1' ∧
    se_key c1 = se_key c1' ∧ se_user c1 = se_user c1' ∧ se_remote c1 = se_remote c1') as Hget.
  { intros l1 c1 H. apply lookup_insert_Some in H as [[<- <-]|[Hne H]]; eauto. }
  assert (∀ l1 c1, sv_heap s !! l1 = Some c1 → ∃ c1', <[l := c']> (sv_heap s) !! l1 = Some c1' ∧
    se_key c1' = se_key c1 ∧ se_user c1' = se_user c1 ∧ se_remote c1' = se_remote c1) as Hput.
  { intros l1 c1 H. destruct (decide (l = l1)) as [<-|Hne].
    - exists c'. rewrite lookup_insert_eq. split_and!; congruence.
    - exists c1. by rewrite lookup_insert_ne. }
  split; cbn [touched sv_config sv_heap sv_next sv_sessions sv_byAddress]; [done|..].
  - intros l1 [c1 H]. destruct (Hget _ _ H) as (c1' & ? & _). apply Hf. by eexists.
  - intros k1 l1 H. destruct (Hs _ _ H) as (c1 & Hc1 & [E1 E2 E3 E4 E5]).
    destruct (Hput _ _ Hc1) as (c1' & Hc1' & Fk & Fu & Fr). exists c1'. split; [done|].
    split; cbn [touched sv_config sv_byAddress]; congruence.
  - intros a l1 H. destruct (Hb _ _ H) as (c1 & Hc1 & E1 & E2).
    destruct (Hput _ _ Hc1) as (c1' & Hc1' & Fk & Fu & Fr). exists c1'. split_and!; congruence.
  - intros k1 k2 l1 l2 c1 c2 H1 H2 Hc1 Hc2.
    destruct (Hget _ _ Hc1) as (d1 & Hd1 & _ & -> & _), (Hget _ _ Hc2) as (d2 & Hd2 & _ & -> & _).
    by eapply Huq.
Qed.

(** ** The handlers keep the invariant and never panic *)

Definition packet_key (remote : udp_addr) (packet : list Z) : session_key :=
  (remote, take 2 (drop 2 packet), take 4 (drop 4 packet)).

Lemma keyFromPacket_spec remote packet :
  8 ≤ len packet → keyFromPacket remote packet = Some (packet_key remote packet).
Proof. intros Hl. unfold keyFromPacket. by rewrite !rd_n_Some by lia. Qed.

Definition output_len (o : output) : Z :=
  match o with WriteToUDP _ packet | ExitWrite packet => len packet end.

(** What a handler does: it returns, keeps the invariant, and sends at most one packet, of at
    most [n] bytes. *)
Definition handled (n : Z) (r : option (server * list output)) : Prop :=
  ∃ s' outs, r = Some (s', outs) ∧ server_inv s' ∧ (length outs ≤ 1)%nat ∧
    Forall (λ o, output_len o ≤ n) outs.

Lemma handled_silent n s : server_inv s → handled n (Some (s, [])).
Proof. intros. exists s, []. split_and!; [done|done|simpl; lia|done]. Qed.
Lemma handled_one n s o : server_inv s → output_len o ≤ n → handled n (Some (s, [o])).
Proof. intros. exists s, [o]. split_and!; [done|done|done|by repeat constructor]. Qed.

(** The sizes of the packets. *)
Lemma len_buildDataPacket token sessionID payload encrypt key :
  ids_ok token sessionID → len (buildDataPacket token sessionID payload encrypt key) = 8 + len payload.
Proof.
  intros Hids. rewrite buildDataPacket_layout by done. unfold len. rewrite length_app, length_go_header by done.
  destruct encrypt; rewrite ?length_xor_bytes; lia.
Qed.

Lemma len_signed hdr rest : length hdr = 8%nat → len (hdr ++ signature hdr ++ rest) = 24 + len rest.
Proof. intros Hl. unfold len. rewrite !length_app, length_signature, Hl. lia. Qed.

Lemma len_buildOpenReject : len buildOpenReject = 24.
Proof. rewrite buildOpenReject_layout, <-(app_nil_r (signature _)). by rewrite len_signed. Qed.

Lemma len_buildEchoResp token sessionID payload :
  ids_ok token sessionID → len (buildEchoResp token sessionID payload) = 24 + len payload.
Proof. intros. rewrite buildEchoResp_layout by done. apply len_signed. by apply length_go_header. Qed.

Lemma len_buildOpenAck token sessionID mtu address dns encrypt :
  ids_ok token sessionID → length address = 4%nat → Forall (λ d, length d = 4%nat) dns →
  len (buildOpenAck token sessionID mtu address dns encrypt) ≤ 47.
Proof.
  intros Hids Ha Hd. rewrite buildOpenAck_layout, len_signed by (done || by apply length_go_header).
  unfold tlv. rewrite !len_app, !len_cons, len_be_encode, len_nil.
  assert (len (dns_tlvs dns) ≤ 10); [|unfold len in *; lia].
  destruct dns as [|d0 [|d1 dns]]; cbn [dns_tlvs]; [by rewrite len_nil|..]; rewrite !Forall_cons in Hd;
    unfold tlv, len; cbn [length]; rewrite ?length_app; lia.
Qed.

Lemma parseIPv4Packet_packet payload ip :
  parseIPv4Packet payload = mret ip → 0 < len (p_packet ip) ≤ len payload.
Proof.
  unfold parseIPv4Packet. case_match eqn:Hl; [done|]. rewrite Z.ltb_ge in Hl.
  destruct (slice_rd payload 0) as [b0 Hb]; [lia|]. erewrite slice_bind by exact Hb.
  case_match; [done|]. cbv zeta. case_match eqn:Hi; [done|]. case_match eqn:Hh; [done|].
  erewrite slice_bind by (apply rd_n_Some; lia). cbv zeta.
  case_match eqn:E1; [done|]. case_match eqn:E2; [done|]. rewrite !Z.ltb_ge in *.
  erewrite slice_bind by (apply rd_n_Some; lia). erewrite slice_bind by (apply rd_n_Some; lia).
  erewrite slice_bind by (apply rd_n_Some; lia). intros [= <-]. cbn [p_packet].
  rewrite drop_0, len_take. lia.
Qed.

Lemma sessionForPacket_spec now s remote packet :
  8 ≤ len packet → server_inv s →
  sessionForPacket now s remote packet = Some (s, None) ∧
    sv_sessions s !! packet_key remote packet = None ∨
  ∃ l c, sv_sessions s !! packet_key remote packet = Some l ∧ sv_heap s !! l = Some c ∧
    session_ok s (packet_key remote packet) l c ∧
    sessionForPacket now s remote packet =
      Some (touched s l (c <| se_lastSeen := now |>), Some (sessionToOutbound c)) ∧
    server_inv (touched s l (c <| se_lastSeen := now |>)).
Proof.
  intros Hl Hi. unfold sessionForPacket. rewrite keyFromPacket_spec by done.
  cbn [mbind option_bind]. destruct (sv_sessions s !! packet_key remote packet) as [l|] eqn:E; [|by left].
  destruct (si_sessions _ Hi _ _ E) as (c & Hc & Hok). rewrite Hc. right. exists l, c.
  split_and!; [done|done|done|done|]. by eapply touched_inv.
Qed.

Lemma outboundForAddress_spec s a :
  server_inv s →
  outboundForAddress s a = Some None ∧ sv_byAddress s !! a = None ∨
  ∃ l c, sv_byAddress s !! a = Some l ∧ sv_heap s !! l = Some c ∧ ids_ok (se_key c).1.2 (se_key c).2 ∧
    outboundForAddress s a = Some (Some (sessionToOutbound c)).
Proof.
  intros Hi. unfold outboundForAddress. destruct (sv_byAddress s !! a) as [l|] eqn:E; [|by left].
  destruct (si_address _ Hi _ _ E) as (c & Hc & Ha & Hk). rewrite Hc. right. exists l, c.
  split_and!; [done|done| |done]. destruct (si_sessions _ Hi _ _ Hk) as (c' & Hc' & Hok).
  apply Hok.
Qed.

Lemma parseIPv4Packet_total payload : ∃ r, parseIPv4Packet payload = Some r.
Proof.
  unfold parseIPv4Packet. case_match eqn:Hl; [by eexists|]. rewrite Z.ltb_ge in Hl.
  destruct (slice_rd payload 0) as [b0 Hb]; [lia|]. erewrite slice_bind by exact Hb.
  case_match; [by eexists|]. cbv zeta. case_match; [by eexists|]. case_match eqn:Hihl; [by eexists|].
  erewrite slice_bind by (apply rd_n_Some; lia). cbv zeta.
  case_match eqn:E1; [by eexists|]. case_match eqn:E2; [by eexists|]. rewrite !Z.ltb_ge in *.
  erewrite slice_bind by (apply rd_n_Some; lia). erewrite slice_bind by (apply rd_n_Some; lia).
  erewrite slice_bind by (apply rd_n_Some; lia). by eexists.
Qed.

Lemma handleOpen_handled now rnd remote packet s :
  server_inv s → input_ok (Datagram now rnd remote packet) →
  handled 47 (handleOpen now rnd remote packet s).
Proof.
  intros Hi Hin. unfold handleOpen.
  assert (handled 47 (Some (s, [WriteToUDP remote buildOpenReject]))) as Hreject
    by (apply handled_one; [done|]; cbn [output_len]; by rewrite len_buildOpenReject).
  destruct (parseOpenPacket_total packet) as [[e|request] ->]; cbn [mbind option_bind]; [done|].
  destruct (s_users (sv_config s) !! r_username request) as [user|] eqn:Hu; [|done].
  case_match; [done|]. destruct rnd as [[token sessionID]|]; [|by apply handled_silent].
  destruct (removeSessions_spec s remote (u_username user) Hi)
    as (s' & -> & Hi' & E1 & E2 & E3 & E4 & Hs'). cbn [mbind option_bind].
  pose proof (si_config _ Hi) as Hc. apply handled_one.
  - set (c := mk_session _ _ _ _ _ _ _).
    apply (with_session_inv s' (remote, token, sessionID) c); try done.
    + change (s_users (sv_config s') !! u_username user = Some user).
      rewrite E1, (sc_name _ Hc _ _ Hu). done.
    + intros k' l' c' Hk' Hc' Hr. apply Hs' in Hk' as [_ Hn]. apply Hn. exists c'. rewrite <-E3. done.
  - apply len_buildOpenAck; [done|by apply (sc_octets _ Hc _ _ Hu)|].
    change (Forall (λ d, length d = 4%nat) (s_dns (sv_config s'))). rewrite E1.
    eapply Forall_impl; [apply Hc|]. by intros d [? _].
Qed.

Definition outbound_ok (o : outboundSession) : Prop := ids_ok (o_token o) (o_sessionID o).

Lemma send_data_handled n s o payload :
  server_inv s → outbound_ok o → 8 + len payload ≤ n → handled n (Some (s, send_data o payload)).
Proof. intros. apply handled_one; [done|]. cbn [output_len]. by rewrite len_buildDataPacket. Qed.

Lemma route_payload_handled source payload s :
  server_inv s → outbound_ok source → handled (8 + len payload) (route_payload source payload s).
Proof.
  intros Hi Hsrc. unfold route_payload. destruct (parseIPv4Packet_total payload) as [[e|p] E]; rewrite E;
    cbn [mbind option_bind]; [case_match; [by apply handled_silent|by apply send_data_handled]|].
  apply parseIPv4Packet_packet in E. case_match; [by apply handled_silent|].
  set (data := if s_exit_enabled _ then _ else _).
  assert (len data ≤ len payload) by (unfold data; case_match; lia).
  destruct (outboundForAddress_spec s (p_destination p) Hi) as [[-> _]|(l' & c' & _ & _ & Hids & ->)];
    cbn [mbind option_bind]; [|by apply send_data_handled; [|apply Hids|lia]].
  repeat case_match; [by apply handled_silent|by apply handled_one; [|cbn [output_len]; lia]|].
  by apply send_data_handled.
Qed.

Lemma handleData_handled now remote packet s :
  server_inv s → handled (len packet) (handleData now remote packet s).
Proof.
  intros Hi. unfold handleData. case_match eqn:Hl; [by apply handled_silent|].
  rewrite Z.leb_gt in Hl. change headerSize with 8 in *.
  destruct (sessionForPacket_spec now s remote packet ltac:(lia) Hi)
    as [[-> _]|(l & c & _ & _ & Hok & -> & Hi')]; cbn [mbind option_bind]; [by apply handled_silent|].
  set (s' := touched s l _) in *. destruct (slice_rd packet 0) as [ty ->]; [lia|].
  cbn [mbind option_bind]. do 2 (case_match; [by apply handled_silent|]).
  rewrite rd_n_Some by lia. cbn [mbind option_bind]. cbv zeta. set (body := take _ (drop _ packet)).
  set (payload := if ty =? _ then _ else _).
  assert (len packet = 8 + len payload) as ->.
  { transitivity (8 + len body); [unfold body; rewrite len_take, len_drop; lia|].
    unfold payload. case_match; [|done]. by rewrite xorData_xor_bytes; unfold len; rewrite length_xor_bytes. }
  apply route_payload_handled; [done|]. unfold outbound_ok. cbn [sessionToOutbound o_token o_sessionID].
  rewrite (so_key _ _ _ _ Hok). apply Hok.
Qed.

Lemma handleEchoReq_handled now remote packet s :
  server_inv s → handled (len packet) (handleEchoReq now remote packet s).
Proof.
  intros Hi. unfold handleEchoReq. destruct (verifyPacket packet) eqn:Hv; cbn [negb];
    [|by apply handled_silent].
  assert (24 ≤ len packet) as H24.
  { unfold verifyPacket in Hv. destruct (Z.ltb_spec (len packet) signedHeader); [done|].
    change signedHeader with 24 in *. lia. }
  destruct (sessionForPacket_spec now s remote packet ltac:(lia) Hi)
    as [[-> _]|(l & c & _ & _ & Hok & -> & Hi')]; cbn [mbind option_bind]; [by apply handled_silent|].
  rewrite rd_n_Some by (change signedHeader with 24; lia). cbn [mbind option_bind].
  apply handled_one; [done|]. cbn [output_len]. rewrite len_buildEchoResp.
  - rewrite len_take, len_drop. change signedHeader with 24. lia.
  - cbn [sessionToOutbound o_token o_sessionID]. rewrite (so_key _ _ _ _ Hok). apply Hok.
Qed.

Lemma handleClose_handled n remote packet s :
  8 ≤ len packet → server_inv s → handled n (handleClose remote packet s).
Proof.
  intros Hl Hi. unfold handleClose. case_match; [by apply handled_silent|].
  rewrite keyFromPacket_spec by lia. cbn [mbind option_bind].
  destruct (sv_sessions s !! packet_key remote packet) as [l|] eqn:E; [|by apply handled_silent].
  destruct (si_sessions _ Hi _ _ E) as (c & Hc & _).
  destruct (removeSessionLocked_spec s _ l c Hi E Hc) as [-> Hi']. by apply handled_silent.
Qed.

(** The largest answer to an input: a data packet or an echo is not longer than what it
    answers, an OPENACK has at most 47 bytes. *)
Definition reply_bound (i : input) : Z :=
  match i with
  | Datagram _ _ _ packet => len packet `max` 47
  | FromExit payload => 8 + len payload
  end.

Lemma handled_mono n m r : handled n r → n ≤ m → handled m r.
Proof.
  intros (s & outs & E & Hi & Hl & Ho) Hle. exists s, outs. split_and!; try done.
  eapply Forall_impl; [exact Ho|]. cbv beta. lia.
Qed.

Lemma serve_handled i s : server_inv s → input_ok i → handled (reply_bound i) (serve i s).
Proof.
  intros Hi Hin. destruct i as [now rnd remote packet|payload]; cbn [serve reply_bound].
  - unfold handlePacket. case_match eqn:Hl; [by apply handled_silent|]. rewrite Z.ltb_ge in Hl.
    change headerSize with 8 in *. destruct (slice_rd packet 0) as [ty ->]; [lia|].
    cbn [mbind option_bind].
    case_match; [eapply handled_mono; [by apply handleOpen_handled|lia]|].
    case_match; [eapply handled_mono; [by apply handleEchoReq_handled|lia]|].
    case_match; [by apply handleClose_handled|].
    case_match; [eapply handled_mono; [by apply handleData_handled|lia]|by apply handled_silent].
  - unfold handleExitPacket. destruct (parseIPv4Packet_total payload) as [[e|p] E]; rewrite E;
      cbn [mbind option_bind]; [by apply handled_silent|]. apply parseIPv4Packet_packet in E.
    destruct (outboundForAddress_spec s (p_destination p) Hi) as [[-> _]|(l' & c' & _ & _ & Hids & ->)];
      cbn [mbind option_bind]; [by apply handled_silent|by apply send_data_handled; [|apply Hids|lia]].
Qed.

(** A run of the server. *)
Fixpoint serve_all (inputs : list input) (s : server) : option (server * list output) :=
  match inputs with
  | [] => Some (s, [])
  | i :: inputs =>
      '(s, outs) ← serve i s;
      '(s, outs') ← serve_all inputs s;
      Some (s, outs ++ outs')
  end.

Lemma serve_all_inv inputs s :
  server_inv s → Forall input_ok inputs → ∃ s' outs, serve_all inputs s = Some (s', outs) ∧ server_inv s'.
Proof.
  revert s. induction inputs as [|i inputs IH]; intros s Hi Hin; [by exists s, []|].
  apply Forall_cons in Hin as [Hi1 Hin]. destruct (serve_handled i s Hi Hi1) as (s1 & o1 & E1 & Hs1 & _).
  destruct (IH s1 Hs1 Hin) as (s2 & o2 & E2 & Hs2). cbn [serve_all].
  rewrite E1. cbn [mbind option_bind]. rewrite E2. eauto.
Qed.

(** What the server answers to a client it knows. *)
Definition granted (cfg : normalizedConfig) (request : openRequest) (user : configuredUser)
  (now : Z) (remote : udp_addr) (token sessionID : list Z) : user_session :=
  mk_session (remote, token, sessionID) user remote (r_encrypt request && u_allowEncrypt user)
    (r_mtu request `min` s_mtu cfg) now now.

Definition openack_packet (cfg : normalizedConfig) (c : user_session) : list Z :=
  buildOpenAck (se_key c).1.2 (se_key c).2 (se_mtu c) (u_address (se_user c)) (s_dns cfg) (se_encrypt c).

Lemma handleOpen_granted now remote token sessionID packet request user s :
  server_inv s → parseOpenPacket packet = mret request →
  s_users (sv_config s) !! r_username request = Some user →
  passwordMatches (u_username user) (u_password user) (r_passwordBlock request) = true →
  let c := granted (sv_config s) request user now remote token sessionID in
  ∃ s0,
    handleOpen now (Some (token, sessionID)) remote packet s =
      Some (with_session s0 (remote, token, sessionID) c,
            [WriteToUDP remote (openack_packet (sv_config s) c)]) ∧
    server_inv s0 ∧ sv_config s0 = sv_config s ∧ sv_exit s0 = sv_exit s ∧ sv_heap s0 = sv_heap s ∧
    ∀ k l, sv_sessions s0 !! k = Some l ↔
      sv_sessions s !! k = Some l ∧
      ¬ ∃ c', sv_heap s !! l = Some c' ∧ replaced remote (u_username user) c'.
Proof.
  intros Hi Hp Hu Hm c. unfold handleOpen. rewrite Hp. cbn [mbind option_bind mret res_ret].
  rewrite Hu, Hm. cbn [negb].
  destruct (removeSessions_spec s remote (u_username user) Hi)
    as (s0 & -> & Hi0 & E1 & E2 & E3 & E4 & Hs0). cbn [mbind option_bind].
  assert ((if r_mtu request <? s_mtu (sv_config s) then r_mtu request else s_mtu (sv_config s)) =
          r_mtu request `min` s_mtu (sv_config s)) as ->
    by (destruct (Z.ltb_spec (r_mtu request) (s_mtu (sv_config s))); lia).
  exists s0. split; [|by auto]. unfold openack_packet, c. cbn [granted se_key se_mtu se_user se_encrypt fst snd].
  rewrite <-E1. reflexivity.
Qed.

(** The dispatcher, on each type of packet. *)
Lemma handlePacket_open now rnd remote rest s :
  7 ≤ len rest →
  handlePacket now rnd remote (packetOpen :: rest) s = handleOpen now rnd remote (packetOpen :: rest) s.
Proof.
  intros Hl. unfold handlePacket. rewrite (proj2 (Z.ltb_ge _ _)); [done|].
  rewrite len_cons. change headerSize with 8. lia.
Qed.

Lemma packet_key_go remote ty flag token sessionID rest :
  ids_ok token sessionID →
  packet_key remote (go_header ty flag token sessionID ++ rest) = (remote, token, sessionID).
Proof.
  intros (Ht & Hs & _). unfold packet_key, go_header.
  do 3 (destruct token as [|? token]; try done). by do 5 (destruct sessionID as [|? sessionID]; try done).
Qed.

(** Session packets: the handlers on the packets of a client that has a session. *)
Section session_packets.
Variables (now : Z) (rnd : option (list Z * list Z)) (s : server) (k : session_key) (l : nat)
  (u : user_session).
Hypotheses (Hinv : server_inv s) (Hk : sv_sessions s !! k = Some l) (Hu : sv_heap s !! l = Some u).

Lemma session_facts : session_ok s k l u.
Proof. destruct (si_sessions _ Hinv _ _ Hk) as (u' & Hu' & Hok). congruence. Qed.

Lemma packet_key_header ty flag rest :
  packet_key k.1.1 (go_header ty flag k.1.2 k.2 ++ rest) = k.
Proof.
  rewrite packet_key_go by apply session_facts. by destruct k as [[remote token] sessionID].
Qed.

Lemma len_session_header ty flag : len (go_header ty flag k.1.2 k.2) = 8.
Proof.
  unfold len. rewrite length_go_header; [done|]. apply session_facts.
Qed.

Lemma sessionForPacket_header ty flag rest :
  sessionForPacket now s k.1.1 (go_header ty flag k.1.2 k.2 ++ rest) =
  Some (touched s l (u <| se_lastSeen := now |>), Some (sessionToOutbound u)).
Proof.
  pose proof (len_nonneg rest). unfold sessionForPacket.
  rewrite keyFromPacket_spec by (rewrite len_app, len_session_header; lia).
  rewrite packet_key_header. cbn [mbind option_bind]. by rewrite Hk, Hu.
Qed.

Lemma rd_session_header ty flag rest : rd (go_header ty flag k.1.2 k.2 ++ rest) 0 = Some ty.
Proof. done. Qed.

(** The dispatcher reads the type of a packet with a session header. *)
Lemma handlePacket_header ty flag rest :
  handlePacket now rnd k.1.1 (go_header ty flag k.1.2 k.2 ++ rest) s =
  (let packet := go_header ty flag k.1.2 k.2 ++ rest in
   if ty =? packetOpen then handleOpen now rnd k.1.1 packet s
   else if ty =? packetEchoReq then handleEchoReq now k.1.1 packet s
   else if ty =? packetClose then handleClose k.1.1 packet s
   else if (ty =? packetData) || (ty =? packetDataEnc) then handleData now k.1.1 packet s
   else Some (s, [])).
Proof.
  unfold handlePacket. rewrite (proj2 (Z.ltb_ge _ _)); [done|].
  pose proof (len_nonneg rest). rewrite len_app, len_session_header. change headerSize with 8. lia.
Qed.

Lemma handlePacket_data data :
  data ≠ [] →
  handlePacket now rnd k.1.1
    (buildDataPacket k.1.2 k.2 data (se_encrypt u) (u_xorKey (se_user u))) s =
  route_payload (sessionToOutbound u) data (touched s l (u <| se_lastSeen := now |>)).
Proof.
  intros Hd. rewrite buildDataPacket_layout by apply session_facts.
  assert (0 < len data) as Hl by (destruct data; [done|]; rewrite len_cons; pose proof (len_nonneg data); lia).
  set (body := if se_encrypt u then xor_bytes _ _ else _).
  assert (len body = len data) as Hb by (unfold body, len; destruct (se_encrypt u); by rewrite ?length_xor_bytes).
  rewrite handlePacket_header. cbv zeta.
  assert (∀ ty flag, handleData now k.1.1 (go_header ty flag k.1.2 k.2 ++ body) s =
    (if (ty =? packetDataEnc) && negb (se_encrypt u) || (ty =? packetData) && se_encrypt u
     then Some (touched s l (u <| se_lastSeen := now |>), [])
     else route_payload (sessionToOutbound u)
            (if ty =? packetDataEnc then xorData (u_xorKey (se_user u)) body else body)
            (touched s l (u <| se_lastSeen := now |>)))) as Hhandle.
  { intros ty flag. unfold handleData.
    rewrite len_app, len_session_header, (proj2 (Z.leb_gt _ _)) by (change headerSize with 8; lia).
    rewrite sessionForPacket_header. cbn [mbind option_bind].
    rewrite rd_session_header. cbn [mbind option_bind sessionToOutbound o_encrypt o_xorKey].
    destruct ((ty =? packetDataEnc) && negb (se_encrypt u)); [done|]. cbn [orb].
    destruct ((ty =? packetData) && se_encrypt u); [done|].
    rewrite rd_n_tail by (rewrite ?len_session_header; change headerSize with 8; lia). done. }
  unfold body in *. destruct (se_encrypt u); cbn [Z.eqb Pos.eqb orb packetOpen packetEchoReq
    packetClose packetData packetDataEnc] in *; rewrite Hhandle; cbn [negb andb orb]; [|done].
  by rewrite xorData_xor_bytes, xor_bytes_twice.
Qed.

Lemma handlePacket_echo payload :
  let hdr := go_header packetEchoReq 0 k.1.2 k.2 in
  handlePacket now rnd k.1.1 (hdr ++ signature hdr ++ payload) s =
  Some (touched s l (u <| se_lastSeen := now |>),
        [WriteToUDP k.1.1 (buildEchoResp k.1.2 k.2 payload)]).
Proof.
  intros hdr. unfold hdr at 1. rewrite handlePacket_header. cbn [Z.eqb Pos.eqb packetOpen packetEchoReq].
  unfold handleEchoReq. rewrite verifyPacket_signed by (apply length_go_header, session_facts).
  cbn [negb]. rewrite sessionForPacket_header. cbn [mbind option_bind].
  rewrite (app_assoc (go_header _ _ _ _)).
  assert (len (go_header packetEchoReq 0 k.1.2 k.2 ++ signature hdr) = 24) as Hl
    by (rewrite len_app, len_session_header; unfold len; by rewrite length_signature).
  rewrite rd_n_tail by (rewrite ?len_app, ?Hl; change signedHeader with 24; rewrite ?len_app in Hl; lia).
  cbn [mbind option_bind sessionToOutbound o_remote o_token o_sessionID].
  by rewrite (so_remote _ _ _ _ session_facts), (so_key _ _ _ _ session_facts).
Qed.

Lemma handlePacket_close :
  let hdr := go_header packetClose 0 k.1.2 k.2 in
  handlePacket now rnd k.1.1 (hdr ++ signature hdr) s = Some (without s k u, []) ∧
  server_inv (without s k u).
Proof.
  intros hdr. destruct (removeSessionLocked_spec s k l u Hinv Hk Hu) as [E Hinv'].
  split; [|done]. rewrite <-(app_nil_r (hdr ++ _)), <-app_assoc. unfold hdr at 1.
  rewrite handlePacket_header. cbn [Z.eqb Pos.eqb packetOpen packetEchoReq packetClose].
  unfold handleClose. rewrite verifyPacket_signed by (apply length_go_header, session_facts).
  cbn [negb]. rewrite keyFromPacket_spec
    by (rewrite len_app, len_session_header; pose proof (len_nonneg (signature hdr ++ [])); lia).
  rewrite packet_key_header. cbn [mbind option_bind]. by rewrite Hk, E.
Qed.
End session_packets.

Lemma open_granted cfg user now remote token sessionID s :
  server_inv s → cfg_ok cfg → cfg_valid cfg = true → ids_ok token sessionID →
  s_users (sv_config s) !! c_str (cfg_username cfg) = Some user →
  u_password user = c_str (cfg_password cfg) →
  let c := granted (sv_config s) (client_request cfg) user now remote token sessionID in
  ∃ s' l,
    handlePacket now (Some (token, sessionID)) remote
        (open_header cfg ++ signature (open_header cfg) ++ open_tlvs cfg) s =
      Some (s', [WriteToUDP remote (openack_packet (sv_config s) c)]) ∧
    server_inv s' ∧ sv_sessions s' !! se_key c = Some l ∧ sv_heap s' !! l = Some c ∧
    (∀ k l' c', k ≠ se_key c → sv_heap s !! l' = Some c' →
      sv_sessions s' !! k = Some l' ↔
      sv_sessions s !! k = Some l' ∧ ¬ replaced remote (u_username user) c') ∧
    sv_config s' = sv_config s ∧ sv_heap s' = <[l := c]> (sv_heap s).
Proof.
  intros Hi Hcfg Hv Hids Hu Hpw c.
  pose proof (sc_name _ (si_config _ Hi) _ _ Hu) as Hname.
  destruct (handleOpen_granted now remote token sessionID _ (client_request cfg) user s Hi
    (parseOpenPacket_client cfg Hcfg Hv) Hu) as (s0 & E & Hi0 & E1 & E2 & E3 & Hs0).
  { unfold passwordMatches. rewrite encryptedPassword_client, Hpw, Hname.
    by apply bool_decide_eq_true_2. }
  exists (with_session s0 (se_key c) c), (sv_next s0). split_and!.
  - unfold open_header in *. cbn [app] in *. change PKT_OPEN with packetOpen in *.
    rewrite handlePacket_open; [exact E|]. unfold len. cbn [length]. lia.
  - apply with_session_inv; try done.
    + change (s_users (sv_config s0) !! u_username user = Some user). by rewrite E1, Hname.
    + intros k' l' c' Hk' Hc' Hr. apply Hs0 in Hk' as [_ Hn]. apply Hn. exists c'. by rewrite <-E3.
  - apply lookup_insert_eq.
  - apply lookup_insert_eq.
  - intros k l' c' Hne Hc'. cbn [with_session sv_sessions]. rewrite lookup_insert_ne by done.
    rewrite Hs0. split; intros [H Hn]; (split; [done|]).
    + intros Hr. eauto.
    + intros (c'' & Hc'' & Hr). assert (c'' = c') as -> by congruence. done.
  - exact E1.
  - cbn [with_session sv_heap]. by rewrite E3.
Qed.

(** When no token can be drawn, nothing happens. *)
Lemma open_unlucky cfg user now remote s :
  server_inv s → cfg_ok cfg → cfg_valid cfg = true →
  s_users (sv_config s) !! c_str (cfg_username cfg) = Some user →
  u_password user = c_str (cfg_password cfg) →
  handlePacket now None remote (open_header cfg ++ signature (open_header cfg) ++ open_tlvs cfg) s =
  Some (s, []).
Proof.
  intros Hi Hcfg Hv Hu Hpw. pose proof (sc_name _ (si_config _ Hi) _ _ Hu) as Hname.
  pose proof (parseOpenPacket_client cfg Hcfg Hv) as Hp. unfold open_header in *. cbn [app] in *.
  change PKT_OPEN with packetOpen in *. rewrite handlePacket_open by (unfold len; cbn [length]; lia).
  unfold handleOpen. rewrite Hp. cbn [mbind option_bind mret res_ret client_request r_username].
  rewrite Hu. cbn [r_passwordBlock]. unfold passwordMatches.
  by rewrite encryptedPassword_client, Hpw, Hname, bool_decide_eq_true_2.
Qed.

(** An OPEN packet that no user can have sent. *)
Lemma rejected_open now rnd remote packet s :
  8 ≤ len packet → head packet = Some packetOpen →
  (∀ request user, parseOpenPacket packet = mret request →
    s_users (sv_config s) !! r_username request = Some user →
    r_passwordBlock request ≠ encryptedPassword (u_username user) (u_password user)) →
  handlePacket now rnd remote packet s = Some (s, [WriteToUDP remote buildOpenReject]).
Proof.
  intros Hl Hh Hbad. unfold handlePacket. rewrite (proj2 (Z.ltb_ge _ _)) by done.
  destruct packet as [|ty packet]; [done|]. injection Hh as ->.
  change (rd (packetOpen :: packet) 0) with (Some packetOpen). cbn [mbind option_bind].
  rewrite Z.eqb_refl. unfold handleOpen.
  destruct (parseOpenPacket_total (packetOpen :: packet)) as [[e|request] E]; rewrite E;
    cbn [mbind option_bind]; [done|].
  destruct (s_users (sv_config s) !! r_username request) as [user|] eqn:Hu; [|done].
  unfold passwordMatches. by rewrite bool_decide_eq_false_2 by (by apply Hbad).
Qed.

(** A packet of no session. *)
Lemma foreign_packet now rnd remote packet s :
  head packet ≠ Some packetOpen → sv_sessions s !! packet_key remote packet = None →
  handlePacket now rnd remote packet s = Some (s, []).
Proof.
  intros Hh Hk. unfold handlePacket. case_match eqn:Hl; [done|]. rewrite Z.ltb_ge in Hl.
  change headerSize with 8 in Hl. destruct packet as [|ty packet]; [done|].
  change (rd (ty :: packet) 0) with (Some ty). cbn [mbind option_bind].
  destruct (Z.eqb_spec ty packetOpen) as [->|_]; [done|].
  assert (∀ now', sessionForPacket now' s remote (ty :: packet) = Some (s, None)) as Hnone.
  { intros now'. unfold sessionForPacket. rewrite keyFromPacket_spec by done.
    cbn [mbind option_bind]. by rewrite Hk. }
  unfold handleEchoReq, handleClose, handleData. rewrite !Hnone, keyFromPacket_spec by done.
  cbn [mbind option_bind]. rewrite Hk. by repeat case_match.
Qed.

(** ** The theorems *)

(** From any well-formed configuration, whatever the clients and the exit device send, in
    any order, the server never panics, and the session table stays consistent: every
    session is in both maps, under its own key and its user's address, and no two sessions
    have the same client address or the same user. *)
Theorem server_safe config inputs :
  sconfig_ok config → Forall input_ok inputs →
  ∃ s outs, serve_all inputs (newServer config) = Some (s, outs) ∧ server_inv s.
Proof. intros Hc Hin. apply serve_all_inv; [by apply newServer_inv|done]. Qed.

(** The server grants a session to a client whose configuration has the user name and
    password of one of its users: it answers OPENACK, the session is recorded under the
    token and identifier of the answer, every former session of that client address or user
    is gone, and the other sessions are as they were. *)
Theorem open_accepted cfg user now remote token sessionID s :
  server_inv s → cfg_ok cfg → cfg_valid cfg = true → ids_ok token sessionID →
  s_users (sv_config s) !! c_str (cfg_username cfg) = Some user →
  u_password user = c_str (cfg_password cfg) →
  let c := granted (sv_config s) (client_request cfg) user now remote token sessionID in
  ∃ s' l,
    handlePacket now (Some (token, sessionID)) remote
        (open_header cfg ++ signature (open_header cfg) ++ open_tlvs cfg) s =
      Some (s', [WriteToUDP remote (openack_packet (sv_config s) c)]) ∧
    server_inv s' ∧ sv_sessions s' !! se_key c = Some l ∧ sv_heap s' !! l = Some c ∧
    ∀ k l' c', k ≠ se_key c → sv_heap s !! l' = Some c' →
      sv_sessions s' !! k = Some l' ↔
      sv_sessions s !! k = Some l' ∧ ¬ replaced remote (u_username user) c'.
Proof.
  intros Hi Hcfg Hv Hids Hu Hpw c.
  destruct (open_granted cfg user now remote token sessionID s) as (s' & l & ? & ? & ? & ? & ? & _); eauto 10.
Qed.

(** A request that is not an OPEN packet with a valid signature and well-formed fields,
    names no user, or has the wrong password, is answered with OPENREJ and changes nothing. *)
Theorem open_rejected now rnd remote packet s :
  8 ≤ len packet → head packet = Some packetOpen →
  (∀ request user, parseOpenPacket packet = mret request →
    s_users (sv_config s) !! r_username request = Some user →
    r_passwordBlock request ≠ encryptedPassword (u_username user) (u_password user)) →
  handlePacket now rnd remote packet s = Some (s, [WriteToUDP remote buildOpenReject]).
Proof. by apply rejected_open. Qed.

(** A packet that is not an OPEN and whose address, token and identifier are not those of
    a session has no effect and no answer. *)
Theorem foreign_session now rnd remote packet s :
  head packet ≠ Some packetOpen → sv_sessions s !! packet_key remote packet = None →
  handlePacket now rnd remote packet s = Some (s, []).
Proof. by apply foreign_packet. Qed.

(** C24: bounds.  To any input the server sends at most one packet; to a datagram, never more
    bytes than it received, or 47 when it is an OPENACK, so that a packet from a client that
    fits its 2048-byte buffer is answered by one that does. *)
Theorem reply_bounds i s :
  server_inv s → input_ok i →
  ∃ s' outs, serve i s = Some (s', outs) ∧ server_inv s' ∧ (length outs ≤ 1)%nat ∧
    Forall (λ o, output_len o ≤ reply_bound i) outs.
Proof. apply serve_handled. Qed.

(** ** Witnesses *)

(** A server with two users, and a second address of the same subnet. *)
Definition sample_user : configuredUser :=
  mk_user (c_str (cfg_username sample_cfg)) (c_str (cfg_password sample_cfg)) [10; 0; 0; 2] true
    (deriveXORKey (c_str (cfg_username sample_cfg)) (c_str (cfg_password sample_cfg))).
Definition sample_peer : configuredUser :=
  mk_user [98; 111; 98] [112; 119] [10; 0; 0; 3] true (deriveXORKey [98; 111; 98] [112; 119]).
Definition sample_sconfig : normalizedConfig :=
  mk_sconfig (lit "0.0.0.0:8000") 1400 [[8; 8; 8; 8]; [1; 1; 1; 1]] (mk_exit false [] ([], 0) 0 false)
    (<[u_username sample_user := sample_user]> (<[u_username sample_peer := sample_peer]> ∅)).
Definition sample_remote : udp_addr := (0x0a000001, 40000).

Lemma sample_users name u :
  s_users sample_sconfig !! name = Some u →
  name = u_username sample_user ∧ u = sample_user ∨ name = u_username sample_peer ∧ u = sample_peer.
Proof.
  unfold sample_sconfig. cbn [s_users]. rewrite !lookup_insert_Some, lookup_empty.
  intros [[<- <-]|[_ [[<- <-]|[_ [=]]]]]; auto.
Qed.

Lemma sample_sconfig_ok : sconfig_ok sample_sconfig.
Proof.
  split.
  - intros name u H. by apply sample_users in H as [[-> ->]|[-> ->]].
  - intros n1 n2 u1 u2 H1 H2. apply sample_users in H1 as [[-> ->]|[-> ->]];
      apply sample_users in H2 as [[-> ->]|[-> ->]]; done.
  - intros name u H. apply sample_users in H as [[-> ->]|[-> ->]]; (split; [done|]); by apply byte_list_ok.
  - intros name u H. by apply sample_users in H as [[-> ->]|[-> ->]].
  - repeat constructor; lia.
  - done.
Qed.

Lemma sample_ids_ok : ids_ok [1; 2] [3; 4; 5; 6].
Proof. split_and!; try done; repeat constructor; lia. Qed.

Lemma server_safe_witness :
  ∃ s outs, serve_all
    [Datagram 0 (Some ([1; 2], [3; 4; 5; 6])) sample_remote
       (open_header sample_cfg ++ signature (open_header sample_cfg) ++ open_tlvs sample_cfg);
     FromExit [69; 0]] (newServer sample_sconfig) = Some (s, outs) ∧ server_inv s.
Proof.
  apply (server_safe sample_sconfig).
  - exact sample_sconfig_ok.
  - repeat constructor; exact sample_ids_ok || lia.
Defined.

Lemma open_accepted_witness :
  ∃ s' l,
    handlePacket 0 (Some ([1; 2], [3; 4; 5; 6])) sample_remote
      (open_header sample_cfg ++ signature (open_header sample_cfg) ++ open_tlvs sample_cfg)
      (newServer sample_sconfig) =
    Some (s', [WriteToUDP sample_remote (openack_packet sample_sconfig
      (granted sample_sconfig (client_request sample_cfg) sample_user 0 sample_remote [1; 2] [3; 4; 5; 6]))]) ∧
    sv_sessions s' !! (sample_remote, [1; 2], [3; 4; 5; 6]) = Some l.
Proof.
  destruct (open_accepted sample_cfg sample_user 0 sample_remote [1; 2] [3; 4; 5; 6]
    (newServer sample_sconfig)) as (s' & l & E & _ & Hl & _).
  - exact (newServer_inv _ sample_sconfig_ok).
  - exact sample_cfg_ok.
  - vm_compute. reflexivity.
  - exact sample_ids_ok.
  - vm_compute. reflexivity.
  - reflexivity.
  - exists s', l. exact (conj E Hl).
Defined.

Lemma open_rejected_witness :
  handlePacket 0 (Some ([1; 2], [3; 4; 5; 6])) sample_remote [packetOpen; 0; 0; 0; 0; 0; 0; 0]
    (newServer sample_sconfig) = Some (newServer sample_sconfig, [WriteToUDP sample_remote buildOpenReject]).
Proof.
  apply (open_rejected 0 (Some ([1; 2], [3; 4; 5; 6])) sample_remote [packetOpen; 0; 0; 0; 0; 0; 0; 0]).
  - vm_compute. discriminate.
  - reflexivity.
  - intros request user H. vm_compute in H. discriminate.
Defined.

Lemma foreign_session_witness :
  handlePacket 0 None sample_remote [packetData; 0; 1; 2; 3; 4; 5; 6; 69; 0] (newServer sample_sconfig) =
  Some (newServer sample_sconfig, []).
Proof.
  apply (foreign_session 0 None sample_remote [packetData; 0; 1; 2; 3; 4; 5; 6; 69; 0]).
  - vm_compute. discriminate.
  - reflexivity.
Defined.

Lemma reply_bounds_witness :
  ∃ s' outs, serve (FromExit [69; 0]) (newServer sample_sconfig) = Some (s', outs) ∧ server_inv s' ∧
    (length outs ≤ 1)%nat ∧ Forall (λ o, output_len o ≤ 10) outs.
Proof.
  apply (reply_bounds (FromExit [69; 0])); [exact (newServer_inv _ sample_sconfig_ok)|exact I].
Defined.
