(* ===== verification/Goroutines.v ===== *)
(** The two goroutines of the server of [src/server/server.go] that handle packets: [Serve],
    which reads the UDP socket, and [serveExitDevice], which reads the exit device.

    Each is a program of steps that others may come between: taking the lock [access], a
    section of code under it, which releases it, and a packet sent after the lock has been
    released.  A handler run alone is the function of [Server] ([run_input]); whatever the
    interleaving, the server ends in the state, and each goroutine sends the packets, of the
    inputs handled one at a time in some order ([serialisable]). *)
From stdpp Require Import gmap functions.
From S2P Require Import Prelude Md5 Client Os CMonad Config Packet OpenAck Protocol Server.

(** ** Programs *)

(** What is left of a handler.  A section under the lock has a session to tell, or nothing; it
    fails where the code panics, as does [Panic]. *)
Inductive prog :=
  | Done
  | Panic
  | Locked (section : server → option (server * option outboundSession)) (rest : option outboundSession → prog)
  | Send (o : output) (rest : prog).

Definition send_all (outs : list output) : prog := foldr Send Done outs.

(** Running it alone. *)
Fixpoint run (p : prog) (s : server) : option (server * list output) :=
  match p with
  | Done => Some (s, [])
  | Panic => None
  | Locked section rest => '(s, r) ← section s; run (rest r) s
  | Send o rest => '(s, outs) ← run rest s; Some (s, o :: outs)
  end.

(** ** The handlers

    The configuration and the exit device are set when the server is created.  Whatever
    follows a section, in particular what is sent, is done after the lock is released. *)
Section handlers.
Variables (config : normalizedConfig) (has_exit : bool).

Definition handleOpen_prog (now : Z) (rnd : option (list Z * list Z)) (remote : udp_addr) (packet : list Z) : prog :=
  match parseOpenPacket packet with
  | None => Panic
  | Some (inl _) => Send (WriteToUDP remote buildOpenReject) Done
  | Some (inr request) =>
      match s_users config !! r_username request with
      | None => Send (WriteToUDP remote buildOpenReject) Done
      | Some user =>
          if negb (passwordMatches (u_username user) (u_password user) (r_passwordBlock request))
          then Send (WriteToUDP remote buildOpenReject) Done else
          match rnd with
          | None => Done
          | Some (token, sessionID) =>
              let effectiveMTU := if r_mtu request <? s_mtu config then r_mtu request else s_mtu config in
              let encrypt := r_encrypt request && u_allowEncrypt user in
              let key := (remote, token, sessionID) in
              let nextSession := mk_session key user remote encrypt effectiveMTU now now in
              Locked
                (λ s, s ← removeSessionsForRemoteOrUserLocked s remote (u_username user);
                      let l := sv_next s in
                      Some (s <| sv_heap := <[l := nextSession]> (sv_heap s) |> <| sv_next := S l |>
                              <| sv_sessions := <[key := l]> (sv_sessions s) |>
                              <| sv_byAddress := <[u_address user := l]> (sv_byAddress s) |>, None))
                (λ _, Send (WriteToUDP remote
                   (buildOpenAck token sessionID effectiveMTU (u_address user) (s_dns config) encrypt)) Done)
          end
      end
  end.

(** [sessionForPacket] under the lock; the key it looks up is read from the packet before. *)
Definition sessionForPacket_section (now : Z) (remote : udp_addr) (packet : list Z) (s : server) :=
  sessionForPacket now s remote packet.
(** [outboundForAddress] under the lock. *)
Definition outboundForAddress_section (destination : list Z) (s : server)
  : option (server * option outboundSession) :=
  target ← outboundForAddress s destination; Some (s, target).

Definition handleEchoReq_prog (now : Z) (remote : udp_addr) (packet : list Z) : prog :=
  if negb (verifyPacket packet) then Done else
  Locked (sessionForPacket_section now remote packet) (λ outbound,
    match outbound with
    | None => Done
    | Some o =>
        match rd_n packet signedHeader (len packet - signedHeader) with
        | None => Panic
        | Some payload =>
            Send (WriteToUDP (o_remote o) (buildEchoResp (o_token o) (o_sessionID o) payload)) Done
        end
    end).

Definition handleClose_prog (remote : udp_addr) (packet : list Z) : prog :=
  if negb (verifyPacket packet) then Done else
  match keyFromPacket remote packet with
  | None => Panic
  | Some key =>
      Locked (λ s, match sv_sessions s !! key with
                   | None => Some (s, None)
                   | Some current => s ← removeSessionLocked s current; Some (s, None)
                   end) (λ _, Done)
  end.

Definition route_prog (source : outboundSession) (payload : list Z) : prog :=
  let originalPayload := payload in
  let enabled := s_exit_enabled config in
  match parseIPv4Packet payload with
  | None => Panic
  | Some (inr parsed) =>
      let payload := if enabled then p_packet parsed else payload in
      if enabled && s_strictSource config && negb (bool_decide (p_source parsed = o_address source))
      then Done else
      Locked (outboundForAddress_section (p_destination parsed)) (λ target,
        match target with
        | Some target => send_all (send_data target payload)
        | None =>
            if enabled then if negb has_exit then Done else Send (ExitWrite payload) Done
            else send_all (send_data source originalPayload)
        end)
  | Some (inl _) => if enabled then Done else send_all (send_data source originalPayload)
  end.

Definition handleData_prog (now : Z) (remote : udp_addr) (packet : list Z) : prog :=
  if len packet <=? headerSize then Done else
  Locked (sessionForPacket_section now remote packet) (λ source,
    match source with
    | None => Done
    | Some source =>
        match rd packet 0 with
        | None => Panic
        | Some ty =>
            if (ty =? packetDataEnc) && negb (o_encrypt source) then Done else
            if (ty =? packetData) && o_encrypt source then Done else
            match rd_n packet headerSize (len packet - headerSize) with
            | None => Panic
            | Some payload =>
                route_prog source (if ty =? packetDataEnc then xorData (o_xorKey source) payload else payload)
            end
        end
    end).

Definition handlePacket_prog (now : Z) (rnd : option (list Z * list Z)) (remote : udp_addr) (packet : list Z) : prog :=
  if len packet <? headerSize then Done else
  match rd packet 0 with
  | None => Panic
  | Some ty =>
      if ty =? packetOpen then handleOpen_prog now rnd remote packet
      else if ty =? packetEchoReq then handleEchoReq_prog now remote packet
      else if ty =? packetClose then handleClose_prog remote packet
      else if (ty =? packetData) || (ty =? packetDataEnc) then handleData_prog now remote packet
      else Done
  end.

Definition handleExitPacket_prog (payload : list Z) : prog :=
  match parseIPv4Packet payload with
  | None => Panic
  | Some (inl _) => Done
  | Some (inr parsed) =>
      Locked (outboundForAddress_section (p_destination parsed)) (λ target,
        match target with
        | None => Done
        | Some target => send_all (send_data target (p_packet parsed))
        end)
  end.

Definition input_prog (i : input) : prog :=
  match i with
  | Datagram now rnd remote packet => handlePacket_prog now rnd remote packet
  | FromExit payload => handleExitPacket_prog payload
  end.
End handlers.

(** ** The goroutines *)

Inductive goroutine := Serve | ServeExitDevice.
#[export] Instance goroutine_eq_dec : EqDecision goroutine.
Proof. solve_decision. Defined.

(** The inputs each of them reads. *)
Definition reads_input (g : goroutine) (i : input) : Prop :=
  match g, i with Serve, Datagram _ _ _ _ | ServeExitDevice, FromExit _ => True | _, _ => False end.

(** The server, who holds the lock, what is left of the current handler of each goroutine and
    the inputs it has not read, and what has been sent, by whom. *)
Record threads := mk_threads {
  g_server : server; g_lock : option goroutine; g_run : goroutine → prog * list input;
  g_sent : list (goroutine * output) }.

(** A step of one goroutine: it reads its next input; takes the lock, when nobody has it; goes
    through the section and releases it; or sends a packet. *)
Inductive gstep (G : threads) : threads → Prop :=
  | g_reads g i inputs :
      g_run G g = (Done, i :: inputs) →
      gstep G (mk_threads (g_server G) (g_lock G)
        (<[g := (input_prog (sv_config (g_server G)) (sv_exit (g_server G)) i, inputs)]> (g_run G)) (g_sent G))
  | g_locks g section rest inputs :
      g_run G g = (Locked section rest, inputs) → g_lock G = None →
      gstep G (mk_threads (g_server G) (Some g) (g_run G) (g_sent G))
  | g_unlocks g section rest inputs s r :
      g_run G g = (Locked section rest, inputs) → g_lock G = Some g → section (g_server G) = Some (s, r) →
      gstep G (mk_threads s None (<[g := (rest r, inputs)]> (g_run G)) (g_sent G))
  | g_sends g o rest inputs :
      g_run G g = (Send o rest, inputs) →
      gstep G (mk_threads (g_server G) (g_lock G) (<[g := (rest, inputs)]> (g_run G)) (g_sent G ++ [(g, o)])).

Definition g_start (s : server) (inputs : goroutine → list input) : threads :=
  mk_threads s None (λ g, (Done, inputs g)) [].

(** What one goroutine read or sent. *)
Definition of_goroutine {A} (g : goroutine) (l : list (goroutine * A)) : list A :=
  omap (λ x, if decide (x.1 = g) then Some x.2 else None) l.

(** The inputs one at a time, in the order of [h]. *)
Fixpoint serve_in_order (h : list (goroutine * input)) (s : server)
    : option (server * list (goroutine * output)) :=
  match h with
  | [] => Some (s, [])
  | (g, i) :: h =>
      '(s, outs) ← serve i s;
      '(s, outs') ← serve_in_order h s;
      Some (s, (pair g <$> outs) ++ outs')
  end.

(** * Properties *)

(** ** A handler alone *)

Lemma run_send_all outs s : run (send_all outs) s = Some (s, outs).
Proof. induction outs as [|o outs IH]; [done|]. cbn [send_all foldr run]. by fold (send_all outs); rewrite IH. Qed.

Lemma run_route config source payload s :
  sv_config s = config → run (route_prog config (sv_exit s) source payload) s = route_payload source payload s.
Proof.
  intros <-. unfold route_prog, route_payload. destruct (parseIPv4Packet payload) as [[e|parsed]|]; cbn [mbind option_bind]; [| |done].
  - destruct (s_exit_enabled (sv_config s)); [done|apply run_send_all].
  - destruct (_ && _ && _); [done|]. cbn [run]. unfold outboundForAddress_section.
    destruct (outboundForAddress s _) as [[target|]|]; cbn [mbind option_bind]; [apply run_send_all| |done].
    destruct (s_exit_enabled (sv_config s)); [by destruct (sv_exit s)|apply run_send_all].
Qed.

Lemma run_input i s : server_inv s → run (input_prog (sv_config s) (sv_exit s) i) s = serve i s.
Proof.
  intros Hi. destruct i as [now rnd remote packet|payload]; cbn [input_prog serve].
  - unfold handlePacket_prog, handlePacket. destruct (_ <? _); [done|].
    destruct (rd packet 0) as [ty|] eqn:Hty; cbn [mbind option_bind]; [|done].
    destruct (ty =? packetOpen).
    { unfold handleOpen_prog, handleOpen. destruct (parseOpenPacket packet) as [[e|request]|]; cbn [mbind option_bind]; [done| |done].
      destruct (s_users _ !! _) as [user|]; [|done]. destruct (negb _); [done|].
      destruct rnd as [[token sessionID]|]; [|done]. cbn [run].
      destruct (removeSessions_spec s remote (u_username user) Hi) as (s' & E & _ & Ec & _).
      rewrite E. cbn [mbind option_bind]. by rewrite <-Ec. }
    destruct (ty =? packetEchoReq).
    { unfold handleEchoReq_prog, handleEchoReq. destruct (negb _); [done|]. cbn [run].
      unfold sessionForPacket_section. destruct (sessionForPacket _ _ _ _) as [[s' [o|]]|]; cbn [mbind option_bind]; [|done..].
      by destruct (rd_n _ _ _). }
    destruct (ty =? packetClose).
    { unfold handleClose_prog, handleClose. destruct (negb _); [done|].
      destruct (keyFromPacket _ _) as [key|]; cbn [mbind option_bind run]; [|done].
      destruct (sv_sessions s !! key) as [l|]; [|done]. by destruct (removeSessionLocked s l). }
    destruct (_ || _); [|done]. unfold handleData_prog, handleData. destruct (_ <=? _); [done|].
    cbn [run]. unfold sessionForPacket_section.
    destruct (sessionForPacket now s remote packet) as [[s' [o|]]|] eqn:E; cbn [mbind option_bind]; [|done..].
    rewrite Hty. cbn [mbind option_bind].
    destruct (_ && _); [done|]. destruct (_ && _); [done|].
    destruct (rd_n _ _ _) as [payload|]; cbn [mbind option_bind]; [|done].
    assert (sv_config s' = sv_config s ∧ sv_exit s' = sv_exit s) as [Ec Ex].
    { unfold sessionForPacket in E. destruct (keyFromPacket _ _); [|done]. cbn [mbind option_bind] in E.
      destruct (sv_sessions s !! _); [|by injection E as <-]. destruct (sv_heap s !! _); [|done].
      by injection E as <- _. }
    rewrite <-Ex. by apply run_route.
  - unfold handleExitPacket_prog, handleExitPacket.
    destruct (parseIPv4Packet payload) as [[e|parsed]|]; cbn [mbind option_bind]; [done| |done].
    cbn [run]. unfold outboundForAddress_section.
    destruct (outboundForAddress s _) as [[target|]|]; cbn [mbind option_bind]; [apply run_send_all|done..].
Qed.

(** ** What can come between the steps of a handler *)

(** A section that only looks at the server. *)
Definition looks (section : server → option (server * option outboundSession)) : Prop :=
  ∀ s s' r, section s = Some (s', r) → s' = s.

(** A program that does not change the server. *)
Inductive reader : prog → Prop :=
  | reader_done : reader Done
  | reader_panic : reader Panic
  | reader_send o rest : reader rest → reader (Send o rest)
  | reader_locked section rest : looks section → (∀ r, reader (rest r)) → reader (Locked section rest).

(** A program that only sends. *)
Inductive sender : prog → list output → Prop :=
  | sender_done : sender Done []
  | sender_send o rest outs : sender rest outs → sender (Send o rest) (o :: outs).

#[local] Hint Constructors reader sender : core.

Lemma sender_run p outs s : sender p outs → run p s = Some (s, outs).
Proof. induction 1 as [|o rest outs _ IH]; [done|]. cbn [run]. by rewrite IH. Qed.

Lemma reader_run p s s' outs : reader p → run p s = Some (s', outs) → s' = s.
Proof.
  intros Hp. revert s s' outs. induction Hp as [| |o rest _ IH|section rest Hl _ IH]; intros s s' outs; cbn [run].
  - by intros [= <- _].
  - done.
  - destruct (run rest s) as [[s1 outs1]|] eqn:E; [|done]. intros [= <- _]. by eapply IH.
  - destruct (section s) as [[s1 r]|] eqn:E; [|done]. apply Hl in E as ->. apply IH.
Qed.

Lemma send_all_sender outs : sender (send_all outs) outs.
Proof. induction outs; cbn; auto. Qed.
Lemma send_all_reader outs : reader (send_all outs).
Proof. induction outs; cbn; auto. Qed.
#[local] Hint Resolve send_all_sender send_all_reader : core.

Lemma looks_outboundForAddress destination : looks (outboundForAddress_section destination).
Proof.
  intros s s' r. unfold outboundForAddress_section.
  destruct (outboundForAddress s destination); cbn [mbind option_bind]; [by intros [= <- _]|done].
Qed.
#[local] Hint Resolve looks_outboundForAddress : core.

(** The handlers of the socket change the server in their first section, if at all. *)
Inductive first_section : prog → Prop :=
  | first_none p : reader p → first_section p
  | first_locked section rest : (∀ r, reader (rest r)) → first_section (Locked section rest).
#[local] Hint Constructors first_section : core.

Lemma route_reader config has_exit source payload : reader (route_prog config has_exit source payload).
Proof.
  unfold route_prog. destruct (parseIPv4Packet payload) as [[e|parsed]|]; [..|auto].
  - destruct (s_exit_enabled _); auto.
  - destruct (_ && _ && _); [auto|]. constructor; [auto|]. intros [target|]; [auto|].
    destruct (s_exit_enabled _); [destruct (negb has_exit)|]; auto.
Qed.

Lemma socket_input config has_exit now rnd remote packet :
  first_section (input_prog config has_exit (Datagram now rnd remote packet)).
Proof.
  cbn [input_prog]. unfold handlePacket_prog. destruct (_ <? _); [auto|].
  destruct (rd packet 0) as [ty|] eqn:Hty; [|auto].
  destruct (ty =? packetOpen).
  { unfold handleOpen_prog. destruct (parseOpenPacket packet) as [[e|request]|]; [auto| |auto].
    destruct (s_users _ !! _) as [user|]; [|auto]. destruct (negb _); [auto|].
    destruct rnd as [[token sessionID]|]; auto. }
  destruct (ty =? packetEchoReq).
  { unfold handleEchoReq_prog. destruct (negb _); [auto|]. apply first_locked. intros [o|]; [|auto].
    destruct (rd_n _ _ _); auto. }
  destruct (ty =? packetClose).
  { unfold handleClose_prog. destruct (negb _); [auto|]. destruct (keyFromPacket _ _); auto. }
  destruct (_ || _); [|auto]. unfold handleData_prog. destruct (_ <=? _); [auto|].
  apply first_locked. intros [source|]; [|auto]. rewrite Hty.
  destruct (_ && _); [auto|]. destruct (_ && _); [auto|]. destruct (rd_n _ _ _); [|auto]. apply route_reader.
Qed.

(** The handler of the exit device looks at the server once, and sends. *)
Lemma device_input config has_exit payload :
  let p := input_prog config has_exit (FromExit payload) in
  p = Done ∨ ∃ section rest, p = Locked section rest ∧ looks section ∧ ∀ r, ∃ outs, sender (rest r) outs.
Proof.
  cbn [input_prog]. unfold handleExitPacket_prog.
  destruct (parseIPv4Packet_total payload) as [[e|parsed] E]; rewrite E; [by left|]. right.
  eexists _, _. split; [done|]. split; [auto|]. intros [target|]; eauto.
Qed.

(** ** The inputs in some order *)

(** How far a goroutine is with its current handler: it has not entered its first section;
    or it has, and what is left sends [outs]. *)
Inductive progress (s : server) : goroutine → prog → list input → list output → Prop :=
  | not_entered g i section rest :
      reads_input g i → input_ok i → input_prog (sv_config s) (sv_exit s) i = Locked section rest →
      progress s g (Locked section rest) [i] []
  | left_to_serve p outs : reader p → run p s = Some (s, outs) → progress s Serve p [] outs
  | left_to_device p outs : sender p outs → progress s ServeExitDevice p [] outs.

Definition inputs_ok (g : goroutine) (inputs : list input) : Prop :=
  Forall (λ i, reads_input g i ∧ input_ok i) inputs.

(** The threads have done what the inputs of [h], one at a time, would have done, except for
    the packets not sent yet. *)
Record serialised (s0 : server) (inputs : goroutine → list input) (G : threads)
    (h : list (goroutine * input)) (outs : list (goroutine * output)) : Prop := {
  se_run : serve_in_order h s0 = Some (g_server G, outs);
  se_inv : server_inv (g_server G);
  se_holder g : g_lock G = Some g → ∃ section rest, (g_run G g).1 = Locked section rest;
  se_progress g : ∃ fresh pending, progress (g_server G) g (g_run G g).1 fresh pending ∧
    inputs g = of_goroutine g h ++ fresh ++ (g_run G g).2 ∧
    of_goroutine g outs = of_goroutine g (g_sent G) ++ pending ∧ inputs_ok g (g_run G g).2
}.

Lemma of_goroutine_app {A} g (l l' : list (goroutine * A)) :
  of_goroutine g (l ++ l') = of_goroutine g l ++ of_goroutine g l'.
Proof. apply omap_app. Qed.
Lemma of_goroutine_self {A} g (l : list A) : of_goroutine g (pair g <$> l) = l.
Proof. induction l as [|x l IH]; [done|]. unfold of_goroutine in *. cbn. rewrite decide_True by done. by f_equal. Qed.
Lemma of_goroutine_other {A} g g' (l : list A) : g ≠ g' → of_goroutine g (pair g' <$> l) = [].
Proof.
  intros Hg. induction l as [|x l IH]; [done|]. unfold of_goroutine in *. cbn. by rewrite decide_False by congruence.
Qed.
Lemma of_goroutine_one {A} g (x : A) : of_goroutine g [(g, x)] = [x].
Proof. exact (of_goroutine_self g [x]). Qed.
Lemma of_goroutine_one_other {A} g g' (x : A) : g ≠ g' → of_goroutine g [(g', x)] = [].
Proof. exact (of_goroutine_other g g' [x]). Qed.

Lemma serve_in_order_app h h' s :
  serve_in_order (h ++ h') s =
    '(s1, outs) ← serve_in_order h s; '(s2, outs') ← serve_in_order h' s1; Some (s2, outs ++ outs').
Proof.
  revert s. induction h as [|[g i] h IH]; intros s; cbn [app serve_in_order].
  - cbn. by destruct (serve_in_order h' s) as [[? ?]|].
  - destruct (serve i s) as [[s1 o1]|]; cbn [mbind option_bind]; [|done]. rewrite IH.
    destruct (serve_in_order h s1) as [[s2 o2]|]; cbn [mbind option_bind]; [|done].
    destruct (serve_in_order h' s2) as [[s3 o3]|]; cbn [mbind option_bind]; [|done]. by rewrite app_assoc.
Qed.

Lemma serve_in_order_snoc h s s1 outs g i s2 o :
  serve_in_order h s = Some (s1, outs) → serve i s1 = Some (s2, o) →
  serve_in_order (h ++ [(g, i)]) s = Some (s2, outs ++ (pair g <$> o)).
Proof.
  intros E1 E2. rewrite serve_in_order_app, E1. cbn [mbind option_bind serve_in_order].
  rewrite E2. cbn. by rewrite app_nil_r.
Qed.

(** What a goroutine has left is not changed by the other's sections. *)
Lemma progress_device s s' p fresh pending :
  progress s ServeExitDevice p fresh pending → progress s' ServeExitDevice p fresh pending.
Proof.
  inversion 1 as [g i section rest Hg Hi E| |]; subst; [|by constructor].
  destruct i; [done|]. by eapply not_entered.
Qed.

(** A handler that starts without a section has nothing to tell the server. *)
Lemma progress_starts s g i :
  server_inv s → reads_input g i → input_ok i → let p := input_prog (sv_config s) (sv_exit s) i in
  progress s g p [i] [] ∨ ∃ outs, serve i s = Some (s, outs) ∧ progress s g p [] outs.
Proof.
  intros Hs Hg Hi p. pose proof (run_input i s Hs) as Hrun. fold p in Hrun.
  destruct (serve_handled i s Hs Hi) as (s' & outs & E & _).
  destruct g, i as [now rnd remote packet|payload]; try done.
  - pose proof (socket_input (sv_config s) (sv_exit s) now rnd remote packet) as Hp. fold p in Hp.
    destruct p as [| |section rest|o rest] eqn:Ep; [right..|by left; eapply not_entered|right].
    all: inversion Hp as [q Hq|]; subst q; rewrite E in Hrun.
    all: pose proof (reader_run _ _ _ _ Hq Hrun) as ->; exists outs; split; [done|by constructor].
  - destruct (device_input (sv_config s) (sv_exit s) payload) as [Ep|(section & rest & Ep & _)]; fold p in Ep.
    + right. rewrite Ep in *. exists []. split; [by rewrite <-Hrun|]. constructor. auto.
    + left. rewrite Ep. by eapply not_entered.
Qed.

(** A section: the input is handled, or was already. *)
Lemma progress_section s g section rest fresh pending s' r :
  server_inv s → progress s g (Locked section rest) fresh pending → section s = Some (s', r) →
  (fresh = [] ∧ s' = s ∧ progress s g (rest r) [] pending) ∨
  ∃ i outs, fresh = [i] ∧ pending = [] ∧ serve i s = Some (s', outs) ∧ server_inv s' ∧
    progress s' g (rest r) [] outs ∧ (g = ServeExitDevice → s' = s).
Proof.
  intros Hs Hp Hsec. inversion Hp as [g' i section' rest' Hg Hi E|p outs Hr Hrun|p outs Hsend]; subst.
  - right. pose proof (run_input i s Hs) as Hrun. rewrite E in Hrun. cbn [run] in Hrun. rewrite Hsec in Hrun.
    cbn [mbind option_bind] in Hrun.
    destruct (serve_handled i s Hs Hi) as (s2 & outs & E2 & Hs2 & _). rewrite E2 in Hrun.
    destruct g, i as [now rnd remote packet|payload]; try done.
    + pose proof (socket_input (sv_config s) (sv_exit s) now rnd remote packet) as Hp'. rewrite E in Hp'.
      assert (reader (rest r)) as Hrest.
      { inversion Hp' as [q Hq|section' rest' Hq]; subst; [|apply Hq]. by inversion Hq. }
      pose proof (reader_run _ _ _ _ Hrest Hrun) as ->. exists (Datagram now rnd remote packet), outs. split_and!; try done. by constructor.
    + destruct (device_input (sv_config s) (sv_exit s) payload) as [Ep|(section' & rest' & Ep & Hl & Hsend)];
        rewrite E in Ep; [done|]. injection Ep as <- <-.
      destruct (Hsend r) as [outs' Ho]. rewrite (sender_run _ _ _ Ho) in Hrun. injection Hrun as <- <-.
      pose proof (Hl _ _ _ Hsec) as ->. exists (FromExit payload), outs'. split_and!; try done. by constructor.
  - left. inversion Hr as [| | |? ? Hl Hrest]; subst. pose proof (Hl _ _ _ Hsec) as ->.
    split_and!; try done. constructor; [done|]. cbn [run] in Hrun. by rewrite Hsec in Hrun.
  - inversion Hsend.
Qed.

Lemma progress_send s g o rest fresh pending :
  progress s g (Send o rest) fresh pending →
  fresh = [] ∧ ∃ pending', pending = o :: pending' ∧ progress s g rest [] pending'.
Proof.
  inversion 1 as [|p outs Hr Hrun|p outs Hsend]; subst; (split; [done|]).
  - cbn [run] in Hrun. destruct (run rest s) as [[s1 outs1]|] eqn:E; [|done]. injection Hrun as -> <-.
    exists outs1. split; [done|]. constructor; [by inversion Hr|done].
  - inversion Hsend; subst. eexists. split; [done|]. by constructor.
Qed.

Lemma progress_done s g fresh pending : progress s g Done fresh pending → fresh = [] ∧ pending = [].
Proof.
  inversion 1 as [|p outs Hr Hrun|p outs Hsend]; subst; (split; [done|]).
  - by injection Hrun.
  - by inversion Hsend.
Qed.

Section serialised.
Variables (s0 : server) (inputs : goroutine → list input).
#[local] Abbreviation serialised := (serialised s0 inputs).

(** A goroutine goes on with what it has left, the other is where it was. *)
Lemma serialised_moved G h outs g p inputs' s' lock sent ih io :
  serialised G h outs →
  let G' := mk_threads s' lock (<[g := (p, inputs')]> (g_run G)) (g_sent G ++ (pair g <$> sent)) in
  (s' = g_server G ∨ g = Serve) → server_inv s' →
  serve_in_order (h ++ (pair g <$> ih)) s0 = Some (s', outs ++ (pair g <$> io)) →
  (∀ g', lock = Some g' → ∃ section rest, (g_run G' g').1 = Locked section rest) →
  (∃ fresh pending, progress s' g p fresh pending ∧
    inputs g = of_goroutine g h ++ ih ++ fresh ++ inputs' ∧
    of_goroutine g outs ++ io = of_goroutine g (g_sent G) ++ sent ++ pending ∧ inputs_ok g inputs') →
  serialised G' (h ++ (pair g <$> ih)) (outs ++ (pair g <$> io)).
Proof.
  intros Hser G' Hs Hi Hrun Hlock (fresh & pending & Hp & Hin & Hout & Hok). split; [done..|].
  intros g'. cbn [g_run g_server g_sent G']. rewrite !of_goroutine_app. destruct (decide (g' = g)) as [->|Hne].
  - rewrite fn_lookup_insert, !of_goroutine_self. exists fresh, pending. rewrite <-!app_assoc. by split_and!.
  - rewrite fn_lookup_insert_ne, !of_goroutine_other, !app_nil_r by done.
    destruct (se_progress _ _ _ _ _ Hser g') as (fresh' & pending' & Hp' & ? & ? & ?). exists fresh', pending'.
    split_and!; try done. destruct Hs as [->| ->]; [done|]. destruct g'; [done|]. by eapply progress_device.
Qed.

Lemma gstep_serialised G G' h outs :
  serialised G h outs → gstep G G' → ∃ h' outs', serialised G' h' outs'.
Proof.
  intros Hser Hstep. pose proof (se_inv _ _ _ _ _ Hser) as Hi. pose proof (se_run _ _ _ _ _ Hser) as Hrun.
  destruct Hstep as [g i inputs' E|g section rest inputs' E El|g section rest inputs' s r E El Hsec|g o rest inputs' E].
  - destruct (se_progress _ _ _ _ _ Hser g) as (fresh & pending & Hp & Hin & Hout & Hok).
    rewrite E in Hp, Hin, Hok. cbn [fst snd] in *. apply progress_done in Hp as [-> ->].
    unfold inputs_ok in Hok. rewrite Forall_cons in Hok. destruct Hok as [[Hg Hio] Hok].
    assert (∀ g', g_lock G = Some g' → g' ≠ g) as Hother.
    { intros g' Hl ->. destruct (se_holder _ _ _ _ _ Hser _ Hl) as (section & rest & E'). by rewrite E in E'. }
    assert (∀ p' g', g_lock G = Some g' → ∃ section rest,
      ((<[g := (p', inputs')]> (g_run G) : goroutine → prog * list input) g').1 = Locked section rest) as Hlock.
    { intros p' g' Hl. rewrite fn_lookup_insert_ne by (symmetry; by apply Hother). by apply (se_holder _ _ _ _ _ Hser). }
    destruct (progress_starts (g_server G) g i Hi Hg Hio) as [Hp|(io & Es & Hp)].
    + eexists _, _. rewrite <-(app_nil_r (g_sent G)).
      eapply (serialised_moved G h outs g _ inputs' _ _ [] [] []); [done|by left|done|by rewrite !app_nil_r|apply Hlock|].
      eexists _, _. split; [exact Hp|]. cbn [app] in *. by rewrite ?app_nil_r in *.
    + eexists _, _. rewrite <-(app_nil_r (g_sent G)).
      eapply (serialised_moved G h outs g _ inputs' _ _ [] [i] io); [done|by left|done| |apply Hlock|].
      { by eapply serve_in_order_snoc. }
      eexists _, _. split; [exact Hp|]. cbn [app] in *. rewrite app_nil_r in Hout. by rewrite Hout.
  - exists h, outs. split; [done|done| |apply (se_progress _ _ _ _ _ Hser)].
    cbn [g_lock]. intros g' [= <-]. exists section, rest. cbn [g_run]. by rewrite E.
  - destruct (se_progress _ _ _ _ _ Hser g) as (fresh & pending & Hp & Hin & Hout & Hok).
    rewrite E in Hp, Hin, Hok. cbn [fst snd] in *.
    destruct (progress_section _ _ _ _ _ _ _ _ Hi Hp Hsec)
      as [(-> & -> & Hp')|(i & io & -> & -> & Es & Hs' & Hp' & Hdev)].
    + eexists _, _. rewrite <-(app_nil_r (g_sent G)).
      eapply (serialised_moved G h outs g _ inputs' _ _ [] [] []); [done|by left|done|by rewrite !app_nil_r|done|].
      eexists _, _. split; [exact Hp'|]. cbn [app] in *. by rewrite ?app_nil_r in *.
    + eexists _, _. rewrite <-(app_nil_r (g_sent G)).
      eapply (serialised_moved G h outs g _ inputs' _ _ [] [i] io); [done| |done| |done|].
      { destruct g; [by right|left; by apply Hdev]. }
      { by eapply serve_in_order_snoc. }
      eexists _, _. split; [exact Hp'|]. cbn [app] in *. rewrite app_nil_r in Hout. by rewrite Hout.
  - destruct (se_progress _ _ _ _ _ Hser g) as (fresh & pending & Hp & Hin & Hout & Hok).
    rewrite E in Hp, Hin, Hok. cbn [fst snd] in *. apply progress_send in Hp as (-> & pending' & -> & Hp).
    eexists _, _. eapply (serialised_moved G h outs g _ inputs' _ _ [o] [] []); [done|by left|done|by rewrite !app_nil_r| |].
    + intros g' Hl. cbn [g_run]. rewrite fn_lookup_insert_ne; [by apply (se_holder _ _ _ _ _ Hser)|].
      intros ->. destruct (se_holder _ _ _ _ _ Hser _ Hl) as (section & rest' & E'). by rewrite E in E'.
    + eexists _, _. split; [exact Hp|]. cbn [app] in *. by rewrite ?app_nil_r in *.
Qed.

Hypothesis (Hs0 : server_inv s0) (Hinputs : ∀ g, inputs_ok g (inputs g)).

Lemma start_serialised : serialised (g_start s0 inputs) [] [].
Proof.
  split; [done|done|done|]. intros g. exists [], []. split_and!; [|done|done|apply Hinputs].
  destruct g; constructor; auto.
Qed.

Lemma reachable_serialised G : rtc gstep (g_start s0 inputs) G → ∃ h outs, serialised G h outs.
Proof.
  intros Hsteps. assert (∃ h outs, serialised (g_start s0 inputs) h outs) as Hinv by (eexists _, _; apply start_serialised).
  revert Hinv. induction Hsteps as [G|G G1 G2 Hstep _ IH]; [done|]. intros (h & outs & Hser).
  eapply IH, gstep_serialised; done.
Qed.
End serialised.

(** Both have read all their inputs and handled them. *)
Definition finished (G : threads) : Prop := ∀ g, g_run G g = (Done, []).

(** ** Neither panics, and neither waits for ever *)

Lemma serialised_moves s0 inputs G h outs :
  serialised s0 inputs G h outs → finished G ∨ ∃ G', gstep G G'.
Proof.
  intros Hser. pose proof (se_inv _ _ _ _ _ Hser) as Hi.
  assert (∀ g section rest, (g_run G g).1 = Locked section rest → is_Some (section (g_server G))) as Hsec.
  { intros g section rest E. destruct (se_progress _ _ _ _ _ Hser g) as (fresh & pending & Hp & _). rewrite E in Hp.
    assert (is_Some (run (Locked section rest) (g_server G))) as [x Hx].
    { inversion Hp as [g' i ? ? Hg Hio Ei|? ? Hr Hrun|? ? Hsend]; subst; [|by eexists|inversion Hsend].
      rewrite <-Ei, run_input by done. destruct (serve_handled i _ Hi Hio) as (? & ? & -> & _). by eexists. }
    cbn [run] in Hx. destruct (section (g_server G)) as [x'|]; [by exists x'|done]. }
  destruct (g_lock G) as [g|] eqn:El.
  { right. destruct (se_holder _ _ _ _ _ Hser g El) as (section & rest & E).
    destruct (Hsec g section rest E) as [[s r] Es]. destruct (g_run G g) as [p inputs'] eqn:Eg. cbn in E. subst p.
    eexists. by eapply g_unlocks. }
  assert (∀ g, g_run G g = (Done, []) ∨ ∃ G', gstep G G') as Hg.
  { intros g. destruct (se_progress _ _ _ _ _ Hser g) as (fresh & pending & Hp & _).
    destruct (g_run G g) as [[| |section rest|o rest] inputs'] eqn:Eg; cbn [fst] in Hp.
    - destruct inputs' as [|i inputs']; [by left|right; eexists; by eapply g_reads].
    - exfalso. inversion Hp as [|? ? ? Hrun|? ? Hsend]; subst; [done|inversion Hsend].
    - right. eexists. by eapply g_locks.
    - right. eexists. by eapply g_sends. }
  destruct (Hg Serve) as [E1|?]; [|by right]. destruct (Hg ServeExitDevice) as [E2|?]; [|by right].
  left. by intros [].
Qed.

(** The steps a program can still take. *)
Inductive depth : prog → nat → Prop :=
  | depth_done n : depth Done n
  | depth_panic n : depth Panic n
  | depth_send o rest n : depth rest n → depth (Send o rest) (S n)
  | depth_locked section rest n : (∀ r, depth (rest r) n) → depth (Locked section rest) (S (S n)).
#[local] Hint Constructors depth : core.

Lemma depth_send_data o payload n : depth (send_all (send_data o payload)) (S n).
Proof. repeat constructor. Qed.
#[local] Hint Resolve depth_send_data : core.

Lemma depth_route config has_exit source payload : depth (route_prog config has_exit source payload) 3.
Proof.
  unfold route_prog. destruct (parseIPv4Packet payload) as [[e|parsed]|]; [..|auto].
  - destruct (s_exit_enabled _); auto.
  - destruct (_ && _ && _); [auto|]. constructor. intros [target|]; [auto|].
    destruct (s_exit_enabled _); [destruct (negb has_exit)|]; auto.
Qed.

Lemma depth_input config has_exit i : depth (input_prog config has_exit i) 5.
Proof.
  destruct i as [now rnd remote packet|payload]; cbn [input_prog].
  - unfold handlePacket_prog. destruct (_ <? _); [auto|]. destruct (rd packet 0) as [ty|] eqn:Hty; [|auto].
    destruct (ty =? packetOpen).
    { unfold handleOpen_prog. destruct (parseOpenPacket packet) as [[e|request]|]; [auto| |auto].
      destruct (s_users _ !! _) as [user|]; [|auto]. destruct (negb _); [auto|].
      destruct rnd as [[token sessionID]|]; auto. }
    destruct (ty =? packetEchoReq).
    { unfold handleEchoReq_prog. destruct (negb _); [auto|]. constructor. intros [o|]; [|auto].
      destruct (rd_n _ _ _); auto. }
    destruct (ty =? packetClose).
    { unfold handleClose_prog. destruct (negb _); [auto|]. destruct (keyFromPacket _ _); auto. }
    destruct (_ || _); [|auto]. unfold handleData_prog. destruct (_ <=? _); [auto|].
    constructor. intros [source|]; [|auto]. rewrite Hty.
    destruct (_ && _); [auto|]. destruct (_ && _); [auto|]. destruct (rd_n _ _ _); [|auto]. apply depth_route.
  - unfold handleExitPacket_prog. destruct (parseIPv4Packet payload) as [[e|parsed]|]; [auto| |auto].
    constructor. intros [target|]; auto.
Qed.

Definition held (G : threads) : nat := match g_lock G with Some _ => 1 | None => 0 end.

(** At most [n] steps are left. *)
Definition within (G : threads) (n : nat) : Prop :=
  (∀ g, g_lock G = Some g → ∃ section rest, (g_run G g).1 = Locked section rest) ∧
  ∃ d : goroutine → nat, (∀ g, depth (g_run G g).1 (d g)) ∧
    (d Serve + 6 * length (g_run G Serve).2 + (d ServeExitDevice + 6 * length (g_run G ServeExitDevice).2)
      ≤ n + held G)%nat.

Lemma within_step G G' n : within G n → gstep G G' → ∃ m, n = S m ∧ within G' m.
Proof.
  intros [Hlock (d & Hd & Hn)] Hstep.
  assert (∀ g p, (∀ section rest, (g_run G g).1 ≠ Locked section rest) → ∀ g', g_lock G = Some g' →
    ∃ section rest, ((<[g := p]> (g_run G) : goroutine → prog * list input) g').1 = Locked section rest) as Hkeep.
  { intros g p Hne g' Hl. destruct (Hlock g' Hl) as (section & rest & E').
    rewrite fn_lookup_insert_ne by (intros ->; by eapply Hne). by eexists _, _. }
  assert (∀ g p k inputs', depth p k → ∀ g', depth ((<[g := (p, inputs')]> (g_run G) : goroutine → prog * list input) g').1
    ((<[g := k]> d : goroutine → nat) g')) as Hdepth.
  { intros g p k inputs' Hk g'. destruct (decide (g' = g)) as [->|Hne]; [by rewrite !fn_lookup_insert|].
    by rewrite !fn_lookup_insert_ne. }
  assert (∀ g, (∀ section rest, (g_run G g).1 ≠ Locked section rest) →
    (0 < d g + 6 * length (g_run G g).2)%nat → ∃ m, n = S m) as Hpos.
  { intros g Hne Hpos. destruct n as [|m]; [exfalso|by exists m]. unfold held in Hn.
    destruct (g_lock G) as [g'|] eqn:El; [|destruct g; lia].
    destruct (Hlock g' eq_refl) as (section & rest & E'). pose proof (Hd g') as Hg'. rewrite E' in Hg'.
    inversion Hg'; subst. destruct g, g'; try (by edestruct Hne); lia. }
  destruct Hstep as [g i inputs' E|g section rest inputs' E El|g section rest inputs' s r E El Hsec|g o rest inputs' E];
    pose proof (Hd g) as Hg; rewrite E in Hg; cbn [fst] in Hg.
  - destruct (Hpos g) as [m ->]; [by rewrite E|rewrite E; cbn [snd length]; lia|]. exists m. split; [done|split].
    + apply Hkeep. by rewrite E.
    + exists (<[g := 5%nat]> d). split; [apply Hdepth, depth_input|].
      destruct g; cbn [g_run]; rewrite ?fn_lookup_insert, ?fn_lookup_insert_ne by done;
        rewrite E in Hn; unfold held in *; cbn [g_lock snd length] in *; lia.
  - inversion Hg; subst. unfold held in Hn. rewrite El in Hn.
    destruct n as [|m]; [exfalso; destruct g; lia|exists m; split; [done|split]].
    + cbn [g_lock g_run]. intros g' [= <-]. rewrite E. by eexists _, _.
    + exists d. split; [done|]. unfold held. cbn [g_lock g_run]. lia.
  - inversion Hg as [| | |? ? k Hk Edep]; subst. unfold held in Hn. rewrite El in Hn.
    destruct n as [|m]; [exfalso; destruct g; lia|exists m; split; [done|split; [done|]]].
    exists (<[g := k]> d). split; [by apply Hdepth|].
    destruct g; cbn [g_run]; rewrite ?fn_lookup_insert, ?fn_lookup_insert_ne by done;
      rewrite E in Hn; unfold held; cbn [g_lock snd length] in *; lia.
  - inversion Hg as [| |? ? k Hk Edep|]; subst.
    destruct (Hpos g) as [m ->]; [by rewrite E|lia|]. exists m. split; [done|split].
    + apply Hkeep. by rewrite E.
    + exists (<[g := k]> d). split; [by apply Hdepth|].
      destruct g; cbn [g_run]; rewrite ?fn_lookup_insert, ?fn_lookup_insert_ne by done;
        rewrite E in Hn; unfold held in *; cbn [g_lock snd length] in *; lia.
Qed.

Lemma within_start s inputs :
  within (g_start s inputs) (6 * length (inputs Serve) + 6 * length (inputs ServeExitDevice)).
Proof. split; [done|]. exists (λ _, 0%nat). split; [intros g; constructor|]. cbn. lia. Qed.

Lemma within_steps n k G G' : within G n → nsteps gstep k G G' → (k ≤ n)%nat.
Proof.
  intros Hn Hsteps. revert n Hn. induction Hsteps as [G|k G G1 G' Hstep _ IH]; intros n Hn; [lia|].
  destruct (within_step _ _ _ Hn Hstep) as (m & -> & Hm). apply IH in Hm. lia.
Qed.

(** ** The theorems *)

(** C21: the goroutines of the server, whatever their interleaving.  When both have handled their
    inputs, the server is in the state, and each has sent the packets in the order, of a run
    that handles the inputs one at a time, those of each goroutine in their order. *)
Theorem serialisable s inputs G :
  server_inv s → (∀ g, inputs_ok g (inputs g)) → rtc gstep (g_start s inputs) G → finished G →
  ∃ h outs, (∀ g, of_goroutine g h = inputs g) ∧ serve_in_order h s = Some (g_server G, outs) ∧
    ∀ g, of_goroutine g (g_sent G) = of_goroutine g outs.
Proof.
  intros Hs Hin Hsteps Hfin. destruct (reachable_serialised s inputs Hs Hin G Hsteps) as (h & outs & Hser).
  exists h, outs. split_and!; [|apply Hser|]; intros g;
    destruct (se_progress _ _ _ _ _ Hser g) as (fresh & pending & Hp & Hi & Ho & _);
    rewrite (Hfin g) in Hp, Hi; apply progress_done in Hp as [-> ->].
  - by rewrite Hi, app_nil_r.
  - by rewrite Ho, app_nil_r.
Qed.

(** C22: the goroutines of the server handle all their inputs: neither panics, they do not wait for
    the lock for ever (while something is left to do, one of them can go on), and they are done
    after at most six steps for each input. *)
Theorem goroutines_finish s inputs n G :
  server_inv s → (∀ g, inputs_ok g (inputs g)) → nsteps gstep n (g_start s inputs) G →
  (n ≤ 6 * (length (inputs Serve) + length (inputs ServeExitDevice)))%nat ∧ (finished G ∨ ∃ G', gstep G G').
Proof.
  intros Hs Hin Hsteps. split.
  - pose proof (within_steps _ _ _ _ (within_start s inputs) Hsteps). lia.
  - destruct (reachable_serialised s inputs Hs Hin G) as (h & outs & Hser); [by eapply rtc_nsteps_2|].
    by eapply serialised_moves.
Qed.

(** ** An execution *)

(** The next step of a goroutine, if it has one. *)
Definition g_next (g : goroutine) (G : threads) : option threads :=
  match g_run G g with
  | (Done, i :: inputs) =>
      Some (mk_threads (g_server G) (g_lock G)
        (<[g := (input_prog (sv_config (g_server G)) (sv_exit (g_server G)) i, inputs)]> (g_run G)) (g_sent G))
  | (Locked section rest, inputs) =>
      match g_lock G with
      | None => Some (mk_threads (g_server G) (Some g) (g_run G) (g_sent G))
      | Some g' =>
          if decide (g' = g) then
            '(s, r) ← section (g_server G);
            Some (mk_threads s None (<[g := (rest r, inputs)]> (g_run G)) (g_sent G))
          else None
      end
  | (Send o rest, inputs) =>
      Some (mk_threads (g_server G) (g_lock G) (<[g := (rest, inputs)]> (g_run G)) (g_sent G ++ [(g, o)]))
  | _ => None
  end.
Fixpoint g_steps (order : list goroutine) (G : threads) : option threads :=
  match order with [] => Some G | g :: order => G ← g_next g G; g_steps order G end.

Lemma g_next_sound g G G' : g_next g G = Some G' → gstep G G'.
Proof.
  unfold g_next. destruct (g_run G g) as [[| |section rest|o rest] inputs] eqn:E.
  - destruct inputs as [|i inputs]; [done|]. intros [= <-]. by apply g_reads.
  - done.
  - destruct (g_lock G) as [g'|] eqn:El; [|intros [= <-]; by eapply g_locks].
    case_decide as Hg; [subst g'|done]. destruct (section (g_server G)) as [[s r]|] eqn:Es; [|done].
    intros [= <-]. by eapply g_unlocks.
  - intros [= <-]. by eapply g_sends.
Qed.

Lemma g_steps_sound order G G' : g_steps order G = Some G' → nsteps gstep (length order) G G'.
Proof.
  revert G. induction order as [|g order IH]; intros G; cbn [g_steps]; [intros [= <-]; constructor|].
  destruct (g_next g G) as [G1|] eqn:E; [|done]. intros H. econstructor; [by eapply g_next_sound|by apply IH].
Qed.

(** A client opens a session and sends a packet to itself; the exit device delivers one for it
    while the server is between the two sections of the handler of that packet. *)
Definition sample_payload : list Z :=
  [0x45; 0; 0; 21; 0; 0; 0; 0; 64; 17; 0; 0; 10; 0; 0; 2; 10; 0; 0; 2; 42].
Definition sample_inputs (g : goroutine) : list input :=
  match g with
  | Serve =>
      [Datagram 0 (Some ([1; 2], [3; 4; 5; 6])) sample_remote
         (open_header sample_cfg ++ signature (open_header sample_cfg) ++ open_tlvs sample_cfg);
       Datagram 1 None sample_remote
         (buildDataPacket [1; 2] [3; 4; 5; 6] sample_payload true (u_xorKey sample_user))]
  | ServeExitDevice => [FromExit sample_payload]
  end.
Definition sample_order : list goroutine :=
  replicate 4 Serve ++ [ServeExitDevice] ++ replicate 3 Serve ++ replicate 3 ServeExitDevice ++ replicate 3 Serve.
Definition sample_end : threads :=
  default (g_start (newServer sample_sconfig) sample_inputs)
    (g_steps sample_order (g_start (newServer sample_sconfig) sample_inputs)).

Lemma sample_steps : nsteps gstep 14 (g_start (newServer sample_sconfig) sample_inputs) sample_end.
Proof.
  apply (g_steps_sound sample_order). unfold sample_end.
  destruct (g_steps sample_order (g_start (newServer sample_sconfig) sample_inputs)) as [G|] eqn:E; [done|].
  exfalso. assert (bool_decide (is_Some (g_steps sample_order (g_start (newServer sample_sconfig) sample_inputs))) = true)
    as H by (vm_compute; reflexivity).
  apply bool_decide_eq_true_1 in H as [G H]. by rewrite E in H.
Qed.
Lemma sample_finished : finished sample_end.
Proof. intros []; vm_compute; reflexivity. Qed.
Lemma sample_inputs_ok g : inputs_ok g (sample_inputs g).
Proof. destruct g; repeat constructor; exact sample_ids_ok || done. Qed.

Lemma serialisable_witness :
  ∃ h outs, (∀ g, of_goroutine g h = sample_inputs g) ∧
    serve_in_order h (newServer sample_sconfig) = Some (g_server sample_end, outs) ∧
    ∀ g, of_goroutine g (g_sent sample_end) = of_goroutine g outs.
Proof.
  apply (serialisable (newServer sample_sconfig) sample_inputs sample_end).
  - exact (newServer_inv _ sample_sconfig_ok).
  - exact sample_inputs_ok.
  - exact (rtc_nsteps_2 _ _ _ sample_steps).
  - exact sample_finished.
Defined.

Lemma goroutines_finish_witness :
  (14 ≤ 6 * (2 + 1))%nat ∧ (finished sample_end ∨ ∃ G', gstep sample_end G').
Proof.
  apply (goroutines_finish (newServer sample_sconfig) sample_inputs 14 sample_end).
  - exact (newServer_inv _ sample_sconfig_ok).
  - exact sample_inputs_ok.
  - exact sample_steps.
Defined.

(** What was sent: the OPENACK, then a packet by each goroutine. *)
Example sample_sent : (g_sent sample_end).*1 = [Serve; ServeExitDevice; Serve].
Proof. vm_compute. reflexivity. Qed.
