(* ===== verification/ServerConfig.v ===== *)
(** The server's configuration, as in [src/server/config.go]: the checks on the decoded JSON
    object, and the form the server uses.

    [net.ResolveUDPAddr] looks names up: whether it succeeds is a parameter.  The JSON
    decoder is not modelled: these functions start from the object.  Of a [netip.Addr] only
    the IPv4 case matters: every other address is refused like a malformed one, with
    another message. *)
From stdpp Require Import gmap.
From S2P Require Import Prelude Libc Md5 Client Os CMonad Config Packet OpenAck Protocol Server.

Definition DefaultListen : list Z := lit "127.0.0.1:4567".
Definition DefaultExitTUNName : list Z := lit "iwand0".
Definition maxInterfaceName : Z := 15.

Record UserConfig := mk_UserConfig {
  Username : list Z; Password : list Z; Address : list Z; AllowEncrypt : option bool }.
Record ExitConfig := mk_ExitConfig {
  Enabled : bool; TUNName : list Z; TUNAddress : list Z; ExitMTU : Z; StrictSource : option bool }.
#[export] Instance ExitConfig_eta : Eta ExitConfig := λ e,
  mk_ExitConfig (Enabled e) (TUNName e) (TUNAddress e) (ExitMTU e) (StrictSource e).
Record Config := mk_Config {
  Listen : list Z; MTU : Z; DNS : list (list Z); Exit : ExitConfig; Users : list UserConfig }.
#[export] Instance Config_eta : Eta Config := λ c,
  mk_Config (Listen c) (MTU c) (DNS c) (Exit c) (Users c).

Inductive config_error :=
  | BadMTU | LongTUNName | NoTUNAddress | BadTUNAddress | BadExitMTU | BadListen | NoUsers
  | NoUsername | NoPassword | NoAddress | DuplicateUsername | BadAddress | DuplicateAddress
  | BadDNS | TooManyDNS.

(** ** net/netip *)

(** [netip.ParseAddr], on IPv4 addresses: its four octets. *)
Definition ParseAddr (s : list Z) : option (list Z) := octets 4 s.
(** [address.String()]. *)
Definition addr_string (address : list Z) : list Z := ip_string (be_decode address).
Definition IsUnspecified (address : list Z) : bool := bool_decide (address = [0; 0; 0; 0]).
(** [netip.ParsePrefix], on IPv4 prefixes: the address and the number of bits. *)
Definition ParsePrefix (s : list Z) : option (list Z * Z) :=
  match split_at 47 s with
  | (a, Some bits) =>
      address ← ParseAddr a;
      if forallb is_digit bits && negb (bool_decide (bits = [])) &&
         ((length bits =? 1)%nat || negb (bool_decide (head bits = Some 48))) && (digits_value bits <=? 32)
      then Some (address, digits_value bits) else None
  | (_, None) => None
  end.

(** ** Validation *)

Definition validateExit (c : Config) : config_error + Config :=
  if negb (Enabled (Exit c)) then inr c else
  let c := if bool_decide (TUNName (Exit c) = [])
           then c <| Exit := (Exit c) <| TUNName := DefaultExitTUNName |> |> else c in
  if maxInterfaceName <? len (TUNName (Exit c)) then inl LongTUNName else
  if bool_decide (TUNAddress (Exit c) = []) then inl NoTUNAddress else
  match ParsePrefix (TUNAddress (Exit c)) with
  | None => inl BadTUNAddress
  | Some (address, _) =>
      if IsUnspecified address then inl BadTUNAddress else
      let c := if ExitMTU (Exit c) =? 0
               then c <| Exit := (Exit c) <| ExitMTU := MTU c |> |> else c in
      if (ExitMTU (Exit c) <? MinMTU) || (MaxMTU <? ExitMTU (Exit c)) then inl BadExitMTU else inr c
  end.

(** [for index, user := range c.Users]: the first error. *)
Fixpoint validateUsers (users : list UserConfig) (usernames addresses : gset (list Z))
  : option config_error :=
  match users with
  | [] => None
  | user :: users =>
      if bool_decide (Username user = []) then Some NoUsername else
      if bool_decide (Password user = []) then Some NoPassword else
      if bool_decide (Address user = []) then Some NoAddress else
      if bool_decide (Username user ∈ usernames) then Some DuplicateUsername else
      match ParseAddr (Address user) with
      | None => Some BadAddress
      | Some address =>
          if IsUnspecified address then Some BadAddress else
          let addressKey := addr_string address in
          if bool_decide (addressKey ∈ addresses) then Some DuplicateAddress else
          validateUsers users ({[Username user]} ∪ usernames) ({[addressKey]} ∪ addresses)
      end
  end.

Fixpoint validateDNS (dns : list (list Z)) : option config_error :=
  match dns with
  | [] => None
  | rawDNS :: dns => match ParseAddr rawDNS with None => Some BadDNS | Some _ => validateDNS dns end
  end.

Section validate.
Variable (ResolveUDPAddr : list Z → bool).

Definition validate (c : Config) : config_error + Config :=
  let c := if bool_decide (Listen c = []) then c <| Listen := DefaultListen |> else c in
  let c := if MTU c =? 0 then c <| MTU := DefaultMTU |> else c in
  if (MTU c <? MinMTU) || (MaxMTU <? MTU c) then inl BadMTU else
  match validateExit c with
  | inl e => inl e
  | inr c =>
      if negb (ResolveUDPAddr (Listen c)) then inl BadListen else
      if (length (Users c) =? 0)%nat then inl NoUsers else
      match validateUsers (Users c) ∅ ∅ with
      | Some e => inl e
      | None =>
          match validateDNS (DNS c) with
          | Some e => inl e
          | None => if 2 <? len (DNS c) then inl TooManyDNS else inr c
          end
      end
  end.

(** ** Normalisation; [None] is the panic of a [Must] function *)

Fixpoint normalizedDNS (dns : list (list Z)) : option (list (list Z)) :=
  match dns with
  | [] => Some []
  | rawDNS :: dns => address ← ParseAddr rawDNS; rest ← normalizedDNS dns; Some (address :: rest)
  end.

Fixpoint normalizedUsers (users : list UserConfig) (m : gmap (list Z) configuredUser)
  : option (gmap (list Z) configuredUser) :=
  match users with
  | [] => Some m
  | rawUser :: users =>
      address ← ParseAddr (Address rawUser);
      let allowEncrypt := match AllowEncrypt rawUser with Some b => b | None => true end in
      normalizedUsers users
        (<[Username rawUser := mk_user (Username rawUser) (Password rawUser) address allowEncrypt
             (deriveXORKey (Username rawUser) (Password rawUser))]> m)
  end.

Definition normalized (c : Config) : option (config_error + normalizedConfig) :=
  match validate c with
  | inl e => Some (inl e)
  | inr c =>
      let strictSource := match StrictSource (Exit c) with Some b => b | None => true end in
      tunAddress ← (if Enabled (Exit c) then ParsePrefix (TUNAddress (Exit c)) else Some ([], 0));
      dns ← normalizedDNS (DNS c);
      users ← normalizedUsers (Users c) ∅;
      Some (inr (mk_sconfig (Listen c) (MTU c) dns
        (mk_exit (Enabled (Exit c)) (TUNName (Exit c)) tunAddress (ExitMTU (Exit c)) strictSource) users))
  end.
End validate.

(** * Properties *)

(** ** What validation guarantees *)

Lemma validateUsers_spec users usernames addresses :
  validateUsers users usernames addresses = None →
  ∃ addrs,
    Forall2 (λ user a, ParseAddr (Address user) = Some a ∧ a ≠ [0; 0; 0; 0]) users addrs ∧
    Forall (λ name, name ∉ usernames) (Username <$> users) ∧
    Forall (λ a, addr_string a ∉ addresses) addrs ∧
    NoDup (Username <$> users) ∧ NoDup addrs.
Proof.
  revert usernames addresses. induction users as [|user users IH]; intros usernames addresses; cbn [validateUsers].
  { intros _. exists []. split_and!; constructor. }
  do 3 (case_bool_decide; [done|]). case_bool_decide as Hu; [done|].
  destruct (ParseAddr (Address user)) as [a|] eqn:Ea; [|done].
  unfold IsUnspecified. case_bool_decide as Hz; [done|]. cbv zeta. case_bool_decide as Had; [done|].
  intros (addrs & Hp & Hus & Has & Hnu & Hna)%IH. exists (a :: addrs).
  rewrite fmap_cons, !Forall_cons. split_and!; [by constructor|done| |done| | |].
  - eapply Forall_impl; [exact Hus|]. cbv beta. set_solver.
  - eapply Forall_impl; [exact Has|]. cbv beta. set_solver.
  - constructor; [|done]. intros Hin. rewrite Forall_forall in Hus.
    by apply (Hus _ Hin), elem_of_union_l, elem_of_singleton.
  - constructor; [|done]. intros Hin. rewrite Forall_forall in Has.
    by apply (Has _ Hin), elem_of_union_l, elem_of_singleton.
Qed.

Lemma validateDNS_normalized dns :
  validateDNS dns = None → ∃ l, normalizedDNS dns = Some l ∧ length l = length dns ∧
    Forall (λ d, length d = 4%nat ∧ bytes d) l.
Proof.
  induction dns as [|raw dns IH]; cbn [validateDNS normalizedDNS]; [by exists []|].
  destruct (ParseAddr raw) as [a|] eqn:Ea; [|done]. intros (l & -> & Hl & Hb)%IH.
  cbn [mbind option_bind]. exists (a :: l). split_and!; [done|simpl; lia|].
  constructor; [|done]. by apply octets_ok in Ea as [].
Qed.

(** The entry of a user in the map. *)
Definition user_entry (raw : UserConfig) (a : list Z) : list Z * configuredUser :=
  (Username raw, mk_user (Username raw) (Password raw) a
     (match AllowEncrypt raw with Some b => b | None => true end)
     (deriveXORKey (Username raw) (Password raw))).

Lemma user_entries_keys users addrs :
  length users = length addrs → (zip_with user_entry users addrs).*1 = Username <$> users.
Proof.
  revert addrs. induction users as [|raw users IH]; intros [|a addrs] Hl; try done.
  cbn. f_equal. apply IH. by injection Hl.
Qed.

Lemma normalizedUsers_spec users addrs m :
  Forall2 (λ user a, ParseAddr (Address user) = Some a) users addrs → NoDup (Username <$> users) →
  normalizedUsers users m = Some (list_to_map (zip_with user_entry users addrs) ∪ m).
Proof.
  intros Hp. revert m. induction Hp as [|raw a users addrs Ha Hp IH]; intros m; cbn [normalizedUsers].
  { intros _. cbn [zip_with list_to_map foldr]. by rewrite (left_id_L ∅ (∪)). }
  rewrite fmap_cons. intros [Hn Hnd]%NoDup_cons. rewrite Ha. cbn [mbind option_bind].
  rewrite IH by done. f_equal. cbn [zip_with list_to_map foldr user_entry uncurry].
  rewrite <-insert_union_l, insert_union_r; [done|]. apply not_elem_of_list_to_map_1.
  rewrite user_entries_keys; [done|by eapply Forall2_length].
Qed.

(** The exit device of a valid configuration. *)
Record exit_valid (e : ExitConfig) : Prop := {
  xv_name : TUNName e ≠ [];
  xv_name_len : len (TUNName e) ≤ maxInterfaceName;
  xv_mtu : MinMTU ≤ ExitMTU e ≤ MaxMTU;
  xv_address : ∃ address bits, ParsePrefix (TUNAddress e) = Some (address, bits) ∧ address ≠ [0; 0; 0; 0]
}.

Lemma validateExit_spec c c' :
  validateExit c = inr c' →
  MTU c' = MTU c ∧ DNS c' = DNS c ∧ Users c' = Users c ∧
  (Enabled (Exit c') = true → exit_valid (Exit c')).
Proof.
  unfold validateExit. destruct (Enabled (Exit c)) eqn:He; cbn [negb].
  2:{ intros [= <-]. split_and!; congruence. }
  cbv zeta. set (c1 := if bool_decide _ then _ else c).
  assert (MTU c1 = MTU c ∧ DNS c1 = DNS c ∧ Users c1 = Users c ∧ TUNName (Exit c1) ≠ []) as (H1 & H2 & H3 & H4)
    by (unfold c1; by case_bool_decide).
  clearbody c1. case_match eqn:Hn; [done|]. case_bool_decide; [done|].
  destruct (ParsePrefix (TUNAddress (Exit c1))) as [[a bits]|] eqn:Hp; [|done].
  unfold IsUnspecified. case_bool_decide; [done|].
  set (c2 := if ExitMTU (Exit c1) =? 0 then _ else c1).
  assert (MTU c2 = MTU c1 ∧ DNS c2 = DNS c1 ∧ Users c2 = Users c1 ∧ TUNName (Exit c2) = TUNName (Exit c1) ∧
    TUNAddress (Exit c2) = TUNAddress (Exit c1)) as (E1 & E2 & E3 & E4 & E5) by (unfold c2; by case_match).
  clearbody c2. case_match eqn:Hm; [done|]. intros [= <-]. rewrite orb_false_iff, !Z.ltb_ge in Hm.
  rewrite Z.ltb_ge in Hn. split_and!; try congruence. intros _. split.
  - congruence.
  - by rewrite E4.
  - done.
  - rewrite E5, Hp. by exists a, bits.
Qed.

Lemma validate_spec resolve c c' :
  validate resolve c = inr c' →
  MinMTU ≤ MTU c' ≤ MaxMTU ∧ len (DNS c') ≤ 2 ∧ validateUsers (Users c') ∅ ∅ = None ∧
  validateDNS (DNS c') = None ∧ Users c' = Users c ∧
  (Enabled (Exit c') = true → exit_valid (Exit c')).
Proof.
  unfold validate. cbv zeta. set (c1 := if bool_decide (Listen c = []) then _ else c).
  set (c2 := if MTU c1 =? 0 then _ else c1).
  assert (Users c2 = Users c) as HU by (unfold c2, c1; case_match; by case_bool_decide).
  clearbody c2. clear c1. destruct (_ || _) eqn:Hm; [done|].
  destruct (validateExit c2) as [e|c3] eqn:He; [done|].
  apply validateExit_spec in He as (E1 & E2 & E3 & E4). do 2 (case_match; [done|]).
  destruct (validateUsers (Users c3) ∅ ∅) eqn:Hu; [done|].
  destruct (validateDNS (DNS c3)) eqn:Hd; [done|]. destruct (Z.ltb_spec 2 (len (DNS c3))); [done|].
  intros [= <-]. rewrite orb_false_iff, !Z.ltb_ge in Hm. split_and!; try done; congruence || lia.
Qed.

(** ** The normalised configuration *)

Lemma normalized_spec resolve c :
  ∃ r, normalized resolve c = Some r ∧
    match r with
    | inl _ => True
    | inr n =>
        sconfig_ok n ∧ (length (s_dns n) ≤ 2)%nat ∧
        (∀ name u, s_users n !! name = Some u → u_address u ≠ [0; 0; 0; 0]) ∧
        (∀ raw, raw ∈ Users c → ∃ u, s_users n !! Username raw = Some u ∧ u_password u = Password raw)
    end.
Proof.
  unfold normalized. destruct (validate resolve c) as [e|c'] eqn:Hv; [by eexists|].
  apply validate_spec in Hv as (Hm & Hdl & Hu & Hd & HU & Hex).
  apply validateUsers_spec in Hu as (addrs & Hp & _ & _ & Hnu & Hna).
  apply validateDNS_normalized in Hd as (dns & -> & Hl & Hdns).
  assert (∃ p, (if Enabled (Exit c') then ParsePrefix (TUNAddress (Exit c')) else Some ([], 0)) = Some p)
    as [p ->] by (destruct (Enabled (Exit c')); [destruct (xv_address _ (Hex eq_refl)) as (? & ? & ? & _)|]; by eexists).
  cbn [mbind option_bind].
  rewrite (normalizedUsers_spec _ addrs) by (done || by eapply Forall2_impl; [exact Hp|intros ?? []]).
  cbn [mbind option_bind]. rewrite (right_id_L ∅ (∪)). eexists. split; [done|].
  set (es := zip_with user_entry (Users c') addrs).
  assert (NoDup es.*1) as Hnd.
  { unfold es. rewrite user_entries_keys; [done|by eapply Forall2_length]. }
  assert (∀ name u, (list_to_map es : gmap (list Z) configuredUser) !! name = Some u →
    ∃ i raw, Users c' !! i = Some raw ∧ addrs !! i = Some (u_address u) ∧ (name, u) = user_entry raw (u_address u) ∧
      ParseAddr (Address raw) = Some (u_address u) ∧ u_address u ≠ [0; 0; 0; 0]) as Hget.
  { intros name u H%elem_of_list_to_map_2. apply list_elem_of_lookup in H as [i Hi].
    apply lookup_zip_with_Some in Hi as (raw & a & E & Hraw & Ha). exists i, raw.
    pose proof (Forall2_lookup_lr _ _ _ _ _ _ Hp Hraw Ha) as []. by injection E as -> ->. }
  split_and!.
  - split; cbn [s_users s_dns s_mtu]; try done.
    + intros name u H. apply Hget in H as (i & raw & _ & _ & E & _). by injection E as -> ->.
    + intros n1 n2 u1 u2 H1 H2 Ha. apply Hget in H1 as (i & raw1 & Hr1 & Ha1 & E1 & _).
      apply Hget in H2 as (j & raw2 & Hr2 & Ha2 & E2 & _). rewrite <-Ha in Ha2.
      assert (i = j) as <- by (eapply (NoDup_lookup addrs); eassumption). assert (raw1 = raw2) as <- by congruence.
      injection E1 as -> _. by injection E2 as -> _.
    + intros name u H. apply Hget in H as (i & raw & _ & _ & _ & Hpa & _).
      apply octets_ok in Hpa as []. done.
    + intros name u H. apply Hget in H as (i & raw & _ & _ & E & _). by injection E as -> ->.
  - cbn [s_dns]. unfold len in Hdl. lia.
  - intros name u H. by apply Hget in H as (i & raw & _ & _ & _ & _ & Hz).
  - intros raw Hin. rewrite <-HU in Hin. apply list_elem_of_lookup in Hin as [i Hi].
    destruct (Forall2_lookup_l _ _ _ _ _ Hp Hi) as (a & Ha & _).
    exists (user_entry raw a).2. split; [|done]. cbn [s_users].
    apply elem_of_list_to_map_1; [done|]. apply list_elem_of_lookup. exists i.
    unfold es. by rewrite lookup_zip_with, Hi, Ha.
Qed.

(** What the exit device is opened with. *)
Record exit_ok (e : normalizedExitConfig) : Prop := {
  xo_name : x_tunName e ≠ [];
  xo_name_len : len (x_tunName e) ≤ maxInterfaceName;
  xo_mtu : MinMTU ≤ x_mtu e ≤ MaxMTU;
  xo_address : length (x_tunAddress e).1 = 4%nat ∧ bytes (x_tunAddress e).1;
  xo_bits : 0 ≤ (x_tunAddress e).2 ≤ 32
}.

Lemma ParsePrefix_ok l address bits :
  ParsePrefix l = Some (address, bits) → length address = 4%nat ∧ bytes address ∧ 0 ≤ bits ≤ 32.
Proof.
  unfold ParsePrefix. destruct (split_at 47 l) as [a [b|]]; [|done].
  destruct (ParseAddr a) as [address'|] eqn:Ha; cbn [mbind option_bind]; [|done].
  case_match eqn:Hb; [|done]. intros [= <- <-]. apply octets_ok in Ha as [].
  rewrite !andb_true_iff, Z.leb_le in Hb. destruct Hb as [[[Hd _] _] Hb].
  split_and!; [done..| |done]. by apply digits_value_nonneg.
Qed.

Lemma normalized_exit_ok resolve c n :
  normalized resolve c = Some (inr n) → s_exit_enabled n = true → exit_ok (s_exit n).
Proof.
  unfold normalized. destruct (validate resolve c) as [e|c'] eqn:Hv; [done|].
  apply validate_spec in Hv as (_ & _ & _ & _ & _ & Hex).
  destruct (Enabled (Exit c')) eqn:He.
  - destruct (Hex eq_refl) as [Hn Hl Hm (a & b & Hp & _)]. rewrite Hp. cbn [mbind option_bind].
    destruct (normalizedDNS _) as [dns|]; [|done]. destruct (normalizedUsers _ _) as [users|]; [|done].
    intros [= <-] _. apply ParsePrefix_ok in Hp as (? & ? & ?). by split.
  - cbn [mbind option_bind]. destruct (normalizedDNS _) as [dns|]; [|done].
    destruct (normalizedUsers _ _) as [users|]; [|done]. by intros [= <-].
Qed.

(** ** The theorems *)

(** C20: every decoded configuration is either refused with an error or normalised, never with a
    panic; a normalised one has the users given, each under its own name with its own
    non-zero address and its key, an MTU in range and at most two name servers; so the
    server started with it keeps its sessions consistent whatever it receives. *)
Theorem configured_server resolve c inputs :
  Forall input_ok inputs →
  ∃ r, normalized resolve c = Some r ∧
    match r with
    | inl _ => True
    | inr n =>
        sconfig_ok n ∧ (length (s_dns n) ≤ 2)%nat ∧
        (∀ raw, raw ∈ Users c → ∃ u, s_users n !! Username raw = Some u ∧ u_password u = Password raw) ∧
        ∃ s outs, serve_all inputs (newServer n) = Some (s, outs) ∧ server_inv s
    end.
Proof.
  intros Hin. destruct (normalized_spec resolve c) as (r & E & Hr). exists r. split; [done|].
  destruct r as [e|n]; [done|]. destruct Hr as (Hok & Hd & _ & Hu). split_and!; try done.
  apply serve_all_inv; [by apply newServer_inv|done].
Qed.

(** ** Witnesses *)

Definition sample_config : Config :=
  mk_Config [] 0 [lit "8.8.8.8"] (mk_ExitConfig true [] (lit "10.0.0.1/24") 0 None)
    [mk_UserConfig (lit "alice") (lit "secret") (lit "10.0.0.2") None;
     mk_UserConfig (lit "bob") (lit "pw") (lit "10.0.0.3") (Some false)].

Example sample_config_accepted :
  match normalized (λ _, true) sample_config with
  | Some (inr n) => (s_mtu n, s_dns n, s_strictSource n, u_address <$> s_users n !! lit "bob")
  | _ => (0, [], false, None)
  end = (1400, [[8; 8; 8; 8]], true, Some [10; 0; 0; 3]).
Proof. vm_compute. reflexivity. Qed.

Lemma configured_server_witness :
  ∃ r, normalized (λ _, true) sample_config = Some r ∧
    match r with
    | inl _ => True
    | inr n =>
        sconfig_ok n ∧ (length (s_dns n) ≤ 2)%nat ∧
        (∀ raw, raw ∈ Users sample_config →
          ∃ u, s_users n !! Username raw = Some u ∧ u_password u = Password raw) ∧
        ∃ s outs, serve_all [FromExit [69; 0]] (newServer n) = Some (s, outs) ∧ server_inv s
    end.
Proof. apply (configured_server (λ _, true) sample_config). repeat constructor. Defined.
