(* ===== verification/ServerTun.v ===== *)
(** The server's exit device and its constructor, as in [src/server/tun_linux.go],
    [tun_stub.go] and [New] in [server.go]: system calls with their error paths.

    The system is the parameter of [Os].  An [ifreq] is the name it holds and, as in [Os], the
    argument of the request that reads its data; an IPv4 address in it is the 32-bit word its
    four octets are in memory. *)
From stdpp Require Import gmap.
From S2P Require Import Prelude Libc Client Os Tun TunLinux Protocol Server ServerConfig.

Definition tunDevicePath : list Z := lit "/dev/net/tun".
Definition ifNameSize : nat := 16.

Inductive tun_error :=
  | OpenError | NameRequired | NameTooLong | CreateError | SocketError | AddressError
  | NetmaskError | MTUError | GetFlagsError | SetUpError | NotLinux.

(** The name in a new [ifreq]. *)
Definition newIFReq (name : list Z) : tun_error + list Z :=
  if bool_decide (name = []) then inl NameRequired else
  if maxInterfaceName <? len name then inl NameTooLong else
  inr (copy_at (replicate ifNameSize 0) 0 name).

(** [net.CIDRMask(bits, 32)]. *)
Definition CIDRMask (bits : Z) : list Z := be_encode 4 (2 ^ 32 - 2 ^ (32 - bits)).

Section linux.
Context `{OS}.

Definition setInterfaceIPv4 (socket : Z) (name : list Z) (prefix : list Z * Z) : IO (option tun_error) :=
  match newIFReq name with
  | inl err => mret (Some err)
  | inr request =>
      r ← call (SIoctl socket (SIOCSIFADDR (c_str request) (le_decode prefix.1)));
      if io_ret r <? 0 then mret (Some AddressError) else
      match newIFReq name with
      | inl err => mret (Some err)
      | inr request =>
          r ← call (SIoctl socket (SIOCSIFNETMASK (c_str request) (le_decode (CIDRMask prefix.2))));
          if io_ret r <? 0 then mret (Some NetmaskError) else mret None
      end
  end.

Definition setInterfaceMTU (socket : Z) (name : list Z) (mtu : Z) : IO (option tun_error) :=
  match newIFReq name with
  | inl err => mret (Some err)
  | inr request =>
      r ← call (SIoctl socket (SIOCSIFMTU (c_str request) mtu));
      if io_ret r <? 0 then mret (Some MTUError) else mret None
  end.

Definition setInterfaceUp (socket : Z) (name : list Z) : IO (option tun_error) :=
  match newIFReq name with
  | inl err => mret (Some err)
  | inr request =>
      r ← call (SIoctl socket (SIOCGIFFLAGS (c_str request)));
      if io_ret r <? 0 then mret (Some GetFlagsError) else
      r ← call (SIoctl socket (SIOCSIFFLAGS (c_str request) (Z.lor (io_flags r) IFF_UP)));
      if io_ret r <? 0 then mret (Some SetUpError) else mret None
  end.

(** The socket is closed whatever is returned ([defer]). *)
Definition configureTUNInterface (config : normalizedExitConfig) : IO (option tun_error) :=
  socket ← call SSocket;
  if socket <? 0 then mret (Some SocketError) else
  let close (err : option tun_error) := _ ← call (SClose socket); mret err in
  err ← setInterfaceIPv4 socket (x_tunName config) (x_tunAddress config);
  match err with Some err => close (Some err) | None =>
  err ← setInterfaceMTU socket (x_tunName config) (x_mtu config);
  match err with Some err => close (Some err) | None =>
  err ← setInterfaceUp socket (x_tunName config);
  close err
  end end.

(** The descriptor of the device. *)
Definition openPacketDevice (config : normalizedExitConfig) : IO (tun_error + Z) :=
  fd ← call (SOpen tunDevicePath);
  if fd <? 0 then mret (inl OpenError) else
  match newIFReq (x_tunName config) with
  | inl err => _ ← call (SClose fd); mret (inl err)
  | inr request =>
      r ← call (SIoctl fd (TUNSETIFF (c_str request) (Z.lor IFF_TUN IFF_NO_PI)));
      if io_ret r <? 0 then _ ← call (SClose fd); mret (inl CreateError) else
      err ← configureTUNInterface config;
      match err with
      | Some err => _ ← call (SClose fd); mret (inl err)
      | None => mret (inr fd)
      end
  end.

(** [New]: the server and its exit device, if it has one; [None] is a panic. *)
Definition New (resolve : list Z → bool) (c : Config) :
    IO (option ((config_error + tun_error) + (server * option Z))) :=
  match normalized resolve c with
  | None => mret None
  | Some (inl err) => mret (Some (inl (inl err)))
  | Some (inr config) =>
      if s_exit_enabled config then
        device ← openPacketDevice (s_exit config);
        match device with
        | inl err => mret (Some (inl (inr err)))
        | inr fd => mret (Some (inr (newServer config, Some fd)))
        end
      else mret (Some (inr (newServer config, None)))
  end.
End linux.

(** [tun_stub.go]: other platforms have no exit device. *)
Definition openPacketDevice_stub (config : normalizedExitConfig) : tun_error + Z := inl NotLinux.

(** * Properties *)

Lemma c_str_padded l (n : nat) : c_str (l ++ replicate n 0) = c_str l.
Proof.
  induction l as [|x l IH]; cbn [app c_str]; [by destruct n|]. by rewrite IH.
Qed.

(** A name that fits is the name of the request. *)
Lemma newIFReq_ok name :
  name ≠ [] → len name ≤ maxInterfaceName →
  ∃ request, newIFReq name = inr request ∧ length request = ifNameSize ∧ c_str request = c_str name.
Proof.
  intros Hn Hl. unfold newIFReq. rewrite bool_decide_eq_false_2 by done.
  rewrite (proj2 (Z.ltb_ge _ _)) by done. eexists. split; [done|].
  unfold len, maxInterfaceName in Hl. unfold copy_at, blit. rewrite length_replicate, (take_ge name) by (unfold ifNameSize; lia).
  rewrite take_0, drop_replicate. cbn [app]. split; [|apply c_str_padded].
  rewrite length_app, length_replicate. unfold ifNameSize. lia.
Qed.

Section properties.
Context `{OS}.

(** The calls that set the device up, newest first: it is created, a socket is opened, its
    address, netmask, MTU and flags are set, in that order, and the socket is closed. *)
Definition device_calls (e : normalizedExitConfig) (fd socket : Z) (r0 r1 r2 r3 r4 r5 : ioctl_res)
    (closed : Z) : trace :=
  let name := c_str (x_tunName e) in
  [Ev (SClose socket) closed;
   Ev (SIoctl socket (SIOCSIFFLAGS name (Z.lor (io_flags r4) IFF_UP))) r5;
   Ev (SIoctl socket (SIOCGIFFLAGS name)) r4;
   Ev (SIoctl socket (SIOCSIFMTU name (x_mtu e))) r3;
   Ev (SIoctl socket (SIOCSIFNETMASK name (le_decode (CIDRMask (x_tunAddress e).2)))) r2;
   Ev (SIoctl socket (SIOCSIFADDR name (le_decode (x_tunAddress e).1))) r1;
   Ev SSocket socket;
   Ev (SIoctl fd (TUNSETIFF name (Z.lor IFF_TUN IFF_NO_PI))) r0;
   Ev (SOpen tunDevicePath) fd].

(** The error of a call that failed. *)
Definition call_error (ev : event) : option tun_error :=
  match ev with
  | Ev (SOpen _) r => if r <? 0 then Some OpenError else None
  | Ev SSocket r => if r <? 0 then Some SocketError else None
  | Ev (SIoctl _ req) r =>
      if io_ret r <? 0 then
        match req with
        | TUNSETIFF _ _ => Some CreateError
        | SIOCSIFADDR _ _ => Some AddressError
        | SIOCSIFNETMASK _ _ => Some NetmaskError
        | SIOCSIFMTU _ _ => Some MTUError
        | SIOCGIFFLAGS _ => Some GetFlagsError
        | SIOCSIFFLAGS _ _ => Some SetUpError
        | _ => None
        end
      else None
  | _ => None
  end.

(** The device is open and set up; or one call failed, which the error says, and nothing is
    left open. *)
Definition device_spec (e : normalizedExitConfig) (r : tun_error + Z) (new : trace) : Prop :=
  match r with
  | inl err => fd_neutral new ∧ omap call_error new = [err]
  | inr fd => 0 ≤ fd ∧ opens_fd fd new ∧
      ∃ socket r0 r1 r2 r3 r4 r5 closed, 0 ≤ socket ∧ new = device_calls e fd socket r0 r1 r2 r3 r4 r5 closed ∧
        Forall (λ r, 0 ≤ io_ret r) [r0; r1; r2; r3; r4; r5]
  end.

Lemma openPacketDevice_spec e : exit_ok e → io_spec (openPacketDevice e) (device_spec e).
Proof.
  intros [Hn Hl _ _ _]. destruct (newIFReq_ok _ Hn Hl) as (request & Hreq & _ & Hname).
  unfold openPacketDevice, configureTUNInterface, setInterfaceIPv4, setInterfaceMTU, setInterfaceUp.
  rewrite Hreq, Hname. io_exec.
  9:{ rewrite !Z.ltb_ge in *. split_and!; [done|io_fds|]. do 8 eexists. split_and!; [|reflexivity|].
      - done.
      - by repeat constructor. }
  all: split; [io_fds|]; cbn [app omap list_omap call_error];
    repeat match goal with Hb : (_ <? 0) = _ |- _ => rewrite Hb; clear Hb end; reflexivity.
Qed.

(** C25: the server is started or refused.  For every decoded configuration and on every system, [New]
    does not panic.  It returns a server whose session table is consistent and stays so,
    with its exit device open and set up when the configuration has one, and no call made
    when it has none; or the error of the configuration or of the one call that failed, with
    every descriptor it opened closed. *)
Theorem New_spec resolve c tr :
  ∃ r new, New resolve c tr = (Some r, new ++ tr) ∧
    match r with
    | inl (inl _) => new = []
    | inl (inr err) => fd_neutral new ∧ omap call_error new = [err]
    | inr (s, device) =>
        (∀ inputs, Forall input_ok inputs →
          ∃ s' outs, serve_all inputs s = Some (s', outs) ∧ server_inv s') ∧
        match device with
        | Some fd => sv_exit s = true ∧ device_spec (s_exit (sv_config s)) (inr fd) new
        | None => sv_exit s = false ∧ new = []
        end
    end.
Proof.
  destruct (normalized_spec resolve c) as (r & E & Hr). unfold New. rewrite E.
  destruct r as [err|n]; [by exists (inl (inl err)), []|]. destruct Hr as (Hok & _).
  assert (∀ inputs, Forall input_ok inputs →
    ∃ s' outs, serve_all inputs (newServer n) = Some (s', outs) ∧ server_inv s') as Hserve.
  { intros inputs Hin. by apply serve_all_inv; [apply newServer_inv|]. }
  destruct (s_exit_enabled n) eqn:Hex.
  - destruct (openPacketDevice_spec _ (normalized_exit_ok _ _ _ E Hex) tr) as (d & new & Ed & Hd).
    unfold mbind, io_bind_inst. rewrite Ed. destruct d as [err|fd].
    + by exists (inl (inr err)), new.
    + by exists (inr (newServer n, Some fd)), new.
  - by exists (inr (newServer n, None)), [].
Qed.
End properties.

(** On a system where every call succeeds, the sample configuration has its device. *)
Example New_opens :
  match New (H := still_os) (λ _, true) sample_config [] with
  | (Some (inr (s, Some fd)), calls) => (sv_exit s, fd, live_fds calls, length calls)
  | _ => (false, -1, [], 0%nat)
  end = (true, 3, [3], 9%nat).
Proof. vm_compute. reflexivity. Qed.
