(* ===== verification/ServerMain.v ===== *)
(** The server's program, as in [src/cmd/iwand-server/main.go], with [LoadConfig],
    [DecodeConfig] ([config.go]), [ListenAndServe], [Serve] and [serveExitDevice]
    ([server.go]): from the command line to the end of the process.

    The JSON decoder, the resolver and whether the socket can be bound are parameters.  What
    the two goroutines read is a sequence of events: [Goroutines] shows that their
    interleaving does not matter. *)
From stdpp Require Import gmap.
From S2P Require Import Prelude Libc Client Os Tun TunLinux Protocol Server ServerConfig ServerTun.

(** ** The command line: the package [flag], with its one option *)

Inductive flags := FlagsOk (configPath : list Z) | FlagsHelp | FlagsError.

Definition isMinus (b : option Z) : bool := bool_decide (b = Some 45).

(** [flag.Parse]: up to the first operand or [--]; the last [-config] counts. *)
Fixpoint flagParse (args : list (list Z)) (configPath : list Z) : flags :=
  match args with
  | [] => FlagsOk configPath
  | s :: args =>
      if (len s <? 2) || negb (isMinus (head s)) then FlagsOk configPath else
      let name := if isMinus (s !! 1%nat) then drop 2 s else drop 1 s in
      if isMinus (s !! 1%nat) && (len s =? 2) then FlagsOk configPath else
      if bool_decide (name = []) || isMinus (head name) || bool_decide (head name = Some 61) then FlagsError else
      let '(name, value) := split_at 61 name in
      if bool_decide (name = lit "config") then
        match value, args with
        | Some value, _ => flagParse args value
        | None, value :: args => flagParse args value
        | None, [] => FlagsError
        end
      else if bool_decide (name = lit "help") || bool_decide (name = lit "h") then FlagsHelp
      else FlagsError
  end.

(** ** The configuration file *)

Inductive load_error := NoFile | BadJSON | NotSingle | BadConfig (e : config_error).
Inductive decoded := AtEOF | AnotherObject | NotAnObject.

(** What the socket and the exit device deliver; [cancelled]: a signal has arrived, so that
    the socket is closed. *)
Inductive server_event :=
  | UdpRead (now : Z) (rnd : option (list Z * list Z)) (remote : udp_addr) (datagram : list Z)
  | UdpFailed (cancelled closed : bool)
  | DeviceRead (packet : list Z)
  | DeviceFailed.

Inductive serve_error := Canceled | ReadError.
Inductive serve_result := StillServing | ServeReturned (err : option serve_error).

(** [Serve] and [serveExitDevice]: the reads into their buffers, and the handlers; [device]:
    the exit device is still read. *)
Fixpoint serve_events (device : bool) (evs : list server_event) (s : server)
    : option (server * list output * serve_result) :=
  match evs with
  | [] => Some (s, [], StillServing)
  | UdpRead now rnd remote datagram :: evs =>
      '(s, outs) ← handlePacket now rnd remote (take 4096 datagram) s;
      '(s, outs', r) ← serve_events device evs s;
      Some (s, outs ++ outs', r)
  | UdpFailed cancelled closed :: _ =>
      Some (s, [], ServeReturned (if cancelled || closed then if cancelled then Some Canceled else None
                                  else Some ReadError))
  | DeviceRead packet :: evs =>
      if device then
        '(s, outs) ← handleExitPacket (take (Z.to_nat MaxMTU) packet) s;
        '(s, outs', r) ← serve_events device evs s;
        Some (s, outs ++ outs', r)
      else serve_events device evs s
  | DeviceFailed :: evs => serve_events false evs s
  end.

Inductive outcome := Exited (code : Z) | Serving (s : server).

Section program.
Context `{OS}.
(** [decoder.Decode] of the object at the front, and what it has left; the second [Decode]. *)
Variables (Decode : list Z → option (Config * list Z)) (DecodeNext : list Z → decoded).
Variables (ResolveUDPAddr : list Z → bool) (ListenUDP : bool).

Definition DecodeConfig (file : list Z) : load_error + Config :=
  match Decode file with
  | None => inl BadJSON
  | Some (config, rest) =>
      match DecodeNext rest with
      | AnotherObject => inl NotSingle
      | NotAnObject => inl BadJSON
      | AtEOF => match validate ResolveUDPAddr config with inl e => inl (BadConfig e) | inr c => inr c end
      end
  end.

Definition LoadConfig (path : list Z) : IO (load_error + Config) :=
  file ← call (SReadFile path);
  mret (match file with None => inl NoFile | Some file => DecodeConfig file end).

(** The exit device is closed when [Serve] returns; [Serving]: it has not returned yet.
    [None] is a panic. *)
Definition ListenAndServe (s : server) (device : option Z) (evs : list server_event)
    : IO (option (server * list output * serve_result)) :=
  if negb (ResolveUDPAddr (s_listen (sv_config s))) then mret (Some (s, [], ServeReturned (Some ReadError))) else
  if negb ListenUDP then mret (Some (s, [], ServeReturned (Some ReadError))) else
  match serve_events (bool_decide (is_Some device)) evs s with
  | None => mret None
  | Some (s, outs, StillServing) => mret (Some (s, outs, StillServing))
  | Some (s, outs, r) =>
      match device with
      | Some fd => _ ← call (SClose fd); mret (Some (s, outs, r))
      | None => mret (Some (s, outs, r))
      end
  end.

Definition server_main (args : list (list Z)) (evs : list server_event) : IO (option (outcome * list output)) :=
  match flagParse args [] with
  | FlagsHelp => mret (Some (Exited 0, []))
  | FlagsError => mret (Some (Exited 2, []))
  | FlagsOk configPath =>
      if bool_decide (configPath = []) then mret (Some (Exited 1, [])) else
      config ← LoadConfig configPath;
      match config with
      | inl _ => mret (Some (Exited 1, []))
      | inr config =>
          r ← New ResolveUDPAddr config;
          match r with
          | None => mret None
          | Some (inl _) => mret (Some (Exited 1, []))
          | Some (inr (s, device)) =>
              r ← ListenAndServe s device evs;
              match r with
              | None => mret None
              | Some (s, outs, StillServing) => mret (Some (Serving s, outs))
              | Some (_, outs, ServeReturned err) =>
                  mret (Some (Exited (match err with Some ReadError => 1 | _ => 0 end), outs))
              end
          end
      end
  end.
End program.

(** * Properties *)

(** ** Validation completes a configuration once and for all *)

Lemma validateExit_again c c' :
  validateExit c = inr c' → validateExit c' = inr c' ∧ Listen c' = Listen c ∧ MTU c' = MTU c.
Proof.
  unfold validateExit at 1. destruct (Enabled (Exit c)) eqn:He; cbn [negb].
  2:{ intros [= <-]. split; [|done]. unfold validateExit. by rewrite He. }
  cbv zeta. set (c1 := if bool_decide _ then _ else c).
  assert (Enabled (Exit c1) = true ∧ TUNName (Exit c1) ≠ [] ∧ Listen c1 = Listen c ∧ MTU c1 = MTU c)
    as (E1 & E2 & E3 & E4) by (unfold c1; by case_bool_decide).
  clearbody c1. case_match eqn:Hn; [done|]. case_bool_decide as Ha; [done|].
  destruct (ParsePrefix (TUNAddress (Exit c1))) as [[a bits]|] eqn:Hp; [|done].
  destruct (IsUnspecified a) eqn:Hz; [done|].
  set (c2 := if ExitMTU (Exit c1) =? 0 then _ else c1).
  assert (Enabled (Exit c2) = true ∧ TUNName (Exit c2) = TUNName (Exit c1) ∧
    TUNAddress (Exit c2) = TUNAddress (Exit c1) ∧ Listen c2 = Listen c1 ∧ MTU c2 = MTU c1) as (F1 & F2 & F3 & F4 & F5)
    by (unfold c2; by case_match).
  clearbody c2. destruct (_ || _) eqn:Hm; [done|]. intros [= <-]. split_and!; [|congruence..].
  unfold validateExit. rewrite F1. cbn [negb]. rewrite F2, bool_decide_eq_false_2 by done.
  rewrite F2, F3, Hn, bool_decide_eq_false_2, Hp, Hz by done.
  assert ((ExitMTU (Exit c2) =? 0) = false) as ->; [|by rewrite Hm].
  rewrite orb_false_iff, Z.ltb_ge in Hm. apply Z.eqb_neq. change MinMTU with 46 in Hm. lia.
Qed.

Lemma validate_again resolve c c' : validate resolve c = inr c' → validate resolve c' = inr c'.
Proof.
  unfold validate at 1. cbv zeta. set (c1 := if bool_decide (Listen c = []) then _ else c).
  set (c2 := if MTU c1 =? 0 then _ else c1).
  assert (Listen c2 ≠ []) as Hl by (unfold c2, c1; case_match; by case_bool_decide).
  clearbody c2. clear c1. destruct (_ || _) eqn:Hm; [done|].
  destruct (validateExit c2) as [e|c3] eqn:He; [done|]. apply validateExit_again in He as (He & El & Em).
  destruct (negb (resolve (Listen c3))) eqn:Hr; [done|]. destruct (_ =? 0)%nat eqn:Hu0; [done|].
  destruct (validateUsers (Users c3) ∅ ∅) eqn:Hu; [done|]. destruct (validateDNS (DNS c3)) eqn:Hd; [done|].
  destruct (2 <? len (DNS c3)) eqn:Hd2; [done|]. intros [= <-].
  unfold validate. rewrite El, bool_decide_eq_false_2 by done. rewrite Em.
  assert ((MTU c2 =? 0) = false) as ->.
  { rewrite orb_false_iff, Z.ltb_ge in Hm. apply Z.eqb_neq. change MinMTU with 46 in Hm. lia. }
  by rewrite Em, Hm, He, Hr, Hu0, Hu, Hd, Hd2.
Qed.

(** What [LoadConfig] accepts, [New] does not refuse. *)
Lemma loaded_normalized Decode DecodeNext resolve file c :
  DecodeConfig Decode DecodeNext resolve file = inr c →
  ∃ n, normalized resolve c = Some (inr n) ∧ sconfig_ok n ∧ resolve (s_listen n) = true.
Proof.
  unfold DecodeConfig. destruct (Decode file) as [[c0 rest]|]; [|done]. destruct (DecodeNext rest); [|done..].
  destruct (validate resolve c0) as [e|c1] eqn:Hv; [done|]. intros [= <-]. apply validate_again in Hv.
  destruct (normalized_spec resolve c1) as (r & E & Hr). revert E. unfold normalized. rewrite Hv.
  intros E. destruct r as [e|n].
  { exfalso. revert E. destruct (if Enabled (Exit c1) then _ else _); [|done]. cbn [mbind option_bind].
    destruct (normalizedDNS _); [|done]. cbn [mbind option_bind]. by destruct (normalizedUsers _ _). }
  exists n. split; [exact E|]. split; [apply Hr|].
  assert (resolve (Listen c1) = true) as Hres.
  { revert Hv. unfold validate. cbv zeta. set (c2 := if MTU _ =? 0 then _ else _). destruct (_ || _); [done|].
    destruct (validateExit c2) as [e|c3]; [done|]. destruct (resolve (Listen c3)) eqn:Hres; cbn [negb]; [|done].
    destruct (_ =? 0)%nat; [done|]. destruct (validateUsers _ _ _); [done|]. destruct (validateDNS _); [done|].
    destruct (2 <? _); [done|]. by intros [= <-]. }
  revert E. destruct (if Enabled (Exit c1) then _ else _); [|done]. cbn [mbind option_bind].
  destruct (normalizedDNS _); [|done]. cbn [mbind option_bind]. destruct (normalizedUsers _ _); [|done].
  cbn [mbind option_bind]. by intros [= <-].
Qed.

(** ** Serving *)

Definition event_input (e : server_event) : option input :=
  match e with
  | UdpRead now rnd remote datagram => Some (Datagram now rnd remote (take 4096 datagram))
  | DeviceRead packet => Some (FromExit (take (Z.to_nat MaxMTU) packet))
  | _ => None
  end.
(** What the random generator returns. *)
Definition events_ok (evs : list server_event) : Prop := Forall input_ok (omap event_input evs).

Lemma serve_events_ok device evs s :
  server_inv s → events_ok evs → ∃ s' outs r, serve_events device evs s = Some (s', outs, r) ∧ server_inv s'.
Proof.
  revert device s. induction evs as [|e evs IH]; intros device s Hs Hev; cbn [serve_events]; [by exists s, [], StillServing|].
  destruct e as [now rnd remote datagram|cancelled closed|packet|].
  - apply Forall_cons in Hev as [Hi Hev].
    destruct (serve_handled (Datagram now rnd remote (take 4096 datagram)) s Hs Hi) as (s1 & outs1 & E1 & Hs1 & _).
    cbn [serve] in E1. rewrite E1. cbn [mbind option_bind].
    destruct (IH device s1 Hs1 Hev) as (s2 & outs2 & r & -> & Hs2). by exists s2, (outs1 ++ outs2), r.
  - eexists s, [], _. by split.
  - apply Forall_cons in Hev as [Hi Hev]. destruct device; [|by apply IH].
    destruct (serve_handled (FromExit (take (Z.to_nat MaxMTU) packet)) s Hs Hi) as (s1 & outs1 & E1 & Hs1 & _).
    cbn [serve] in E1. rewrite E1. cbn [mbind option_bind].
    destruct (IH true s1 Hs1 Hev) as (s2 & outs2 & r & -> & Hs2). by exists s2, (outs1 ++ outs2), r.
  - by apply IH.
Qed.

(** ** The program *)

Section properties.
Context `{OS}.
Variables (Decode : list Z → option (Config * list Z)) (DecodeNext : list Z → decoded).
Variables (ResolveUDPAddr : list Z → bool) (ListenUDP : bool).

(** What [New] returns for a configuration that was loaded. *)
Lemma New_loaded file c tr :
  DecodeConfig Decode DecodeNext ResolveUDPAddr file = inr c →
  ∃ r new, New ResolveUDPAddr c tr = (Some r, new ++ tr) ∧
    match r with
    | inl (inl _) => False
    | inl (inr _) => fd_neutral new
    | inr (s, device) => server_inv s ∧ ResolveUDPAddr (s_listen (sv_config s)) = true ∧
        match device with Some fd => opens_fd fd new ∧ 0 ≤ fd | None => new = [] end
    end.
Proof.
  intros Hc. destruct (loaded_normalized _ _ _ _ _ Hc) as (n & E & Hok & Hres).
  unfold New. rewrite E. destruct (s_exit_enabled n) eqn:Hex.
  2:{ exists (inr (newServer n, None)), []. split_and!; [done|by apply newServer_inv|done..]. }
  destruct (openPacketDevice_spec _ (normalized_exit_ok _ _ _ E Hex) tr) as (d & new & Ed & Hd).
  unfold mbind, io_bind_inst. rewrite Ed. destruct d as [err|fd].
  - exists (inl (inr err)), new. split; [done|]. apply Hd.
  - exists (inr (newServer n, Some fd)), new. split; [done|]. destruct Hd as (? & ? & _).
    split_and!; [by apply newServer_inv|done..].
Qed.

(** A descriptor that is opened and closed. *)
Lemma opened_closed fd new r : opens_fd fd new → 0 ≤ fd → fd_neutral (Ev (SClose fd) r :: new).
Proof.
  intros Ho Hfd live. unfold opens_fd in Ho. change (Ev (SClose fd) r :: new) with ([Ev (SClose fd) r] ++ new).
  rewrite live_fds_app, Ho, (proj2 (Z.leb_le _ _)) by done. cbn. by rewrite Z.eqb_refl.
Qed.

End properties.

(** A server with an exit device that is told to stop. *)
Definition sample_events : list server_event :=
  [UdpRead 0 (Some ([1; 2], [3; 4; 5; 6])) (0x0a000001, 40000) [packetOpen; 0; 0; 0; 0; 0; 0; 0];
   DeviceRead [69; 0]; DeviceFailed; UdpFailed true true].
Definition files_os : OS := λ tr s,
  match s return resp s with SReadFile _ => Some [123; 125] | s => still_os tr s end.
Abbreviation sample_run := (server_main (H := files_os) (λ _, Some (sample_config, [])) (λ _, AtEOF) (λ _, true) true
  [lit "-config"; lit "a"; lit "--config=server.json"] sample_events []).

Example sample_run_stops :
  let '(r, calls) := sample_run in (r, length calls, live_fds calls) =
  (Some (Exited 0, [WriteToUDP (0x0a000001, 40000) buildOpenReject]), 11%nat, []).
Proof. vm_compute. reflexivity. Qed.

