(* ===== verification/Frag.v ===== *)
(** IP fragment reassembly, as in [src/iwand.c] (handle_ipfrag): ten slots, each
    accumulating the fragments of one group, and a shared 4096-byte content buffer. *)
From S2P Require Import Prelude Client Os Tun CMonad Packet.

Section handle_ipfrag.
Context `{OS}.

Definition get_slot (i : nat) : M frag := c ← get_c; mem (c_frags c !! i).
Definition set_slot (i : nat) (f : frag) : M unit :=
  mod_c (λ c, c <| c_frags := <[i := f]> (c_frags c) |>).

(** [g_frag_content] after the two branches of [if (eop == 0)], with [total_len]; the
    inner [None] is [in_use = 0; found = -1; break]. *)
Definition frag_content (pkt : list Z) (f : frag) (eop fragoff fraglen : Z)
  : option (option (list Z * Z)) :=
  let zero := replicate (Z.to_nat FRAG_CONTENT_SIZE) 0 in
  let frag_data := HDR_SIZE + ETHPKT_SIZE in
  if eop =? 0 then
    let total_len := f_len f + fraglen in
    if FRAG_CONTENT_SIZE <? total_len then Some None else
    data ← rd_n pkt frag_data fraglen;
    content ← wr_n zero 0 data;
    old ← rd_n (f_buf f) 0 (f_len f);
    content ← wr_n content fraglen old;
    Some (Some (content, total_len))
  else
    let total_len := fragoff + fraglen in
    let total_len := if total_len <? f_len f then f_len f else total_len in
    if FRAG_CONTENT_SIZE <? total_len then Some None else
    content ← (if f_len f <=? FRAG_CONTENT_SIZE
               then old ← rd_n (f_buf f) 0 (f_len f); wr_n zero 0 old
               else Some zero);
    content ← (if fragoff + fraglen <=? FRAG_CONTENT_SIZE
               then data ← rd_n pkt frag_data fraglen; wr_n content fragoff data
               else Some content);
    Some (Some (content, total_len)).

(** The body of the search loop for a slot of the fragment's group: [found]. *)
Definition frag_merge (pkt : list Z) (i : nat) (f : frag) (now eop fragoff fraglen : Z) : M Z :=
  if FRAG_TIMEOUT <=? u32 (now - f_timestamp f)
  then _ ← set_slot i (f <| f_in_use := 0 |>); mret 0 else
  r ← mem (frag_content pkt f eop fragoff fraglen);
  match r with
  | None => _ ← set_slot i (f <| f_in_use := 0 |>); mret (-1)
  | Some (content, total_len) =>
      if negb (eop =? 0) then
        c ← get_c;
        content ← (if negb (c_encrypt c =? 0)
                   then mem (xor_encrypt (c_xor_key c) content total_len) else mret content);
        data ← mem (rd_n content 0 total_len);
        _ ← io (call (SWrite (c_tun_fd c) data));
        _ ← mod_c (λ c, c <| c_tun_tx := u32 (c_tun_tx c + 1) |>);
        _ ← set_slot i (f <| f_in_use := 0 |>);
        mret 1
      else if total_len <=? FRAG_BUF_SIZE then
        data ← mem (rd_n content 0 total_len);
        buf ← mem (wr_n (f_buf f) 0 data);
        _ ← set_slot i (f <| f_buf := buf |> <| f_len := u16 total_len |>
                          <| f_timestamp := now |>);
        mret 1
      else _ ← set_slot i (f <| f_in_use := 0 |>); mret (-1)
  end.

(** The search for a slot in use with the fragment's group, from slot [i] on. *)
Fixpoint frag_search (n i : nat) (pkt : list Z) (frag_id now eop fragoff fraglen : Z) : M Z :=
  match n with
  | O => mret 0
  | S n' =>
      f ← get_slot i;
      if (f_in_use f =? 0) || negb (f_id f =? frag_id)
      then frag_search n' (S i) pkt frag_id now eop fragoff fraglen
      else frag_merge pkt i f now eop fragoff fraglen
  end.

(** The first slot that is free or expired. *)
Fixpoint frag_free (n i : nat) (now : Z) : M (option nat) :=
  match n with
  | O => mret None
  | S n' =>
      f ← get_slot i;
      if (f_in_use f =? 0) || (FRAG_TIMEOUT <=? u32 (now - f_timestamp f))
      then mret (Some i) else frag_free n' (S i) now
  end.

(** No slot holds the group: take an available one. *)
Definition frag_new (pkt : list Z) (frag_id now fragoff fraglen : Z) : M Z :=
  slot ← frag_free FRAG_SLOTS 0 now;
  match slot with
  | None => mret 0
  | Some slot_idx =>
      f ← get_slot slot_idx;
      let f := f <| f_in_use := 1 |> <| f_id := frag_id |> <| f_timestamp := now |>
                 <| f_off := u16 fragoff |> <| f_len := u16 fraglen |> in
      f ← (if fraglen <=? FRAG_BUF_SIZE
           then data ← mem (rd_n pkt (HDR_SIZE + ETHPKT_SIZE) fraglen);
                buf ← mem (wr_n (f_buf f) 0 data); mret (f <| f_buf := buf |>)
           else mret f);
      _ ← set_slot slot_idx f;
      mret 1
  end.

Definition handle_ipfrag (pkt : list Z) (pktlen : Z) : M Z :=
  c ← get_c;
  if negb (c_state c =? STATE_ESTABLISHED) then mret 0 else
  if pktlen <? HDR_SIZE + ETHPKT_SIZE then mret 0 else
  let ethpkt := HDR_SIZE in
  id ← mem (rd_n pkt (ethpkt + 8) 4);
  let frag_id := le_decode id in
  b0 ← mem (rd pkt (ethpkt + 12)); b1 ← mem (rd pkt (ethpkt + 13));
  b2 ← mem (rd pkt (ethpkt + 14)); b3 ← mem (rd pkt (ethpkt + 15));
  let bf := Z.lor (Z.lor (Z.lor b0 (Z.shiftl b1 8)) (Z.shiftl b2 16)) (Z.shiftl b3 24) in
  let eop := Z.land bf 0x1 in
  let fragoff := Z.land (Z.shiftr bf 2) 0x1fff in
  let fraglen := Z.land (Z.shiftr bf 15) 0x7ff in
  if negb (pktlen =? fraglen + HDR_SIZE + ETHPKT_SIZE) then mret 0 else
  if fraglen =? 0 then mret 0 else
  now ← io mono_secs;
  found ← frag_search FRAG_SLOTS 0 pkt frag_id now eop fragoff fraglen;
  if negb (found =? 0) then mret (if 0 <? found then 1 else 0) else
  frag_new pkt frag_id now fragoff fraglen.
End handle_ipfrag.

(** * Properties *)

(** ** What a fragment is *)

Record fragment := mk_fragment { g_id : Z; g_eop : bool; g_off : Z; g_data : list Z }.

(** The fragment in a packet: 16 bytes of header after the packet's own, the last four
    holding the end flag, the offset (13 bits from bit 2) and the length (11 bits from bit
    15), which must be the length of the rest. *)
Definition frag_decode (pkt : list Z) : option fragment :=
  let bf := le_decode (take 4 (drop 20 pkt)) in
  let n := (bf / 2 ^ 15) mod 2 ^ 11 in
  if (24 <=? len pkt) && (len pkt =? n + 24) && negb (n =? 0)
  then Some (mk_fragment (le_decode (take 4 (drop 16 pkt))) (Z.odd bf)
               ((bf / 4) mod 2 ^ 13) (drop 24 pkt))
  else None.

(** ** What the slots do *)

Definition slot_data (f : frag) : list Z := take (Z.to_nat (f_len f)) (f_buf f).

(** [data] written at [off] over [buf], which is extended with zeros as needed. *)
Definition overlay (buf : list Z) (off : Z) (data : list Z) : list Z :=
  blit (buf ++ replicate (Z.to_nat (off + len data - len buf)) 0) (Z.to_nat off) data.

Definition holds (id : Z) (f : frag) : Prop := f_in_use f ≠ 0 ∧ f_id f = id.
#[export] Instance holds_dec id f : Decision (holds id f).
Proof. unfold holds. apply _. Defined.
Definition expired (now : Z) (f : frag) : Prop := FRAG_TIMEOUT ≤ u32 (now - f_timestamp f).
#[export] Instance expired_dec now f : Decision (expired now f).
Proof. unfold expired. apply _. Defined.
Definition available (now : Z) (f : frag) : Prop := f_in_use f = 0 ∨ expired now f.
#[export] Instance available_dec now f : Decision (available now f).
Proof. unfold available. apply _. Defined.

Definition released (f : frag) : frag := f <| f_in_use := 0 |>.

(** Slots, delivered packet (before decryption), and whether the fragment is accepted. *)
Definition frag_alloc (now : Z) (g : fragment) (fs : list frag)
  : list frag * option (list Z) * bool :=
  match list_find (available now) fs with
  | None => (fs, None, false)
  | Some (i, f) =>
      (<[i := mk_frag (blit (f_buf f) 0 (g_data g)) now (g_id g) (g_off g)
                (len (g_data g)) 1]> fs, None, true)
  end.

Definition frag_step (now : Z) (g : fragment) (fs : list frag)
  : list frag * option (list Z) * bool :=
  match list_find (holds (g_id g)) fs with
  | None => frag_alloc now g fs
  | Some (i, f) =>
      if decide (expired now f) then frag_alloc now g (<[i := released f]> fs)
      else if g_eop g then
        let d := overlay (slot_data f) (g_off g) (g_data g) in
        if FRAG_CONTENT_SIZE <? len d then (<[i := released f]> fs, None, false)
        else (<[i := released f]> fs, Some d, true)
      else
        let d := g_data g ++ slot_data f in
        if FRAG_BUF_SIZE <? len d then (<[i := released f]> fs, None, false)
        else (<[i := f <| f_buf := blit (f_buf f) 0 d |> <| f_len := len d |>
                       <| f_timestamp := now |>]> fs, None, true)
  end.

(** ** The content buffer *)

Lemma slot_data_len f : frag_ok f → len (slot_data f) = f_len f.
Proof.
  intros H. destruct (ok_f_buf _ H) as [Hl _], (ok_f_len _ H) as [? Hle]. unfold slot_data.
  rewrite len_take. unfold len, FRAG_BUF_SIZE in *. lia.
Qed.

Lemma slot_data_rd f : frag_ok f → rd_n (f_buf f) 0 (f_len f) = Some (slot_data f).
Proof.
  intros H. destruct (ok_f_buf _ H) as [Hl _], (ok_f_len _ H) as [? Hle].
  rewrite rd_n_Some by (unfold len, FRAG_BUF_SIZE in *; lia). done.
Qed.

Lemma slot_data_bytes f : frag_ok f → bytes (slot_data f).
Proof. intros H. apply Forall_take, H. Qed.

Lemma len_overlay buf off data :
  0 ≤ off → len (overlay buf off data) = len buf `max` (off + len data).
Proof.
  intros Hoff. unfold overlay, len. rewrite length_blit; rewrite length_app, length_replicate; lia.
Qed.

Lemma overlay_bytes buf off data : bytes buf → bytes data → bytes (overlay buf off data).
Proof.
  intros. apply blit_bytes; [|done]. apply Forall_app. split; [done|].
  by apply Forall_replicate, is_u_0.
Qed.

(** Writing at the front of the zeroed buffer, and then over it. *)
Lemma wr_n_zeros (n : nat) d :
  (length d ≤ n)%nat → wr_n (replicate n 0) 0 d = Some (d ++ replicate (n - length d) 0).
Proof.
  intros Hn. rewrite wr_n_Some by (unfold len; rewrite ?length_replicate; lia).
  change (Z.to_nat 0) with 0%nat. f_equal.
  replace (replicate n 0) with (replicate (length d) 0 ++ replicate (n - length d) 0).
  - apply blit_0. by rewrite length_replicate.
  - rewrite <-replicate_add. f_equal. lia.
Qed.

Lemma wr_n_overlay (n : nat) buf off data :
  0 ≤ off → (length buf ≤ n)%nat → off + len data ≤ Z.of_nat n →
  let d := overlay buf off data in
  wr_n (buf ++ replicate (n - length buf) 0) off data = Some (d ++ replicate (n - length d) 0).
Proof.
  intros Hoff Hn Hd. cbv zeta. pose proof (len_overlay buf off data Hoff) as Hl.
  rewrite wr_n_Some; [|done|rewrite len_app, len_replicate; unfold len in *; lia].
  f_equal. unfold overlay at 1. set (k := Z.to_nat (off + len data - len buf)).
  replace (replicate (n - length buf) 0)
    with (replicate k 0 ++ replicate (n - length (overlay buf off data)) 0).
  - rewrite app_assoc. apply blit_app. rewrite length_app, length_replicate.
    unfold k, len in *. lia.
  - rewrite <-replicate_add. f_equal. unfold k, len in *. lia.
Qed.

(** The bytes [frag_content] leaves at the front of the buffer. *)
Definition combined (f : frag) (g : fragment) : list Z :=
  if g_eop g then overlay (slot_data f) (g_off g) (g_data g) else g_data g ++ slot_data f.

Lemma frag_content_spec pkt f g :
  frag_ok f → rd_n pkt (HDR_SIZE + ETHPKT_SIZE) (len (g_data g)) = Some (g_data g) → 0 ≤ g_off g →
  frag_content pkt f (Z.b2z (g_eop g)) (g_off g) (len (g_data g)) =
  Some (let d := combined f g in
        if FRAG_CONTENT_SIZE <? len d then None
        else Some (d ++ replicate (Z.to_nat FRAG_CONTENT_SIZE - length d) 0, len d)).
Proof.
  intros Hf Hrd Hoff. pose proof (ok_f_len _ Hf) as [Hfl Hfl'].
  pose proof (slot_data_len _ Hf) as Hsl.
  unfold frag_content, combined, FRAG_CONTENT_SIZE, FRAG_BUF_SIZE in *.
  change (Z.to_nat 4096) with 4096%nat.
  destruct (g_eop g); cbn [Z.b2z Z.eqb].
  - rewrite len_overlay, Hsl by done. cbv zeta.
    assert ((if g_off g + len (g_data g) <? f_len f then f_len f
             else g_off g + len (g_data g)) = f_len f `max` (g_off g + len (g_data g))) as ->
      by (destruct (Z.ltb_spec (g_off g + len (g_data g)) (f_len f)); lia).
    destruct (Z.ltb_spec 4096 (f_len f `max` (g_off g + len (g_data g)))); [done|].
    rewrite !(proj2 (Z.leb_le _ _)) by lia. rewrite slot_data_rd, Hrd by done. cbn [mbind option_bind].
    rewrite wr_n_zeros by (unfold len in *; lia). cbn [mbind option_bind].
    rewrite wr_n_overlay by (unfold len in *; lia). done.
  - rewrite len_app, Hsl, (Z.add_comm (f_len f)). cbv zeta.
    destruct (Z.ltb_spec 4096 (len (g_data g) + f_len f)); [done|].
    rewrite slot_data_rd, Hrd by done. cbn [mbind option_bind].
    rewrite wr_n_zeros by (unfold len in *; lia). cbn [mbind option_bind].
    rewrite (wr_n_overlay 4096) by (unfold len in *; lia). cbn [mbind option_bind].
    do 3 f_equal. unfold overlay.
    assert (blit (g_data g ++ replicate (Z.to_nat (len (g_data g) + len (slot_data f) -
      len (g_data g))) 0) (Z.to_nat (len (g_data g))) (slot_data f) = g_data g ++ slot_data f) as ->.
    { unfold blit. rewrite to_nat_len, take_app_length, (drop_ge (_ ++ _)), app_nil_r; [done|].
      rewrite length_app, length_replicate. unfold len. lia. }
    done.
Qed.

(** ** The code implements the slots *)

Section refinement.
Context `{OS}.

(** Writing a packet to the TUN device. *)
Definition deliver (d : list Z) (w : world) : world :=
  let s := SWrite (c_tun_fd (w_c w)) d in
  mk_world ((w_c w) <| c_tun_tx := u32 (c_tun_tx (w_c w) + 1) |>) (Ev s (os (w_t w) s) :: w_t w).
Definition set_frags (fs : list frag) (w : world) : world :=
  mk_world ((w_c w) <| c_frags := fs |>) (w_t w).

(** A reassembled packet as it goes to the device. *)
Definition plain (c : client) (d : list Z) : list Z :=
  if c_encrypt c =? 0 then d else xor_bytes (c_xor_key c) d.

Lemma wp_frag_search n i pkt id now eop off n' w Q :
  length (c_frags (w_c w)) = (i + n)%nat →
  match list_find (holds id) (drop i (c_frags (w_c w))) with
  | None => Q 0 w
  | Some (k, f) => wp (frag_merge pkt (i + k) f now eop off n') w Q
  end →
  wp (frag_search n i pkt id now eop off n') w Q.
Proof.
  revert i. induction n as [|n IH]; intros i Hl HQ.
  { by rewrite drop_ge in HQ by lia. }
  destruct (lookup_lt_is_Some_2 (c_frags (w_c w)) i) as [f Hf]; [lia|].
  rewrite (drop_S _ _ _ Hf) in HQ. cbn [list_find] in HQ.
  cbn [frag_search]. wp_step. unfold get_slot. do 2 wp_step. apply (wp_mem _ f); [done|].
  destruct (decide (holds id f)) as [[Hu Hid]|Hn].
  - rewrite (proj2 (Z.eqb_neq _ _) Hu), (proj2 (Z.eqb_eq _ _) Hid). cbn [orb negb].
    by rewrite Nat.add_0_r in HQ.
  - assert ((f_in_use f =? 0) || negb (f_id f =? id) = true) as ->.
    { destruct (Z.eqb_spec (f_in_use f) 0), (Z.eqb_spec (f_id f) id); try done.
      by destruct Hn. }
    apply IH; [lia|].
    destruct (list_find _ (drop (S i) _)) as [[k f']|]; cbn in HQ; [|done].
    by rewrite <-Nat.add_succ_comm in HQ.
Qed.

Lemma wp_frag_free n i now w (Q : option nat → world → Prop) :
  length (c_frags (w_c w)) = (i + n)%nat →
  Q ((λ p, i + p.1)%nat <$> list_find (available now) (drop i (c_frags (w_c w)))) w →
  wp (frag_free n i now) w Q.
Proof.
  revert i. induction n as [|n IH]; intros i Hl HQ.
  { by rewrite drop_ge in HQ by lia. }
  destruct (lookup_lt_is_Some_2 (c_frags (w_c w)) i) as [f Hf]; [lia|].
  rewrite (drop_S _ _ _ Hf) in HQ. cbn [list_find] in HQ.
  cbn [frag_free]. wp_step. unfold get_slot. do 2 wp_step. apply (wp_mem _ f); [done|].
  assert ((f_in_use f =? 0) || (FRAG_TIMEOUT <=? u32 (now - f_timestamp f)) =
          bool_decide (available now f)) as ->.
  { destruct (Z.eqb_spec (f_in_use f) 0), (Z.leb_spec FRAG_TIMEOUT (u32 (now - f_timestamp f)));
      case_bool_decide as Hb; try done; exfalso; unfold available, expired in Hb; lia. }
  destruct (decide (available now f)) as [Ha|Ha].
  - rewrite bool_decide_eq_true_2 by done. cbn in HQ. by rewrite Nat.add_0_r in HQ.
  - rewrite bool_decide_eq_false_2 by done. apply IH; [lia|].
    destruct (list_find _ (drop (S i) _)) as [[k f']|]; cbn in HQ; [|done].
    cbn. by rewrite <-Nat.add_succ_comm in HQ.
Qed.

Lemma wp_set_slot i f w (Q : unit → world → Prop) :
  Q () (set_frags (<[i := f]> (c_frags (w_c w))) w) → wp (set_slot i f) w Q.
Proof. done. Qed.

(** One fragment of a group whose slot is [i]. *)
Lemma wp_frag_merge pkt i f now g w Q :
  frag_ok f → rd_n pkt (HDR_SIZE + ETHPKT_SIZE) (len (g_data g)) = Some (g_data g) → 0 ≤ g_off g →
  (let fs := c_frags (w_c w) in
   let d := combined f g in
   if decide (expired now f) then Q 0 (set_frags (<[i := released f]> fs) w)
   else if g_eop g then
     if FRAG_CONTENT_SIZE <? len d then Q (-1) (set_frags (<[i := released f]> fs) w)
     else Q 1 (set_frags (<[i := released f]> fs) (deliver (plain (w_c w) d) w))
   else if FRAG_BUF_SIZE <? len d then Q (-1) (set_frags (<[i := released f]> fs) w)
   else Q 1 (set_frags (<[i := f <| f_buf := blit (f_buf f) 0 d |> <| f_len := len d |>
                                 <| f_timestamp := now |>]> fs) w)) →
  wp (frag_merge pkt i f now (Z.b2z (g_eop g)) (g_off g) (len (g_data g))) w Q.
Proof.
  intros Hf Hg Hoff. cbv zeta. intros HQ. unfold frag_merge.
  destruct (decide (expired now f)) as [He|He].
  { unfold expired in He. rewrite (proj2 (Z.leb_le _ _) He).
    wp_step. apply wp_set_slot. by wp_step. }
  unfold expired in He. rewrite (proj2 (Z.leb_gt FRAG_TIMEOUT _)) by lia.
  wp_step. rewrite frag_content_spec by done. eapply wp_mem; [done|]. cbv beta zeta.
  unfold FRAG_CONTENT_SIZE, FRAG_BUF_SIZE in *. set (d := combined f g) in *.
  destruct (Z.ltb_spec 4096 (len d)) as [H1|H1].
  { wp_step. apply wp_set_slot. wp_step. destruct (g_eop g); [done|].
    by rewrite (proj2 (Z.ltb_lt 2048 _)) in HQ by lia. }
  destruct (g_eop g); cbn [Z.b2z Z.eqb negb].
  - do 3 wp_step. apply (wp_mono _ _ (λ x w', w' = w ∧ ∃ l, x = plain (w_c w) d ++ l ∧
      len (plain (w_c w) d) = len d)).
    { unfold plain. destruct (c_encrypt (w_c w) =? 0); cbn [negb].
      - wp_step. eauto.
      - eapply wp_mem; [by apply xor_encrypt_app|]. split; [done|]. eexists. split; [done|].
        unfold len. by rewrite length_xor_bytes. }
    intros x w' (-> & l & -> & Hpl). wp_step.
    eapply wp_mem; [by apply rd_n_head|]. do 4 wp_step.
    wp_step. apply wp_set_slot. by wp_step.
  - rewrite Z.leb_antisym. destruct (Z.ltb_spec 2048 (len d)) as [H2|H2]; cbn [negb].
    + wp_step. apply wp_set_slot. by wp_step.
    + wp_step. eapply wp_mem; [by apply rd_n_head|].
      wp_step. eapply wp_mem.
      { apply wr_n_Some; [done|]. unfold len at 2. rewrite (proj1 (ok_f_buf _ Hf)). lia. }
      wp_step. apply wp_set_slot. wp_step.
      rewrite u16_id by (unfold is_u; pose proof (len_nonneg d); lia). done.
Qed.

(** The world after the slots became [fs] and [out] was delivered. *)
Definition frag_world (r : list frag * option (list Z) * bool) (w : world) : world :=
  set_frags r.1.1 (match r.1.2 with
                   | None => w | Some d => deliver (plain (w_c w) d) w end).

Definition slots_ok (fs : list frag) : Prop := length fs = FRAG_SLOTS ∧ Forall frag_ok fs.

Lemma found_slot_ok P `{!∀ f, Decision (P f)} fs i f :
  slots_ok fs → list_find P fs = Some (i, f) → frag_ok f ∧ P f ∧ (i < FRAG_SLOTS)%nat.
Proof.
  intros [Hl Hfs] (Hi & HP & _)%list_find_Some. split_and!; [|done|].
  - by eapply Forall_lookup_1.
  - rewrite <-Hl. by eapply lookup_lt_Some.
Qed.

Definition fragment_ok (g : fragment) : Prop :=
  is_u32 (g_id g) ∧ 0 ≤ g_off g < 2 ^ 13 ∧ 0 < len (g_data g) < 2 ^ 11 ∧ bytes (g_data g).

Lemma wp_frag_new pkt now g w (Q : Z → world → Prop) :
  slots_ok (c_frags (w_c w)) → fragment_ok g → rd_n pkt (HDR_SIZE + ETHPKT_SIZE) (len (g_data g)) = Some (g_data g) →
  (let r := frag_alloc now g (c_frags (w_c w)) in Q (Z.b2z r.2) (frag_world r w)) →
  wp (frag_new pkt (g_id g) now (g_off g) (len (g_data g))) w Q.
Proof.
  intros Hfs (Hid & Hoff & Hlen & _) Hg HQ. unfold frag_new. wp_step.
  apply wp_frag_free; [by rewrite (proj1 Hfs)|]. rewrite drop_0. unfold frag_alloc in HQ.
  destruct (list_find _ _) as [[i f]|] eqn:Ef; cbn [fmap option_fmap option_map fst snd] in *.
  2:{ wp_step. unfold frag_world, set_frags in HQ. cbn in HQ. destruct w as [c tr].
      cbn [w_c w_t] in *. by destruct c. }
  destruct (found_slot_ok _ _ _ _ Hfs Ef) as (Hf & _ & Hi).
  apply list_find_Some in Ef as (Ei & _ & _).
  rewrite Nat.add_0_l. wp_step. unfold get_slot. do 2 wp_step. eapply wp_mem; [exact Ei|].
  wp_step. rewrite (proj2 (Z.leb_le _ _)) by (unfold FRAG_BUF_SIZE; lia).
  wp_step. eapply wp_mem; [exact Hg|].
  wp_step. eapply wp_mem.
  { apply wr_n_Some; [done|]. change (0 + len (g_data g) ≤ len (f_buf f)).
    unfold len at 2. rewrite (proj1 (ok_f_buf _ Hf)). lia. }
  do 2 wp_step. apply wp_set_slot. wp_step.
  rewrite !u16_id by (unfold is_u; lia). exact HQ.
Qed.

(** The header fields of a packet of [n] bytes. *)
Lemma frag_decode_Some pkt n g :
  bytes pkt → n ≤ len pkt → frag_decode (take (Z.to_nat n) pkt) = Some g →
  fragment_ok g ∧ 24 ≤ n ∧ n = len (g_data g) + 24 ∧
  rd_n pkt (HDR_SIZE + ETHPKT_SIZE) (len (g_data g)) = Some (g_data g).
Proof.
  intros Hb Hn. unfold frag_decode. set (p := take _ pkt).
  assert (bytes p) as Hp by (by apply Forall_take).
  assert (24 ≤ len p → len p = n) as Hlp by (unfold p; rewrite len_take; lia).
  destruct (_ && _ && _) eqn:E; [|done]. intros [= <-]. cbn [g_id g_off g_data g_eop].
  rewrite !andb_true_iff, negb_true_iff, Z.leb_le, Z.eqb_eq, Z.eqb_neq in E.
  destruct E as [[E1 E2] E3]. specialize (Hlp E1).
  pose proof (Z.mod_pos_bound (le_decode (take 4 (drop 20 p)) / 2 ^ 15) (2 ^ 11) ltac:(done)).
  pose proof (Z.mod_pos_bound (le_decode (take 4 (drop 20 p)) / 4) (2 ^ 13) ltac:(done)).
  assert (len (drop 24 p) = n - 24) as Hd by (rewrite len_drop; lia).
  split_and!; [|lia|lia|].
  - split_and!; cbn [g_id g_off g_data g_eop]; try lia; [|by apply Forall_drop].
    apply (is_u_le (8 * len (take 4 (drop 16 p)))).
    + rewrite len_take. pose proof (len_nonneg (drop 16 p)). lia.
    + by apply le_decode_is_u, Forall_take, Forall_drop.
  - rewrite Hd. change (HDR_SIZE + ETHPKT_SIZE) with 24.
    rewrite rd_n_Some by lia. f_equal. unfold p. rewrite skipn_firstn_comm. f_equal. lia.
Qed.

(** The bit fields, as the code extracts them. *)
Lemma frag_fields bf :
  Z.land bf 0x1 = Z.b2z (Z.odd bf) ∧
  Z.land (Z.shiftr bf 2) 0x1fff = (bf / 4) mod 2 ^ 13 ∧
  Z.land (Z.shiftr bf 15) 0x7ff = (bf / 2 ^ 15) mod 2 ^ 11.
Proof.
  change 0x1 with (Z.ones 1). change 0x1fff with (Z.ones 13). change 0x7ff with (Z.ones 11).
  rewrite !Z.land_ones, !Z.shiftr_div_pow2 by done. split_and!; [|done..].
  change (2 ^ 1) with 2. rewrite Zmod_odd. by destruct (Z.odd bf).
Qed.

Lemma rd_skip b (k : nat) i x l :
  drop k b = x :: l → Z.to_nat i = k → 0 ≤ i → rd b i = Some x.
Proof. intros Hd Hk Hi. apply (rd_head _ _ _ l); [done|]. by rewrite Hk. Qed.

Lemma slots_ok_release fs i f : slots_ok fs → frag_ok f → slots_ok (<[i := released f]> fs).
Proof.
  intros [Hl Hfs] []. split; [by rewrite length_insert|]. apply Forall_insert; [done|]. by split.
Qed.

Lemma frag_world_set r fs w : frag_world r (set_frags fs w) = frag_world r w.
Proof. by destruct r as [[fs' [d|]] b]. Qed.

(** The slots part of the handler. *)
Lemma wp_frag_step pkt now g w (Q : Z → world → Prop) :
  slots_ok (c_frags (w_c w)) → fragment_ok g →
  rd_n pkt (HDR_SIZE + ETHPKT_SIZE) (len (g_data g)) = Some (g_data g) →
  (let r := frag_step now g (c_frags (w_c w)) in Q (Z.b2z r.2) (frag_world r w)) →
  wp (found ← frag_search FRAG_SLOTS 0 pkt (g_id g) now (Z.b2z (g_eop g)) (g_off g)
                (len (g_data g));
      if negb (found =? 0) then mret (if 0 <? found then 1 else 0)
      else frag_new pkt (g_id g) now (g_off g) (len (g_data g))) w Q.
Proof.
  intros Hfs Hg Hrd HQ. wp_step. apply wp_frag_search; [by rewrite (proj1 Hfs)|].
  rewrite drop_0. unfold frag_step in HQ.
  destruct (list_find _ _) as [[i f]|] eqn:Ef; [|by apply wp_frag_new].
  destruct (found_slot_ok _ _ _ _ Hfs Ef) as (Hf & _ & _).
  apply wp_frag_merge; [done|done|apply Hg|]. cbv zeta.
  destruct (decide (expired now f)).
  { apply wp_frag_new; [by apply slots_ok_release|done|done|]. cbv zeta.
    rewrite frag_world_set. exact HQ. }
  unfold combined. destruct (g_eop g).
  - destruct (FRAG_CONTENT_SIZE <? len _); exact HQ.
  - destruct (FRAG_BUF_SIZE <? len _); exact HQ.
Qed.

(** [handle_ipfrag] is [frag_step] on the fragment in the packet. *)
Lemma wp_handle_ipfrag pkt n w (Q : Z → world → Prop) :
  slots_ok (c_frags (w_c w)) → bytes pkt → n ≤ len pkt →
  (let clock := os (w_t w) SClock in
   let now := u32 clock.1 in
   let w1 := mk_world (w_c w) (Ev SClock clock :: w_t w) in
   if decide (c_state (w_c w) = STATE_ESTABLISHED) then
     match frag_decode (take (Z.to_nat n) pkt) with
     | None => Q 0 w
     | Some g => let r := frag_step now g (c_frags (w_c w)) in
                 Q (Z.b2z r.2) (frag_world r w1)
     end
   else Q 0 w) →
  wp (handle_ipfrag pkt n) w Q.
Proof.
  intros Hfs Hb Hn. cbv zeta. intros HQ. unfold handle_ipfrag. do 2 wp_step.
  destruct (decide (c_state (w_c w) = STATE_ESTABLISHED)) as [Hs|Hs].
  2:{ rewrite (proj2 (Z.eqb_neq _ _) Hs). by wp_step. }
  rewrite (proj2 (Z.eqb_eq _ _) Hs). cbn [negb]. change (HDR_SIZE + ETHPKT_SIZE) with 24.
  set (p := take (Z.to_nat n) pkt) in *.
  destruct (Z.ltb_spec n 24) as [H24|H24].
  { wp_step. assert (frag_decode p = None) as E; [|by rewrite E in HQ].
    unfold frag_decode. rewrite (proj2 (Z.leb_gt 24 _)); [done|]. unfold p. rewrite len_take. lia. }
  wp_step. change (HDR_SIZE + 8) with 16. eapply wp_mem; [apply rd_n_Some; lia|].
  change (Z.to_nat 16) with 16%nat. change (Z.to_nat 4) with 4%nat.
  assert (∀ k, (k ≤ 20)%nat → take 4 (drop k p) = take 4 (drop k pkt)) as Hp.
  { intros k Hk. unfold p. rewrite skipn_firstn_comm, take_take. f_equal. lia. }
  pose proof (len_drop 20 pkt) as Hd.
  destruct (drop 20 pkt) as [|b0 [|b1 [|b2 [|b3 l]]]] eqn:Ed;
    autorewrite with c_len in Hd; try lia.
  assert (bytes (b0 :: b1 :: b2 :: b3 :: l)) as Hbs by (rewrite <-Ed; by apply Forall_drop).
  rewrite !Forall_cons in Hbs. destruct Hbs as (Hb0 & Hb1 & Hb2 & Hb3 & _).
  assert (∀ k, drop (k + 20) pkt = drop k (b0 :: b1 :: b2 :: b3 :: l)) as Hdk.
  { intros k. by rewrite Nat.add_comm, <-drop_drop, Ed. }
  wp_step. eapply wp_mem; [by apply (rd_skip _ _ _ _ _ (Hdk 0%nat))|].
  wp_step. eapply wp_mem; [by apply (rd_skip _ _ _ _ _ (Hdk 1%nat))|].
  wp_step. eapply wp_mem; [by apply (rd_skip _ _ _ _ _ (Hdk 2%nat))|].
  wp_step. eapply wp_mem; [by apply (rd_skip _ _ _ _ _ (Hdk 3%nat))|].
  cbv zeta. rewrite le4_value by done. set (bf := le_decode [b0; b1; b2; b3]).
  destruct (frag_fields bf) as (-> & -> & ->).
  assert (len p = n) as Hpl by (unfold p; rewrite len_take; lia).
  pose proof (frag_decode_Some pkt n) as Hdec. fold p in Hdec.
  unfold frag_decode in HQ, Hdec. rewrite !Hp, Ed in HQ, Hdec by lia.
  change (take 4 (b0 :: b1 :: b2 :: b3 :: l)) with [b0; b1; b2; b3] in *. fold bf in HQ, Hdec.
  rewrite Hpl, (proj2 (Z.leb_le 24 n)) in HQ, Hdec by done.
  rewrite <-Z.add_assoc. change (HDR_SIZE + ETHPKT_SIZE) with 24.
  set (m := (bf / 2 ^ 15) mod 2 ^ 11) in *.
  destruct (Z.eqb_spec n (m + 24)) as [Hm|Hm]; cbn [negb andb] in *; [|by wp_step].
  destruct (Z.eqb_spec m 0) as [H0|H0]; cbn [negb andb] in *; [by wp_step|].
  destruct (Hdec _ Hb Hn eq_refl) as (Hg & _ & Hgl & Hrd).
  assert (len (drop 24 p) = m) as Hdl by (rewrite len_drop; lia).
  wp_step. wp_step. rewrite <-Hdl.
  by apply (wp_frag_step _ _ (mk_fragment _ (Z.odd bf) _ (drop 24 p))).
Qed.
End refinement.

(** ** Well-formedness of the slots *)

Lemma frag_insert_ok fs i f : slots_ok fs → frag_ok f → slots_ok (<[i := f]> fs).
Proof.
  intros [Hl Hfs] Hf. split; [by rewrite length_insert|]. by apply Forall_insert.
Qed.

(** A slot holding [d]. *)
Lemma frag_ok_stored f d now id off u :
  frag_ok f → bytes d → len d ≤ FRAG_BUF_SIZE → is_u32 now →
  frag_ok (mk_frag (blit (f_buf f) 0 d) now id off (len d) u).
Proof.
  intros [[Hl Hb] _ _] Hd Hle Hnow. unfold len, FRAG_BUF_SIZE in *.
  split; cbn [f_buf f_timestamp f_len]; [|done|unfold FRAG_BUF_SIZE; lia].
  split; [rewrite length_blit; [done|]; lia|]. by apply blit_bytes.
Qed.

Lemma frag_alloc_ok now g fs :
  slots_ok fs → fragment_ok g → is_u32 now →
  slots_ok (frag_alloc now g fs).1.1 ∧ (frag_alloc now g fs).1.2 = None.
Proof.
  intros Hfs (_ & _ & Hlen & Hb) Hnow. unfold frag_alloc.
  destruct (list_find _ _) as [[i f]|] eqn:Ef; [|done]. split; [|done].
  destruct (found_slot_ok _ _ _ _ Hfs Ef) as (Hf & _ & _).
  apply frag_insert_ok; [done|]. apply frag_ok_stored; auto. unfold FRAG_BUF_SIZE. lia.
Qed.

Lemma frag_step_ok now g fs :
  slots_ok fs → fragment_ok g → is_u32 now → slots_ok (frag_step now g fs).1.1.
Proof.
  intros Hfs Hg Hnow. unfold frag_step.
  destruct (list_find _ _) as [[i f]|] eqn:Ef; [|by apply frag_alloc_ok].
  destruct (found_slot_ok _ _ _ _ Hfs Ef) as (Hf & _ & _).
  pose proof (slots_ok_release fs i f Hfs Hf) as Hrel.
  repeat case_match; try done; [by apply frag_alloc_ok|].
  apply frag_insert_ok; [done|]. pose proof (slot_data_bytes _ Hf).
  destruct f as [fb ft fi fo fl fu]. apply (frag_ok_stored (mk_frag fb ft fi fo fl fu));
    [done| |by apply Z.ltb_ge|done].
  destruct Hg as (_ & _ & _ & Hb). by apply Forall_app.
Qed.

Lemma set_frags_frame c fs : slots_ok fs → same_frame c (c <| c_frags := fs |>).
Proof. intros Hfs. frame_update ltac:(done). Qed.

Lemma tun_tx_frame c n : same_frame c (c <| c_tun_tx := n |>).
Proof. frame_update ltac:(done). Qed.

Lemma framed_event c c' tr ev :
  neutral_event ev → same_frame c c' → framed (mk_world c tr) (mk_world c' (ev :: tr)).
Proof.
  intros Hev Hc. apply (framed_intro c c' tr [ev]); [done|].
  apply neutral_events. by constructor.
Qed.
Lemma framed_update c c' tr : same_frame c c' → framed (mk_world c tr) (mk_world c' tr).
Proof. intros Hc. by apply (framed_intro c c' tr []). Qed.

Lemma deliver_framed `{OS} d w : framed w (deliver d w).
Proof. destruct w as [c tr]. apply framed_event; [done|]. apply tun_tx_frame. Qed.

Lemma frag_world_framed `{OS} r w : slots_ok r.1.1 → framed w (frag_world r w).
Proof.
  intros Hr. destruct r as [[fs [d|]] b]; unfold frag_world; cbn [fst snd] in *.
  - etransitivity; [apply deliver_framed|]. by apply framed_update, set_frags_frame.
  - destruct w. by apply framed_update, set_frags_frame.
Qed.

(** ** Reassembly *)

Lemma list_find_insert {A} (P : A → Prop) `{!∀ x, Decision (P x)} l i x :
  list_find P l = None → P x → (i < length l)%nat → list_find P (<[i := x]> l) = Some (i, x).
Proof.
  intros Hn Hx Hi. apply list_find_Some. split_and!.
  - by apply list_lookup_insert_eq.
  - done.
  - intros j y Hj Hlt. rewrite list_lookup_insert_ne in Hj by lia.
    apply list_find_None in Hn. by eapply (Forall_lookup_1 _ _ _ _ Hn).
Qed.

Lemma overlay_app a b : overlay a (len a) b = a ++ b.
Proof.
  unfold overlay, blit. rewrite to_nat_len, take_app_length, (drop_ge (_ ++ _)), app_nil_r;
    [done|]. rewrite length_app, length_replicate. unfold len. lia.
Qed.

(** The first fragment of a group, and what then holds the group. *)
Lemma frag_step_first now g fs i f :
  slots_ok fs → fragment_ok g → list_find (holds (g_id g)) fs = None →
  list_find (available now) fs = Some (i, f) →
  let f' := mk_frag (blit (f_buf f) 0 (g_data g)) now (g_id g) (g_off g) (len (g_data g)) 1 in
  frag_step now g fs = (<[i := f']> fs, None, true) ∧
  list_find (holds (g_id g)) (<[i := f']> fs) = Some (i, f') ∧ slot_data f' = g_data g.
Proof.
  intros Hfs Hg Hn Ha f'. destruct (found_slot_ok _ _ _ _ Hfs Ha) as (Hf & _ & Hi).
  split_and!.
  - unfold frag_step. rewrite Hn. unfold frag_alloc. by rewrite Ha.
  - apply list_find_insert; [done|by split|]. by rewrite (proj1 Hfs).
  - unfold slot_data. cbn [f_len f_buf f']. rewrite to_nat_len. apply take_blit_0.
Qed.

(** A middle fragment is put in front of what the slot holds. *)
Lemma frag_step_more now g fs i f :
  list_find (holds (g_id g)) fs = Some (i, f) → (i < length fs)%nat → ¬ expired now f →
  g_eop g = false → len (g_data g) + len (slot_data f) ≤ FRAG_BUF_SIZE →
  ∃ f', frag_step now g fs = (<[i := f']> fs, None, true) ∧
    list_find (holds (g_id g)) (<[i := f']> fs) = Some (i, f') ∧
    slot_data f' = g_data g ++ slot_data f ∧ f_timestamp f' = now.
Proof.
  intros Hf Hi He Heop Hlen.
  exists (f <| f_buf := blit (f_buf f) 0 (g_data g ++ slot_data f) |>
            <| f_len := len (g_data g ++ slot_data f) |> <| f_timestamp := now |>).
  split_and!; [| | |done].
  3:{ set (d := g_data g ++ slot_data f).
      transitivity (take (Z.to_nat (len d)) (blit (f_buf f) 0 d)); [done|].
      by rewrite to_nat_len, take_blit_0. }
  - unfold frag_step. rewrite Hf, decide_False, Heop by done. cbv zeta.
    rewrite len_app, (proj2 (Z.ltb_ge _ _)) by done. done.
  - apply list_find_Some in Hf as (Hi' & [Hu Hid] & Hj). apply list_find_Some. split_and!.
    + by apply list_lookup_insert_eq.
    + by split.
    + intros j y. destruct (decide (i = j)) as [->|Hne]; [lia|].
      rewrite list_lookup_insert_ne by done. apply Hj.
Qed.

(** The last fragment completes the packet. *)
Lemma frag_step_last now g fs i f :
  list_find (holds (g_id g)) fs = Some (i, f) → ¬ expired now f →
  g_eop g = true → g_off g = len (slot_data f) →
  len (slot_data f) + len (g_data g) ≤ FRAG_CONTENT_SIZE →
  frag_step now g fs = (<[i := released f]> fs, Some (slot_data f ++ g_data g), true).
Proof.
  intros Hf He Heop Hoff Hlen. unfold frag_step.
  rewrite Hf, decide_False, Heop, Hoff by done. cbv zeta.
  rewrite overlay_app, len_app, (proj2 (Z.ltb_ge _ _)) by done. done.
Qed.

(** Three parts, the last one at the end. *)
Lemma frag_steps_three t1 t2 t3 a b c fs :
  slots_ok fs → fragment_ok a → fragment_ok b → fragment_ok c → is_u32 t1 → is_u32 t2 →
  g_id b = g_id a → g_id c = g_id a → g_eop a = false → g_eop b = false → g_eop c = true →
  g_off c = len (g_data a) + len (g_data b) →
  len (g_data a) + len (g_data b) ≤ FRAG_BUF_SIZE →
  list_find (holds (g_id a)) fs = None → list_find (available t1) fs ≠ None →
  u32 (t2 - t1) < FRAG_TIMEOUT → u32 (t3 - t2) < FRAG_TIMEOUT →
  ∃ fs1 fs2 fs3,
    frag_step t1 a fs = (fs1, None, true) ∧ frag_step t2 b fs1 = (fs2, None, true) ∧
    frag_step t3 c fs2 = (fs3, Some (g_data b ++ g_data a ++ g_data c), true) ∧
    slots_ok fs1 ∧ slots_ok fs2.
Proof.
  intros Hfs Hga Hgb Hgc Hu1 Hu2 Hidb Hidc Hea Heb Hec Hoff Hlen Hnone Hav Ht1 Ht2.
  destruct (list_find (available _) _) as [[i f]|] eqn:Hf; [|done].
  destruct (frag_step_first _ _ _ _ _ Hfs Hga Hnone Hf) as (E1 & E2 & E3).
  set (f1 := mk_frag _ _ _ _ _ _) in *.
  pose proof (frag_step_ok t1 a _ Hfs Hga Hu1) as Hfs1. rewrite E1 in Hfs1. cbn [fst] in Hfs1.
  destruct (frag_step_more t2 b (<[i := f1]> fs) i f1) as (f2 & E4 & E5 & E6 & E7); [| | |done| |].
  { by rewrite Hidb. }
  { rewrite (proj1 Hfs1). by destruct (found_slot_ok _ _ _ _ Hfs Hf) as (_ & _ & ?). }
  { unfold expired. cbn [f_timestamp f1]. lia. }
  { rewrite E3. lia. }
  pose proof (frag_step_ok t2 b _ Hfs1 Hgb Hu2) as Hfs2. rewrite E4 in Hfs2. cbn [fst] in Hfs2.
  do 3 eexists. split_and!; [exact E1|exact E4| |done|done].
  rewrite app_assoc. rewrite <-E3, <-E6 at 1.
  rewrite Hidb, <-Hidc in E5. apply frag_step_last; [done| |done| |].
  - unfold expired. rewrite E7. lia.
  - rewrite E6, E3, len_app. lia.
  - destruct Hgc as (_ & _ & ? & _). rewrite E6, E3, len_app.
    unfold FRAG_CONTENT_SIZE, FRAG_BUF_SIZE in *. lia.
Qed.

(** ** Fragment packets *)

(** A packet carrying a fragment; the first 16 bytes are not looked at. *)
Definition frag_encode (g : fragment) : list Z :=
  replicate 16 0 ++ le_encode 4 (g_id g) ++
  le_encode 4 (Z.b2z (g_eop g) + g_off g * 2 ^ 2 + len (g_data g) * 2 ^ 15) ++ g_data g.

Lemma frag_encode_bytes g : bytes (g_data g) → bytes (frag_encode g).
Proof.
  intros. unfold frag_encode. rewrite !Forall_app. split_and!; auto with c_ints.
  by apply Forall_replicate, is_u_0.
Qed.

Lemma frag_decode_encode g : fragment_ok g → frag_decode (frag_encode g) = Some g.
Proof.
  intros (Hid & Hoff & Hlen & _). unfold frag_decode.
  assert (len (frag_encode g) = len (g_data g) + 24) as Hl.
  { unfold frag_encode. autorewrite with c_len. lia. }
  set (bf := Z.b2z (g_eop g) + g_off g * 2 ^ 2 + len (g_data g) * 2 ^ 15).
  assert (take 4 (drop 20 (frag_encode g)) = le_encode 4 bf) as -> by done.
  assert (take 4 (drop 16 (frag_encode g)) = le_encode 4 (g_id g)) as -> by done.
  assert (drop 24 (frag_encode g) = g_data g) as -> by done.
  rewrite !le_decode_encode, Hl. change (8 * Z.of_nat 4) with 32.
  assert (0 ≤ Z.b2z (g_eop g) ≤ 1) as Hb by (destruct (g_eop g); cbn; lia).
  rewrite (Z.mod_small bf), (Z.mod_small (g_id g)) by (unfold bf, is_u in *; lia).
  assert (bf / 2 ^ 15 = len (g_data g)) as ->.
  { unfold bf. rewrite Z.div_add, Z.div_small by lia. lia. }
  assert ((bf / 4) mod 2 ^ 13 = g_off g) as ->.
  { unfold bf. change (2 ^ 2) with 4. replace (2 ^ 15) with (2 ^ 13 * 4) by done.
    rewrite Z.mul_assoc, !Z.div_add, Z.div_small, Z.add_0_l by lia.
    rewrite Z.mod_add, Z.mod_small by lia. done. }
  assert (Z.odd bf = g_eop g) as ->.
  { unfold bf. change (2 ^ 2) with (2 * 2). change (2 ^ 15) with (2 * 2 ^ 14).
    rewrite !Z.odd_add, !Z.odd_mul. cbn [Z.odd andb]. rewrite !andb_false_r, !xorb_false_r.
    by destruct (g_eop g). }
  rewrite (Z.mod_small (len _)), (proj2 (Z.leb_le 24 _)), Z.eqb_refl, (proj2 (Z.eqb_neq _ 0))
    by lia. cbn. by destruct g.
Qed.

(** ** The theorems *)

Section theorems.
Context `{OS}.

(** The handler on a sequence of packets. *)
Definition ipfrags (pkts : list (list Z)) : M (list Z) :=
  mapM (λ p, handle_ipfrag p (len p)) pkts.

Definition clock_of (tr : trace) : Z := u32 (os tr SClock).1.
Definition tick (tr : trace) : trace := Ev SClock (os tr SClock) :: tr.

(** One accepted fragment in an established session. *)
Lemma wp_accept p g fs out b w (Q : Z → world → Prop) :
  slots_ok (c_frags (w_c w)) → c_state (w_c w) = STATE_ESTABLISHED → bytes p →
  frag_decode p = Some g →
  frag_step (clock_of (w_t w)) g (c_frags (w_c w)) = (fs, out, b) →
  Q (Z.b2z b) (frag_world (fs, out, b) (mk_world (w_c w) (tick (w_t w)))) →
  wp (handle_ipfrag p (len p)) w Q.
Proof.
  intros Hfs Hs Hp Hg Hstep HQ. apply wp_handle_ipfrag; [done|done|lia|]. cbv zeta.
  rewrite decide_True, to_nat_len, firstn_all, Hg by done.
  fold (clock_of (w_t w)). by rewrite Hstep.
Qed.

Lemma frag_decode_ok p g : bytes p → frag_decode p = Some g → fragment_ok g.
Proof.
  intros Hp Hg. apply (frag_decode_Some p (len p)); [done|lia|].
  by rewrite to_nat_len, firstn_all.
Qed.

Lemma wp_ipfrag_framed pkt n w :
  slots_ok (c_frags (w_c w)) → bytes pkt → n ≤ len pkt →
  wp (handle_ipfrag pkt n) w (λ _ w', framed w w' ∧ c_state (w_c w') = c_state (w_c w)).
Proof.
  intros Hfs Hb Hn. apply wp_handle_ipfrag; [done..|]. cbv zeta.
  destruct (decide _) as [_|_]; [|done].
  destruct (frag_decode _) as [g|] eqn:Hg; [|done].
  destruct (frag_decode_Some _ _ _ Hb Hn Hg) as (Hgok & _).
  set (now := u32 _). set (w1 := mk_world _ _).
  pose proof (frag_step_ok now g _ Hfs Hgok (u32_is _)) as Hok.
  split.
  - transitivity w1; [|by apply frag_world_framed].
    destruct w. apply framed_event; [done|]. apply same_frame_refl.
  - destruct (frag_step now g _) as [[fs [d|]] b]; done.
Qed.


(** C30: with two middle parts, the second is put in front of the first: parts a, b, c of one
    packet that arrive in order come out as b, a, c. *)
Theorem reassemble_three pa pb pc a b c w :
  slots_ok (c_frags (w_c w)) → c_state (w_c w) = STATE_ESTABLISHED →
  bytes pa → bytes pb → bytes pc →
  frag_decode pa = Some a → frag_decode pb = Some b → frag_decode pc = Some c →
  g_id b = g_id a → g_id c = g_id a →
  g_eop a = false → g_eop b = false → g_eop c = true →
  g_off c = len (g_data a) + len (g_data b) →
  len (g_data a) + len (g_data b) ≤ FRAG_BUF_SIZE →
  list_find (holds (g_id a)) (c_frags (w_c w)) = None →
  list_find (available (clock_of (w_t w))) (c_frags (w_c w)) ≠ None →
  u32 (clock_of (tick (w_t w)) - clock_of (w_t w)) < FRAG_TIMEOUT →
  u32 (clock_of (tick (tick (w_t w))) - clock_of (tick (w_t w))) < FRAG_TIMEOUT →
  ∃ w', ipfrags [pa; pb; pc] w = Some ([1; 1; 1], w') ∧
    written (c_tun_fd (w_c w)) (w_t w') =
      written (c_tun_fd (w_c w)) (w_t w) ++
        [plain (w_c w) (g_data b ++ g_data a ++ g_data c)].
Proof.
  intros Hfs Hs Hpa Hpb Hpc Ha Hb Hc Hidb Hidc Hea Heb Hec Hoff Hlen Hnone Hav Ht1 Ht2.
  destruct (frag_steps_three (clock_of (w_t w)) (clock_of (tick (w_t w)))
    (clock_of (tick (tick (w_t w)))) a b c (c_frags (w_c w)))
    as (fs1 & fs2 & fs3 & E1 & E2 & E3 & Hfs1 & Hfs2);
    try done; eauto using frag_decode_ok, u32_is.
  enough (wp (ipfrags [pa; pb; pc]) w (λ r w', r = [1; 1; 1] ∧
    written (c_tun_fd (w_c w)) (w_t w') = written (c_tun_fd (w_c w)) (w_t w) ++
      [plain (w_c w) (g_data b ++ g_data a ++ g_data c)])) as Hwp.
  { apply wp_run in Hwp as (r & w' & E & -> & HQ). by exists w'. }
  unfold ipfrags, mapM. wp_step. eapply wp_accept; [done..|].
  do 2 wp_step. eapply wp_accept; [exact Hfs1|exact Hs|done|done|exact E2|].
  do 2 wp_step. eapply wp_accept; [exact Hfs2|exact Hs|done|done|exact E3|].
  wp_steps. split; [done|]. cbn. by rewrite Z.eqb_refl.
Qed.

(** C31: the code's ten slots and content buffer implement [frag_step] on the fragment in the
    packet: same slots, same packet delivered, same acceptance; a packet that holds no
    well-formed fragment, or arrives outside a session, changes nothing. *)
Theorem handle_ipfrag_refines pkt w :
  client_ok (w_c w) → bytes pkt →
  handle_ipfrag pkt (len pkt) w =
    if decide (c_state (w_c w) = STATE_ESTABLISHED) then
      match frag_decode pkt with
      | None => Some (0, w)
      | Some g =>
          let r := frag_step (clock_of (w_t w)) g (c_frags (w_c w)) in
          Some (Z.b2z r.2, frag_world r (mk_world (w_c w) (tick (w_t w))))
      end
    else Some (0, w).
Proof.
  intros Hc Hb. set (res := if decide _ then _ else _).
  assert (wp (handle_ipfrag pkt (len pkt)) w (λ r w', res = Some (r, w'))) as Hwp.
  { apply wp_handle_ipfrag; [apply Hc|done|lia|]. cbv zeta. unfold res.
    rewrite to_nat_len, firstn_all. destruct (decide _); [|done].
    by destruct (frag_decode pkt). }
  by apply wp_run in Hwp as (r & w' & E & ->).
Qed.

(** For every packet in every state, reassembly touches no memory outside its buffers,
    keeps the slots well-formed and the descriptors and session alone. *)
Theorem handle_ipfrag_safe pkt n w :
  client_ok (w_c w) → bytes pkt → n ≤ len pkt →
  ∃ r w', handle_ipfrag pkt n w = Some (r, w') ∧ framed w w' ∧ client_ok (w_c w') ∧
    c_state (w_c w') = c_state (w_c w).
Proof.
  intros Hc Hb Hn. pose proof (ok_frags _ Hc) as Hfs.
  apply (wp_run _ _ (λ _ w', framed w w' ∧ client_ok (w_c w') ∧ c_state (w_c w') = c_state (w_c w))).
  apply (wp_mono _ _ (λ _ w', framed w w' ∧ c_state (w_c w') = c_state (w_c w))).
  2:{ intros x w' [Hf Hs]. split_and!; [done|by apply Hf|done]. }
  by apply wp_ipfrag_framed.
Qed.
End theorems.

(** ** Witnesses *)

Definition session : client :=
  client_init <| c_state := STATE_ESTABLISHED |> <| c_tun_fd := 3 |> <| c_udp_fd := 4 |>
    <| c_encrypt := 1 |> <| c_xor_key := [1; 2; 3; 4; 5; 6; 7; 8] |>.
Definition part1 : fragment := mk_fragment 77 false 0 [10; 20; 30].
Definition part2 : fragment := mk_fragment 77 false 3 [40; 50].
Definition part3 : fragment := mk_fragment 77 true 5 [60].
Definition part2_last : fragment := mk_fragment 77 true 3 [40; 50].

Lemma session_ok : client_ok session.
Proof.
  pose proof client_init_ok as []. split; try assumption; [done|].
  split; [done|by apply byte_list_ok].
Qed.

Lemma session_slots : slots_ok (c_frags session).
Proof. apply (ok_frags _ client_init_ok). Qed.


Lemma reassemble_three_witness :
  ∃ w', ipfrags (H := still_os) (map frag_encode [part1; part2; part3])
          (mk_world session []) = Some ([1; 1; 1], w') ∧
    written 3 (w_t w') = [xor_bytes [1; 2; 3; 4; 5; 6; 7; 8] [40; 50; 10; 20; 30; 60]].
Proof.
  apply (reassemble_three (H := still_os) (frag_encode part1) (frag_encode part2)
    (frag_encode part3) part1 part2 part3 (mk_world session [])); try reflexivity;
    try discriminate; [exact session_slots|by apply byte_list_ok..].
Defined.

Lemma handle_ipfrag_safe_witness :
  client_ok client_init ∧
  ∃ r w', handle_ipfrag (H := still_os) [0x21] 1 (mk_world client_init []) = Some (r, w') ∧
    framed (mk_world client_init []) w' ∧ client_ok (w_c w') ∧ c_state (w_c w') = 0.
Proof.
  split; [exact client_init_ok|].
  apply (handle_ipfrag_safe (H := still_os) [0x21] 1 (mk_world client_init []));
    [exact client_init_ok|by apply byte_list_ok|done].
Defined.

Lemma handle_ipfrag_refines_witness :
  handle_ipfrag (H := still_os) (frag_encode part1) 27 (mk_world session []) =
  Some (1, frag_world (H := still_os) (frag_step 100 part1 (c_frags session))
             (mk_world session [Ev SClock (100, 0)])).
Proof.
  pose proof (handle_ipfrag_refines (H := still_os) (frag_encode part1) (mk_world session [])) as E.
  exact (E session_ok ltac:(by apply byte_list_ok)).
Defined.
