(* ===== verification/Recv.v ===== *)
(** The data path, as in [src/iwand.c]: handling the packets that arrive from the server
    (handle_data, handle_echo_resp, handle_close, handle_openrej, handle_segrt with
    sr_decrypt, and the dispatcher handle_recv) and from the TUN device (handle_tun_recv). *)
From S2P Require Import Prelude Aes Client Os Tun TunLinux CMonad Packet OpenAck Frag.

(** ** Segment-routing decryption *)

(** The [for] loop with [block_size = 16], from offset [off]: in-place AES, block by block.
    [None] is an access out of bounds (or no fuel), which the theorems exclude. *)
Fixpoint sr_blocks (fuel : nat) (key data : list Z) (off n : Z) : option (list Z) :=
  if off <? n then
    match fuel with
    | O => None
    | S fuel' =>
        block ← rd_n data off 16;
        data ← wr_n data off (aes_decrypt_block block key);
        sr_blocks fuel' key data (off + 16) n
    end
  else Some data.

(** The result code and the buffer. *)
Definition sr_decrypt (key data : list Z) (n : Z) (srhdr2 : Z) : option (Z * list Z) :=
  let block_size := if Z.land srhdr2 0x7 =? 1 then 16 else 32 in
  if negb (Z.rem n block_size =? 0) then Some (-1, data) else
  if block_size =? 16
  then data ← sr_blocks (Z.to_nat n) key data 0 n; Some (0, data)
  else Some (0, data).

Section handlers.
Context `{OS, TunBackend}.

(** ** Data *)
Definition handle_data (pkt : list Z) (pktlen : Z) : M Z :=
  c ← get_c;
  if negb (c_state c =? STATE_ESTABLISHED) then mret 0 else
  if pktlen <=? HDR_SIZE then mret 0 else
  let payload_len := pktlen - HDR_SIZE in
  if MAX_PKT_SIZE <? payload_len then mret 0 else
  payload ← mem (rd_n pkt HDR_SIZE payload_len);
  decrypted ← mem (emit MAX_PKT_SIZE [] payload);
  ty ← mem (rd pkt 0);
  decrypted ← (if ty =? PKT_DATA_ENC
               then mem (xor_encrypt (c_xor_key c) decrypted payload_len) else mret decrypted);
  n ← io (call (SWrite (c_tun_fd c) decrypted));
  _ ← when (0 <? n) (mod_c (λ c, c <| c_tun_tx := u32 (c_tun_tx c + 1) |>));
  mret 1.

(** ** Control packets *)
Definition handle_echo_resp (pkt : list Z) (pktlen : Z) : M Z :=
  c ← get_c;
  if negb (c_state c =? STATE_ESTABLISHED) then mret 0 else
  valid ← mem (pkt_verify pkt pktlen);
  if negb valid then mret 0 else
  now ← io mono_usecs;
  _ ← when (HDR_SIZE + SIGN_SIZE + 8 <=? pktlen)
        (sent ← mem (rd_n pkt (HDR_SIZE + SIGN_SIZE) 8);
         let delay := u32 (u64 (now - le_decode sent)) in
         _ ← mod_c (λ c, c <| c_cur_delay := delay |>);
         c ← get_c;
         _ ← when (c_max_delay c <? delay) (mod_c (λ c, c <| c_max_delay := delay |>));
         when (delay <? c_min_delay c) (mod_c (λ c, c <| c_min_delay := delay |>)));
  mret 1.

Definition handle_close (pkt : list Z) (pktlen : Z) : M Z :=
  c ← get_c;
  if negb (c_state c =? STATE_ESTABLISHED) then mret 0 else
  valid ← mem (pkt_verify pkt pktlen);
  if negb valid then mret 0 else
  _ ← mod_c (λ c, c <| c_state := STATE_CLOSED |>);
  mret 1.

Definition handle_openrej (pkt : list Z) (pktlen : Z) : M unit :=
  c ← get_c;
  if negb (c_state c =? STATE_AUTH_SENT) then mret () else
  mod_c (λ c, c <| c_state := STATE_CLOSED |>).

(** ** Segment routing *)

(** The buffer and inner length after decryption, [None] when the packet is dropped. *)
Definition segrt_decrypt (cfg : config) (pkt decrypt_buf : list Z) (inner_len : Z)
  : M (option (list Z * Z)) :=
  if (0 <? cfg_sr_count cfg) && (0 <? cfg_sr_encrypt_mode cfg) then
    base2 ← mem (rd pkt (HDR_SIZE + 2));
    let encrypt_algo := Z.land base2 0x7 in
    if encrypt_algo =? cfg_sr_encrypt_mode cfg then
      c ← get_c;
      '(ret, decrypt_buf) ← mem (sr_decrypt (c_sr_decrypt_key c) decrypt_buf inner_len base2);
      if ret <? 0 then mret None else
      let padlen := Z.land (Z.shiftr base2 3) 0x1f in
      mret (Some (decrypt_buf, if (0 <? padlen) && (padlen <? inner_len)
                               then inner_len - padlen else inner_len))
    else if negb (encrypt_algo =? 0) then mret None
    else mret (Some (decrypt_buf, inner_len))
  else mret (Some (decrypt_buf, inner_len)).

Definition handle_segrt (cfg : config) (pkt : list Z) (pktlen : Z) : M Z :=
  c ← get_c;
  if negb (c_state c =? STATE_ESTABLISHED) then mret 0 else
  if pktlen <? HDR_SIZE + 4 then mret 0 else
  linkcnt ← mem (rd pkt (HDR_SIZE + 1));
  let sr_hdr_len := linkcnt * 4 + 4 in
  if pktlen <? HDR_SIZE + sr_hdr_len then mret 0 else
  let inner_len := pktlen - HDR_SIZE - sr_hdr_len in
  if inner_len <=? 0 then mret 0 else
  if MAX_PKT_SIZE <? inner_len then mret 0 else
  inner ← mem (rd_n pkt (HDR_SIZE + sr_hdr_len) inner_len);
  decrypt_buf ← mem (emit MAX_PKT_SIZE [] inner);
  r ← segrt_decrypt cfg pkt decrypt_buf inner_len;
  match r with
  | None => mret 0
  | Some (decrypt_buf, inner_len) =>
      ty ← mem (rd decrypt_buf 0);
      if ty =? PKT_IPFRAG_SR then handle_ipfrag decrypt_buf inner_len else
      if negb (ty =? PKT_DATA) && negb (ty =? PKT_DATA_ENC) then mret 0 else
      if inner_len <=? HDR_SIZE then mret 0 else
      let data_len := inner_len - HDR_SIZE in
      data ← mem (rd_n decrypt_buf HDR_SIZE data_len);
      data ← (if ty =? PKT_DATA_ENC
              then mem (xor_encrypt (c_xor_key c) data data_len) else mret data);
      _ ← io (call (SWrite (c_tun_fd c) data));
      _ ← mod_c (λ c, c <| c_tun_tx := u32 (c_tun_tx c + 1) |>);
      mret 1
  end.

(** ** The dispatcher *)
Definition handle_recv (cfg : config) (pkt : list Z) (pktlen : Z) : M unit :=
  if pktlen <? HDR_SIZE then mret () else
  pkt_type ← mem (rd pkt 0);
  _ ← mod_c (λ c, c <| c_rx_pkts := u32 (c_rx_pkts c + 1) |>);
  let alive := now ← io mono_secs; mod_c (λ c, c <| c_last_recv_time := now |>) in
  if (pkt_type =? PKT_DATA) || (pkt_type =? PKT_DATA_ENC) then
    r ← handle_data pkt pktlen; when (negb (r =? 0)) alive
  else
    let accept (m : M Z) : M unit := r ← m; when (negb (r =? 0)) alive in
    if pkt_type =? PKT_OPENACK then accept (handle_openack cfg pkt pktlen)
    else if pkt_type =? PKT_OPENREJ then handle_openrej pkt pktlen
    else if pkt_type =? PKT_ECHORESP then accept (handle_echo_resp pkt pktlen)
    else if pkt_type =? PKT_CLOSE then accept (handle_close pkt pktlen)
    else if pkt_type =? PKT_IPFRAG then accept (handle_ipfrag pkt pktlen)
    else if pkt_type =? PKT_SEGRT then accept (handle_segrt cfg pkt pktlen)
    else mret ().

(** ** From the TUN device *)
Definition handle_tun_recv : M unit :=
  c ← get_c;
  r ← io (call (SRead (c_tun_fd c) (MAX_PKT_SIZE - HDR_SIZE)));
  match r with
  | None => mret ()
  | Some data =>
      let n := len data in
      if n <=? 0 then mret () else
      if negb (c_state c =? STATE_ESTABLISHED) then mret () else
      _ ← mod_c (λ c, c <| c_tun_rx := u32 (c_tun_rx c + 1) |>);
      '(b0, b1, data) ←
        (if negb (c_encrypt c =? 0)
         then data ← mem (xor_encrypt (c_xor_key c) data n);
              mret (PKT_DATA_ENC, c_encrypt c, data)
         else mret (PKT_DATA, 0, data));
      let buf := [b0; b1] ++ le_encode 2 (c_session_token c) ++ le_encode 4 (c_session_id c)
                   ++ data in
      _ ← send_to_server buf (HDR_SIZE + n);
      mod_c (λ c, c <| c_tx_pkts := u32 (c_tx_pkts c + 1) |>)
  end.
End handlers.

(** * Properties *)

#[local] Opaque aes_encrypt_block aes_decrypt_block aes_set_encrypt_key aes_set_decrypt_key.

(** ** Segment-routing decryption is AES in ECB mode *)

Fixpoint blocks (m : nat) (l : list Z) : list (list Z) :=
  match m with O => [] | S m' => take 16 l :: blocks m' (drop 16 l) end.
Definition ecb (f : list Z → list Z) (m : nat) (l : list Z) : list Z := concat (map f (blocks m l)).

Lemma sr_blocks_spec key m : ∀ fuel data (off : nat),
  (m ≤ fuel)%nat → length data = (off + 16 * m)%nat → bytes data →
  sr_blocks fuel key data (Z.of_nat off) (len data) =
  Some (take off data ++ ecb (λ b, aes_decrypt_block b key) m (drop off data)).
Proof.
  induction m as [|m IH]; intros fuel data off Hf Hl Hb.
  { assert ((Z.of_nat off <? len data) = false) as E by (apply Z.ltb_ge; unfold len; lia).
    destruct fuel; cbn [sr_blocks]; rewrite E; cbn [ecb blocks map concat];
      by rewrite app_nil_r, take_ge by lia. }
  destruct fuel as [|fuel]; [lia|]. cbn [sr_blocks].
  rewrite (proj2 (Z.ltb_lt _ _)) by (unfold len; lia).
  rewrite rd_n_Some by (unfold len; lia). cbn [mbind option_bind].
  rewrite Nat2Z.id. change (Z.to_nat 16) with 16%nat. set (b := take 16 (drop off data)).
  assert (is_block b) as Hblk.
  { split; [unfold b; rewrite length_take, length_drop; lia|].
    by apply Forall_take, Forall_drop. }
  pose proof (aes_decrypt_block_block b key Hblk) as [Hdl Hdb].
  set (d := aes_decrypt_block b key) in *.
  rewrite wr_n_Some by (unfold len; rewrite ?Hdl; lia). cbn [mbind option_bind].
  rewrite Nat2Z.id. set (data' := blit data off d).
  assert (length data' = length data) as Hl' by (apply length_blit; rewrite Hdl; lia).
  replace (Z.of_nat off + 16) with (Z.of_nat (off + 16)) by lia.
  replace (len data) with (len data') by (unfold len; by rewrite Hl').
  rewrite IH; [|lia|lia|by apply blit_bytes].
  cbn [ecb blocks map concat]. fold (ecb (λ b, aes_decrypt_block b key) m).
  assert (take (off + 16) data' = take off data ++ d) as ->.
  { unfold data', blit. rewrite app_assoc, take_app_length'; [done|].
    rewrite length_app, length_take, Hdl. lia. }
  assert (drop (off + 16) data' = drop 16 (drop off data)) as ->.
  { unfold data', blit. rewrite app_assoc, drop_app_length', drop_drop, Hdl; [done|].
    rewrite length_app, length_take, Hdl. lia. }
  by rewrite <-app_assoc.
Qed.

Definition is_algo1 (srhdr2 : Z) : bool := Z.land srhdr2 0x7 =? 1.

(** One whole number of blocks is decrypted; the wrong length is refused; the algorithm
    whose blocks are 32 bytes leaves the data as it is. *)
Lemma sr_decrypt_spec key data srhdr2 :
  bytes data →
  sr_decrypt key data (len data) srhdr2 =
  Some (if is_algo1 srhdr2 then
          if decide (len data mod 16 = 0)
          then (0, ecb (λ b, aes_decrypt_block b key) (length data / 16) data) else (-1, data)
        else if decide (len data mod 32 = 0) then (0, data) else (-1, data)).
Proof.
  intros Hb. unfold sr_decrypt, is_algo1. pose proof (len_nonneg data).
  destruct (Z.land srhdr2 7 =? 1); rewrite Z.rem_mod_nonneg by lia.
  - destruct (decide (len data mod 16 = 0)) as [Hm|Hm].
    2:{ rewrite (proj2 (Z.eqb_neq _ _) Hm). reflexivity. }
    rewrite Hm. cbn [Z.eqb negb Pos.eqb].
    pose proof (sr_blocks_spec key (length data / 16) (Z.to_nat (len data)) data 0) as E.
    change (Z.of_nat 0) with 0 in E. rewrite E.
    + reflexivity.
    + rewrite to_nat_len. apply Nat.Div0.div_le_upper_bound. lia.
    + apply Nat2Z.inj. rewrite Nat2Z.inj_add, Nat2Z.inj_mul, Nat2Z.inj_div.
      unfold len in Hm. pose proof (Z.div_mod (Z.of_nat (length data)) 16). lia.
    + done.
  - destruct (decide (len data mod 32 = 0)) as [Hm|Hm].
    + rewrite Hm. reflexivity.
    + rewrite (proj2 (Z.eqb_neq _ _) Hm). reflexivity.
Qed.

Lemma blocks_blocks m l :
  bytes l → (16 * m ≤ length l)%nat → Forall is_block (blocks m l).
Proof.
  revert l. induction m as [|m IH]; intros l Hb Hl; [constructor|]. constructor.
  - split; [rewrite length_take; lia|by apply Forall_take].
  - apply IH; [by apply Forall_drop|rewrite length_drop; lia].
Qed.

Lemma concat_blocks f bs :
  (∀ b, is_block b → is_block (f b)) → Forall is_block bs →
  bytes (concat (map f bs)) ∧ length (concat (map f bs)) = (16 * length bs)%nat.
Proof.
  intros Hf. induction 1 as [|b bs Hb _ [IH1 IH2]]; [done|]. destruct (Hf b Hb) as [H1 H2].
  cbn [map concat length]. split; [by apply Forall_app|]. rewrite length_app. lia.
Qed.

Lemma length_blocks m l : length (blocks m l) = m.
Proof. revert l. induction m; intros l; simpl; auto. Qed.

Lemma ecb_ok key buf :
  bytes buf →
  let d := ecb (λ x, aes_decrypt_block x key) (length buf / 16) buf in
  bytes d ∧ (len buf mod 16 = 0 → length d = length buf).
Proof.
  intros Hb. cbv zeta. pose proof (Nat.div_mod (length buf) 16 ltac:(done)) as Hd.
  destruct (concat_blocks (λ x, aes_decrypt_block x key) (blocks (length buf / 16) buf))
    as [H1 H2].
  { intros b Hblk. by apply aes_decrypt_block_block. }
  { apply blocks_blocks; [done|lia]. }
  split; [exact H1|]. intros Hm. unfold ecb. rewrite H2, length_blocks.
  unfold len in Hm. rewrite <-(Nat2Z.inj_mod _ 16) in Hm. lia.
Qed.

Lemma blocks_concat bs l :
  Forall (λ b, length b = 16%nat) bs → blocks (length bs) (concat bs ++ l) = bs.
Proof.
  induction 1 as [|b bs Hb _ IH]; [done|]. cbn [length blocks concat].
  rewrite <-app_assoc, take_app_length', drop_app_length' by done. by rewrite IH.
Qed.

(** Decrypting what was encrypted block by block. *)
Lemma ecb_decrypt_encrypt key bs :
  Forall is_block bs →
  ecb (λ b, aes_decrypt_block b (aes_set_decrypt_key key)) (length bs)
    (concat (map (λ b, aes_encrypt_block b (aes_set_encrypt_key key)) bs)) = concat bs.
Proof.
  intros Hbs. unfold ecb. set (E := λ b, aes_encrypt_block b (aes_set_encrypt_key key)).
  rewrite <-(app_nil_r (concat (map E bs))), <-(length_map E bs), blocks_concat.
  - rewrite map_map. f_equal. rewrite <-(map_id bs) at 2. apply map_ext_in. intros b Hb.
    rewrite Forall_forall in Hbs. exact (aes_decrypt_encrypt key b (Hbs b (proj2 (list_elem_of_In _ _) Hb))).
  - apply Forall_map. eapply Forall_impl; [exact Hbs|]. intros b Hb.
    exact (proj1 (aes_encrypt_block_block b _ Hb)).
Qed.

(** ** What each handler does *)

(** The round-trip statistics after a measurement. *)
Definition echoed (c : client) (delay : Z) : client :=
  c <| c_cur_delay := delay |> <| c_max_delay := c_max_delay c `max` delay |>
    <| c_min_delay := c_min_delay c `min` delay |>.

Section specs.
Context `{OS}.
Implicit Types (w : world).

(** The payload of a DATA or DATA_ENC packet, decrypted. *)
Definition data_payload (c : client) (pkt : list Z) : list Z :=
  if decide (head pkt = Some PKT_DATA_ENC) then xor_bytes (c_xor_key c) (drop 8 pkt)
  else drop 8 pkt.

Lemma wp_handle_data pkt w (Q : Z → world → Prop) :
  (let c := w_c w in
   if decide (c_state c = STATE_ESTABLISHED ∧ 8 < len pkt ≤ 2056) then
     let s := SWrite (c_tun_fd c) (data_payload c pkt) in
     let r : Z := os (w_t w) s in
     Q 1 (mk_world (if 0 <? r then c <| c_tun_tx := u32 (c_tun_tx c + 1) |> else c)
            (Ev s r :: w_t w))
   else Q 0 w) →
  wp (handle_data pkt (len pkt)) w Q.
Proof.
  cbv zeta. intros HQ. unfold handle_data. do 2 wp_step.
  destruct (Z.eqb_spec (c_state (w_c w)) STATE_ESTABLISHED) as [Hs|Hs]; cbn [negb].
  2:{ wp_step. rewrite decide_False in HQ by tauto. done. }
  unfold HDR_SIZE, MAX_PKT_SIZE. destruct (Z.leb_spec (len pkt) 8).
  { wp_step. rewrite decide_False in HQ by lia. done. }
  cbv zeta. destruct (Z.ltb_spec 2048 (len pkt - 8)).
  { wp_step. rewrite decide_False in HQ by lia. done. }
  rewrite decide_True in HQ by lia.
  wp_step. eapply wp_mem; [apply rd_n_Some; lia|]. change (Z.to_nat 8) with 8%nat.
  rewrite (take_ge (drop 8 pkt)) by (rewrite length_drop; unfold len; lia).
  wp_step. eapply wp_mem; [apply emit_Some; rewrite len_nil, len_drop; lia|]. rewrite app_nil_l.
  wp_step. destruct pkt as [|ty pkt]; [rewrite len_nil in *; lia|]. apply (wp_mem _ ty); [done|].
  unfold data_payload in HQ. cbn [head] in HQ. set (rest := drop 8 (ty :: pkt)) in *.
  assert (len rest = len (ty :: pkt) - 8) as Hr by (unfold rest; rewrite len_drop; lia).
  wp_step.
  assert (∀ d, wp (n ← io (call (SWrite (c_tun_fd (w_c w)) d));
    _ ← when (0 <? n) (mod_c (λ c, c <| c_tun_tx := u32 (c_tun_tx c + 1) |>)); mret 1) w
    (λ x w', let s := SWrite (c_tun_fd (w_c w)) d in let r : Z := os (w_t w) s in x = 1 ∧
     w' = mk_world (if 0 <? r then (w_c w) <| c_tun_tx := u32 (c_tun_tx (w_c w) + 1) |>
                    else w_c w) (Ev s r :: w_t w))) as Htail.
  { intros d. do 3 wp_step. cbv zeta. destruct (0 <? _); wp_steps; done. }
  destruct (Z.eqb_spec ty PKT_DATA_ENC) as [->|Hty].
  - rewrite decide_True in HQ by done. eapply wp_mem; [by apply xor_encrypt_all|].
    eapply wp_mono; [apply Htail|]. by intros x w' [-> ->].
  - rewrite decide_False in HQ by congruence. wp_step.
    eapply wp_mono; [apply Htail|]. by intros x w' [-> ->].
Qed.

Lemma wp_handle_echo_resp pkt w (Q : Z → world → Prop) :
  bytes pkt →
  (let c := w_c w in
   if decide (c_state c = STATE_ESTABLISHED ∧ pkt_verify pkt (len pkt) = Some true) then
     let ts := os (w_t w) SClock in
     let now := u64 (ts.1 * 1000000 + ts.2 / 1000) in
     Q 1 (mk_world (if 32 <=? len pkt
                    then echoed c (u32 (now - le_decode (take 8 (drop 24 pkt)))) else c)
            (Ev SClock ts :: w_t w))
   else Q 0 w) →
  wp (handle_echo_resp pkt (len pkt)) w Q.
Proof.
  cbv zeta. intros Hb HQ. unfold handle_echo_resp. do 2 wp_step.
  destruct (Z.eqb_spec (c_state (w_c w)) STATE_ESTABLISHED) as [Hs|Hs]; cbn [negb].
  2:{ wp_step. rewrite decide_False in HQ by tauto. done. }
  wp_step. pose proof (pkt_verify_spec pkt (len pkt) Hb ltac:(lia)) as Hv.
  eapply wp_mem; [exact Hv|]. rewrite Hv in HQ.
  destruct (bool_decide _); cbn [negb].
  2:{ wp_step. rewrite decide_False in HQ by (intros [_ ?]; done). done. }
  rewrite decide_True in HQ by done. do 3 wp_step.
  change (HDR_SIZE + SIGN_SIZE) with 24. change (24 + 8) with 32.
  destruct (Z.leb_spec 32 (len pkt)); cbn [when]; [|by wp_steps].
  wp_step. eapply wp_mem; [apply rd_n_Some; lia|].
  change (Z.to_nat 8) with 8%nat. change (Z.to_nat 24) with 24%nat.
  set (now := u64 (_ + _)) in *. set (sent := le_decode _) in *.
  rewrite u32_u64.
  set (delay := u32 _) in *. do 5 wp_step. unfold echoed in HQ.
  destruct w as [c tr]; destruct c; cbn in *. clearbody delay.
  repeat wp_step;
    repeat match goal with
    | E : (_ <? _) = true |- _ => apply Z.ltb_lt in E; cbv [set_field] in E; cbn in E
    | E : (_ <? _) = false |- _ => apply Z.ltb_ge in E; cbv [set_field] in E; cbn in E
    end;
    rewrite ?Z.max_r, ?Z.max_l, ?Z.min_r, ?Z.min_l in HQ by lia; exact HQ.
Qed.

Lemma wp_handle_close pkt w (Q : Z → world → Prop) :
  bytes pkt →
  (if decide (c_state (w_c w) = STATE_ESTABLISHED ∧ pkt_verify pkt (len pkt) = Some true)
   then Q 1 (mk_world ((w_c w) <| c_state := STATE_CLOSED |>) (w_t w)) else Q 0 w) →
  wp (handle_close pkt (len pkt)) w Q.
Proof.
  intros Hb HQ. unfold handle_close. do 2 wp_step.
  destruct (Z.eqb_spec (c_state (w_c w)) STATE_ESTABLISHED) as [Hs|Hs]; cbn [negb].
  2:{ wp_step. by rewrite decide_False in HQ by tauto. }
  wp_step. pose proof (pkt_verify_spec pkt (len pkt) Hb ltac:(lia)) as Hv.
  eapply wp_mem; [exact Hv|]. rewrite Hv in HQ.
  destruct (bool_decide _); cbn [negb].
  - rewrite decide_True in HQ by done. by wp_steps.
  - rewrite decide_False in HQ by (intros [_ ?]; done). by wp_steps.
Qed.

Lemma wp_handle_openrej pkt n w (Q : unit → world → Prop) :
  (if decide (c_state (w_c w) = STATE_AUTH_SENT)
   then Q () (mk_world ((w_c w) <| c_state := STATE_CLOSED |>) (w_t w)) else Q () w) →
  wp (handle_openrej pkt n) w Q.
Proof.
  intros HQ. unfold handle_openrej. do 2 wp_step.
  destruct (Z.eqb_spec (c_state (w_c w)) STATE_AUTH_SENT) as [Hs|Hs]; cbn [negb].
  - rewrite decide_True in HQ by done. by wp_steps.
  - rewrite decide_False in HQ by done. by wp_steps.
Qed.

(** The packet that carries [data] to the server. *)
Definition data_packet (c : client) (data : list Z) : list Z :=
  if c_encrypt c =? 0 then session_header PKT_DATA c ++ data
  else [PKT_DATA_ENC; c_encrypt c] ++ le_encode 2 (c_session_token c) ++
       le_encode 4 (c_session_id c) ++ xor_bytes (c_xor_key c) data.

(** [handle_tun_recv]: a packet read from the device is sent, in a session; otherwise it
    is read and dropped. *)
Lemma wp_handle_tun_recv w (Q : unit → world → Prop) :
  (let c := w_c w in
   let s := SRead (c_tun_fd c) 2040 in
   let r : option (list Z) := os (w_t w) s in
   let tr := Ev s r :: w_t w in
   match r with
   | Some data =>
       if decide (data ≠ [] ∧ c_state c = STATE_ESTABLISHED) then
         let s := SSendto (c_udp_fd c) (c_server_addr c) (c_server_port c)
                    (data_packet c data) in
         Q () (mk_world (c <| c_tun_rx := u32 (c_tun_rx c + 1) |>
                           <| c_tx_pkts := u32 (c_tx_pkts c + 1) |>) (Ev s (os tr s) :: tr))
       else Q () (mk_world c tr)
   | None => Q () (mk_world c tr)
   end) →
  wp handle_tun_recv w Q.
Proof.
  cbv zeta. intros HQ. unfold handle_tun_recv. do 3 wp_step. wp_step.
  change (MAX_PKT_SIZE - HDR_SIZE) with 2040.
  destruct (os (w_t w) (SRead (c_tun_fd (w_c w)) 2040)) as [data|]; [|by wp_step].
  destruct (Z.leb_spec (len data) 0) as [Hl|Hl].
  { wp_step. rewrite decide_False in HQ; [done|]. intros [Hd _].
    destruct data; [done|]. rewrite len_cons in Hl. pose proof (len_nonneg data). lia. }
  assert (data ≠ []) as Hd by (intros ->; unfold len in Hl; simpl in Hl; lia).
  destruct (Z.eqb_spec (c_state (w_c w)) STATE_ESTABLISHED) as [Hs|Hs]; cbn [negb].
  2:{ wp_step. by rewrite decide_False in HQ by tauto. }
  rewrite decide_True in HQ by done. unfold data_packet in HQ.
  do 3 wp_step. destruct (c_encrypt (w_c w) =? 0); cbn [negb].
  - wp_step. cbv beta iota. wp_step. apply wp_send_to_server.
    { rewrite !len_app, !len_le_encode. unfold HDR_SIZE, len. simpl. lia. }
    cbv zeta. wp_step. exact HQ.
  - wp_step. eapply wp_mem; [by apply xor_encrypt_all|]. wp_step. cbv beta iota.
    wp_step. apply wp_send_to_server.
    { rewrite !len_app, !len_le_encode. unfold HDR_SIZE, len. rewrite length_xor_bytes.
      simpl. lia. }
    cbv zeta. wp_step. exact HQ.
Qed.

(** *** Segment routing *)

(** Decryption succeeds or drops the packet; it never faults and changes nothing else. *)
Lemma wp_segrt_decrypt cfg pkt buf w :
  11 ≤ len pkt → bytes buf → buf ≠ [] →
  wp (segrt_decrypt cfg pkt buf (len buf)) w (λ r w', w' = w ∧
    match r with
    | None => True | Some (buf', n) => bytes buf' ∧ length buf' = length buf ∧ 0 < n ≤ len buf
    end).
Proof.
  intros Hl Hb Hne. assert (0 < len buf) as Hpos.
  { destruct buf; [done|]. rewrite len_cons. pose proof (len_nonneg buf). lia. }
  unfold segrt_decrypt. wp_step; [|wp_step; split_and!; auto; lia].
  destruct (rd_Some pkt (HDR_SIZE + 2)) as (b & Hrd & _); [unfold HDR_SIZE; lia|].
  wp_step. eapply wp_mem; [exact Hrd|]. cbv zeta. wp_step.
  - do 3 wp_step. pose proof (sr_decrypt_spec (c_sr_decrypt_key (w_c w)) buf b Hb) as Hdec.
    eapply wp_mem; [exact Hdec|].
    assert (∀ d, bytes d → length d = length buf → 0 < len d ≤ len buf ∧
      0 < (if (0 <? Z.land (Z.shiftr b 3) 0x1f) && (Z.land (Z.shiftr b 3) 0x1f <? len buf)
           then len buf - Z.land (Z.shiftr b 3) 0x1f else len buf) ≤ len buf) as Hn.
    { intros d _ Hd. unfold len in *. rewrite Hd. split; [lia|].
      destruct (Z.ltb_spec 0 (Z.land (Z.shiftr b 3) 31)),
        (Z.ltb_spec (Z.land (Z.shiftr b 3) 31) (Z.of_nat (length buf))); cbn; lia. }
    assert (bytes (ecb (λ x, aes_decrypt_block x (c_sr_decrypt_key (w_c w)))
                     (length buf / 16) buf) ∧
      (len buf mod 16 = 0 → length (ecb (λ x, aes_decrypt_block x (c_sr_decrypt_key (w_c w)))
                     (length buf / 16) buf) = length buf)) as [Heb Hel].
    { apply ecb_ok. exact Hb. }
    destruct (is_algo1 b); destruct (decide _); cbn [Z.ltb Z.compare]; wp_steps;
      split_and!; auto; by apply (Hn buf).
  - wp_step; [by wp_step|]. wp_step. split_and!; auto; lia.
Qed.

Lemma wp_handle_segrt cfg pkt w :
  slots_ok (c_frags (w_c w)) → bytes pkt →
  wp (handle_segrt cfg pkt (len pkt)) w
    (λ _ w', framed w w' ∧ c_state (w_c w') = c_state (w_c w)).
Proof.
  intros Hfs Hb. unfold handle_segrt. do 2 wp_step. wp_step; [by wp_step|].
  wp_step; [by wp_step|]. rewrite Z.ltb_ge in *. change (HDR_SIZE + 4) with 12 in *.
  destruct (rd_Some pkt (HDR_SIZE + 1)) as (links & Hrd & _); [unfold HDR_SIZE; lia|].
  pose proof (rd_byte _ _ _ Hb Hrd) as Hlinks. unfold is_u in Hlinks.
  wp_step. eapply wp_mem; [exact Hrd|]. cbv zeta.
  wp_step; [by wp_step|]. wp_step; [by wp_step|]. wp_step; [by wp_step|].
  rewrite Z.ltb_ge, Z.leb_gt in *. unfold HDR_SIZE, MAX_PKT_SIZE in *.
  wp_step. eapply wp_mem; [apply rd_n_Some; lia|].
  set (buf := take _ _). set (n := len pkt - 8 - (links * 4 + 4)) in *.
  assert (len buf = n) as Hn by (unfold buf; rewrite len_take, len_drop; lia).
  wp_step. eapply wp_mem; [apply emit_Some; rewrite len_nil; lia|]. rewrite app_nil_l.
  wp_step. rewrite <-Hn. eapply wp_mono; [apply wp_segrt_decrypt; [lia| |]|].
  { by apply Forall_take, Forall_drop. }
  { intros E. rewrite E, len_nil in Hn. lia. }
  cbv beta. intros r w' [-> Hr]. destruct r as [[buf' n']|]; [|by wp_step].
  destruct Hr as (Hb' & Hl' & Hn'). assert (len buf' = len buf) as Hlen by (unfold len; lia).
  destruct (rd_Some buf' 0) as (ty & Hty & _); [lia|].
  wp_step. eapply wp_mem; [exact Hty|].
  wp_step; [apply wp_ipfrag_framed; [done|done|lia]|].
  wp_step; [by wp_step|]. wp_step; [by wp_step|]. rewrite Z.leb_gt in *.
  wp_step. eapply wp_mem; [apply rd_n_Some; lia|]. set (data := take _ _).
  wp_step. apply (wp_mono _ _ (λ _ w', w' = w)).
  { destruct (ty =? PKT_DATA_ENC); [|by wp_step]. eapply wp_mem; [|done].
    apply xor_encrypt_all. unfold data. rewrite len_take, len_drop. lia. }
  intros d w' ->. do 5 wp_step. split; [|done]. apply (deliver_framed d w).
Qed.
End specs.

(** ** The dispatcher *)

(** The state changes a packet can cause. *)
Inductive recv_transition (pkt : list Z) : Z → Z → Prop :=
  | recv_stay s : recv_transition pkt s s
  | recv_openack s :
      head pkt = Some PKT_OPENACK → pkt_verify pkt (len pkt) = Some true →
      s = STATE_ESTABLISHED ∨ s = STATE_CLOSED → recv_transition pkt STATE_AUTH_SENT s
  | recv_openrej :
      head pkt = Some PKT_OPENREJ → recv_transition pkt STATE_AUTH_SENT STATE_CLOSED
  | recv_close :
      head pkt = Some PKT_CLOSE → pkt_verify pkt (len pkt) = Some true →
      recv_transition pkt STATE_ESTABLISHED STATE_CLOSED.

Lemma rx_frame c n : same_frame c (c <| c_rx_pkts := n |>).
Proof. frame_update ltac:(done). Qed.
Lemma tun_rx_frame c n : same_frame c (c <| c_tun_rx := n |>).
Proof. frame_update ltac:(done). Qed.
Lemma tx_frame c n : same_frame c (c <| c_tx_pkts := n |>).
Proof. frame_update ltac:(done). Qed.

Lemma echoed_frame c d : is_u32 d → same_frame c (echoed c d).
Proof.
  intros Hd. unfold echoed. frame_update idtac. destruct ok_delays as (H1 & H2 & H3).
  change (is_u32 d ∧ is_u32 (c_min_delay c `min` d) ∧ is_u32 (c_max_delay c `max` d)).
  unfold is_u in *. lia.
Qed.

Section dispatch.
Context `{TunOk}.
Implicit Types (w : world).

(** [alive] after a handler. *)
Definition refresh (r : Z) : M unit :=
  when (negb (r =? 0)) (now ← io mono_secs; mod_c (λ c, c <| c_last_recv_time := now |>)).

Lemma wp_refresh r w0 s w :
  framed w0 w → c_state (w_c w) = s →
  wp (refresh r) w (λ _ w', framed w0 w' ∧ c_state (w_c w') = s).
Proof.
  intros Hf Hs. unfold refresh. wp_step; [|by wp_step]. do 3 wp_step. split; [|done].
  etransitivity; [exact Hf|]. destruct w as [c tr].
  apply framed_event; [done|]. apply last_recv_frame, u32_is.
Qed.

Lemma handle_data_framed pkt w :
  wp (handle_data pkt (len pkt)) w (λ _ w', framed w w' ∧ c_state (w_c w') = c_state (w_c w)).
Proof.
  apply wp_handle_data. cbv zeta. destruct (decide _); [|done].
  set (r := os _ _). destruct w as [c tr]. cbn [w_c w_t] in *.
  split; [|by destruct (0 <? r)]. apply framed_event; [done|].
  destruct (0 <? r); [apply tun_tx_frame|apply same_frame_refl].
Qed.

Lemma handle_echo_resp_framed pkt w :
  bytes pkt →
  wp (handle_echo_resp pkt (len pkt)) w
    (λ _ w', framed w w' ∧ c_state (w_c w') = c_state (w_c w)).
Proof.
  intros Hb. apply wp_handle_echo_resp; [done|]. cbv zeta. destruct (decide _); [|done].
  destruct w as [c tr]. cbn [w_c w_t]. split; [|by destruct (32 <=? len pkt)].
  apply framed_event; [done|].
  destruct (32 <=? len pkt); [apply echoed_frame, u32_is|apply same_frame_refl].
Qed.

Lemma wp_accept_openack cfg pkt w :
  cfg_ok cfg → bytes pkt →
  wp (handle_openack cfg pkt (len pkt)) w (λ _ w', framed w w' ∧
    (c_state (w_c w') = c_state (w_c w) ∨
     c_state (w_c w) = STATE_AUTH_SENT ∧ pkt_verify pkt (len pkt) = Some true ∧
     (c_state (w_c w') = STATE_ESTABLISHED ∨ c_state (w_c w') = STATE_CLOSED))).
Proof.
  intros Hcfg Hb. apply wp_handle_openack; [done..|]. intros r w' Hack.
  split; [by eapply openack_framed|].
  assert (∀ l c, c_state (foldl apply_tlv c l) = c_state c) as Hst.
  { induction l as [|[ty v] l IH]; intros c; [done|]. simpl. rewrite IH.
    unfold apply_tlv. by repeat case_match. }
  destruct Hack as [Hi|? ? ?|now tr ok tr' r script Hs Hv ? ? c ? ?].
  - by left.
  - left. apply Hst.
  - right. split_and!; [done..|]. destruct ok; [by left|by right].
Qed.

(** A handler that keeps the state, and the liveness update after it. *)
Lemma wp_accept_stay pkt (m : M Z) w0 w :
  framed w0 w → c_state (w_c w) = c_state (w_c w0) →
  wp m w (λ _ w', framed w w' ∧ c_state (w_c w') = c_state (w_c w)) →
  wp (r ← m; refresh r) w
    (λ _ w', framed w0 w' ∧ recv_transition pkt (c_state (w_c w0)) (c_state (w_c w'))).
Proof.
  intros Hf Hs Hm. wp_step. eapply wp_mono; [exact Hm|]. intros r w' [Hf' Hs'].
  eapply wp_mono; [apply (wp_refresh r w0 (c_state (w_c w0)))|].
  - by etransitivity.
  - congruence.
  - intros ? w'' [? ->]. split; [done|constructor].
Qed.

(** Any packet leaves the client well-formed and its descriptors alone, and changes the
    state only in one of the ways above. *)
Lemma wp_handle_recv cfg pkt w :
  cfg_ok cfg → client_ok (w_c w) → bytes pkt →
  wp (handle_recv cfg pkt (len pkt)) w
    (λ _ w', framed w w' ∧ recv_transition pkt (c_state (w_c w)) (c_state (w_c w'))).
Proof.
  intros Hcfg Hc Hb. unfold handle_recv. wp_step; [wp_step; split; [done|constructor]|].
  destruct pkt as [|ty pkt']; [done|]. wp_step. apply (wp_mem _ ty); [done|].
  set (pkt := ty :: pkt') in *. do 2 wp_step.
  set (w1 := mk_world _ _).
  assert (framed w w1) as Hf1 by (destruct w as [c tr]; apply framed_update, rx_frame).
  assert (c_state (w_c w1) = c_state (w_c w)) as Hs1 by done.
  assert (slots_ok (c_frags (w_c w1))) as Hfs by apply Hc.
  fold refresh. wp_step; [by apply wp_accept_stay, handle_data_framed|].
  wp_step.
  { rewrite Z.eqb_eq in *. wp_step. eapply wp_mono; [by apply wp_accept_openack|].
    intros r w' [Hf' Htr].
    eapply wp_mono; [apply (wp_refresh r w (c_state (w_c w'))); [by etransitivity|done]|].
    intros ? w'' [? ->]. split; [done|]. rewrite Hs1 in Htr.
    destruct Htr as [->|(-> & Hv & Hs)]; [constructor|]. apply recv_openack; [|done..].
    unfold pkt. simpl. congruence. }
  wp_step.
  { rewrite Z.eqb_eq in *. apply wp_handle_openrej. rewrite Hs1.
    destruct (decide _) as [Hs|]; [|split; [done|constructor]]. split.
    - etransitivity; [exact Hf1|]. apply framed_update, state_frame.
    - rewrite Hs. apply recv_openrej. unfold pkt. simpl. congruence. }
  wp_step; [by apply wp_accept_stay; [..|apply handle_echo_resp_framed]|].
  wp_step.
  { rewrite Z.eqb_eq in *. wp_step. apply wp_handle_close; [done|]. rewrite Hs1.
    destruct (decide _) as [[Hs Hv]|].
    2:{ eapply wp_mono; [by apply (wp_refresh 0 w (c_state (w_c w)))|].
        intros ? w'' [? ->]. split; [done|constructor]. }
    eapply wp_mono; [apply (wp_refresh 1 w STATE_CLOSED); [|done]|].
    - etransitivity; [exact Hf1|]. apply framed_update, state_frame.
    - intros ? w'' [? ->]. split; [done|]. rewrite Hs. apply recv_close; [|done].
      unfold pkt. simpl. congruence. }
  wp_step; [by apply wp_accept_stay; [..|apply wp_ipfrag_framed]|].
  wp_step; [by apply wp_accept_stay; [..|apply wp_handle_segrt]|].
  wp_step. split; [done|]. rewrite Hs1. constructor.
Qed.
End dispatch.

(** ** The theorems *)

Lemma config_quiet ev : config_event ev → quiet ev.
Proof. destruct ev as [s r]. by destruct s. Qed.
Lemma script_quiet ev : script_event ev → quiet ev.
Proof. destruct ev as [s r]. by destruct s. Qed.

Section theorems.
Context `{OS}.

(** Outside a session, every data handler leaves the world as it was. *)
Lemma wp_idle_data pkt n w :
  c_state (w_c w) ≠ STATE_ESTABLISHED →
  wp (handle_data pkt n) w (λ r w', r = 0 ∧ w' = w).
Proof.
  intros Hs. unfold handle_data. do 2 wp_step. rewrite (proj2 (Z.eqb_neq _ _) Hs). by wp_step.
Qed.
Lemma wp_idle_echo pkt n w :
  c_state (w_c w) ≠ STATE_ESTABLISHED →
  wp (handle_echo_resp pkt n) w (λ r w', r = 0 ∧ w' = w).
Proof.
  intros Hs. unfold handle_echo_resp. do 2 wp_step.
  rewrite (proj2 (Z.eqb_neq _ _) Hs). by wp_step.
Qed.
Lemma wp_idle_close pkt n w :
  c_state (w_c w) ≠ STATE_ESTABLISHED →
  wp (handle_close pkt n) w (λ r w', r = 0 ∧ w' = w).
Proof.
  intros Hs. unfold handle_close. do 2 wp_step.
  rewrite (proj2 (Z.eqb_neq _ _) Hs). by wp_step.
Qed.
Lemma wp_idle_ipfrag pkt n w :
  c_state (w_c w) ≠ STATE_ESTABLISHED →
  wp (handle_ipfrag pkt n) w (λ r w', r = 0 ∧ w' = w).
Proof.
  intros Hs. unfold handle_ipfrag. do 2 wp_step.
  rewrite (proj2 (Z.eqb_neq _ _) Hs). by wp_step.
Qed.
Lemma wp_idle_segrt cfg pkt n w :
  c_state (w_c w) ≠ STATE_ESTABLISHED →
  wp (handle_segrt cfg pkt n) w (λ r w', r = 0 ∧ w' = w).
Proof.
  intros Hs. unfold handle_segrt. do 2 wp_step.
  rewrite (proj2 (Z.eqb_neq _ _) Hs). by wp_step.
Qed.

(** An unaccepted packet does not refresh liveness. *)
Lemma wp_not_accepted (m : M Z) w (Q : unit → world → Prop) :
  wp m w (λ r w', r = 0 ∧ w' = w) → Q () w → wp (r ← m; refresh r) w Q.
Proof.
  intros Hm HQ. wp_step. eapply wp_mono; [exact Hm|]. intros r w' [-> ->]. unfold refresh. by wp_steps.
Qed.

Definition received (w : world) : world :=
  mk_world ((w_c w) <| c_rx_pkts := u32 (c_rx_pkts (w_c w) + 1) |>) (w_t w).
End theorems.

Section tun_theorems.
Context `{TunOk}.

(** An OPENACK moves no data and looks no name up. *)
Lemma openack_quiet cfg pkt w r w' :
  openack cfg pkt w r w' → ∃ new, w_t w' = new ++ w_t w ∧ Forall quiet new.
Proof.
  destruct 1 as [|? ? ?|now tr ok tr' r script ? ? ? Hnow c Hconf Hres];
    [by exists []..|].
  injection Hnow as Hnow <-. cbn [w_c w_t].
  destruct (configure_spec cfg c (Ev SClock (os (w_t w) SClock) :: w_t w))
    as (ok' & new & Hconf' & Hev & _).
  rewrite Hconf in Hconf'. injection Hconf' as _ ->.
  assert (Forall quiet script) as Hs.
  { destruct ok; destruct Hres as [Hs _]; [|by rewrite Hs].
    apply script_run_events in Hs. eapply Forall_impl; [exact Hs|apply script_quiet]. }
  exists (script ++ new ++ [Ev SClock (os (w_t w) SClock)]).
  split; [by rewrite <-!app_assoc|]. rewrite !Forall_app. split_and!; [done| |by constructor].
  eapply Forall_impl; [exact Hev|apply config_quiet].
Qed.

Lemma openack_unwritten cfg pkt w r w' fd :
  openack cfg pkt w r w' → written fd (w_t w') = written fd (w_t w).
Proof.
  intros (new & -> & Hn)%openack_quiet. apply written_no_write.
  eapply Forall_impl; [exact Hn|apply quiet_no_write].
Qed.

(** C10: whatever bytes arrive in whatever state, handling them has no undefined behaviour,
    leaves the client well-formed, the descriptors and the server's address alone, opens
    and closes nothing for good, and changes the state only as follows: a validly signed
    OPENACK while authenticating, an OPENREJ while authenticating, a validly signed CLOSE
    in a session. *)
Theorem handle_recv_safe cfg pkt w :
  cfg_ok cfg → client_ok (w_c w) → bytes pkt →
  ∃ w', handle_recv cfg pkt (len pkt) w = Some ((), w') ∧ framed w w' ∧ client_ok (w_c w') ∧
    recv_transition pkt (c_state (w_c w)) (c_state (w_c w')).
Proof.
  intros Hcfg Hc Hb. destruct (wp_run _ _ _ (wp_handle_recv cfg pkt w Hcfg Hc Hb))
    as ([] & w' & E & Hf & Htr).
  exists w'. split_and!; [done|done|by apply Hf|done].
Qed.

(** C11: outside a session nothing a packet contains reaches the TUN device. *)
Theorem handle_recv_no_session cfg pkt w fd :
  cfg_ok cfg → bytes pkt → c_state (w_c w) ≠ STATE_ESTABLISHED →
  ∃ w', handle_recv cfg pkt (len pkt) w = Some ((), w') ∧
    written fd (w_t w') = written fd (w_t w).
Proof.
  intros Hcfg Hb Hs.
  enough (wp (handle_recv cfg pkt (len pkt)) w
    (λ _ w', written fd (w_t w') = written fd (w_t w))) as Hwp.
  { apply wp_run in Hwp as ([] & w' & E & HQ). by exists w'. }
  unfold handle_recv. wp_step; [by wp_step|].
  destruct pkt as [|ty pkt']; [done|]. wp_step. apply (wp_mem _ ty); [done|].
  do 2 wp_step. fold refresh (received w).
  wp_step; [by apply wp_not_accepted; [apply wp_idle_data|]|].
  wp_step.
  { wp_step. apply wp_handle_openack; [done..|]. intros r w' Hack.
    apply (openack_unwritten _ _ _ _ _ fd) in Hack. unfold refresh.
    wp_step; [|by wp_step]. by do 3 wp_step. }
  wp_step; [apply wp_handle_openrej; by destruct (decide _)|].
  wp_step; [by apply wp_not_accepted; [apply wp_idle_echo|]|].
  wp_step; [by apply wp_not_accepted; [apply wp_idle_close|]|].
  wp_step; [by apply wp_not_accepted; [apply wp_idle_ipfrag|]|].
  wp_step; [by apply wp_not_accepted; [apply wp_idle_segrt|]|].
  by wp_step.
Qed.

(** A control packet that must be signed and is not valid, or one of unknown type, has
    no effect but the packet counter: in particular it does not refresh liveness. *)
Theorem handle_recv_unsigned cfg pkt w :
  cfg_ok cfg → bytes pkt → pkt_verify pkt (len pkt) = Some false → 8 ≤ len pkt →
  (∃ ty, head pkt = Some ty ∧ ty ∉ [PKT_DATA; PKT_DATA_ENC; PKT_OPENREJ; PKT_IPFRAG; PKT_SEGRT]) →
  handle_recv cfg pkt (len pkt) w = Some ((), received w).
Proof.
  intros Hcfg Hb Hv Hl (ty & Hty & Hnot).
  enough (wp (handle_recv cfg pkt (len pkt)) w (λ _ w', w' = received w)) as Hwp.
  { by apply wp_run in Hwp as ([] & w' & E & ->). }
  unfold handle_recv, HDR_SIZE. rewrite (proj2 (Z.ltb_ge _ _) Hl).
  destruct pkt as [|ty' pkt']; [done|]. injection Hty as ->.
  wp_step. apply (wp_mem _ ty); [done|]. do 2 wp_step. fold refresh (received w).
  rewrite !not_elem_of_cons in Hnot. destruct Hnot as (Hn1 & Hn2 & Hn3 & Hn4 & Hn5 & _).
  apply Z.eqb_neq in Hn1, Hn2, Hn3, Hn4, Hn5. rewrite Hn1, Hn2, Hn3, Hn4, Hn5. cbn [orb].
  wp_step.
  { apply wp_not_accepted; [|done]. apply wp_handle_openack; [done..|]. intros r w' Hack.
    destruct Hack; [done|congruence..]. }
  wp_step.
  { apply wp_not_accepted; [|done]. apply wp_handle_echo_resp; [done|].
    rewrite Hv. cbv zeta. destruct (decide _) as [[_ [=]]|]; done. }
  wp_step; [|by wp_step].
  apply wp_not_accepted; [|done]. apply wp_handle_close; [done|].
  rewrite Hv. destruct (decide _) as [[_ [=]]|]; done.
Qed.
End tun_theorems.

(** ** Round trips *)

Lemma data_payload_packet c c' data :
  c_xor_key c' = c_xor_key c → data_payload c' (data_packet c data) = data.
Proof.
  intros Hk. unfold data_payload, data_packet. destruct (c_encrypt c =? 0).
  - rewrite decide_False by done. done.
  - rewrite decide_True by done. rewrite Hk. simpl. rewrite ?drop_0. apply xor_bytes_twice.
Qed.

Lemma len_data_packet c data : len (data_packet c data) = 8 + len data.
Proof.
  unfold data_packet, session_header, len. destruct (c_encrypt c =? 0);
    rewrite !length_app, !length_le_encode, ?length_xor_bytes; simpl; lia.
Qed.

Lemma written_snoc fd d r tr :
  written fd (Ev (SWrite fd d) r :: tr) = written fd tr ++ [d].
Proof. simpl. by rewrite Z.eqb_refl. Qed.

(** What one client reads from its TUN device and sends comes out of the TUN device of a
    peer with the same key, encrypted or not. *)
Theorem tun_data_roundtrip (os1 os2 : OS) w1 w2 data :
  c_state (w_c w1) = STATE_ESTABLISHED → c_state (w_c w2) = STATE_ESTABLISHED →
  c_xor_key (w_c w2) = c_xor_key (w_c w1) →
  os1 (w_t w1) (SRead (c_tun_fd (w_c w1)) 2040) = Some data → 0 < len data ≤ 2040 →
  ∃ p w1' w2',
    handle_tun_recv (H := os1) w1 = Some ((), w1') ∧
    (∃ fd addr port r tr, w_t w1' = Ev (SSendto fd addr port p) r :: tr) ∧
    handle_data (H := os2) p (len p) w2 = Some (1, w2') ∧
    written (c_tun_fd (w_c w2)) (w_t w2') = written (c_tun_fd (w_c w2)) (w_t w2) ++ [data].
Proof.
  intros Hs1 Hs2 Hk Hr Hl.
  assert (data ≠ []) as Hd by (intros ->; unfold len in Hl; simpl in Hl; lia).
  set (p := data_packet (w_c w1) data).
  assert (wp (handle_tun_recv (H := os1)) w1 (λ _ w1',
    ∃ fd addr port r tr, w_t w1' = Ev (SSendto fd addr port p) r :: tr)) as Ht.
  { apply (wp_handle_tun_recv (H := os1)). cbv zeta. unfold os. rewrite Hr.
    rewrite decide_True by done. eauto 10. }
  assert (wp (handle_data (H := os2) p (len p)) w2 (λ r w2', r = 1 ∧
    written (c_tun_fd (w_c w2)) (w_t w2') =
    written (c_tun_fd (w_c w2)) (w_t w2) ++ [data])) as Hw.
  { apply (wp_handle_data (H := os2)). cbv zeta.
    rewrite decide_True by (unfold p; rewrite len_data_packet; split; [done|lia]).
    unfold p. rewrite data_payload_packet by done. split; [done|]. apply written_snoc. }
  apply wp_run in Ht as ([] & w1' & E1 & Hsent). apply wp_run in Hw as (r & w2' & E2 & -> & Hw).
  by exists p, w1', w2'.
Qed.

(** The delay measured when the payload of an ECHO_REQ built at time [t0] comes back in
    a signed response is the time elapsed, and the extremes follow. *)
Theorem echo_roundtrip `{OS} c0 t0 w :
  c_state (w_c w) = STATE_ESTABLISHED → is_u64 t0 →
  let pkt := signed_header PKT_ECHORESP c0 ++ echo_payload t0 c0 in
  let ts := os (w_t w) SClock in
  let delay := u32 (u64 (ts.1 * 1000000 + ts.2 / 1000) - t0) in
  ∃ w', handle_echo_resp pkt (len pkt) w = Some (1, w') ∧
    c_cur_delay (w_c w') = delay ∧
    c_min_delay (w_c w') = c_min_delay (w_c w) `min` delay ∧
    c_max_delay (w_c w') = c_max_delay (w_c w) `max` delay.
Proof.
  intros Hs Ht pkt ts delay.
  destruct (session_header_ok PKT_ECHORESP c0 ltac:(done)) as [Hb Hl].
  assert (bytes (echo_payload t0 c0)) as Hp.
  { unfold echo_payload. rewrite !Forall_app. split_and!; auto with c_ints; by apply byte_list_ok. }
  enough (wp (handle_echo_resp pkt (len pkt)) w (λ r w', r = 1 ∧
    c_cur_delay (w_c w') = delay ∧ c_min_delay (w_c w') = c_min_delay (w_c w) `min` delay ∧
    c_max_delay (w_c w') = c_max_delay (w_c w) `max` delay)) as Hwp.
  { apply wp_run in Hwp as (r & w' & E & -> & HQ). by exists w'. }
  apply wp_handle_echo_resp.
  { unfold pkt, signed_header. rewrite !Forall_app. auto using signature_bytes. }
  cbv zeta. rewrite decide_True.
  2:{ split; [done|]. unfold pkt, signed_header. rewrite <-app_assoc. by apply pkt_verify_signed. }
  assert (len pkt = 60) as -> by (unfold pkt; rewrite len_app, len_signed_header, len_echo_payload; lia).
  assert (take 8 (drop 24 pkt) = le_encode 8 t0) as ->.
  { unfold pkt. rewrite drop_app_length'; [|pose proof (len_signed_header PKT_ECHORESP c0) as E;
      unfold len in E; lia]. unfold echo_payload. apply take_app_length'. by rewrite length_le_encode. }
  rewrite le_decode_encode, Z.mod_small by done. done.
Qed.

(** A segment-routed DATA packet: the header, the link list, then the inner packet and its
    padding encrypted block by block. *)
Definition segrt_packet (key hdr srhdr links : list Z) (bs : list (list Z)) : list Z :=
  hdr ++ srhdr ++ links ++
  concat (map (λ b, aes_encrypt_block b (aes_set_encrypt_key key)) bs).

(** What the handler reads of it. *)
Lemma segrt_fields key hdr nextid l algo flags links bs :
  len hdr = 8 → len links = l * 4 →
  let pkt := segrt_packet key hdr [nextid; l; algo; flags] links bs in
  let cipher := concat (map (λ b, aes_encrypt_block b (aes_set_encrypt_key key)) bs) in
  len pkt = 12 + len links + len cipher ∧ rd pkt 9 = Some l ∧ rd pkt 10 = Some algo ∧
  rd_n pkt (8 + (l * 4 + 4)) (len cipher) = Some cipher.
Proof.
  intros Hh Hl pkt cipher. pose proof (len_nonneg links).
  assert (pkt = hdr ++ [nextid; l; algo; flags] ++ links ++ cipher) as -> by done. split_and!.
  - autorewrite with c_len. lia.
  - change ([nextid; l; algo; flags] ++ links ++ cipher) with ([nextid] ++ l :: [algo; flags] ++ links ++ cipher).
    rewrite app_assoc. apply rd_middle. by rewrite len_app, Hh.
  - change ([nextid; l; algo; flags] ++ links ++ cipher) with ([nextid; l] ++ algo :: [flags] ++ links ++ cipher).
    rewrite app_assoc. apply rd_middle. by rewrite len_app, Hh.
  - rewrite !app_assoc. apply rd_n_tail; [|done]. autorewrite with c_len. lia.
Qed.

Lemma algo_pad n : 0 ≤ n ≤ 31 →
  Z.land (1 + 8 * n) 0x7 = 1 ∧ Z.land (Z.shiftr (1 + 8 * n) 3) 0x1f = n.
Proof.
  intros Hn. change 0x7 with (Z.ones 3). change 0x1f with (Z.ones 5).
  rewrite !Z.land_ones, Z.shiftr_div_pow2 by done.
  change (2 ^ 3) with 8. change (2 ^ 5) with 32.
  rewrite (Z.mul_comm 8), Z.mod_add, Z.div_add by done. split; [done|].
  change (1 / 8) with 0. rewrite Z.mod_small; lia.
Qed.

(** Decryption of a correctly encrypted and padded inner packet. *)
Lemma wp_segrt_decrypt_ok `{OS} cfg key pkt bs n w Q :
  0 < cfg_sr_count cfg → cfg_sr_encrypt_mode cfg = 1 →
  c_sr_decrypt_key (w_c w) = aes_set_decrypt_key key → Forall is_block bs →
  rd pkt 10 = Some (1 + 8 * n) → 0 ≤ n ≤ 31 → n < 16 * Z.of_nat (length bs) →
  let buf := concat (map (λ b, aes_encrypt_block b (aes_set_encrypt_key key)) bs) in
  Q (Some (concat bs, len buf - n)) w →
  wp (segrt_decrypt cfg pkt buf (len buf)) w Q.
Proof.
  intros Hcnt Hmode Hkey Hbs Hrd Hn Hlt buf HQ.
  destruct (concat_blocks (λ b, aes_encrypt_block b (aes_set_encrypt_key key)) bs) as [Heb Hel];
    [intros b Hb; by apply aes_encrypt_block_block|done|]. fold buf in Heb, Hel.
  unfold segrt_decrypt. rewrite Hmode, (proj2 (Z.ltb_lt _ _) Hcnt). cbn [andb Z.ltb Z.compare].
  wp_step. apply (wp_mem _ _ _ _ Hrd). cbv zeta.
  destruct (algo_pad n Hn) as [Ha Hp]. rewrite Ha, Hp. cbn [Z.eqb Pos.eqb].
  do 3 wp_step. pose proof (sr_decrypt_spec (c_sr_decrypt_key (w_c w)) buf (1 + 8 * n) Heb) as Hdec.
  unfold is_algo1 in Hdec. rewrite Ha, decide_True, Hkey in Hdec.
  2:{ unfold len. rewrite Hel. replace (Z.of_nat (16 * length bs)) with (Z.of_nat (length bs) * 16)
        by lia. by apply Z.mod_mul. }
  replace (length buf / 16)%nat with (length bs) in Hdec by
    (rewrite Hel, Nat.mul_comm, Nat.div_mul; done).
  pose proof (ecb_decrypt_encrypt key bs Hbs) as Hecb. fold buf in Hecb. rewrite Hecb in Hdec.
  cbn [Z.eqb Pos.eqb] in Hdec. rewrite Hkey. clearbody buf.
  eapply wp_mem; [exact Hdec|]. cbn [Z.ltb Z.compare]. wp_step.
  assert (len buf = 16 * Z.of_nat (length bs)) as Hlb by (unfold len; lia).
  rewrite (proj2 (Z.ltb_lt n (len buf))) by lia.
  destruct (Z.ltb_spec 0 n); cbn [andb]; [exact HQ|].
  replace (len buf) with (len buf - n) at 1 by lia. exact HQ.
Qed.

(** C28: a segment-routed DATA packet encrypted with the key whose decryption schedule the
    client holds is decrypted, stripped of its link list, inner header and padding, and its
    payload written to the device. *)
Theorem segrt_roundtrip `{OS} cfg key hdr nextid flags links bs inner payload pad w :
  let npad := len pad in
  let srhdr := [nextid; len links / 4; 1 + 8 * npad; flags] in
  let pkt := segrt_packet key hdr srhdr links bs in
  c_state (w_c w) = STATE_ESTABLISHED → 0 < cfg_sr_count cfg → cfg_sr_encrypt_mode cfg = 1 →
  c_sr_decrypt_key (w_c w) = aes_set_decrypt_key key →
  length hdr = 8%nat → len links mod 4 = 0 → npad ≤ 31 →
  Forall is_block bs → concat bs = PKT_DATA :: inner ++ payload ++ pad →
  length inner = 7%nat → payload ≠ [] → Z.of_nat (length bs) ≤ 128 →
  ∃ w', handle_segrt cfg pkt (len pkt) w = Some (1, w') ∧
    written (c_tun_fd (w_c w)) (w_t w') = written (c_tun_fd (w_c w)) (w_t w) ++ [payload].
Proof.
  intros npad srhdr pkt Hs Hcnt Hmode Hkey Hhdr Hlinks Hpad Hbs Hcat Hinner Hpay Hmax.
  enough (wp (handle_segrt cfg pkt (len pkt)) w (λ r w', r = 1 ∧
    written (c_tun_fd (w_c w)) (w_t w') =
    written (c_tun_fd (w_c w)) (w_t w) ++ [payload])) as Hwp.
  { apply wp_run in Hwp as (r & w' & E' & -> & HQ). by exists w'. }
  set (E := λ b, aes_encrypt_block b (aes_set_encrypt_key key)).
  destruct (concat_blocks E bs) as [Heb Hel]; [intros b Hb; by apply aes_encrypt_block_block|done|].
  assert (length (concat bs) = (16 * length bs)%nat) as Hcl.
  { rewrite <-(map_id bs) at 1. by apply (concat_blocks id bs). }
  pose proof (f_equal len Hcat) as Hlen. autorewrite with c_len in Hlen.
  assert (len (concat bs) = 16 * Z.of_nat (length bs)) as Hcl' by (unfold len; lia).
  assert (0 < len payload) as Hpos.
  { destruct payload; [done|]. rewrite len_cons. pose proof (len_nonneg payload). lia. }
  set (L := len links / 4) in *.
  assert (len links = L * 4) as HL by (unfold L; pose proof (Z.div_mod (len links) 4); lia).
  assert (len hdr = 8 ∧ len inner = 7) as [Hh Hi] by (unfold len; lia).
  destruct (segrt_fields key hdr nextid L (1 + 8 * npad) flags links bs Hh HL) as (Hpl & Hrd9 & Hrd10 & Hrdn).
  fold srhdr pkt in Hpl, Hrd9, Hrd10, Hrdn. fold E in Hpl, Hrdn. set (cipher := concat (map E bs)) in *.
  assert (len cipher = 16 * Z.of_nat (length bs)) as Hc by (unfold len; lia).
  pose proof (len_nonneg pad). pose proof (len_nonneg links).
  unfold handle_segrt. do 2 wp_step. rewrite Hs. cbn [negb Z.eqb Pos.eqb STATE_ESTABLISHED].
  unfold HDR_SIZE, MAX_PKT_SIZE. rewrite (proj2 (Z.ltb_ge (len pkt) (8 + 4))) by lia.
  wp_step. apply (wp_mem _ L); [exact Hrd9|].
  cbv zeta. rewrite (proj2 (Z.ltb_ge _ _)), (proj2 (Z.leb_gt _ _)), (proj2 (Z.ltb_ge 2048 _)) by lia.
  replace (len pkt - 8 - (L * 4 + 4)) with (len cipher) by lia.
  wp_step. eapply wp_mem; [exact Hrdn|].
  wp_step. eapply wp_mem; [apply emit_Some; rewrite len_nil; lia|]. rewrite app_nil_l.
  wp_step. apply (wp_segrt_decrypt_ok cfg key pkt bs npad); try done; [unfold npad; lia..|].
  fold E cipher. wp_step. rewrite Hcat. apply (wp_mem _ PKT_DATA); [done|].
  cbn [Z.eqb Pos.eqb PKT_DATA PKT_IPFRAG_SR PKT_DATA_ENC negb andb].
  rewrite (proj2 (Z.leb_gt _ _)) by (unfold npad; lia).
  wp_step. eapply wp_mem.
  { apply (rd_n_app (PKT_DATA :: inner)); [rewrite len_cons; lia|]. unfold npad. lia. }
  do 6 wp_step. split; [done|]. apply written_snoc.
Qed.

(** ** Witnesses *)

Abbreviation linux := (@Linux.backend still_os).
Abbreviation linux_ok := (@Linux.linux_tun_ok still_os).

Lemma handle_recv_safe_witness :
  ∃ w', handle_recv (H := still_os) (H0 := linux) sample_cfg sample_ack (len sample_ack)
          (mk_world waiting []) = Some ((), w') ∧ framed (mk_world waiting []) w' ∧
    client_ok (w_c w') ∧ recv_transition sample_ack STATE_AUTH_SENT (c_state (w_c w')).
Proof.
  apply (@handle_recv_safe still_os linux linux_ok sample_cfg sample_ack (mk_world waiting [])).
  - exact sample_cfg_ok.
  - destruct client_init_ok. split; assumption.
  - apply byte_list_ok. vm_compute. reflexivity.
Defined.

Lemma handle_recv_no_session_witness :
  ∃ w', handle_recv (H := still_os) (H0 := linux) sample_cfg [0x14; 0; 0; 0; 0; 0; 0; 0; 69] 9
          (mk_world waiting []) = Some ((), w') ∧ written 3 (w_t w') = [].
Proof.
  apply (@handle_recv_no_session still_os linux linux_ok sample_cfg
    [0x14; 0; 0; 0; 0; 0; 0; 0; 69] (mk_world waiting []) 3).
  - exact sample_cfg_ok.
  - by apply byte_list_ok.
  - discriminate.
Defined.

(** An unsigned CLOSE. *)
Lemma handle_recv_unsigned_witness :
  handle_recv (H := still_os) (H0 := linux) sample_cfg (0x17 :: replicate 23 0) 24
    (mk_world session []) = Some ((), received (mk_world session [])).
Proof.
  apply (@handle_recv_unsigned still_os linux sample_cfg (0x17 :: replicate 23 0)
    (mk_world session [])).
  - exact sample_cfg_ok.
  - by apply byte_list_ok.
  - vm_compute. reflexivity.
  - done.
  - exists 0x17. split; [reflexivity|]. by apply (bool_decide_unpack _).
Defined.

Lemma tun_data_roundtrip_witness :
  ∃ p w1' w2',
    handle_tun_recv (H := feeding_os [69; 0; 1; 2] ([], 0, 0)) (mk_world session []) = Some ((), w1') ∧
    (∃ fd addr port r tr, w_t w1' = Ev (SSendto fd addr port p) r :: tr) ∧
    handle_data (H := still_os) p (len p) (mk_world session []) = Some (1, w2') ∧
    written 3 (w_t w2') = [] ++ [[69; 0; 1; 2]].
Proof.
  apply (tun_data_roundtrip (feeding_os [69; 0; 1; 2] ([], 0, 0)) still_os
    (mk_world session []) (mk_world session []) [69; 0; 1; 2]); try reflexivity.
  split; vm_compute; [reflexivity|discriminate].
Defined.

Lemma echo_roundtrip_witness :
  ∃ w', handle_echo_resp (H := still_os) (signed_header PKT_ECHORESP session ++ echo_payload 99000000 session)
          60 (mk_world session []) = Some (1, w') ∧
    c_cur_delay (w_c w') = 1000000 ∧ c_min_delay (w_c w') = 1000000 ∧ c_max_delay (w_c w') = 1000000.
Proof.
  apply (echo_roundtrip (H := still_os) session 99000000 (mk_world session [])); [reflexivity|].
  split; [discriminate|reflexivity].
Defined.

Definition sr_session : client :=
  session <| c_sr_decrypt_key := aes_set_decrypt_key fips_key |>.
Definition sr_block : list Z := [0x14; 0; 0; 0; 0; 0; 0; 0; 69; 1; 2; 3; 4; 5; 0; 0].

Lemma segrt_roundtrip_witness :
  ∃ w', handle_segrt (H := still_os) sample_cfg
          (segrt_packet fips_key (0x27 :: replicate 7 0) [0; 1; 17; 0] [127; 0; 0; 1] [sr_block]) 32
          (mk_world sr_session []) = Some (1, w') ∧ written 3 (w_t w') = [] ++ [[69; 1; 2; 3; 4; 5]].
Proof.
  apply (segrt_roundtrip (H := still_os) sample_cfg fips_key (0x27 :: replicate 7 0) 0 0
    [127; 0; 0; 1] [sr_block] (replicate 7 0) [69; 1; 2; 3; 4; 5] [0; 0] (mk_world sr_session []));
    try reflexivity; try discriminate.
  forall_list ltac:(split; [reflexivity|by apply byte_list_ok]).
Defined.
