(* ===== verification/Machine.v ===== *)
(** The state machine, as in [src/iwand.c]: the UDP socket, name resolution, reset, the
    one-second timer. *)
From S2P Require Import Prelude Libc Aes Client Os Tun TunLinux CMonad Packet OpenAck Frag Recv.

Section machine.
Context `{OS, TunBackend}.

Definition udp_socket_create : IO Z :=
  fd ← call SSocket;
  if fd <? 0 then mret (-1) else
  _ ← call (SSetReuseAddr fd);
  mret fd.

Definition resolve_server (cfg : config) : M Z :=
  match inet_pton (cfg_server cfg) with
  | Some a =>
      _ ← mod_c (λ c, c <| c_server_addr := a |>);
      c ← get_c;
      d ← mem (wr_n (c_server_domain c) 0 [0]);
      _ ← mod_c (λ c, c <| c_server_domain := d |>);
      mret 0
  | None =>
      _ ← mod_c (λ c, c <| c_server_domain := snprintf_s (c_server_domain c) 64 (cfg_server cfg) |>);
      r ← io (call (SGetaddrinfo (c_str (cfg_server cfg))));
      match r with
      | None => mret (-1)
      | Some a => _ ← mod_c (λ c, c <| c_server_addr := a |>); mret 0
      end
  end.

Definition client_reset (cfg : config) : M unit :=
  c ← get_c;
  _ ← when ((c_state c =? STATE_ESTABLISHED) || (c_state c =? STATE_CLOSED))
        (_ ← send_close;
         _ ← io (tun_clear_ip (cfg_tun_name cfg));
         run_script cfg (cfg_down_script cfg) (lit "down"));
  c ← get_c;
  _ ← when (0 <=? c_udp_fd c)
        (_ ← io (call (SClose (c_udp_fd c)));
         mod_c (λ c, c <| c_udp_fd := -1 |>));
  fd ← io udp_socket_create;
  _ ← mod_c (λ c, c <| c_udp_fd := fd |>);
  _ ← mod_c (λ c, c <| c_session_token := 0 |> <| c_session_id := 0 |> <| c_peer_ip := 0 |>
                    <| c_dns0 := 0 |> <| c_dns1 := 0 |>);
  _ ← mod_c (λ c, c <| c_frags := map (λ f, f <| f_in_use := 0 |>) (c_frags c) |>);
  _ ← mod_c (λ c, c <| c_server_mtu := 0 |> <| c_encrypt := 0 |> <| c_peer_dup_pkt := 0 |>
                    <| c_cur_delay := 0 |> <| c_min_delay := 5000000 |> <| c_max_delay := 0 |>
                    <| c_echo_counter := 0 |> <| c_last_recv_time := 0 |>
                    <| c_last_open_time := 0 |>);
  c ← get_c;
  d ← mem (rd (c_server_domain c) 0);
  mod_c (λ c, c <| c_state := if negb (d =? 0) then STATE_DNS_NEEDED else STATE_IP_READY |>).

(** The case [STATE_AUTH_SENT] of the timer. *)
Definition tick_auth_sent (cfg : config) (now : Z) : M unit :=
  c ← get_c;
  if AUTH_TIMEOUT <? u32 (now - c_last_recv_time c) then client_reset cfg else
  when (AUTH_RETRY_INTERVAL <=? u32 (now - c_last_open_time c))
    (_ ← mod_c (λ c, c <| c_last_open_time := now |>);
     '(buf, n) ← mem (build_open_pkt cfg MAX_PKT_SIZE);
     _ ← send_to_server buf n;
     mret ()).

Definition tick_established (cfg : config) (now : Z) : M unit :=
  c ← get_c;
  if DATA_TIMEOUT <? u32 (now - c_last_recv_time c) then client_reset cfg else
  _ ← mod_c (λ c, c <| c_echo_counter := u32 (c_echo_counter c + 1) |>);
  c ← get_c;
  when (Z.land (c_echo_counter c) 1 =? 0)
    ('(buf, n) ← build_echo_req MAX_PKT_SIZE;
     _ ← send_to_server buf n;
     mret ()).

(** [switch (c->state)]. *)
Definition tick_dispatch (cfg : config) (now : Z) : M unit :=
  c ← get_c;
  let s := c_state c in
  if s =? STATE_NOT_READY then mret ()
  else if s =? STATE_DNS_NEEDED then
    r ← resolve_server cfg;
    when (r =? 0) (mod_c (λ c, c <| c_state := STATE_IP_READY |>))
  else if s =? STATE_IP_READY then
    _ ← mod_c (λ c, c <| c_server_port := cfg_port cfg |> <| c_last_recv_time := now |>
                      <| c_last_open_time := 0 |> <| c_state := STATE_AUTH_SENT |>);
    tick_auth_sent cfg now
  else if s =? STATE_AUTH_SENT then tick_auth_sent cfg now
  else if s =? STATE_ESTABLISHED then tick_established cfg now
  else client_reset cfg.

Definition timer_tick (cfg : config) : M unit :=
  now ← io mono_secs;
  c ← get_c;
  ready ← (if c_udp_fd c <? 0
           then fd ← io udp_socket_create;
                _ ← mod_c (λ c, c <| c_udp_fd := fd |>);
                mret (negb (fd <? 0))
           else mret true);
  if negb ready then mret () else tick_dispatch cfg now.
End machine.

(** * Properties *)

#[local] Opaque aes_encrypt_block aes_decrypt_block aes_set_encrypt_key aes_set_decrypt_key
  signature build_open_pkt.

(** ** The invariant *)

Definition states : list Z :=
  [STATE_DNS_NEEDED; STATE_IP_READY; STATE_AUTH_SENT; STATE_ESTABLISHED; STATE_CLOSED].

(** The descriptors the client holds: the UDP socket if it has one, and the TUN device. *)
Definition held_fds (c : client) : list Z :=
  (if 0 <=? c_udp_fd c then [c_udp_fd c] else []) ++ [c_tun_fd c].

(** The open descriptors are those the client holds: nothing leaks, nothing is closed twice. *)
Record inv (w : world) : Prop := {
  inv_client : client_ok (w_c w);
  inv_state : c_state (w_c w) ∈ states;
  inv_tun : 0 ≤ c_tun_fd (w_c w);
  inv_fds : live_fds (w_t w) = held_fds (w_c w)
}.

Lemma inv_framed w w' : inv w → framed w w' → c_state (w_c w') ∈ states → inv w'.
Proof.
  intros [Hc Hs Ht Hl] [] Hs'. split; [auto|done|lia|].
  destruct fr_calls as (new & -> & Hn). unfold live_fds in *.
  rewrite live_fds_app, Hn, Hl. unfold held_fds. by rewrite fr_udp, fr_tun.
Qed.

Lemma recv_transition_states pkt s s' : recv_transition pkt s s' → s ∈ states → s' ∈ states.
Proof.
  unfold states. rewrite !elem_of_cons. destruct 1 as [|s ? ? [->| ->]| |]; tauto.
Qed.

(** ** Sockets *)

Section specs.
Context `{TunOk}.
Implicit Types (w : world).

Lemma udp_socket_create_spec :
  io_spec udp_socket_create (λ fd new,
    -1 ≤ fd ∧ Forall quiet new ∧ opens_fd fd new ∧
    ((∀ tr, 0 ≤ os tr SSocket) → ∃ tr, fd = os tr SSocket)).
Proof.
  unfold udp_socket_create. io_exec; (split_and!;
    [rewrite ?Z.ltb_ge in *; lia|io_config| |
     intros Hsock; rewrite ?Z.ltb_ge, ?Z.ltb_lt in *; try done]).
  - rewrite Z.ltb_lt in *. intros live. unfold live_fds_from, fd_effect. cbn.
    by rewrite (proj2 (Z.leb_gt 0 _)).
  - destruct H2 as [tr ->]. specialize (Hsock tr). lia.
  - rewrite Z.ltb_ge in *. intros live. unfold live_fds_from, fd_effect. cbn. done.
Qed.

Lemma config_events_quiet new : Forall config_event new → Forall quiet new.
Proof. intros Hn. eapply Forall_impl; [exact Hn|apply config_quiet]. Qed.
Lemma script_events_quiet new : Forall script_event new → Forall quiet new.
Proof. intros Hn. eapply Forall_impl; [exact Hn|apply script_quiet]. Qed.
Lemma quiet_events_no_write new : Forall quiet new → Forall no_write new.
Proof. intros Hn. eapply Forall_impl; [exact Hn|apply quiet_no_write]. Qed.

(** ** Reset *)

Definition close_event (c : client) (ev : event) : Prop :=
  ev_call ev = SSendto (c_udp_fd c) (c_server_addr c) (c_server_port c)
                 (signed_header PKT_CLOSE c).
(** All that a reset sends is the CLOSE of an established session. *)
Definition reset_event (c : client) (ev : event) : Prop :=
  quiet ev ∨ c_state c = STATE_ESTABLISHED ∧ close_event c ev.

Lemma quiet_reset_events c new : Forall quiet new → Forall (reset_event c) new.
Proof. intros Hn. eapply Forall_impl; [exact Hn|]. by left. Qed.
Lemma reset_events_no_write c new : Forall (reset_event c) new → Forall no_write new.
Proof.
  intros Hn. eapply Forall_impl; [exact Hn|]. intros ev [Hq|[_ Hc]]; [by apply quiet_no_write|].
  unfold close_event in Hc. unfold no_write. by rewrite Hc.
Qed.

(** Ending a session: CLOSE is sent if it was established, the address is cleared and the
    down script run. *)
Lemma wp_teardown cfg w Q :
  cfg_ok cfg →
  (∀ new, Forall (reset_event (w_c w)) new → fd_neutral new →
    (c_state (w_c w) = STATE_ESTABLISHED → 0 ≤ c_udp_fd (w_c w) →
     Exists (close_event (w_c w)) new) →
    Q () (mk_world (w_c w) (new ++ w_t w))) →
  wp (_ ← send_close;
      _ ← io (tun_clear_ip (cfg_tun_name cfg));
      run_script cfg (cfg_down_script cfg) (lit "down")) w Q.
Proof.
  intros Hcfg HQ.
  assert (∀ w1 Q, (∀ new, Forall quiet new → fd_neutral new →
      Q () (mk_world (w_c w1) (new ++ w_t w1))) →
    wp (_ ← io (tun_clear_ip (cfg_tun_name cfg));
        run_script cfg (cfg_down_script cfg) (lit "down")) w1 Q) as Hrest.
  { intros w1 Q' HQ'. wp_step. eapply wp_io; [apply tun_clear_ip_ok|].
    intros _ new1 [Hc1 Hn1]. apply wp_run_script; [apply Hcfg|]. intros new2 Hnew2.
    apply script_run_events in Hnew2. cbn [w_c w_t]. rewrite app_assoc. apply HQ'.
    - apply Forall_app. split; [by apply script_events_quiet|by apply config_events_quiet].
    - intros live. rewrite live_fds_app, Hn1. by apply script_events_neutral. }
  wp_step. apply wp_send_close. cbv zeta. case_bool_decide as Hs.
  - apply Hrest. intros new Hw Hn. cbn [w_c w_t]. rewrite cons_middle, app_assoc. apply HQ.
    + apply Forall_app. split; [by apply quiet_reset_events|]. constructor; [|done].
      right. split; [apply Hs|reflexivity].
    + intros live. rewrite live_fds_app. apply Hn.
    + intros _ _. apply Exists_app. right. by constructor.
  - apply Hrest. intros new Hw Hn. apply HQ; [by apply quiet_reset_events|done|]. intros. by destruct Hs.
Qed.

(** What a reset makes of the client, with the new socket. *)
Definition reset_client (c : client) (fd : Z) : client :=
  c <| c_udp_fd := fd |>
    <| c_session_token := 0 |> <| c_session_id := 0 |> <| c_peer_ip := 0 |>
    <| c_dns0 := 0 |> <| c_dns1 := 0 |>
    <| c_frags := map released (c_frags c) |>
    <| c_server_mtu := 0 |> <| c_encrypt := 0 |> <| c_peer_dup_pkt := 0 |>
    <| c_cur_delay := 0 |> <| c_min_delay := 5000000 |> <| c_max_delay := 0 |>
    <| c_echo_counter := 0 |> <| c_last_recv_time := 0 |> <| c_last_open_time := 0 |>
    <| c_state := if decide (c_str (c_server_domain c) = []) then STATE_IP_READY
                  else STATE_DNS_NEEDED |>.

Lemma wp_client_reset cfg w (Q : unit → world → Prop) :
  cfg_ok cfg → is_cbuf 64 (c_server_domain (w_c w)) →
  (∀ fd new, -1 ≤ fd → ((∀ tr, 0 ≤ os tr SSocket) → ∃ tr, fd = os tr SSocket) →
    Forall (reset_event (w_c w)) new →
    live_fds_from (held_fds (w_c w)) new = held_fds (reset_client (w_c w) fd) →
    (c_state (w_c w) = STATE_ESTABLISHED → 0 ≤ c_udp_fd (w_c w) →
     Exists (close_event (w_c w)) new) →
    Q () (mk_world (reset_client (w_c w) fd) (new ++ w_t w))) →
  wp (client_reset cfg) w Q.
Proof.
  intros Hcfg Hdom HQ. unfold client_reset. do 2 wp_step. wp_step.
  apply (wp_mono _ _ (λ _ w', ∃ new, w' = mk_world (w_c w) (new ++ w_t w) ∧
    Forall (reset_event (w_c w)) new ∧ fd_neutral new ∧
    (c_state (w_c w) = STATE_ESTABLISHED → 0 ≤ c_udp_fd (w_c w) →
     Exists (close_event (w_c w)) new))).
  { destruct (_ || _) eqn:Hs; cbn [when].
    - apply wp_teardown; [done|]. intros new Hw Hn Hcl. by exists new.
    - wp_step. exists []. destruct w as [c tr]. split_and!; [done..|]. intros Hs'. cbn [w_c] in *.
      by rewrite Hs' in Hs. }
  intros _ w1 (new1 & -> & Hw1 & Hn1 & Hcl). do 3 wp_step.
  apply (wp_mono _ _ (λ _ w', ∃ new, w_t w' = new ++ new1 ++ w_t w ∧ Forall quiet new ∧
    live_fds_from (held_fds (w_c w)) new = [c_tun_fd (w_c w)] ∧
    (w_c w' = w_c w ∨ w_c w' = (w_c w) <| c_udp_fd := -1 |>))).
  { unfold held_fds. wp_step.
    - do 3 wp_step. eexists [_]. split_and!; [done|io_config| |by right].
      cbn. by rewrite Z.eqb_refl.
    - wp_step. exists []. split_and!; [done|done|done|by left]. }
  intros _ w2 (new2 & Htr & Hw2 & Hl2 & Hc2). wp_step.
  eapply wp_io; [apply udp_socket_create_spec|]. intros fd new3 (Hfd & Hw3 & Ho3 & Hsock).
  do 10 wp_step.
  assert (∀ (f : client → client), f = (λ c, c <| c_udp_fd := fd |>) →
    f (w_c w2) = f (w_c w)) as Heq.
  { intros f ->. by destruct Hc2 as [-> | ->]. }
  specialize (Heq _ eq_refl). cbv beta in Heq. rewrite Heq, Htr.
  destruct Hdom as (Hdl & _ & _).
  destruct (c_server_domain (w_c w)) as [|d0 dom] eqn:Ed; [done|].
  wp_step. apply (wp_mem _ d0); [change (rd (c_server_domain (w_c w)) 0 = Some d0); by rewrite Ed|]. wp_step.
  assert ((if negb (d0 =? 0) then STATE_DNS_NEEDED else STATE_IP_READY) =
          if decide (c_str (c_server_domain (w_c w)) = []) then STATE_IP_READY
          else STATE_DNS_NEEDED) as ->.
  { rewrite Ed. cbn [c_str]. by destruct (d0 =? 0). }
  rewrite !app_assoc. apply (HQ fd); [done|done|rewrite !Forall_app; auto using quiet_reset_events| |].
  - rewrite !live_fds_app, Hn1, Hl2, Ho3.
    change (held_fds (reset_client (w_c w) fd)) with
      ((if 0 <=? fd then [fd] else []) ++ [c_tun_fd (w_c w)]).
    by destruct (0 <=? fd).
  - intros Hs Hu. rewrite !Exists_app. auto.
Qed.

Lemma reset_client_ok c fd : client_ok c → client_ok (reset_client c fd).
Proof.
  intros []. split; try assumption; try by apply is_u_0.
  - done.
  - change (length (map released (c_frags c)) = FRAG_SLOTS ∧
      Forall frag_ok (map released (c_frags c))).
    destruct ok_frags as [Hl Hf]. rewrite length_map. split; [done|].
    rewrite Forall_map. eapply Forall_impl; [exact Hf|]. intros f []. by split.
Qed.

Lemma reset_state c fd :
  c_state (reset_client c fd) = STATE_IP_READY ∨ c_state (reset_client c fd) = STATE_DNS_NEEDED.
Proof.
  change (c_state (reset_client c fd)) with
    (if decide (c_str (c_server_domain c) = []) then STATE_IP_READY else STATE_DNS_NEEDED).
  destruct (decide _); auto.
Qed.

(** The state changes of a tick and of a reconnection. *)
Inductive tick_transition : Z → Z → Prop :=
  | tick_stay s : tick_transition s s
  | tick_resolved : tick_transition STATE_DNS_NEEDED STATE_IP_READY
  | tick_open : tick_transition STATE_IP_READY STATE_AUTH_SENT
  | tick_reset s s' :
      s = STATE_AUTH_SENT ∨ s = STATE_ESTABLISHED ∨ s = STATE_CLOSED →
      s' = STATE_IP_READY ∨ s' = STATE_DNS_NEEDED → tick_transition s s'.

Lemma wp_reset_inv cfg w (P : Z → Z → Prop) :
  cfg_ok cfg → inv w →
  (∀ s', s' = STATE_IP_READY ∨ s' = STATE_DNS_NEEDED → P (c_state (w_c w)) s') →
  wp (client_reset cfg) w (λ _ w', inv w' ∧ P (c_state (w_c w)) (c_state (w_c w')) ∧
    ∃ new, w_t w' = new ++ w_t w ∧ Forall no_write new).
Proof.
  intros Hcfg [Hc Hs Ht Hl] HP. apply wp_client_reset; [done|apply Hc|].
  intros fd new Hfd _ Hw Hlive _. pose proof (reset_state (w_c w) fd) as Hrs.
  split; [|split; [by apply HP|exists new; eauto using reset_events_no_write]]. split; cbn [w_c w_t].
  - by apply reset_client_ok.
  - unfold states. rewrite !elem_of_cons. tauto.
  - done.
  - unfold live_fds in *. by rewrite live_fds_app, Hl.
Qed.

(** ** Name resolution *)

(** A numeric server needs no query; a name is remembered and looked up. *)
Lemma wp_resolve_server cfg w (Q : Z → world → Prop) :
  cfg_ok cfg → is_cbuf 64 (c_server_domain (w_c w)) →
  (∀ a dom, inet_pton (cfg_server cfg) = Some a → is_cbuf 64 dom → c_str dom = [] →
    Q 0 (mk_world ((w_c w) <| c_server_addr := a |> <| c_server_domain := dom |>) (w_t w))) →
  (inet_pton (cfg_server cfg) = None →
    let dom := snprintf_s (c_server_domain (w_c w)) 64 (cfg_server cfg) in
    let s := SGetaddrinfo (c_str (cfg_server cfg)) in
    let r : option Z := os (w_t w) s in
    let c := (w_c w) <| c_server_domain := dom |> in
    is_cbuf 64 dom →
    match r with
    | None => Q (-1) (mk_world c (Ev s r :: w_t w))
    | Some a => Q 0 (mk_world (c <| c_server_addr := a |>) (Ev s r :: w_t w))
    end) →
  wp (resolve_server cfg) w Q.
Proof.
  intros Hcfg Hdom Hnum Hname. unfold resolve_server.
  destruct (inet_pton (cfg_server cfg)) as [a|].
  - do 4 wp_step. destruct Hdom as (Hdl & Hdb & Hd0). wp_step.
    destruct (c_server_domain (w_c w)) as [|d0 dom] eqn:Ed; [done|].
    apply (wp_mem _ (0 :: dom)).
    { change (c_server_domain _) with (c_server_domain (w_c w)). rewrite Ed.
      rewrite wr_n_Some; [done|done|]. unfold len. simpl. lia. }
    do 3 wp_step. apply (Hnum a (0 :: dom)); [done| |done].
    split_and!; [done| |done]. rewrite Forall_cons in *. split; [by apply is_u_0|tauto].
  - do 2 wp_step. wp_step. wp_step.
    assert (is_cbuf 64 (snprintf_s (c_server_domain (w_c w)) 64 (cfg_server cfg))) as Hok.
    { apply is_cbuf_snprintf; [done|apply Hcfg|lia]. }
    specialize (Hname eq_refl Hok). cbv zeta in Hname.
    destruct (os (w_t w) (SGetaddrinfo (c_str (cfg_server cfg)))); by wp_steps.
Qed.

(** ** The timer *)

Lemma inv_update c c' tr new :
  inv (mk_world c tr) → (client_ok c → client_ok c') → c_udp_fd c' = c_udp_fd c →
  c_tun_fd c' = c_tun_fd c → c_state c' ∈ states → fd_neutral new →
  inv (mk_world c' (new ++ tr)).
Proof.
  intros [Hc Hs Ht Hl] Hok Hu Htun Hs' Hn. cbn [w_c w_t] in *. split; cbn [w_c w_t]; [auto|done|lia|].
  unfold live_fds in *. rewrite live_fds_app, Hn, Hl. unfold held_fds. by rewrite Hu, Htun.
Qed.

(** What a tick establishes, from world [w0]. *)
Definition ticked (w0 w' : world) : Prop :=
  inv w' ∧ tick_transition (c_state (w_c w0)) (c_state (w_c w')) ∧
  ∃ new, w_t w' = new ++ w_t w0 ∧ Forall no_write new.

Lemma ticked_from w0 w w' new :
  w_t w = new ++ w_t w0 → Forall no_write new → inv w' →
  tick_transition (c_state (w_c w0)) (c_state (w_c w')) →
  (∃ new', w_t w' = new' ++ w_t w ∧ Forall no_write new') → ticked w0 w'.
Proof.
  intros Htr Hn Hi Ht (new' & Htr' & Hn'). split_and!; [done|done|].
  exists (new' ++ new). rewrite Htr', Htr, app_assoc. split; [done|]. by apply Forall_app.
Qed.

Lemma last_open_frame c t : same_frame c (c <| c_last_open_time := t |>).
Proof. frame_update ltac:(done). Qed.
Lemma echo_counter_frame c t : same_frame c (c <| c_echo_counter := t |>).
Proof. frame_update ltac:(done). Qed.

(** Sending keeps the invariant. *)
Lemma inv_frame_sent c c' tr s r :
  inv (mk_world c tr) → same_frame c c' → c_state c' = c_state c →
  neutral_event (Ev s r) → inv (mk_world c' (Ev s r :: tr)).
Proof.
  intros Hi Hf Hs Hev. eapply inv_framed; [exact Hi|by apply framed_event|].
  cbn [w_c]. rewrite Hs. apply Hi.
Qed.

(** The OPEN packet of a configuration. *)
Definition open_packet (cfg : config) : list Z :=
  open_header cfg ++ signature (open_header cfg) ++ open_tlvs cfg.

(** One authentication tick: reset after the timeout, or an OPEN packet when it is due. *)
Lemma wp_tick_auth_sent cfg now w (Q : unit → world → Prop) :
  cfg_ok cfg →
  (let c := w_c w in
   if AUTH_TIMEOUT <? u32 (now - c_last_recv_time c) then wp (client_reset cfg) w Q
   else if AUTH_RETRY_INTERVAL <=? u32 (now - c_last_open_time c) then
     let s := SSendto (c_udp_fd c) (c_server_addr c) (c_server_port c) (open_packet cfg) in
     Q () (mk_world (c <| c_last_open_time := now |>) (Ev s (os (w_t w) s) :: w_t w))
   else Q () w) →
  wp (tick_auth_sent cfg now) w Q.
Proof.
  intros Hcfg HQ. cbv zeta in HQ. unfold tick_auth_sent. do 2 wp_step.
  destruct (AUTH_TIMEOUT <? _); [done|].
  destruct (AUTH_RETRY_INTERVAL <=? _); cbn [when]; [|by wp_step].
  do 3 wp_step. pose proof (build_open_pkt_spec cfg MAX_PKT_SIZE Hcfg ltac:(done)) as Hb.
  eapply wp_mem; [exact Hb|]. cbv beta iota. wp_step. apply wp_send_to_server; [done|].
  cbv zeta. by wp_step.
Qed.

(** One session tick: reset after the timeout, or an ECHO_REQ on every other tick. *)
Lemma wp_tick_established cfg now w (Q : unit → world → Prop) :
  (let c := w_c w in
   if DATA_TIMEOUT <? u32 (now - c_last_recv_time c) then wp (client_reset cfg) w Q
   else
     let c' := c <| c_echo_counter := u32 (c_echo_counter c + 1) |> in
     if Z.even (c_echo_counter c + 1) then
       let ts := os (w_t w) SClock in
       let tr := Ev SClock ts :: w_t w in
       let s := SSendto (c_udp_fd c) (c_server_addr c) (c_server_port c)
                  (signed_header PKT_ECHOREQ c ++
                   echo_payload (u64 (ts.1 * 1000000 + ts.2 / 1000)) c) in
       Q () (mk_world c' (Ev s (os tr s) :: tr))
     else Q () (mk_world c' (w_t w))) →
  wp (tick_established cfg now) w Q.
Proof.
  intros HQ. cbv zeta in HQ. unfold tick_established. do 2 wp_step.
  destruct (DATA_TIMEOUT <? _); [done|]. do 4 wp_step.
  assert ((Z.land (u32 (c_echo_counter (w_c w) + 1)) 1 =? 0) =
          Z.even (c_echo_counter (w_c w) + 1)) as E.
  { change 1 with (Z.ones 1) at 2. rewrite Z.land_ones by done. unfold u32.
    change (2 ^ 1) with 2. rewrite Z.mod_mod_divide by (by exists (2 ^ 31)).
    rewrite Zmod_even. by destruct (Z.even _). }
  set (c' := (w_c w) <| c_echo_counter := u32 (c_echo_counter (w_c w) + 1) |>) in *.
  change (c_echo_counter c') with (u32 (c_echo_counter (w_c w) + 1)). rewrite E.
  destruct (Z.even _); cbn [when]; [|by wp_step].
  wp_step. apply wp_build_echo_req; [done|]. cbv zeta beta iota. cbn [w_c w_t].
  wp_step. apply wp_send_to_server.
  { by rewrite len_app, len_signed_header, len_echo_payload. }
  cbv zeta. by wp_step.
Qed.

(** *** The invariant *)

Lemma ticked_reset cfg w0 w new :
  cfg_ok cfg → inv w → w_t w = new ++ w_t w0 → Forall no_write new →
  c_state (w_c w) = c_state (w_c w0) →
  c_state (w_c w) = STATE_AUTH_SENT ∨ c_state (w_c w) = STATE_ESTABLISHED ∨
    c_state (w_c w) = STATE_CLOSED →
  wp (client_reset cfg) w (λ _ w', ticked w0 w').
Proof.
  intros Hcfg Hi Htr Hn Hs Hst.
  eapply wp_mono; [apply (wp_reset_inv cfg w tick_transition); [done|done|]|].
  - intros s' Hs'. by apply tick_reset.
  - intros _ w' (Hi' & Ht & Hnew). eapply ticked_from; [exact Htr|done|done| |done].
    by rewrite <-Hs.
Qed.

Lemma ticked_auth_sent cfg now w0 w new s :
  cfg_ok cfg → inv w → w_t w = new ++ w_t w0 → Forall no_write new →
  c_state (w_c w) = STATE_AUTH_SENT → c_state (w_c w0) = s →
  (s = STATE_AUTH_SENT ∨ s = STATE_IP_READY ∧ c_last_recv_time (w_c w) = now) →
  wp (tick_auth_sent cfg now) w (λ _ w', ticked w0 w').
Proof.
  intros Hcfg Hi Htr Hn Hs Hs0 Hor. apply wp_tick_auth_sent; [done|]. cbv zeta.
  assert (tick_transition (c_state (w_c w0)) STATE_AUTH_SENT) as Ht.
  { rewrite Hs0. destruct Hor as [->|[-> _]]; constructor. }
  destruct (Z.ltb_spec AUTH_TIMEOUT (u32 (now - c_last_recv_time (w_c w)))) as [Hto|Hto].
  { destruct Hor as [->|[_ Hr]].
    - eapply ticked_reset; [done|done|exact Htr|done|congruence|by left].
    - rewrite Hr, Z.sub_diag in Hto. by compute in Hto. }
  destruct (AUTH_RETRY_INTERVAL <=? _).
  - split_and!.
    + destruct w as [c tr]. apply inv_frame_sent with (c := c); [done|apply last_open_frame|done|done].
    + cbn [w_c]. by rewrite <-Hs in Ht.
    + eexists (_ :: new). cbn [w_t]. rewrite Htr. split; [done|]. by constructor.
  - split_and!; [done|by rewrite Hs|by exists new].
Qed.

Lemma ticked_established cfg now w0 w new :
  cfg_ok cfg → inv w → w_t w = new ++ w_t w0 → Forall no_write new →
  c_state (w_c w) = STATE_ESTABLISHED → c_state (w_c w0) = STATE_ESTABLISHED →
  wp (tick_established cfg now) w (λ _ w', ticked w0 w').
Proof.
  intros Hcfg Hi Htr Hn Hs Hs0. apply wp_tick_established. cbv zeta.
  destruct (DATA_TIMEOUT <? _).
  { eapply ticked_reset; [done|done|exact Htr|done|congruence|tauto]. }
  destruct w as [c tr]. cbn [w_c w_t] in *. set (c' := c <| c_echo_counter := _ |>).
  assert (tick_transition (c_state (w_c w0)) (c_state c')) as Ht.
  { rewrite Hs0. change (c_state c') with (c_state c). rewrite Hs. constructor. }
  assert (same_frame c c') as Hf by apply echo_counter_frame.
  destruct (Z.even _).
  - split_and!; [|done|].
    + eapply inv_frame_sent; [|exact Hf|done|done].
      eapply inv_frame_sent; [done|apply same_frame_refl|done|done].
    + eexists (_ :: _ :: new). cbn [w_t]. rewrite Htr. split; [done|]. by do 2 constructor.
  - split_and!; [|done|by exists new].
    eapply inv_framed; [exact Hi|by apply framed_update|]. cbn [w_c].
    change (c_state c') with (c_state c). apply Hi.
Qed.

Lemma inv_clock w : inv w → inv (mk_world (w_c w) (Ev SClock (os (w_t w) SClock) :: w_t w)).
Proof.
  intros Hi. destruct w as [c tr]. eapply inv_frame_sent; [done|apply same_frame_refl|done|done].
Qed.

(** A missing socket is recreated first. *)
Lemma wp_ready w (Q : bool → world → Prop) :
  inv w →
  (∀ b fd new, let w' := mk_world ((w_c w) <| c_udp_fd := fd |>) (new ++ w_t w) in
    inv w' → Forall quiet new → Q b w') →
  wp (if c_udp_fd (w_c w) <? 0
      then fd ← io udp_socket_create;
           _ ← mod_c (λ c, c <| c_udp_fd := fd |>);
           mret (negb (fd <? 0))
      else mret true) w Q.
Proof.
  intros Hi HQ. destruct (Z.ltb_spec (c_udp_fd (w_c w)) 0) as [Hu|Hu].
  2:{ wp_step. specialize (HQ true (c_udp_fd (w_c w)) []). destruct w as [[] tr]. by apply HQ. }
  wp_step. eapply wp_io; [apply udp_socket_create_spec|]. intros fd new (Hfd & Hn & Ho & _).
  do 3 wp_step. destruct Hi as [Hc Hs Ht Hl]. apply HQ; [|done].
  split; cbn [w_c w_t]; [|done|done|].
  - destruct Hc. by split.
  - unfold live_fds in *. rewrite live_fds_app, Hl, Ho. unfold held_fds.
    rewrite (proj2 (Z.leb_gt 0 (c_udp_fd (w_c w))) Hu).
    change (c_udp_fd ((w_c w) <| c_udp_fd := fd |>)) with fd.
    change (c_tun_fd ((w_c w) <| c_udp_fd := fd |>)) with (c_tun_fd (w_c w)).
    by destruct (0 <=? fd).
Qed.

Lemma ticked_resolve cfg w0 w new :
  cfg_ok cfg → inv w → w_t w = new ++ w_t w0 → Forall no_write new →
  c_state (w_c w) = STATE_DNS_NEEDED → c_state (w_c w0) = STATE_DNS_NEEDED →
  wp (r ← resolve_server cfg;
      when (r =? 0) (mod_c (λ c, c <| c_state := STATE_IP_READY |>))) w (λ _ w', ticked w0 w').
Proof.
  intros Hcfg Hi Htr Hn Hs Hs0.
  assert (tick_transition (c_state (w_c w0)) STATE_IP_READY ∧
          tick_transition (c_state (w_c w0)) STATE_DNS_NEEDED) as [Ht1 Ht2].
  { rewrite Hs0. split; constructor. }
  destruct w as [c tr]. cbn [w_c w_t] in *.
  assert (∀ a dom, is_cbuf 64 dom → client_ok c →
    client_ok (c <| c_server_addr := a |> <| c_server_domain := dom |>)) as Hok1.
  { intros a dom Hd []. by split. }
  wp_step. apply wp_resolve_server; [done|apply Hi| |].
  - intros a dom _ Hd _. cbn [Z.eqb w_c w_t when]. wp_step. split_and!; [|done|by exists new].
    eapply (inv_update c _ tr []); [done| |done|done|by unfold states; set_solver|done].
    intros Hc. destruct (Hok1 a dom Hd Hc). by split.
  - cbv zeta. cbn [w_c w_t]. intros _ Hd. set (s := SGetaddrinfo _).
    destruct (os tr s) as [a|] eqn:Er; cbn [Z.eqb when]; wp_step.
    + split_and!; [|done|].
      * eapply (inv_update c _ tr [_]); [done| |done|done|by unfold states; set_solver|done].
        intros Hc. destruct (Hok1 a _ Hd Hc). by split.
      * eexists (_ :: new). cbn [w_t]. rewrite Htr. split; [done|]. by constructor.
    + split_and!; [| |].
      * eapply (inv_update c _ tr [_]); [done| |done|done| |done].
        { intros Hc. destruct (Hok1 0 _ Hd Hc). by split. }
        change (c_state c ∈ states). apply Hi.
      * cbn [w_c]. by rewrite <-Hs in Ht2.
      * eexists (_ :: new). cbn [w_t]. rewrite Htr. split; [done|]. by constructor.
Qed.

Lemma wp_timer_tick cfg w : cfg_ok cfg → inv w → wp (timer_tick cfg) w (λ _ w', ticked w w').
Proof.
  intros Hcfg Hi. unfold timer_tick. do 4 wp_step. set (now := u32 _).
  wp_step. set (clock := Ev SClock _).
  apply (wp_ready (mk_world (w_c w) (clock :: w_t w))); [by apply inv_clock|]. cbn [w_c w_t].
  intros b fd new' Hi1 Hn'. set (w1 := mk_world _ _) in *.
  assert (c_state (w_c w1) = c_state (w_c w)) as Hs1 by done.
  assert (w_t w1 = (new' ++ [clock]) ++ w_t w) as Htr by (cbn [w1 w_t]; by rewrite <-app_assoc).
  assert (Forall no_write (new' ++ [clock])) as Hn.
  { apply Forall_app. split; [by apply quiet_events_no_write|by constructor]. }
  set (new := new' ++ [clock]) in *. clearbody w1 new. clear new' Hn' fd.
  assert (tick_transition (c_state (w_c w)) (c_state (w_c w1))) as Hstay
    by (rewrite Hs1; constructor).
  assert (ticked w w1) as Htick by (split_and!; [done|done|by exists new]).
  destruct b; cbn [negb]; [|by wp_step]. unfold tick_dispatch. do 2 wp_step. cbv zeta.
  wp_step; [by wp_step|].
  wp_step; [rewrite Z.eqb_eq in *; eapply ticked_resolve; [done|done|exact Htr|done|done|congruence]|].
  wp_step.
  { rewrite Z.eqb_eq in *. do 2 wp_step.
    eapply (ticked_auth_sent _ _ _ _ new STATE_IP_READY); [done| |exact Htr|done|done|congruence|by right].
    destruct w1 as [c tr].
    eapply (inv_update c _ tr []); [done| |done|done|by unfold states; set_solver|done].
    intros []. split; try assumption. apply u32_is. }
  wp_step.
  { rewrite Z.eqb_eq in *.
    eapply (ticked_auth_sent _ _ _ _ new STATE_AUTH_SENT); [done|done|exact Htr|done|done|congruence|by left]. }
  wp_step.
  { rewrite Z.eqb_eq in *. eapply ticked_established; [done|done|exact Htr|done|done|congruence]. }
  rewrite !Z.eqb_neq in *.
  eapply ticked_reset; [done|done|exact Htr|done|done|]. right; right.
  pose proof (inv_state _ Hi1) as Hst. unfold states in Hst.
  rewrite !elem_of_cons, elem_of_nil in Hst. tauto.
Qed.
End specs.

(** ** The theorems *)

Section theorems.
Context `{TunOk}.

(** A server given as an address is not looked up: the address is stored in network
    order, any remembered name is forgotten, and no call is made. *)
Theorem resolve_numeric cfg w ip :
  is_u32 ip → is_cbuf 64 (c_server_domain (w_c w)) → c_str (cfg_server cfg) = ip_string ip →
  cfg_ok cfg →
  ∃ w', resolve_server cfg w = Some (0, w') ∧ c_server_addr (w_c w') = htonl ip ∧
    c_str (c_server_domain (w_c w')) = [] ∧ w_t w' = w_t w.
Proof.
  intros Hip Hdom Hs Hcfg.
  assert (inet_pton (cfg_server cfg) = Some (htonl ip)) as E.
  { rewrite <-(inet_pton_ip_string ip Hip). unfold inet_pton. rewrite Hs.
    rewrite (c_str_id (ip_string ip)); [done|]. rewrite <-Hs. apply c_str_nonzero. }
  assert (wp (resolve_server cfg) w (λ r w', r = 0 ∧ c_server_addr (w_c w') = htonl ip ∧
    c_str (c_server_domain (w_c w')) = [] ∧ w_t w' = w_t w)) as Hwp.
  { apply wp_resolve_server; [done|done| |congruence]. intros a dom Ha _ Hd.
    split_and!; [done| |exact Hd|done]. change (a = htonl ip). congruence. }
  apply wp_run in Hwp as (r & w' & ? & -> & ?). eauto.
Qed.

(** While authenticating, a tick within the timeout sends the OPEN packet of the
    configuration to the server when at least two seconds have passed since the last one, and
    nothing otherwise; the state does not change. *)
Theorem open_retransmission cfg now w :
  cfg_ok cfg → u32 (now - c_last_recv_time (w_c w)) ≤ AUTH_TIMEOUT →
  let c := w_c w in
  let s := SSendto (c_udp_fd c) (c_server_addr c) (c_server_port c) (open_packet cfg) in
  tick_auth_sent cfg now w = Some ((),
    if AUTH_RETRY_INTERVAL <=? u32 (now - c_last_open_time c)
    then mk_world (c <| c_last_open_time := now |>) (Ev s (os (w_t w) s) :: w_t w) else w).
Proof.
  intros Hcfg Hto c s.
  assert (wp (tick_auth_sent cfg now) w (λ _ w', w' =
    if AUTH_RETRY_INTERVAL <=? u32 (now - c_last_open_time c)
    then mk_world (c <| c_last_open_time := now |>) (Ev s (os (w_t w) s) :: w_t w) else w)) as Hwp.
  { apply wp_tick_auth_sent; [done|]. cbv zeta. rewrite (proj2 (Z.ltb_ge _ _)) by done.
    fold c. by destruct (AUTH_RETRY_INTERVAL <=? _). }
  by apply wp_run in Hwp as ([] & w' & E & ->).
Qed.

(** Authentication that stays unanswered for more than six seconds is given up: the
    session state is reset, and the name looked up again if there is one. *)
Theorem auth_timeout cfg now w :
  cfg_ok cfg → inv w → c_state (w_c w) = STATE_AUTH_SENT →
  AUTH_TIMEOUT < u32 (now - c_last_recv_time (w_c w)) →
  ∃ w' fd, tick_auth_sent cfg now w = Some ((), w') ∧ w_c w' = reset_client (w_c w) fd ∧
    live_fds (w_t w') = held_fds (w_c w').
Proof.
  intros Hcfg Hi Hs Hto.
  assert (wp (tick_auth_sent cfg now) w (λ _ w', ∃ fd, w_c w' = reset_client (w_c w) fd ∧
    live_fds (w_t w') = held_fds (w_c w'))) as Hwp.
  { apply wp_tick_auth_sent; [done|]. cbv zeta. rewrite (proj2 (Z.ltb_lt _ _)) by done.
    apply wp_client_reset; [done|apply Hi|]. intros fd new _ _ _ Hl _. exists fd.
    split; [reflexivity|]. cbn [w_c w_t]. unfold live_fds. rewrite live_fds_app.
    pose proof (inv_fds _ Hi) as Hf. unfold live_fds in Hf. by rewrite Hf. }
  apply wp_run in Hwp as ([] & w' & ? & fd & ? & ?). eauto.
Qed.
End theorems.

(** ** Witnesses *)

(** A session (or a client in another state) that holds descriptors 3 and 4. *)
Definition running (s : Z) : world :=
  mk_world (session <| c_state := s |>) [Ev SSocket 4; Ev (SOpen []) 3].

Lemma running_inv s : s ∈ states → inv (running s).
Proof.
  intros Hs. destruct session_ok. split; [by split|done|done|reflexivity].
Qed.

Lemma resolve_numeric_witness :
  ∃ w', resolve_server (H := still_os) sample_cfg (running STATE_IP_READY) = Some (0, w') ∧
    c_server_addr (w_c w') = htonl 0xC0000201 ∧ c_str (c_server_domain (w_c w')) = [] ∧
    w_t w' = w_t (running STATE_IP_READY).
Proof.
  apply (@resolve_numeric still_os sample_cfg (running STATE_IP_READY) 0xC0000201).
  - by apply (bool_decide_unpack _).
  - apply (ok_server_domain session session_ok).
  - vm_compute. reflexivity.
  - exact sample_cfg_ok.
Defined.

Lemma open_retransmission_witness :
  let w := running STATE_AUTH_SENT in
  let s := SSendto 4 0 0 (open_packet sample_cfg) in
  tick_auth_sent (H := still_os) (H0 := linux) sample_cfg 3 w = Some ((),
    mk_world ((w_c w) <| c_last_open_time := 3 |>) (Ev s (still_os (w_t w) s) :: w_t w)).
Proof.
  apply (@open_retransmission still_os linux sample_cfg 3 (running STATE_AUTH_SENT)).
  - exact sample_cfg_ok.
  - discriminate.
Defined.

Lemma auth_timeout_witness :
  let w := running STATE_AUTH_SENT in
  ∃ w' fd, tick_auth_sent (H := still_os) (H0 := linux) sample_cfg 7 w = Some ((), w') ∧
    w_c w' = reset_client (w_c w) fd ∧ live_fds (w_t w') = held_fds (w_c w').
Proof.
  apply (@auth_timeout still_os linux linux_ok sample_cfg 7 (running STATE_AUTH_SENT)).
  - exact sample_cfg_ok.
  - apply running_inv. unfold states. set_solver.
  - reflexivity.
  - reflexivity.
Defined.
