(* ===== verification/Main.v ===== *)
(** The program, as in [src/iwand.c] (main): initialisation, the event loop, cleanup; and
    its behaviour as a whole: a transition system over the client's states. *)
From S2P Require Import Prelude Libc Config Aes Client Os Tun TunLinux CMonad Packet OpenAck Frag Recv Machine.

Section main.
Context `{OS, TunBackend}.

(** ** Initialisation

    From the loaded and validated configuration to the event loop, with the value of
    [last_tick]; [None] is the early [return 1]. *)
Definition main_init (cfg : config) : M (option (config * Z)) :=
  '(fd, name) ← io (tun_open (cfg_tun_name cfg) (Z.of_nat IFNAMSIZ));
  let cfg := cfg <| cfg_tun_name := name |> in
  _ ← mod_c (λ c, c <| c_tun_fd := fd |>);
  if fd <? 0 then mret None else
  c ← get_c;
  c ← mem (derive_xor_key cfg c);
  '(cfg, c) ← mem (sr_setup_keys cfg c);
  _ ← mod_c (λ _, c);
  _ ← mod_c (λ c, c <| c_server_port := cfg_port cfg |>);
  r ← resolve_server cfg;
  _ ← mod_c (λ c, c <| c_state := if r =? 0 then STATE_IP_READY else STATE_DNS_NEEDED |>);
  udp ← io udp_socket_create;
  _ ← mod_c (λ c, c <| c_udp_fd := udp |>);
  if udp <? 0 then
    c ← get_c;
    _ ← io (call (SClose (c_tun_fd c)));
    mret None
  else
  last_tick ← io mono_secs;
  mret (Some (cfg, last_tick)).

(** ** The event loop *)

(** One readable descriptor. *)
Definition handle_event (cfg : config) (fd : Z) : M unit :=
  c ← get_c;
  if fd =? c_tun_fd c then handle_tun_recv
  else if fd =? c_udp_fd c then
    r ← io (call (SRecvfrom (c_udp_fd c) MAX_PKT_SIZE));
    match r with
    | None => mret ()
    | Some (buf, addr, port) =>
        let n := len buf in
        if 0 <? n then
          c ← get_c;
          if (addr =? c_server_addr c) && (port =? c_server_port c)
          then handle_recv cfg buf n else mret ()
        else mret ()
    end
  else mret ().

(** [for (i = 0; i < nfds; i++)]. *)
Fixpoint handle_events (cfg : config) (fds : list Z) (revents : list bool) : M unit :=
  match fds, revents with
  | fd :: fds, rev :: revents =>
      _ ← when rev (handle_event cfg fd);
      handle_events cfg fds revents
  | _, _ => mret ()
  end.

Definition poll_fds (c : client) : list Z :=
  (if 0 <=? c_tun_fd c then [c_tun_fd c] else []) ++
  (if 0 <=? c_udp_fd c then [c_udp_fd c] else []).

(** How one turn of [while (!g_quit)] ends: the loop is left, or goes on with [last_tick]. *)
Inductive turn := Leave | Again (last_tick : Z).

Definition main_turn (cfg : config) (last_tick : Z) : M turn :=
  quit ← io (call SQuit);
  if (quit : bool) then mret Leave else
  reconnect ← io (call SReconnect);
  _ ← when reconnect (client_reset cfg);
  c ← get_c;
  let fds := poll_fds c in
  ret ← io (call (SPoll fds));
  match (ret : poll_res) with
  | PollEintr => mret (Again last_tick)
  | PollError => mret Leave
  | PollOk revents =>
      _ ← handle_events cfg fds revents;
      now ← io mono_secs;
      if negb (now =? last_tick) then _ ← timer_tick cfg; mret (Again now)
      else mret (Again last_tick)
  end.

(** At most [fuel] turns; [false] when the loop has not been left by then. *)
Fixpoint main_loop (fuel : nat) (cfg : config) (last_tick : Z) : M bool :=
  match fuel with
  | O => mret false
  | S fuel =>
      t ← main_turn cfg last_tick;
      match t with Leave => mret true | Again last_tick => main_loop fuel cfg last_tick end
  end.

(** ** Cleanup *)
Definition main_cleanup (cfg : config) : M unit :=
  c ← get_c;
  _ ← when (c_state c =? STATE_ESTABLISHED)
        (_ ← send_close; run_script cfg (cfg_down_script cfg) (lit "down"));
  c ← get_c;
  _ ← when (0 <=? c_udp_fd c) (_ ← io (call (SClose (c_udp_fd c))); mret ());
  when (0 <=? c_tun_fd c) (_ ← io (call (SClose (c_tun_fd c))); mret ()).

(** The program on a validated configuration: the exit code, or [None] when it is still
    running after [fuel] turns. *)
Definition main_run (fuel : nat) (cfg : config) : M (option Z) :=
  init ← main_init cfg;
  match init with
  | None => mret (Some 1)
  | Some (cfg, last_tick) =>
      done ← main_loop fuel cfg last_tick;
      if (done : bool) then _ ← main_cleanup cfg; mret (Some 0) else mret None
  end.

(** The whole program, from the contents of the configuration file ([None]: it cannot be
    opened). *)
Definition main (fuel : nat) (file : option (list Z)) : M (option Z) :=
  match cfg_load file config_zero with
  | None => mret (Some 1)
  | Some cfg => if cfg_valid cfg then main_run fuel cfg else mret (Some 1)
  end.
End main.

(** * Properties *)

#[local] Opaque aes_encrypt_block aes_decrypt_block aes_set_encrypt_key aes_set_decrypt_key
  signature build_open_pkt Md5.md5_hash client_init.

(** ** The state machine

    The states of a client and how it moves between them: on packets, on ticks, and to the
    start of a session when reconnection is requested. *)
Inductive transition : Z → Z → Prop :=
  | on_packet pkt s s' : recv_transition pkt s s' → transition s s'
  | on_tick s s' : tick_transition s s' → transition s s'
  | on_reconnect s s' : s' = STATE_IP_READY ∨ s' = STATE_DNS_NEEDED → transition s s'.

Section proofs.
Context `{OSOk, TunBackend, !TunOk}.
Implicit Types (w : world).

(** [w'] is reached from [w]: the invariant holds, the state moved along transitions, the
    history was extended. *)
Definition reached (w w' : world) : Prop :=
  inv w' ∧ rtc transition (c_state (w_c w)) (c_state (w_c w')) ∧
  ∃ new, w_t w' = new ++ w_t w.

Lemma reached_refl w : inv w → reached w w.
Proof. intros Hi. split_and!; [done|done|by exists []]. Qed.

Lemma reached_trans w1 w2 w3 : reached w1 w2 → reached w2 w3 → reached w1 w3.
Proof.
  intros (_ & H12 & n1 & E1) (Hi & H23 & n2 & E2). split_and!; [done|by etransitivity|].
  exists (n2 ++ n1). by rewrite E2, E1, app_assoc.
Qed.

Lemma reached_event w s r :
  inv w → neutral_event (Ev s r) → reached w (mk_world (w_c w) (Ev s r :: w_t w)).
Proof.
  intros Hi Hev. destruct w as [c tr]. split_and!; [|done|by exists [Ev s r]].
  eapply inv_frame_sent; [done|apply same_frame_refl|done|done].
Qed.

Lemma handle_tun_recv_reached w : inv w → wp handle_tun_recv w (λ _ w', reached w w').
Proof.
  intros Hi. apply wp_handle_tun_recv. cbv zeta.
  assert (∀ r, reached w (mk_world (w_c w) (Ev (SRead (c_tun_fd (w_c w)) 2040) r :: w_t w)))
    as Hread by (intros r; by apply reached_event).
  destruct (os (w_t w) (SRead _ _)) as [data|]; [|apply Hread]. destruct (decide _); [|apply Hread].
  eapply reached_trans; [apply (Hread (Some data))|]. set (s2 := SSendto _ _ _ _).
  split_and!; [|done|by eexists [_]].
  eapply inv_frame_sent; [apply (Hread (Some data))| |done|done].
  eapply same_frame_trans; [apply tun_rx_frame|apply tx_frame].
Qed.

Lemma handle_recv_reached cfg pkt w :
  cfg_ok cfg → bytes pkt → inv w →
  wp (handle_recv cfg pkt (len pkt)) w (λ _ w', reached w w').
Proof.
  intros Hcfg Hb Hi. eapply wp_mono; [apply wp_handle_recv; [done|apply Hi|done]|].
  intros ? w' [Hf Htr]. split_and!.
  - eapply inv_framed; [exact Hi|done|]. eapply recv_transition_states; [exact Htr|apply Hi].
  - apply rtc_once. by eapply on_packet.
  - destruct (fr_calls _ _ Hf) as (new & E & _). by exists new.
Qed.

Lemma handle_event_reached cfg fd w :
  cfg_ok cfg → inv w → wp (handle_event cfg fd) w (λ _ w', reached w w').
Proof.
  intros Hcfg Hi. unfold handle_event. do 2 wp_step.
  wp_step; [by apply handle_tun_recv_reached|].
  wp_step; [|wp_step; by apply reached_refl].
  do 2 wp_step.
  assert (∀ r, reached w
    (mk_world (w_c w) (Ev (SRecvfrom (c_udp_fd (w_c w)) MAX_PKT_SIZE) r :: w_t w))) as Hrecv
    by (intros r; by apply reached_event).
  destruct (os (w_t w) (SRecvfrom _ _)) as [[[buf addr] port]|] eqn:Er; [|wp_step; apply Hrecv].
  cbv zeta. destruct (0 <? len buf); [|wp_step; apply Hrecv].
  do 2 wp_step. wp_step; [|wp_step; apply Hrecv].
  eapply wp_mono; [apply handle_recv_reached; [done| |apply Hrecv]|].
  - by eapply os_recvfrom_ok.
  - intros x w' Hr. eapply reached_trans; [apply Hrecv|exact Hr].
Qed.

Lemma timer_tick_reached cfg w :
  cfg_ok cfg → inv w → wp (timer_tick cfg) w (λ _ w', reached w w').
Proof.
  intros Hcfg Hi. eapply wp_mono; [by apply wp_timer_tick|].
  intros ? w' (Hi' & Ht & new & E & _). split_and!; [done|by apply rtc_once, on_tick|by exists new].
Qed.

(** The world after a turn has read [g_quit]. *)
Definition quit_read (w : world) : world := mk_world (w_c w) (Ev SQuit (os (w_t w) SQuit) :: w_t w).

(** What one turn of the event loop does, from what its parts do: a preorder [Rel] that
    every call of the loop itself, every readable descriptor, every reset and every tick
    respects, along with the invariant. *)
Definition turn_call (s : sys) : Prop :=
  match s with SQuit | SReconnect | SPoll _ | SClock => True | _ => False end.

Section turns.
Variables (Rel : world → world → Prop) (cfg : config).
Context `{!PreOrder Rel}.
Definition rel_to (w w' : world) : Prop := inv w' ∧ Rel w w'.
Hypothesis rel_call : ∀ w s r,
  inv w → turn_call s → rel_to w (mk_world (w_c w) (Ev s r :: w_t w)).
Hypothesis rel_event : ∀ fd w, inv w → wp (handle_event cfg fd) w (λ _ w', rel_to w w').
Hypothesis rel_reset : ∀ w, inv w → wp (client_reset cfg) w (λ _ w', rel_to w w').
Hypothesis rel_tick : ∀ w, inv w → wp (timer_tick cfg) w (λ _ w', rel_to w w').

Lemma rel_to_refl w : inv w → rel_to w w.
Proof. by split. Qed.
Lemma rel_to_trans w1 w2 w3 : rel_to w1 w2 → rel_to w2 w3 → rel_to w1 w3.
Proof. intros [_ H12] [Hi H23]. split; [done|]. by transitivity w2. Qed.

Lemma wp_handle_events fds revents w :
  inv w → wp (handle_events cfg fds revents) w (λ _ w', rel_to w w').
Proof.
  revert revents w. induction fds as [|fd fds IH]; intros [|rev revents] w Hi;
    cbn [handle_events]; try (wp_step; by apply rel_to_refl).
  wp_step. apply (wp_mono _ _ (λ _ w', rel_to w w')).
  - wp_step; [by apply rel_event|wp_step; by apply rel_to_refl].
  - intros ? w' Hr. eapply wp_mono; [apply IH, Hr|]. intros ? w''. by apply rel_to_trans.
Qed.

(** It leaves when [g_quit] is set. *)
Lemma wp_main_turn last w :
  inv w →
  wp (main_turn cfg last) w
    (λ t w', (os (w_t w) SQuit = true → t = Leave) ∧ rel_to (quit_read w) w').
Proof.
  intros Hi. assert (inv (quit_read w)) as Hi1 by by apply rel_call.
  unfold main_turn. do 2 wp_step. fold (quit_read w).
  assert (∀ (b : bool) (m : M turn), (b = false → wp m (quit_read w) (λ _ w', rel_to (quit_read w) w')) →
    wp (if b then mret Leave else m) (quit_read w)
      (λ t w', (b = true → t = Leave) ∧ rel_to (quit_read w) w')) as Hquit.
  { intros [] m Hm; [wp_step; split; [done|by apply rel_to_refl]|].
    eapply wp_mono; [by apply Hm|]. done. }
  apply Hquit. intros _. clear Hquit Hi. set (w1 := quit_read w) in *. clearbody w1. clear w.
  assert (∀ w2 s r, rel_to w1 w2 → turn_call s → rel_to w1 (mk_world (w_c w2) (Ev s r :: w_t w2)))
    as Hcall by (intros w2 s r Hr Hs; eapply rel_to_trans; [exact Hr|by apply rel_call; [apply Hr|]]).
  do 2 wp_step. set (w2 := mk_world _ _).
  assert (rel_to w1 w2) as H2' by by apply Hcall; [apply rel_to_refl|].
  wp_step. apply (wp_mono _ _ (λ _ w', rel_to w1 w')).
  { wp_step; [|by wp_step]. eapply wp_mono; [apply rel_reset, H2'|].
    intros ? w'. by apply rel_to_trans. }
  intros ? w3 H3'. do 4 wp_step. set (w4 := mk_world _ _).
  assert (rel_to w1 w4) as H4' by by apply Hcall.
  destruct (os (w_t w3) (SPoll _)) as [| |revents]; [by wp_step|by wp_step|].
  wp_step. eapply wp_mono; [apply wp_handle_events, H4'|].
  intros ? w5 H5'. do 2 wp_step. set (w6 := mk_world _ _).
  assert (rel_to w1 w6) as H6'.
  { apply Hcall; [|done]. by eapply rel_to_trans. }
  wp_step; [|by wp_step]. wp_step.
  eapply wp_mono; [apply rel_tick, H6'|].
  intros ? w7 H7'. wp_step. by eapply rel_to_trans.
Qed.
End turns.

(** One turn keeps the invariant and moves along the transitions. *)
#[local] Instance reached_preorder : PreOrder (λ w w', inv w → reached w w').
Proof.
  split; [intros w Hi; by apply reached_refl|].
  intros w1 w2 w3 H12 H23 Hi. pose proof (H12 Hi) as Hr. eapply reached_trans; [exact Hr|apply H23, Hr].
Qed.

Lemma reached_rel_to w w' : reached w w' → rel_to (λ w w', inv w → reached w w') w w'.
Proof. intros Hr. split; [apply Hr|done]. Qed.

Lemma client_reset_reached cfg w :
  cfg_ok cfg → inv w → wp (client_reset cfg) w (λ _ w', reached w w').
Proof.
  intros Hcfg Hi. eapply wp_mono; [apply (wp_reset_inv cfg w transition); [done|done|]|].
  - intros s' Hs'. by apply on_reconnect.
  - intros ? w' (Hi' & Ht & new & E & _). split_and!; [done|by apply rtc_once|by exists new].
Qed.

Lemma turn_call_neutral s r : turn_call s → neutral_event (Ev s r).
Proof. by destruct s. Qed.

Lemma main_turn_quit_read cfg last w :
  cfg_ok cfg → inv w →
  wp (main_turn cfg last) w (λ t w', (os (w_t w) SQuit = true → t = Leave) ∧ reached (quit_read w) w').
Proof.
  intros Hcfg Hi.
  eapply wp_mono; [refine (wp_main_turn (λ w w', inv w → reached w w') cfg _ _ _ _ last w Hi)|].
  - intros w1 s r Hi1 Hs. by apply reached_rel_to, reached_event, turn_call_neutral.
  - intros fd w1 Hi1. eapply wp_mono; [by apply handle_event_reached|]. intros ? w'. apply reached_rel_to.
  - intros w1 Hi1. eapply wp_mono; [by apply client_reset_reached|]. intros ? w'. apply reached_rel_to.
  - intros w1 Hi1. eapply wp_mono; [by apply timer_tick_reached|]. intros ? w'. apply reached_rel_to.
  - intros t w' [Hl [_ Hr]]. split; [done|]. apply Hr. by eapply reached_event.
Qed.

Lemma main_turn_reached cfg last w :
  cfg_ok cfg → inv w → wp (main_turn cfg last) w (λ _ w', reached w w').
Proof.
  intros Hcfg Hi. eapply wp_mono; [by apply main_turn_quit_read|]. intros t w' [_ Hr].
  eapply reached_trans; [|exact Hr]. by apply reached_event.
Qed.

(** ** Initialisation *)

(** The client with only its TUN device open. *)
Record opened (fd : Z) (w : world) : Prop := {
  op_ok : client_ok (w_c w);
  op_tun : c_tun_fd (w_c w) = fd;
  op_fds : live_fds (w_t w) = [fd]
}.

Lemma opened_update fd c c' tr new :
  opened fd (mk_world c tr) → (client_ok c → client_ok c') → c_tun_fd c' = c_tun_fd c →
  fd_neutral new → opened fd (mk_world c' (new ++ tr)).
Proof.
  intros [Hok Ht Hl] Hc Htun Hn. cbn [w_c w_t] in *. split; cbn [w_c w_t]; [auto|congruence|].
  unfold live_fds in *. by rewrite live_fds_app, Hl.
Qed.

Lemma cfg_ok_tun_name cfg name :
  cfg_ok cfg → is_devname name → cfg_ok (cfg <| cfg_tun_name := name |>).
Proof. intros [] Hn. by split. Qed.

Lemma wp_init_resolve cfg fd w :
  cfg_ok cfg → opened fd w →
  wp (resolve_server cfg) w (λ _ w', opened fd w').
Proof.
  intros Hcfg Ho. destruct w as [c tr]. apply wp_resolve_server; [done|apply Ho| |].
  - intros a dom _ Hd _. apply (opened_update fd c _ tr []); [done| |done|done].
    intros []. by split.
  - cbv zeta. cbn [w_c w_t]. intros _ Hd. set (s := SGetaddrinfo _).
    destruct (os tr s) as [a|].
    + apply (opened_update fd c _ tr [_]); [done| |done|done]. intros []. by split.
    + apply (opened_update fd c _ tr [_]); [done| |done|done]. intros []. by split.
Qed.

(** The keys of a configuration. *)
Definition keyed (cfg : config) (c : client) : client :=
  let c := c <| c_xor_key := take 8 (Md5.md5_spec (c_str (cfg_username cfg) ++
                                                  c_str (cfg_password cfg))) |> in
  if cfg_sr_count cfg =? 0 then c else sr_client cfg c.

Lemma keyed_ok cfg c : client_ok c → client_ok (keyed cfg c).
Proof.
  intros Hok. unfold keyed.
  set (key := take 8 _). set (c1 := c <| c_xor_key := key |>).
  assert (client_ok c1) as H1'.
  { destruct Hok. split; try assumption. change (length key = 8%nat ∧ bytes key). unfold key. split.
    - by rewrite length_take, Md5.length_md5_spec.
    - apply Forall_take, Md5.md5_spec_bytes. }
  destruct (_ =? 0); [done|]. destruct H1'. by split.
Qed.

Lemma keyed_tun_fd cfg c : c_tun_fd (keyed cfg c) = c_tun_fd c.
Proof. unfold keyed. by destruct (_ =? 0). Qed.

(** Initialisation changes the device name and the links, not what identifies the client to
    the server. *)
Record same_account (cfg cfg' : config) : Prop := {
  sa_server : cfg_server cfg' = cfg_server cfg;
  sa_username : cfg_username cfg' = cfg_username cfg;
  sa_password : cfg_password cfg' = cfg_password cfg;
  sa_port : cfg_port cfg' = cfg_port cfg;
  sa_mtu : cfg_mtu cfg' = cfg_mtu cfg;
  sa_encrypt : cfg_encrypt cfg' = cfg_encrypt cfg;
  sa_pipeid : cfg_pipeid cfg' = cfg_pipeid cfg;
  sa_pipeidx : cfg_pipeidx cfg' = cfg_pipeidx cfg
}.

(** The keys are set up without fault. *)
Lemma init_keys cfg c :
  cfg_ok cfg → ∃ c1 cfg', derive_xor_key cfg c = Some c1 ∧
    sr_setup_keys cfg c1 = Some (cfg', keyed cfg c) ∧ cfg_ok cfg' ∧ same_account cfg cfg'.
Proof.
  intros Hcfg. eexists _, (if cfg_sr_count cfg =? 0 then cfg else sr_config cfg).
  split_and!; [by apply derive_xor_key_spec| | |].
  - rewrite sr_setup_keys_spec by done. unfold keyed. cbv zeta.
    by destruct (cfg_sr_count cfg =? 0).
  - destruct (cfg_sr_count cfg =? 0); [done|by apply sr_config_ok].
  - destruct (cfg_sr_count cfg =? 0); [by split|]. unfold sr_config. destruct (_ =? 2); by split.
Qed.

Lemma wp_main_init cfg w :
  cfg_ok cfg → client_ok (w_c w) → live_fds (w_t w) = [] →
  wp (main_init cfg) w (λ r w', match r with
    | None => live_fds (w_t w') = []
    | Some (cfg', _) => cfg_ok cfg' ∧ inv w' ∧
        (c_state (w_c w') = STATE_IP_READY ∨ c_state (w_c w') = STATE_DNS_NEEDED)
    end).
Proof.
  intros Hcfg Hc Hl. unfold main_init. wp_step.
  eapply wp_io; [apply tun_open_ok, Hcfg|]. intros [fd name] new (_ & Ho & Hn). cbn [fst snd] in *.
  set (cfg1 := cfg <| cfg_tun_name := name |>).
  assert (cfg_ok cfg1) as Hcfg1 by (by apply cfg_ok_tun_name).
  do 2 wp_step. unfold live_fds in Hl.
  wp_step.
  { wp_step. rewrite Z.ltb_lt in *. unfold live_fds. rewrite live_fds_app, Hl, Ho.
    by rewrite (proj2 (Z.leb_gt 0 fd)). }
  rewrite Z.ltb_ge in *. set (w1 := mk_world _ _).
  assert (opened fd w1) as Hop.
  { split; [by destruct Hc|done|]. unfold live_fds. cbn [w1 w_t].
    by rewrite live_fds_app, Hl, Ho, (proj2 (Z.leb_le 0 fd)). }
  assert (0 ≤ fd) as Hfd by done. clearbody w1 cfg1. clear Hcfg Hc Hl Ho Hn cfg w new name.
  destruct (init_keys cfg1 (w_c w1) Hcfg1) as (c1 & cfg' & E1 & E2 & Hcfg' & _).
  do 3 wp_step. eapply wp_mem; [exact E1|]. wp_step. eapply wp_mem; [exact E2|].
  cbv beta iota. do 4 wp_step. set (w2 := mk_world _ _).
  assert (opened fd w2) as Hop2.
  { destruct w1 as [c tr]. apply (opened_update fd c _ tr []); [done| |apply keyed_tun_fd|done].
    intros Hok. destruct (keyed_ok cfg1 c Hok). split; assumption. }
  clearbody w2. clear Hop E1 E2 Hcfg1 w1 c1.
  wp_step. eapply wp_mono; [by apply wp_init_resolve|]. intros r w3 Hop3. do 2 wp_step.
  wp_step. eapply wp_io; [apply udp_socket_create_spec|]. intros udp new (Hudp & _ & Ho & _).
  set (st := if r =? 0 then STATE_IP_READY else STATE_DNS_NEEDED).
  do 2 wp_step. destruct Hop3 as [Hc3 Ht3 Hl3]. unfold live_fds in Hl3. wp_step.
  { do 4 wp_step. rewrite Z.ltb_lt in *. cbn [w_t].
    change (remove_fd (c_tun_fd (w_c w3)) (live_fds (new ++ w_t w3)) = []). unfold live_fds.
    rewrite live_fds_app, Hl3, Ho, (proj2 (Z.leb_gt 0 udp)), Ht3 by done. apply remove_fd_head. }
  rewrite Z.ltb_ge in *. do 3 wp_step.
  set (c4 := (w_c w3) <| c_state := st |> <| c_udp_fd := udp |>).
  assert (c_state c4 = STATE_IP_READY ∨ c_state c4 = STATE_DNS_NEEDED) as Hst.
  { change (c_state c4) with st. unfold st. destruct (r =? 0); auto. }
  split_and!; [done| |exact Hst]. split; cbn [w_c w_t].
  - destruct Hc3. split; assumption.
  - unfold states. rewrite !elem_of_cons. tauto.
  - change (c_tun_fd c4) with (c_tun_fd (w_c w3)). lia.
  - change (live_fds (new ++ w_t w3) = held_fds c4). unfold live_fds.
    rewrite live_fds_app, Hl3, Ho. unfold held_fds. change (c_udp_fd c4) with udp.
    change (c_tun_fd c4) with (c_tun_fd (w_c w3)). by rewrite Ht3, (proj2 (Z.leb_le 0 udp)).
Qed.

(** ** Cleanup *)

(** Leaving a session: CLOSE is sent and the down script run, as in a reset. *)
Lemma wp_leave_session cfg w :
  cfg_ok cfg → c_state (w_c w) = STATE_ESTABLISHED →
  wp (_ ← send_close; run_script cfg (cfg_down_script cfg) (lit "down")) w
    (λ _ w', ∃ new, w' = mk_world (w_c w) (new ++ w_t w) ∧ fd_neutral new ∧
      Forall (reset_event (w_c w)) new).
Proof.
  intros Hcfg Hs. wp_step. apply wp_send_close. cbv zeta.
  assert (∀ new0, fd_neutral new0 → Forall (reset_event (w_c w)) new0 →
    wp (run_script cfg (cfg_down_script cfg) (lit "down")) (mk_world (w_c w) (new0 ++ w_t w))
    (λ _ w', ∃ new, w' = mk_world (w_c w) (new ++ w_t w) ∧ fd_neutral new ∧
      Forall (reset_event (w_c w)) new)) as Hrun.
  { intros new0 Hn0 He0. apply wp_run_script; [apply Hcfg|]. intros new Hnew.
    apply script_run_events in Hnew. exists (new ++ new0). cbn [w_c w_t].
    split_and!; [by rewrite <-app_assoc| |].
    - intros live. rewrite live_fds_app, Hn0. by apply script_events_neutral.
    - apply Forall_app. split; [|done]. by apply quiet_reset_events, script_events_quiet. }
  case_bool_decide.
  - apply (Hrun [_]); [done|]. constructor; [|done]. right. by split.
  - destruct w. by apply (Hrun []).
Qed.

Lemma wp_main_cleanup cfg w :
  cfg_ok cfg → inv w →
  wp (main_cleanup cfg) w (λ _ w', w_c w' = w_c w ∧ live_fds (w_t w') = [] ∧
    ∃ new, w_t w' = new ++ w_t w ∧ Forall (reset_event (w_c w)) new).
Proof.
  intros Hcfg [Hc Hs Ht Hl]. unfold main_cleanup. do 3 wp_step.
  apply (wp_mono _ _ (λ _ w', ∃ new, w' = mk_world (w_c w) (new ++ w_t w) ∧ fd_neutral new ∧
    Forall (reset_event (w_c w)) new)).
  { wp_step; [|wp_step; exists []; by destruct w]. rewrite Z.eqb_eq in *. by apply wp_leave_session. }
  intros ? w1 (new & -> & Hn & He). do 2 wp_step.
  assert (live_fds (new ++ w_t w) = held_fds (w_c w)) as Hl1.
  { unfold live_fds in *. by rewrite live_fds_app, Hl. }
  wp_step. apply (wp_mono _ _ (λ _ w', w_c w' = w_c w ∧ live_fds (w_t w') = [c_tun_fd (w_c w)] ∧
    ∃ new, w_t w' = new ++ w_t w ∧ Forall (reset_event (w_c w)) new)).
  { unfold held_fds in Hl1. wp_step; [|wp_step; eauto]. wp_steps. cbn [w_c w_t].
    split_and!; [done| |].
    - change (remove_fd (c_udp_fd (w_c w)) (live_fds (new ++ w_t w)) = [c_tun_fd (w_c w)]).
      rewrite Hl1. apply remove_fd_head.
    - eexists (_ :: new). split; [done|]. constructor; [by left|done]. }
  intros ? w2 (Hc2 & Hl2 & new2 & E2 & He2). rewrite (proj2 (Z.leb_le 0 _)) by done.
  cbn [when]. wp_steps. cbn [w_c w_t]. split_and!; [done| |].
  - change (remove_fd (c_tun_fd (w_c w)) (live_fds (w_t w2)) = []). rewrite Hl2.
    apply remove_fd_head.
  - eexists (_ :: new2). rewrite E2. split; [done|]. constructor; [by left|done].
Qed.

(** ** The whole program *)

(** The loop leaves the invariant true, whether it was left or is still running. *)
Lemma wp_main_loop fuel cfg last w :
  cfg_ok cfg → inv w → wp (main_loop fuel cfg last) w (λ _ w', reached w w').
Proof.
  intros Hcfg. revert last w. induction fuel as [|fuel IH]; intros last w Hi; cbn [main_loop].
  { wp_step. by apply reached_refl. }
  wp_step. eapply wp_mono; [by apply main_turn_reached|]. intros t w1 Hr.
  destruct t as [|last']; [by wp_step|].
  eapply wp_mono; [apply IH, Hr|]. intros ? w2. by apply reached_trans.
Qed.

Lemma wp_main_run fuel cfg w :
  cfg_ok cfg → client_ok (w_c w) → live_fds (w_t w) = [] →
  wp (main_run fuel cfg) w (λ r w, match r with
    | Some code => (code = 0 ∨ code = 1) ∧ live_fds (w_t w) = []
    | None => inv w end).
Proof.
  intros Hcfg Hc Hl. unfold main_run. wp_step.
  eapply wp_mono; [by apply wp_main_init|].
  intros init w1 Hinit. destruct init as [[cfg' last]|]; [|wp_step; auto].
  destruct Hinit as (Hcfg' & Hi & _). wp_step.
  eapply wp_mono; [by apply wp_main_loop|]. intros finished w2 (Hi2 & _).
  destruct finished; [|by wp_step]. wp_step.
  eapply wp_mono; [by apply wp_main_cleanup|]. intros ? w3 (_ & Hl3 & _). wp_step. auto.
Qed.

(** *** Stopping

    Each turn reads [g_quit] once; the loop leaves at the first reading that is set. *)
Definition quit_reads (tr : trace) : nat :=
  sum_list_with (λ ev, match ev_call ev with SQuit => 1%nat | _ => 0%nat end) tr.

Lemma quit_reads_app new tr : quit_reads (new ++ tr) = (quit_reads new + quit_reads tr)%nat.
Proof. apply sum_list_with_app. Qed.

Lemma wp_main_loop_quits n fuel cfg last w :
  cfg_ok cfg → (∀ tr, (n ≤ quit_reads tr)%nat → os tr SQuit = true) → inv w →
  (n < fuel + quit_reads (w_t w))%nat → fuel ≠ 0%nat →
  wp (main_loop fuel cfg last) w (λ b w', b = true ∧ inv w').
Proof.
  intros Hcfg Hq. revert last w. induction fuel as [|fuel IH]; intros last w Hi Hn Hf; [done|].
  clear Hf. cbn [main_loop]. wp_step. eapply wp_mono; [by apply main_turn_quit_read|].
  intros t w1 [Hleave (Hi1 & _ & new & E)]. destruct t as [|last']; [by wp_step|].
  assert (quit_reads (w_t w1) = (quit_reads new + S (quit_reads (w_t w)))%nat) as Hqr
    by (rewrite E; apply quit_reads_app).
  assert (¬ (n ≤ quit_reads (w_t w))%nat) as Hlt by (intros Hle; by discriminate (Hleave (Hq _ Hle))).
  apply IH; [done|lia|lia].
Qed.

Lemma wp_main_run_quits n fuel cfg w :
  cfg_ok cfg → client_ok (w_c w) → live_fds (w_t w) = [] →
  (∀ tr, (n ≤ quit_reads tr)%nat → os tr SQuit = true) → (n < fuel)%nat →
  wp (main_run fuel cfg) w (λ r w', ∃ code, r = Some code ∧ (code = 0 ∨ code = 1) ∧
    live_fds (w_t w') = []).
Proof.
  intros Hcfg Hc Hl Hq Hn. unfold main_run. wp_step. eapply wp_mono; [by apply wp_main_init|].
  intros init w1 Hinit. destruct init as [[cfg' last]|]; [|wp_step; eauto].
  destruct Hinit as (Hcfg' & Hi & _). wp_step.
  eapply wp_mono; [apply (wp_main_loop_quits n); [done|done|done|lia|lia]|].
  intros b w2 [-> Hi2]. wp_step. eapply wp_mono; [by apply wp_main_cleanup|].
  intros ? w3 (_ & Hl3 & _). wp_step. eauto.
Qed.

(** On any system, with any TUN backend that keeps its promises, whatever the bytes of
    the configuration file and for any number of turns, the program never has undefined
    behaviour; while it runs the client is well-formed and the open descriptors are
    exactly the ones it holds; and when it exits, every descriptor has been closed. *)
Theorem main_safe fuel file :
  (∀ f, file = Some f → bytes f) →
  ∃ r w, main fuel file (mk_world client_init []) = Some (r, w) ∧
    match r with
    | Some code => (code = 0 ∨ code = 1) ∧ live_fds (w_t w) = []
    | None => inv w
    end.
Proof.
  intros Hfile.
  enough (wp (main fuel file) (mk_world client_init []) (λ r w, match r with
    | Some code => (code = 0 ∨ code = 1) ∧ live_fds (w_t w) = []
    | None => inv w end)) as Hwp by (apply wp_run in Hwp as (r & w & ? & ?); eauto).
  unfold main. destruct file as [f|]; cbn [cfg_load mbind option_bind]; [|wp_step; auto].
  wp_step; [|wp_step; auto]. apply wp_main_run; [|exact client_init_ok|done].
  apply load_lines_ok; [by apply Hfile|apply config_zero_ok].
Qed.


(** A datagram that does not come from the server's address and port is read and
    changes nothing. *)
Theorem foreign_ignored cfg w buf addr port :
  let s := SRecvfrom (c_udp_fd (w_c w)) MAX_PKT_SIZE in
  c_udp_fd (w_c w) ≠ c_tun_fd (w_c w) →
  os (w_t w) s = Some (buf, addr, port) →
  addr ≠ c_server_addr (w_c w) ∨ port ≠ c_server_port (w_c w) →
  handle_event cfg (c_udp_fd (w_c w)) w =
    Some ((), mk_world (w_c w) (Ev s (os (w_t w) s) :: w_t w)).
Proof.
  intros s Hne Hr Hor.
  enough (wp (handle_event cfg (c_udp_fd (w_c w))) w (λ _ w',
    w' = mk_world (w_c w) (Ev s (os (w_t w) s) :: w_t w))) as Hwp.
  { by apply wp_run in Hwp as ([] & w' & E & ->). }
  unfold handle_event. do 2 wp_step. rewrite (proj2 (Z.eqb_neq _ _) Hne), Z.eqb_refl.
  do 2 wp_step. unfold s in *. rewrite Hr. cbv zeta.
  destruct (0 <? len buf); [|by wp_step]. do 2 wp_step.
  assert ((addr =? c_server_addr (w_c w)) && (port =? c_server_port (w_c w)) = false) as ->.
  { apply andb_false_iff. rewrite !Z.eqb_neq. tauto. }
  by wp_step.
Qed.

(** ** Timeouts and reconnection *)

(** A tick with a socket. *)
Lemma wp_tick_dispatch cfg w (Q : unit → world → Prop) :
  0 ≤ c_udp_fd (w_c w) →
  (let now := u32 (os (w_t w) SClock).1 in
   wp (tick_dispatch cfg now) (mk_world (w_c w) (Ev SClock (os (w_t w) SClock) :: w_t w)) Q) →
  wp (timer_tick cfg) w Q.
Proof.
  intros Hu HQ. unfold timer_tick. do 4 wp_step. wp_step.
  rewrite (proj2 (Z.ltb_ge _ 0)) by done. wp_step. cbn [negb]. exact HQ.
Qed.

(** C9: when the server has been silent for more than 15 seconds, the next tick sends CLOSE,
    forgets the session and starts over, with the name looked up again if there is one. *)
Theorem data_timeout cfg w :
  cfg_ok cfg → inv w → c_state (w_c w) = STATE_ESTABLISHED → 0 ≤ c_udp_fd (w_c w) →
  DATA_TIMEOUT < u32 (u32 (os (w_t w) SClock).1 - c_last_recv_time (w_c w)) →
  ∃ w' fd new, timer_tick cfg w = Some ((), w') ∧ w_c w' = reset_client (w_c w) fd ∧
    w_t w' = new ++ w_t w ∧ Exists (close_event (w_c w)) new ∧ inv w'.
Proof.
  intros Hcfg Hi Hs Hu Hto.
  pose proof (wp_timer_tick cfg w Hcfg Hi) as Hinv.
  enough (wp (timer_tick cfg) w (λ _ w', ∃ fd new, w_c w' = reset_client (w_c w) fd ∧
    w_t w' = new ++ w_t w ∧ Exists (close_event (w_c w)) new)) as Hwp.
  { destruct (wp_run _ _ _ (wp_and _ _ _ _ Hwp Hinv)) as ([] & w' & E & (fd & new & ?) & Hi' & _).
    destruct_and?. by exists w', fd, new. }
  apply wp_tick_dispatch; [done|]. unfold tick_dispatch. do 2 wp_step. cbv zeta. rewrite Hs. cbn [Z.eqb Pos.eqb STATE_ESTABLISHED
    STATE_NOT_READY STATE_DNS_NEEDED STATE_IP_READY STATE_AUTH_SENT].
  apply wp_tick_established. cbv zeta. cbn [w_c w_t]. rewrite (proj2 (Z.ltb_lt _ _) Hto).
  apply wp_client_reset; [done|apply Hi|]. cbn [w_c w_t]. intros fd new _ _ _ _ Hcl.
  exists fd, (new ++ [Ev SClock (os (w_t w) SClock)]). split_and!; [done|by rewrite <-app_assoc|].
  apply Exists_app. left. by apply Hcl.
Qed.

(** A closed session is reopened: with a numeric server, the first tick resets and the
    second sends the OPEN packet of the configuration to the server. *)
Theorem reconnects cfg w :
  cfg_ok cfg → inv w → c_state (w_c w) = STATE_CLOSED → 0 ≤ c_udp_fd (w_c w) →
  c_str (c_server_domain (w_c w)) = [] →
  (∀ tr, 0 ≤ os tr SSocket) → (∀ tr, 2 ≤ u32 (os tr SClock).1) →
  ∃ w1 w2 fd r tr, timer_tick cfg w = Some ((), w1) ∧ c_state (w_c w1) = STATE_IP_READY ∧
    timer_tick cfg w1 = Some ((), w2) ∧ c_state (w_c w2) = STATE_AUTH_SENT ∧
    w_t w2 = Ev (SSendto fd (c_server_addr (w_c w)) (cfg_port cfg) (open_packet cfg)) r :: tr.
Proof.
  intros Hcfg Hi Hs Hu Hdom Hsock Hclock.
  assert (wp (timer_tick cfg) w (λ _ w1, ∃ fd, 0 ≤ fd ∧ w_c w1 = reset_client (w_c w) fd)) as H1'.
  { apply wp_tick_dispatch; [done|]. unfold tick_dispatch. do 2 wp_step. cbv zeta. rewrite Hs. cbn [Z.eqb Pos.eqb STATE_CLOSED
      STATE_ESTABLISHED STATE_NOT_READY STATE_DNS_NEEDED STATE_IP_READY STATE_AUTH_SENT].
    apply wp_client_reset; [done|apply Hi|]. cbn [w_c w_t]. intros fd new _ Hfd _ _ _.
    destruct (Hfd Hsock) as [tr ->]. exists (os tr SSocket). split; [apply Hsock|reflexivity]. }
  apply wp_run in H1' as ([] & w1 & E1 & fd & Hfd & Hc1).
  assert (c_state (w_c w1) = STATE_IP_READY) as Hs1.
  { rewrite Hc1. change (c_state (reset_client (w_c w) fd)) with
      (if decide (c_str (c_server_domain (w_c w)) = []) then STATE_IP_READY else STATE_DNS_NEEDED).
    by rewrite decide_True. }
  assert (wp (timer_tick cfg) w1 (λ _ w2, c_state (w_c w2) = STATE_AUTH_SENT ∧
    ∃ r tr, w_t w2 = Ev (SSendto fd (c_server_addr (w_c w)) (cfg_port cfg)
      (open_packet cfg)) r :: tr)) as H2'.
  { apply wp_tick_dispatch; [by rewrite Hc1|]. unfold tick_dispatch. do 2 wp_step. cbv zeta. rewrite Hs1. cbn [Z.eqb Pos.eqb
      STATE_ESTABLISHED STATE_NOT_READY STATE_DNS_NEEDED STATE_IP_READY STATE_AUTH_SENT].
    do 2 wp_step. apply wp_tick_auth_sent; [done|]. cbv zeta. cbn [w_c w_t]. rewrite Hc1.
    set (c := reset_client (w_c w) fd). set (now := u32 (os (w_t w1) SClock).1). set (c' := c <| c_server_port := _ |>
      <| c_last_recv_time := _ |> <| c_last_open_time := _ |> <| c_state := _ |>).
    change (c_last_recv_time c') with now. change (c_last_open_time c') with 0.
    rewrite Z.sub_diag, Z.sub_0_r, (u32_id now) by apply u32_is.
    change (AUTH_TIMEOUT <? u32 0) with false. cbv iota.
    rewrite (proj2 (Z.leb_le AUTH_RETRY_INTERVAL now)) by apply Hclock.
    split; [reflexivity|]. do 2 eexists. reflexivity. }
  apply wp_run in H2' as ([] & w2 & E2 & Hs2 & r & tr & Htr).
  by exists w1, w2, fd, r, tr.
Qed.
End proofs.

(** ** Witnesses *)

#[local] Existing Instances still_os_ok Linux.linux_tun_ok.

Definition sample_file : list Z :=
  config_file (lit "iwan0") (lit "192.0.2.1") (lit "alice") (lit "secret") 8000 1400 1 0 0.

Lemma main_safe_witness :
  ∃ r w, main (H := still_os) (H0 := linux) 3 (Some sample_file) (mk_world client_init []) = Some (r, w) ∧
    match r with
    | Some code => (code = 0 ∨ code = 1) ∧ live_fds (w_t w) = []
    | None => inv w
    end.
Proof.
  apply (main_safe (H := still_os) (H1 := linux) 3 (Some sample_file)).
  intros f [= <-]. by apply byte_list_ok.
Defined.

(** On a system whose clock runs, the same client is authenticating after three turns. *)
Definition ticking_os : OS := λ tr s,
  match s return resp s with
  | SClock => (Z.of_nat (length tr) / 4, 0)
  | s => still_os tr s
  end.
Example main_runs :
  match main (H := ticking_os) (H0 := @Linux.backend ticking_os) 3 (Some sample_file)
          (mk_world client_init []) with
  | Some (None, w) => c_state (w_c w)
  | _ => -1
  end = STATE_AUTH_SENT.
Proof. vm_compute. reflexivity. Qed.


(** A DATA packet from another host. *)
Definition foreign_dgram : list Z * Z * Z := ([0x14; 0; 0; 0; 0; 0; 0; 0; 69], 0x0a0a0a0a, 8000).

Lemma foreign_ignored_witness :
  let w := running STATE_ESTABLISHED in
  let s := SRecvfrom 4 MAX_PKT_SIZE in
  handle_event (H := feeding_os [] foreign_dgram) (H0 := linux) sample_cfg 4 w =
    Some ((), mk_world (w_c w) (Ev s (Some foreign_dgram) :: w_t w)).
Proof.
  apply (foreign_ignored (H := feeding_os [] foreign_dgram) (H1 := linux) sample_cfg
    (running STATE_ESTABLISHED) [0x14; 0; 0; 0; 0; 0; 0; 0; 69] 0x0a0a0a0a 8000).
  - discriminate.
  - reflexivity.
  - left. discriminate.
Defined.

Lemma data_timeout_witness :
  let w := running STATE_ESTABLISHED in
  ∃ w' fd new, timer_tick (H := still_os) (H0 := linux) sample_cfg w = Some ((), w') ∧
    w_c w' = reset_client (w_c w) fd ∧ w_t w' = new ++ w_t w ∧
    Exists (close_event (w_c w)) new ∧ inv w'.
Proof.
  apply (data_timeout (H := still_os) (H1 := linux) sample_cfg (running STATE_ESTABLISHED)).
  - exact sample_cfg_ok.
  - apply running_inv. unfold states. set_solver.
  - reflexivity.
  - discriminate.
  - reflexivity.
Defined.

Lemma reconnects_witness :
  ∃ w1 w2 fd r tr,
    timer_tick (H := still_os) (H0 := linux) sample_cfg (running STATE_CLOSED) = Some ((), w1) ∧
    c_state (w_c w1) = STATE_IP_READY ∧
    timer_tick (H := still_os) (H0 := linux) sample_cfg w1 = Some ((), w2) ∧
    c_state (w_c w2) = STATE_AUTH_SENT ∧
    w_t w2 = Ev (SSendto fd 0 8000 (open_packet sample_cfg)) r :: tr.
Proof.
  apply (reconnects (H := still_os) (H1 := linux) sample_cfg (running STATE_CLOSED)).
  - exact sample_cfg_ok.
  - apply running_inv. unfold states. set_solver.
  - reflexivity.
  - discriminate.
  - reflexivity.
  - intros tr. discriminate.
  - intros tr. discriminate.
Defined.
