(* ===== verification/Startup.v ===== *)
(** Starting up, logging and signals, as in [src/iwand.c] (log_msg, log_init, log_deinit, the
    signal handlers, daemonize, usage, version, and main up to the configuration), and the
    whole program from its command line.

    [getopt] is the POSIX function: the options end at the first operand.  The texts other
    modules log are not modelled; [log_msg] itself, and where it writes, is. *)
From stdpp Require Import gmap.
From S2P Require Import Prelude Libc Config Client Os Tun TunLinux CMonad Packet OpenAck Machine Main.

Definition PATH_MAX : nat := 4096.
Definition SLASH : Z := 47.
Definition DASH : Z := 45.
Definition NEWLINE : list Z := [10].
(** [s[0]] of a C string given without its terminator. *)
Definition first (s : list Z) : Z := match s with [] => 0 | x :: _ => x end.

(** ** Logging *)

(** [g_logfp != NULL], [g_foreground], [g_use_syslog]. *)
Record logger := mk_logger { g_logfp : bool; g_foreground : bool; g_use_syslog : bool }.
#[export] Instance logger_eta : Eta logger := λ l,
  mk_logger (g_logfp l) (g_foreground l) (g_use_syslog l).

(** ["%0<n>d"]. *)
Definition dec0 (n : nat) (z : Z) : list Z :=
  let d := dec (Z.abs z) in
  let sign := if z <? 0 then [DASH] else [] in
  sign ++ replicate (n - length sign - length d) 48 ++ d.

Definition timestamp (t : tm) : list Z :=
  dec0 4 (tm_year t + 1900) ++ lit "-" ++ dec0 2 (tm_mon t + 1) ++ lit "-" ++ dec0 2 (tm_mday t) ++
  lit " " ++ dec0 2 (tm_hour t) ++ lit ":" ++ dec0 2 (tm_min t) ++ lit ":" ++ dec0 2 (tm_sec t) ++ lit " ".

Section startup.
Context `{OS, TunBackend}.

(** [log_msg], with its formatted message. *)
Definition log_msg (lg : logger) (text : list Z) : IO unit :=
  if g_use_syslog lg then _ ← call (SSyslog text); mret () else
  let out := if g_logfp lg then LogFile else Stderr in
  t ← call SLocaltime;
  _ ← call (SFprintf out (timestamp t));
  _ ← call (SFprintf out text);
  _ ← call (SFflush out);
  mret ().

Definition log_init (lg : logger) (path : list Z) : IO logger :=
  if negb (first path =? 0) then
    ok ← call (SFopenLog path);
    let lg := lg <| g_logfp := ok |> in
    if negb (g_logfp lg)
    then _ ← call (SFprintf Stderr (lit "warning: cannot open log file " ++ path ++ NEWLINE)); mret lg
    else mret lg
  else if negb (g_foreground lg) then
    _ ← call SOpenlog;
    mret (lg <| g_use_syslog := true |>)
  else mret lg.

Definition log_deinit (lg : logger) : IO logger :=
  lg ← (if g_logfp lg then _ ← call SFcloseLog; mret (lg <| g_logfp := false |>) else mret lg);
  if g_use_syslog lg then _ ← call SCloselog; mret (lg <| g_use_syslog := false |>) else mret lg.

(** ** Daemonising: the exit code of the process, or [None] in the child that goes on. *)
Definition daemonize : IO (option Z) :=
  pid ← call SDaemonFork;
  if pid <? 0 then mret (Some 1) else
  if 0 <? pid then mret (Some 0) else
  _ ← call SSetsid;
  _ ← call (SChdir [SLASH]);
  _ ← call (SUmask 63);
  fd ← call SOpenNull;
  if 0 <=? fd then
    _ ← call (SDup2 fd 0);
    _ ← call (SDup2 fd 1);
    _ ← call (SDup2 fd 2);
    if 2 <? fd then _ ← call (SClose fd); mret None else mret None
  else mret None.

(** ** Signals *)

(** The [sigaction] calls of main, in order: signal, handler, SA_RESETHAND. *)
Definition handlers : list (signal * handler * bool) :=
  [(SIGINT, sig_handler, false); (SIGTERM, sig_handler, false); (SIGUSR1, sig_reconnect, false);
   (SIGPIPE, SIG_IGN, false); (SIGSEGV, sig_segfault, true)].
Fixpoint install (hs : list (signal * handler * bool)) : IO unit :=
  match hs with
  | [] => mret ()
  | (signo, h, reset) :: hs => _ ← call (SSigaction signo h reset); install hs
  end.
End startup.

(** The process as signals see it: what is installed, the flags, and whether it was killed. *)
Record procsig := mk_procsig {
  ps_handlers : list (signal * handler * bool); g_quit : bool; g_reconnect : bool; ps_killed : bool }.
#[export] Instance procsig_eta : Eta procsig := λ p,
  mk_procsig (ps_handlers p) (g_quit p) (g_reconnect p) (ps_killed p).

Definition installed (p : procsig) (signo : signal) : handler * bool :=
  match list_find (λ e, e.1.1 = signo) (ps_handlers p) with
  | Some (_, (_, h, reset)) => (h, reset)
  | None => (SIG_DFL, false)
  end.

(** A signal is delivered: SA_RESETHAND restores the default action before the handler runs;
    the signal [sig_segfault] raises again is delivered when the handler returns, and meets
    the default action, which ends the process, as it does for each of these signals. *)
Definition deliver (p : procsig) (signo : signal) : procsig :=
  if ps_killed p then p else
  let '(h, reset) := installed p signo in
  let p := if reset then p <| ps_handlers := (signo, SIG_DFL, false) :: ps_handlers p |> else p in
  match h with
  | SIG_DFL => p <| ps_killed := true |>
  | SIG_IGN => p
  | sig_handler => p <| g_quit := true |>
  | sig_reconnect => p <| g_reconnect := true |>
  | sig_segfault =>
      match (installed p signo).1 with
      | SIG_DFL => p <| ps_killed := true |>
      | _ => p                                          (* handled again, for ever *)
      end
  end.

(** ** The command line *)

Definition QUESTION : Z := 63.

(** The option string ["f:l:hFv"]: whether a letter takes an argument. *)
Definition takes_arg (c : Z) : option bool :=
  if (c =? 102) || (c =? 108) then Some true                       (* f l *)
  else if (c =? 104) || (c =? 70) || (c =? 118) then Some false    (* h F v *)
  else None.

(** The options of one word, and the words left: an argument is the rest of the word or the
    next word. *)
Fixpoint getopt_word (word : list Z) (args : list (list Z)) : list (Z * list Z) * list (list Z) :=
  match word with
  | [] => ([], args)
  | c :: rest =>
      match takes_arg c with
      | Some true =>
          match rest, args with
          | _ :: _, _ => ([(c, rest)], args)
          | [], optarg :: args => ([(c, optarg)], args)
          | [], [] => ([(QUESTION, [])], [])
          end
      | Some false => let '(opts, args) := getopt_word rest args in ((c, []) :: opts, args)
      | None => let '(opts, args) := getopt_word rest args in ((QUESTION, []) :: opts, args)
      end
  end.

(** The successive results of [getopt] and [optarg], up to the first [-1]; each turn of the
    fuel takes a word. *)
Fixpoint getopt (fuel : nat) (args : list (list Z)) : list (Z * list Z) :=
  match fuel, args with
  | S fuel, (d :: c :: word) :: args =>
      if negb (d =? DASH) then []
      else if (c =? DASH) && bool_decide (word = []) then []
      else let '(opts, args) := getopt_word (c :: word) args in opts ++ getopt fuel args
  | _, _ => []
  end.

(** How the loop over the options ends. *)
Inductive command :=
  | Version | Usage
  | Run (cfg_path log_path : list Z) (foreground : bool).

Fixpoint read_options (opts : list (Z * list Z)) (cfg_path log_path : list Z) (foreground : bool)
  : command :=
  match opts with
  | [] => Run cfg_path log_path foreground
  | (opt, optarg) :: opts =>
      if opt =? 102 then read_options opts optarg log_path foreground
      else if opt =? 108 then read_options opts cfg_path optarg foreground
      else if opt =? 70 then read_options opts cfg_path log_path true
      else if opt =? 118 then Version
      else Usage
  end.

Section main.
Context `{OS, TunBackend}.
(** Compiled for FreeBSD, and on what day. *)
Variables (freebsd : bool) (build_date : list Z).

Definition default_cfg : list Z :=
  if freebsd then lit "/usr/local/etc/iwan/iwan.conf" else lit "/etc/iwan/iwan.conf".
Definition default_log : list Z := [].

Definition usage (prog : list Z) : IO unit :=
  _ ← call (SFprintf Stderr
    (lit "Usage: " ++ prog ++ lit " [options]" ++ NEWLINE ++
     lit "  -f <config file>  config filepath [default: " ++ default_cfg ++ lit "]" ++ NEWLINE ++
     lit "  -l <log file>     log filepath" ++ NEWLINE ++
     lit "  -F                run in foreground (don't daemonize)" ++ NEWLINE ++
     lit "  -h                display this" ++ NEWLINE ++
     lit "  -v                version info" ++ NEWLINE));
  mret ().

Definition version : IO unit :=
  _ ← call (SFprintf Stdout
    (lit "iwand (Linux/OpenWrt/FreeBSD reimplementation) built " ++ build_date ++ NEWLINE));
  mret ().

(** ** Paths, made absolute before [chdir("/")] *)

Definition resolve_cfg_path (cfg_path : list Z) : IO (list Z) :=
  if negb (first cfg_path =? SLASH) then
    r ← call (SRealpath cfg_path);
    mret (match r with Some p => p | None => cfg_path end)
  else mret cfg_path.

Definition resolve_log_path (log_path : list Z) : IO (list Z) :=
  if negb (first log_path =? 0) && negb (first log_path =? SLASH) then
    r ← call (SRealpath log_path);
    match r with
    | Some p => mret p
    | None =>
        cwd ← call SGetcwd;
        match cwd with
        | Some cwd => mret (take (PATH_MAX - 1) (cwd ++ [SLASH] ++ log_path))
        | None => mret log_path
        end
    end
  else mret log_path.

(** ** The program, from its command line *)

(** From [log_init] on. *)
Definition configured (fuel : nat) (cfg_path log_path : list Z) (foreground : bool) : M (option Z) :=
  lg ← io (log_init (mk_logger false foreground false) log_path);
  file ← io (call (SReadFile cfg_path));
  match cfg_load file config_zero with
  | None =>
      _ ← io (log_msg lg (lit "load config file error: " ++ cfg_path ++ NEWLINE));
      _ ← io (log_deinit lg);
      mret (Some 1)
  | Some cfg =>
      if negb (cfg_valid cfg) then _ ← io (log_deinit lg); mret (Some 1) else
      _ ← io (install handlers);
      r ← main_run fuel cfg;
      match r with
      | Some code => _ ← io (log_deinit lg); mret (Some code)
      | None => mret None
      end
  end.

(** The exit code, or [None] when the process is still running after [fuel] turns of its
    event loop. *)
Definition program (fuel : nat) (prog : list Z) (args : list (list Z)) : M (option Z) :=
  match read_options (getopt (length args) args) default_cfg default_log false with
  | Version => _ ← io version; mret (Some 0)
  | Usage => _ ← io (usage prog); mret (Some 0)
  | Run cfg_path log_path foreground =>
      cfg_path ← io (resolve_cfg_path cfg_path);
      log_path ← io (resolve_log_path log_path);
      exited ← (if negb foreground then io daemonize else mret None);
      match exited with
      | Some code => mret (Some code)
      | None => configured fuel cfg_path log_path foreground
      end
  end.
End main.

(** * Properties *)

#[local] Opaque client_init.

(** ** What starting up does to the descriptors of the client: nothing *)

Section quiet.
Context `{OS}.

Definition quiet {A} (m : IO A) : Prop := io_spec m (λ _ new, live_fds_from [] new = []).

Lemma quiet_ret {A} (x : A) : quiet (mret x).
Proof. by apply io_spec_ret. Qed.
Lemma quiet_call s : (∀ r, fd_effect (Ev s r) [] = []) → quiet (call s).
Proof. intros Hs. by apply io_spec_call. Qed.
Lemma quiet_bind {A B} (m : IO A) (f : A → IO B) : quiet m → (∀ x, quiet (f x)) → quiet (m ≫= f).
Proof.
  intros Hm Hf. eapply io_spec_bind; [exact Hm|]. intros x new Hn. cbv beta.
  eapply io_spec_mono; [apply Hf|]. intros y new' Hn'. cbv beta. by rewrite live_fds_app, Hn.
Qed.

Lemma wp_quiet {A} (m : IO A) w (Q : A → world → Prop) :
  quiet m → live_fds (w_t w) = [] →
  (∀ x w', m (w_t w) = (x, w_t w') → w_c w' = w_c w → live_fds (w_t w') = [] → Q x w') →
  wp (io m) w Q.
Proof.
  intros Hm Hl HQ. destruct (Hm (w_t w)) as (x & new & E & Hn). unfold wp, io. rewrite E.
  apply HQ; [done|done|]. unfold live_fds in *. cbn [w_t]. by rewrite live_fds_app, Hl.
Qed.
End quiet.

Create HintDb c_quiet.
Ltac quiet_steps :=
  repeat first
    [ apply quiet_ret
    | lazymatch goal with |- quiet (call ?s) => apply (quiet_call s); intros; reflexivity end
    | apply quiet_bind; [|intros ?] | progress cbv zeta | case_match ].

Section safety.
Context `{OS}.

Lemma log_msg_quiet lg text : quiet (log_msg lg text).
Proof. unfold log_msg. quiet_steps. Qed.
Lemma log_init_quiet lg path : quiet (log_init lg path).
Proof. unfold log_init. quiet_steps. Qed.
Lemma log_deinit_quiet lg : quiet (log_deinit lg).
Proof. unfold log_deinit. quiet_steps. Qed.
Lemma daemonize_quiet : quiet daemonize.
Proof. unfold daemonize. quiet_steps. Qed.
Lemma daemonize_code tr code tr' : daemonize tr = (Some code, tr') → code = 0 ∨ code = 1.
Proof.
  unfold daemonize, mbind, io_bind_inst, call, mret, io_ret_inst. cbv zeta.
  repeat case_match; intros [= <- <-]; auto.
Qed.
Lemma install_quiet hs : quiet (install hs).
Proof. induction hs as [|[[signo h] reset] hs IH]; cbn [install]; quiet_steps. exact IH. Qed.
Lemma usage_quiet freebsd prog : quiet (usage freebsd prog).
Proof. unfold usage. quiet_steps. Qed.
Lemma version_quiet date : quiet (version date).
Proof. unfold version. quiet_steps. Qed.
Lemma resolve_cfg_path_quiet p : quiet (resolve_cfg_path p).
Proof. unfold resolve_cfg_path. quiet_steps. Qed.
Lemma resolve_log_path_quiet p : quiet (resolve_log_path p).
Proof. unfold resolve_log_path. quiet_steps. Qed.
End safety.
#[export] Hint Resolve log_msg_quiet log_init_quiet log_deinit_quiet daemonize_quiet install_quiet
  usage_quiet version_quiet resolve_cfg_path_quiet resolve_log_path_quiet : c_quiet.

Section whole.
Context `{OSOk, TunBackend, !TunOk}.
Variables (freebsd : bool) (build_date : list Z).

(** What is known of the program when it ends, and while it runs. *)
Definition ended (r : option Z) (w : world) : Prop :=
  match r with
  | Some code => (code = 0 ∨ code = 1) ∧ live_fds (w_t w) = []
  | None => inv w
  end.

(** The program does what its event loop does: [P] is what is known of the loop. *)
Lemma wp_program (P : option Z → world → Prop) fuel prog args :
  (∀ cfg w, cfg_ok cfg → client_ok (w_c w) → live_fds (w_t w) = [] →
    wp (main_run fuel cfg) w (λ r w', ended r w' ∧ P r w')) →
  (∀ w code, code = 0 ∨ code = 1 → P (Some code) w) →
  wp (program freebsd build_date fuel prog args) (mk_world client_init [])
    (λ r w, ended r w ∧ P r w).
Proof.
  intros Hrun HP. unfold program.
  assert (∀ A (m : IO A) w (f : A → M (option Z)) Q, quiet m → live_fds (w_t w) = [] → w_c w = client_init →
    (∀ x w', m (w_t w) = (x, w_t w') → w_c w' = client_init → live_fds (w_t w') = [] → wp (f x) w' Q) →
    wp (x ← io m; f x) w Q) as Hio.
  { intros A m w f Q Hm Hl Hc HQ. wp_step. apply wp_quiet; [done|done|]. intros x w' Hm' Hc' Hl'.
    apply HQ; congruence. }
  assert (∀ code w, code = 0 ∨ code = 1 → live_fds (w_t w) = [] → ended (Some code) w ∧ P (Some code) w)
    as Hend by (intros; split; [by split|auto]).
  destruct (read_options _ _ _ _) as [| |cfg_path0 log_path0 foreground].
  - apply Hio; [auto with c_quiet|done|done|]. intros _ w _ _ Hl. wp_step. auto.
  - apply Hio; [auto with c_quiet|done|done|]. intros _ w _ _ Hl. wp_step. auto.
  - apply Hio; [auto with c_quiet|done|done|]. intros cfg_path w0 _ Hc0 Hl0.
    apply Hio; [auto with c_quiet|done|done|]. intros log_path w1 _ Hc1 Hl1.
    assert (∀ w, w_c w = client_init → live_fds (w_t w) = [] →
      wp (configured fuel cfg_path log_path foreground) w (λ r w, ended r w ∧ P r w)) as Hconf.
    { intros w Hc Hl. unfold configured.
      apply Hio; [auto with c_quiet|done|done|]. intros lg w2 _ Hc2 Hl2. wp_step. wp_step.
      set (file := os _ _). assert (∀ f, file = Some f → bytes f) as Hfile by (intros f; apply os_file_ok).
      clearbody file. set (w3 := mk_world _ _). assert (live_fds (w_t w3) = []) as Hl3 by done.
      assert (w_c w3 = client_init) as Hc3 by done. clearbody w3.
      destruct file as [f|]; cbn [cfg_load mbind option_bind].
      2:{ apply Hio; [auto with c_quiet|done|done|]. intros _ w4 _ Hc4 Hl4.
          apply Hio; [auto with c_quiet|done|done|]. intros _ w5 _ Hc5 Hl5. wp_step. auto. }
      assert (cfg_ok (load_lines (S (length f)) f config_zero)) as Hcfg
        by (apply load_lines_ok; [by apply Hfile|apply config_zero_ok]).
      wp_step.
      { apply Hio; [auto with c_quiet|done|done|]. intros _ w4 _ Hc4 Hl4. wp_step. auto. }
      apply Hio; [auto with c_quiet|done|done|]. intros _ w4 _ Hc4 Hl4. wp_step.
      eapply wp_mono; [apply Hrun; [done| |done]|].
      { rewrite Hc4. apply client_init_ok. }
      intros [code|] w5 [He HP5]; [|by wp_step]. destruct He as [Hcode Hl5].
      wp_step. apply wp_quiet; [auto with c_quiet|done|]. intros _ w6 _ _ Hl6. wp_step. auto. }
    destruct foreground; cbn [negb].
    + wp_step. wp_step. by apply Hconf.
    + apply Hio; [auto with c_quiet|done|done|]. intros [code|] w2 E Hc2 Hl2; [|by apply Hconf].
      wp_step. apply Hend; [|done]. by eapply daemonize_code.
Qed.
End whole.

(** ** Signals *)

(** The signals that arrive before each event of a history, and what the process has become
    after it; main clears [g_reconnect] when it finds it set.  Signals are those that arrive
    once main has installed its handlers. *)
Definition after (ev : event) (p : procsig) : procsig :=
  match ev with Ev SReconnect true => p <| g_reconnect := false |> | _ => p end.
Fixpoint sig_state (sched : nat → list signal) (tr : trace) : procsig :=
  match tr with
  | [] => foldl deliver (mk_procsig handlers false false false) (sched 0%nat)
  | ev :: tr' => foldl deliver (after ev (sig_state sched tr')) (sched (length tr))
  end.

(** The system [base] with these signals. *)
Definition signal_os (sched : nat → list signal) (base : OS) : OS := λ tr s,
  match s return resp s with
  | SQuit => g_quit (sig_state sched tr)
  | SReconnect => g_reconnect (sig_state sched tr)
  | s => base tr s
  end.

Lemma signal_os_ok sched base : @OSOk base → @OSOk (signal_os sched base).
Proof. intros []. by split. Qed.

(** The flags that are not about dying. *)
Definition alive (p : procsig) : Prop := ps_handlers p = handlers ∧ ps_killed p = false.

Lemma deliver_alive p s :
  alive p → s ≠ SIGSEGV →
  alive (deliver p s) ∧ g_quit (deliver p s) = g_quit p || bool_decide (s = SIGINT ∨ s = SIGTERM).
Proof.
  intros [Hh Hk] Hs. unfold deliver, installed. rewrite Hk, Hh.
  destruct s; try done; cbn; rewrite ?orb_true_r, ?orb_false_r; by destruct p.
Qed.

Lemma delivers_alive p ss :
  alive p → SIGSEGV ∉ ss →
  alive (foldl deliver p ss) ∧
  (g_quit p = true ∨ SIGINT ∈ ss ∨ SIGTERM ∈ ss → g_quit (foldl deliver p ss) = true).
Proof.
  revert p. induction ss as [|s ss IH]; intros p Hp Hs; cbn [foldl].
  { split; [done|]. rewrite !elem_of_nil. tauto. }
  apply not_elem_of_cons in Hs as [Hne Hs]. destruct (deliver_alive p s Hp) as [Hp' Hq]; [by intros ->|].
  destruct (IH (deliver p s) Hp' Hs) as [Ha Hg]. split; [done|]. intros Hor. apply Hg.
  rewrite Hq, orb_true_iff, bool_decide_eq_true. rewrite !elem_of_cons in Hor. clear -Hor.
  destruct Hor as [?|[[?|?]|[?|?]]]; auto.
Qed.

Lemma after_alive ev p : alive p → alive (after ev p) ∧ g_quit (after ev p) = g_quit p.
Proof. destruct ev as [s r]. destruct s; try by auto. by destruct r. Qed.

(** Once SIGINT or SIGTERM has been received, [g_quit] is set for ever. *)
Lemma sig_state_quit sched k tr :
  (∀ i, SIGSEGV ∉ sched i) → SIGINT ∈ sched k ∨ SIGTERM ∈ sched k →
  alive (sig_state sched tr) ∧ ((k ≤ length tr)%nat → g_quit (sig_state sched tr) = true).
Proof.
  intros Hs Hk. induction tr as [|ev tr [IHa IHq]]; cbn [sig_state].
  - destruct (delivers_alive (mk_procsig handlers false false false) (sched 0%nat)) as [Ha Hg]; [done|done|].
    split; [done|]. intros Hle. apply Hg. right. simpl in Hle. by assert (k = 0%nat) as <- by lia.
  - destruct (after_alive ev _ IHa) as [Ha Hq].
    destruct (delivers_alive _ (sched (length (ev :: tr))) Ha (Hs _)) as [Ha' Hg].
    split; [done|]. intros Hle. apply Hg. destruct (decide (k = length (ev :: tr))) as [<-|Hne]; [by right|].
    left. rewrite Hq. apply IHq. simpl in *. lia.
Qed.

Lemma quit_reads_length tr : (quit_reads tr ≤ length tr)%nat.
Proof.
  unfold quit_reads. induction tr as [|ev tr IH]; [done|]. cbn [sum_list_with length].
  destruct (ev_call ev); lia.
Qed.

(** A segmentation fault ends the process: [sig_segfault] raises the signal again, with the
    default action restored. *)
Example sigsegv_kills :
  ps_killed (deliver (mk_procsig handlers false false false) SIGSEGV) = true.
Proof. reflexivity. Qed.

(** ** Options *)

Lemma getopt_word_args word args : (length (getopt_word word args).2 ≤ length args)%nat.
Proof.
  induction word as [|c word IH]; cbn [getopt_word]; [done|].
  destruct (takes_arg c) as [[]|].
  - destruct word; [destruct args|]; simpl; lia.
  - by destruct (getopt_word word args).
  - by destruct (getopt_word word args).
Qed.

(** The fuel is enough as soon as there is one unit for each word. *)
Lemma getopt_fuel f1 f2 args :
  (length args ≤ f1)%nat → (length args ≤ f2)%nat → getopt f1 args = getopt f2 args.
Proof.
  revert f2 args. induction f1 as [|f1 IH]; intros f2 args H1 H2.
  { destruct args; [|simpl in H1; lia]. by destruct f2. }
  destruct f2 as [|f2]; [destruct args; [done|simpl in H2; lia]|].
  destruct args as [|[|d [|c word]] args]; [done|done|done|]. cbn [getopt].
  case_match; [done|]. case_match; [done|].
  pose proof (getopt_word_args (c :: word) args) as Hl. destruct (getopt_word (c :: word) args) as [opts args'].
  cbn [snd length] in *. f_equal. apply IH; lia.
Qed.

(** A setting on the command line: an argument follows its letter, or is the next word. *)
Inductive setting :=
  | SetCfg (path : list Z) (joined : bool)
  | SetLog (path : list Z) (joined : bool)
  | SetForeground.
Definition words (st : setting) : list (list Z) :=
  let with_arg c (path : list Z) (joined : bool) := if joined then [[DASH; c] ++ path] else [[DASH; c]; path] in
  match st with
  | SetCfg path joined => with_arg 102 path joined
  | SetLog path joined => with_arg 108 path joined
  | SetForeground => [[DASH; 70]]
  end.
Definition setting_ok (st : setting) : Prop :=
  match st with SetCfg path true | SetLog path true => path ≠ [] | _ => True end.
Definition setting_opt (st : setting) : Z * list Z :=
  match st with SetCfg path _ => (102, path) | SetLog path _ => (108, path) | SetForeground => (70, []) end.

Lemma getopt_next fuel c path args :
  c ≠ DASH → takes_arg c = Some true →
  getopt (S fuel) ([DASH; c] :: path :: args) = (c, path) :: getopt fuel args.
Proof.
  intros Hc Ht. cbn [getopt]. rewrite (proj2 (Z.eqb_neq c DASH) Hc), Z.eqb_refl. cbn [negb andb getopt_word].
  by rewrite Ht.
Qed.
Lemma getopt_joined fuel c path args :
  c ≠ DASH → takes_arg c = Some true → path ≠ [] →
  getopt (S fuel) ((DASH :: c :: path) :: args) = (c, path) :: getopt fuel args.
Proof.
  intros Hc Ht Hp. cbn [getopt]. rewrite (proj2 (Z.eqb_neq c DASH) Hc), Z.eqb_refl. cbn [negb andb getopt_word].
  rewrite Ht. by destruct path.
Qed.

Lemma getopt_setting st args :
  setting_ok st →
  getopt (length (words st ++ args)) (words st ++ args) = setting_opt st :: getopt (length args) args.
Proof.
  intros Hok. destruct st as [path []|path []|]; cbn [words app length setting_opt];
    try by apply getopt_joined.
  - rewrite getopt_next by done. by rewrite (getopt_fuel (S (length args)) (length args)) by lia.
  - rewrite getopt_next by done. by rewrite (getopt_fuel (S (length args)) (length args)) by lia.
  - reflexivity.
Qed.

(** Operands end the options. *)
Definition operands (args : list (list Z)) : Prop :=
  match args with [] => True | word :: _ => first word ≠ DASH ∨ word = [DASH] ∨ word = [DASH; DASH] end.

Lemma getopt_operands fuel args : operands args → getopt fuel args = [].
Proof.
  intros Ho. destruct fuel as [|fuel]; [done|]. destruct args as [|[|d [|c word]] args]; try done.
  cbn [getopt]. destruct Ho as [Hd|[Hd|Hd]]; [|done|by injection Hd as -> -> ->].
  cbn [first] in Hd. by rewrite (proj2 (Z.eqb_neq _ _)).
Qed.

Lemma getopt_settings sts args :
  Forall setting_ok sts → operands args →
  getopt (length (concat (map words sts) ++ args)) (concat (map words sts) ++ args) = map setting_opt sts.
Proof.
  intros Hok Ho. induction Hok as [|st sts Hst _ IH]; cbn [map concat].
  - by apply getopt_operands.
  - rewrite <-app_assoc, getopt_setting by done. by rewrite IH.
Qed.

(** What the settings mean: the last one of each kind counts. *)
Definition apply_setting (c : list Z * list Z * bool) (st : setting) : list Z * list Z * bool :=
  let '(cfg_path, log_path, foreground) := c in
  match st with
  | SetCfg path _ => (path, log_path, foreground)
  | SetLog path _ => (cfg_path, path, foreground)
  | SetForeground => (cfg_path, log_path, true)
  end.

Lemma read_settings sts c :
  read_options (map setting_opt sts) c.1.1 c.1.2 c.2 =
  (let '(cfg_path, log_path, foreground) := foldl apply_setting c sts in Run cfg_path log_path foreground).
Proof.
  revert c. induction sts as [|st sts IH]; intros [[cfg_path log_path] foreground]; [done|].
  cbn [map foldl]. rewrite <-(IH (apply_setting _ st)). by destruct st.
Qed.

(** ** Descriptors 0, 1 and 2 *)

(** What the descriptors of a process refer to, after [open("/dev/null")], [dup2], [close]:
    [true] for the null device. *)
Definition std_effect (ev : event) (t : gmap Z bool) : gmap Z bool :=
  match ev with
  | Ev SOpenNull r => if 0 <=? r then <[r := true]> t else t
  | Ev (SDup2 fd to) _ => match t !! fd with Some x => <[to := x]> t | None => t end
  | Ev (SClose fd) _ => delete fd t
  | _ => t
  end.

Lemma std_effect_dup2 fd to r t :
  t !! fd = Some true → std_effect (Ev (SDup2 fd to) r) t = <[to := true]> t.
Proof. cbn [std_effect]. by intros ->. Qed.
Lemma insert_true (t : gmap Z bool) fd to : t !! fd = Some true → <[to := true]> t !! fd = Some true.
Proof. intros Ht. rewrite lookup_insert. by case_decide. Qed.

(** ** The theorems *)

Section program_theorems.
Context `{OSOk, TunBackend, !TunOk}.
Variables (freebsd : bool) (build_date : list Z).

End program_theorems.



Section io_theorems.
Context `{OS}.

(** C27: the daemon.  In the child, provided the null device opens: the session and the
    directory are left, the standard input, output and error are the null device, and every
    other descriptor is what it was. *)
Theorem daemonize_detaches tr t :
  os tr SDaemonFork = 0 →
  ∃ fd rest, daemonize tr = (None, rest ++ tr) ∧
    (∃ r1 r2, Ev SSetsid r1 ∈ rest ∧ Ev (SChdir [SLASH]) r2 ∈ rest ∧ Ev SOpenNull fd ∈ rest) ∧
    (0 ≤ fd → t !! fd = None →
     let t' := foldr std_effect t rest in
     (∀ x, 0 ≤ x ≤ 2 → t' !! x = Some true) ∧ (∀ x, x < 0 ∨ 2 < x → t' !! x = t !! x)).
Proof.
  intros Hfork. unfold daemonize, mbind, io_bind_inst, call, mret, io_ret_inst. rewrite Hfork.
  cbn [Z.ltb Z.compare]. set (e1 := Ev SDaemonFork 0). set (r1 := os _ SSetsid). set (e2 := Ev SSetsid r1).
  set (r2 := os _ (SChdir _)). set (e3 := Ev (SChdir _) r2). set (e4 := Ev (SUmask 63) _).
  set (fd := os (e4 :: _) SOpenNull). set (e5 := Ev SOpenNull fd). cbv zeta.
  destruct (Z.leb_spec 0 fd) as [Hfd|Hfd].
  2:{ exists fd, [e5; e4; e3; e2; e1]. split; [done|]. split; [exists r1, r2; split_and!; set_solver|lia]. }
  set (e6 := Ev (SDup2 fd 0) _). set (e7 := Ev (SDup2 fd 1) _). set (e8 := Ev (SDup2 fd 2) _).
  assert (∀ x, foldr std_effect t [e8; e7; e6; e5; e4; e3; e2; e1] !! x =
    if decide (0 ≤ x ≤ 2 ∨ x = fd) then Some true else t !! x) as Ht.
  { intros x. rewrite !foldr_cons. cbn [foldr std_effect e1 e2 e3 e4 e5]. rewrite (proj2 (Z.leb_le 0 fd) Hfd).
    unfold e6, e7, e8. assert (<[fd := true]> t !! fd = Some true) as Hf by apply lookup_insert_eq.
    rewrite (std_effect_dup2 fd 0) by exact Hf. rewrite (std_effect_dup2 fd 1) by by apply insert_true.
    rewrite (std_effect_dup2 fd 2) by by do 2 apply insert_true.
    rewrite !lookup_insert. repeat case_decide; try lia; done. }
  destruct (Z.ltb_spec 2 fd) as [H2|H2].
  - set (e9 := Ev (SClose fd) _). exists fd, [e9; e8; e7; e6; e5; e4; e3; e2; e1].
    split; [done|]. split; [exists r1, r2; split_and!; set_solver|]. intros _ Hnone. cbv zeta.
    rewrite foldr_cons. cbn [std_effect e9]. split; intros x Hx.
    + rewrite lookup_delete_ne by lia. by rewrite Ht, decide_True by auto.
    + destruct (decide (x = fd)) as [->|Hne]; [by rewrite lookup_delete_eq|].
      rewrite lookup_delete_ne by done. rewrite Ht, decide_False by lia. done.
  - exists fd, [e8; e7; e6; e5; e4; e3; e2; e1].
    split; [done|]. split; [exists r1, r2; split_and!; set_solver|]. intros _ Hnone. cbv zeta.
    split; intros x Hx.
    + by rewrite Ht, decide_True by auto.
    + by rewrite Ht, decide_False by lia.
Qed.
(** Where the messages go once [log_init] has run. *)
Inductive sink := ToSyslog | ToStream (out : stream).
Definition destination (path : list Z) (foreground opened : bool) : sink :=
  if negb (first path =? 0) then ToStream (if opened then LogFile else Stderr)
  else if foreground then ToStream Stderr else ToSyslog.

(** Logging.  A message goes to the log file when one is given and opens, to the system
    log in a daemon without one, else to the standard error (in a daemon whose log file does
    not open, that is the null device), preceded on a stream by its date; and what was
    opened, nothing else, is closed at the end. *)
Theorem log_destination foreground path text tr :
  let '(lg, tr1) := log_init (mk_logger false foreground false) path tr in
  let opened : bool := os tr (SFopenLog path) in
  let dest := destination path foreground opened in
  (∃ new, log_msg lg text tr1 = ((), new ++ tr1) ∧
    match dest with
    | ToSyslog => map ev_call new = [SSyslog text]
    | ToStream out => ∃ t, map ev_call new =
        [SFflush out; SFprintf out text; SFprintf out (timestamp t); SLocaltime]
    end) ∧
  (∃ new, log_deinit lg tr1 = (mk_logger false foreground false, new ++ tr1) ∧
    map ev_call new =
      match dest with ToSyslog => [SCloselog] | ToStream LogFile => [SFcloseLog] | _ => [] end).
Proof.
  unfold log_init, log_msg, log_deinit, destination, mbind, io_bind_inst, call, mret, io_ret_inst.
  destruct (first path =? 0); cbn [negb].
  - destruct foreground; cbn.
    + split; [eexists [_; _; _; _]; split; [reflexivity|by eexists]|by exists []].
    + split; [by eexists [_]|by eexists [_]].
  - destruct (os tr (SFopenLog path)); cbn.
    + split; [eexists [_; _; _; _]; split; [reflexivity|by eexists]|by eexists [_]].
    + split; [eexists [_; _; _; _]; split; [reflexivity|by eexists]|by exists []].
Qed.

(** The log path does not depend on the [chdir("/")] of the daemon, provided the system gives
    absolute paths, unless both calls fail. *)
Lemma log_path_absolute p p' tr tr' :
  (∀ tr r, os tr (SRealpath p) = Some r → first r = SLASH) →
  (∀ tr r, os tr SGetcwd = Some r → first r = SLASH) →
  resolve_log_path p tr = (p', tr') →
  first p = 0 ∧ p' = p ∨ first p' = SLASH ∨
  p' = p ∧ os tr (SRealpath p) = None ∧ os (Ev (SRealpath p) None :: tr) SGetcwd = None.
Proof.
  intros Hr Hg. unfold resolve_log_path, mbind, io_bind_inst, call, mret, io_ret_inst.
  destruct (Z.eqb_spec (first p) 0) as [H0|H0]; cbn [negb andb].
  { intros [= <- _]. auto. }
  destruct (Z.eqb_spec (first p) SLASH) as [Hs|Hs]; cbn [negb]; [intros [= <- _]; auto|].
  destruct (os tr (SRealpath p)) as [r|] eqn:E; cbv zeta; [intros [= <- _]; eauto|].
  destruct (os (_ :: tr) SGetcwd) as [cwd|] eqn:E2; intros [= <- _]; [|auto].
  right. left. pose proof (Hg _ _ E2) as Hc. destruct cwd as [|x cwd]; [done|]. by unfold PATH_MAX.
Qed.
End io_theorems.

(** ** Witnesses *)

(** A system with a configuration file. *)
Definition file_os : OS := λ tr s,
  match s return resp s with
  | SReadFile _ => Some sample_file
  | SDaemonFork => 0
  | SOpenNull => 7
  | s => still_os tr s
  end.

Lemma file_os_ok : @OSOk file_os.
Proof.
  destruct still_os_ok as [H1 H2 H3 H4 H5 _]. split; [exact H1|exact H2|exact H3|exact H4|exact H5|].
  intros tr path f [= <-]. by apply byte_list_ok.
Qed.


(** SIGTERM arrives after forty events. *)
Definition one_sigterm (i : nat) : list signal := if (i =? 40)%nat then [SIGTERM] else [].


(** It leaves with code 0. *)
Example sigterm_code :
  match program (H := signal_os one_sigterm file_os) (H0 := @Linux.backend (signal_os one_sigterm file_os))
          false [] 41 (lit "iwand") [lit "-F"] (mk_world client_init []) with
  | Some (r, w) => r
  | None => None
  end = Some 0.
Proof. vm_compute. reflexivity. Qed.


Lemma daemonize_detaches_witness :
  ∃ fd rest, daemonize (H := file_os) [] = (None, rest ++ []) ∧
    (∃ r1 r2, Ev SSetsid r1 ∈ rest ∧ Ev (SChdir [SLASH]) r2 ∈ rest ∧ Ev SOpenNull fd ∈ rest) ∧
    (0 ≤ fd → (∅ : gmap Z bool) !! fd = None →
     let t' := foldr std_effect ∅ rest in
     (∀ x, 0 ≤ x ≤ 2 → t' !! x = Some true) ∧ (∀ x, x < 0 ∨ 2 < x → t' !! x = (∅ : gmap Z bool) !! x)).
Proof. apply (daemonize_detaches (H := file_os) [] ∅). reflexivity. Defined.
