(* ===== verification/Interop.v ===== *)
(** The client and the server together: what one writes, the other understands.  The
    functions of [src/iwand.c] (Packet, OpenAck, Recv) and of [src/server/] (Protocol,
    Server) are composed over the packets they exchange. *)
From stdpp Require Import gmap.
From S2P Require Import Prelude Md5 Aes Client Config Os Tun TunLinux CMonad Packet OpenAck.
From S2P Require Import Protocol Server Recv Machine.

#[local] Opaque md5_spec fips_cipher.

(** ** A client and its session

    The client is in session with the server when its token, identifier, key, address and
    encryption flag are those of one entry of the session table. *)
Record linked (s : server) (remote : udp_addr) (l : nat) (u : user_session) (c : client) : Prop := {
  lk_state : c_state c = STATE_ESTABLISHED;
  lk_session : sv_sessions s !!
    (remote, le_encode 2 (c_session_token c), le_encode 4 (c_session_id c)) = Some l;
  lk_heap : sv_heap s !! l = Some u;
  lk_encrypt : c_encrypt c = flag_of (se_encrypt u);
  lk_key : c_xor_key c = u_xorKey (se_user u);
  lk_ip : be_encode 4 (c_peer_ip c) = u_address (se_user u)
}.

Abbreviation key_of remote c :=
  (remote, le_encode 2 (c_session_token c), le_encode 4 (c_session_id c)).

Lemma session_header_go ty c :
  session_header ty c = go_header ty 0 (le_encode 2 (c_session_token c)) (le_encode 4 (c_session_id c)).
Proof. reflexivity. Qed.

Lemma client_ids_ok c : ids_ok (le_encode 2 (c_session_token c)) (le_encode 4 (c_session_id c)).
Proof. split_and!; auto using length_le_encode, le_encode_bytes. Qed.

(** Both sides build the same data packets. *)
Lemma data_packet_go c data b :
  c_encrypt c = flag_of b →
  data_packet c data =
  buildDataPacket (le_encode 2 (c_session_token c)) (le_encode 4 (c_session_id c)) data b (c_xor_key c).
Proof.
  intros He. rewrite buildDataPacket_layout by apply client_ids_ok. unfold data_packet. rewrite He.
  by destruct b.
Qed.

Section linked.
Variables (s : server) (remote : udp_addr) (l : nat) (u : user_session) (c : client).
Hypotheses (Hinv : server_inv s) (Hlk : linked s remote l u c).

Lemma linked_ok : session_ok s (key_of remote c) l u.
Proof. apply session_facts; [done|apply Hlk..]. Qed.

(** The copy of the session that replies use. *)
Lemma linked_outbound :
  sessionToOutbound u =
  mk_outbound remote (le_encode 2 (c_session_token c)) (le_encode 4 (c_session_id c))
    (se_encrypt u) (u_xorKey (se_user u)) (u_address (se_user u)).
Proof.
  unfold sessionToOutbound. by rewrite (so_remote _ _ _ _ linked_ok), (so_key _ _ _ _ linked_ok).
Qed.

Lemma linked_address : sv_byAddress s !! u_address (se_user u) = Some l.
Proof. apply linked_ok. Qed.

(** What the server sends to the client's address is what a client in session would send. *)
Lemma linked_send data : send_data (sessionToOutbound u) data = [WriteToUDP remote (data_packet c data)].
Proof.
  rewrite linked_outbound. unfold send_data. cbn [o_remote o_token o_sessionID o_encrypt o_xorKey].
  by rewrite (data_packet_go c data (se_encrypt u)), (lk_key _ _ _ _ _ Hlk) by apply Hlk.
Qed.

Lemma touched_inv_now now : server_inv (touched s l (u <| se_lastSeen := now |>)).
Proof. by eapply touched_inv; [|apply Hlk|..]. Qed.
End linked.

Lemma touched_linked s remote l u c l' u' now :
  linked s remote l u c → sv_heap s !! l' = Some u' →
  ∃ u1, linked (touched s l' (u' <| se_lastSeen := now |>)) remote l u1 c ∧
    sessionToOutbound u1 = sessionToOutbound u.
Proof.
  intros [H1 H2 H3 H4 H5 H6] Hu'. destruct (decide (l = l')) as [<-|Hne].
  - assert (u' = u) as -> by congruence. exists (u <| se_lastSeen := now |>). split; [|done].
    split; cbn [touched sv_sessions sv_heap]; try done. apply lookup_insert_eq.
  - exists u. split; [|done]. split; cbn [touched sv_sessions sv_heap]; try done.
    by rewrite lookup_insert_ne.
Qed.

(** ** The OPENACK of the server, as the client reads it *)

Definition dns_list (dns : list (list Z)) : list (Z * list Z) :=
  match dns with [] => [] | [d] => [(5, d)] | d0 :: d1 :: _ => [(6, d0 ++ d1)] end.

Lemma tlvs_dns dns rest :
  Forall (λ d, length d = 4%nat ∧ bytes d) dns →
  tlvs (dns_tlvs dns ++ rest) = dns_list dns ++ tlvs rest.
Proof.
  intros Hd. destruct dns as [|d0 [|d1 dns]]; cbn [dns_tlvs dns_list app]; [done|..];
    rewrite !Forall_cons in Hd; apply tlvs_tlv; unfold len; rewrite ?length_app; lia.
Qed.

Lemma apply_dns dns c : ∃ d0 d1, foldl apply_tlv c (dns_list dns) = c <| c_dns0 := d0 |> <| c_dns1 := d1 |>.
Proof.
  set (c' := foldl _ _ _). exists (c_dns0 c'), (c_dns1 c'). unfold c'.
  destruct dns as [|x0 [|x1 dns]]; cbn [dns_list foldl]; unfold apply_tlv; cbn [Z.eqb Pos.eqb];
    repeat case_match; by destruct c.
Qed.

Lemma openack_fields_go c hs mtu address dns b :
  length hs = 24%nat → is_u16 mtu → length address = 4%nat → bytes address →
  Forall (λ d, length d = 4%nat ∧ bytes d) dns →
  ∃ d0 d1, openack_fields c (hs ++ tlv 3 (be_encode 2 mtu) ++ tlv 4 address ++ dns_tlvs dns ++ tlv 8 [flag_of b]) =
    c <| c_server_mtu := mtu |> <| c_peer_ip := be_decode address |> <| c_dns0 := d0 |>
      <| c_dns1 := d1 |> <| c_encrypt := flag_of b |>.
Proof.
  intros Hl Hm Ha Hab Hd. unfold openack_fields. rewrite drop_app_length' by done.
  rewrite <-(app_nil_r (tlv 8 _)), tlvs_tlv by by rewrite len_be_encode.
  rewrite tlvs_tlv by (unfold len; rewrite Ha; done).
  rewrite tlvs_dns, tlvs_tlv, tlvs_nil by done. cbn [foldl]. rewrite foldl_app.
  set (c2 := apply_tlv _ (4, _)). destruct (apply_dns dns c2) as (d0 & d1 & ->). exists d0, d1.
  cbn [foldl]. unfold c2, apply_tlv. cbn [Z.eqb Pos.eqb].
  rewrite len_be_encode. change (2 <=? Z.of_nat 2) with true. cbv iota.
  rewrite (take_ge (be_encode 2 mtu)) by by rewrite length_be_encode.
  rewrite be_decode_encode, Z.mod_small by done.
  assert (len address = 4) as -> by (unfold len; by rewrite Ha). change (4 <=? 4) with true. cbv iota.
  rewrite (take_ge address) by lia. done.
Qed.

(** ** The handshake *)

Definition openack_header (u : user_session) : list Z :=
  go_header packetOpenAck (flag_of (se_encrypt u)) (se_key u).1.2 (se_key u).2.

Lemma openack_packet_layout cfg u :
  sconfig_ok cfg → ids_ok (se_key u).1.2 (se_key u).2 → length (u_address (se_user u)) = 4%nat →
  openack_packet cfg u =
  (openack_header u ++ signature (openack_header u)) ++ tlv 3 (be_encode 2 (se_mtu u)) ++
  tlv 4 (u_address (se_user u)) ++ dns_tlvs (s_dns cfg) ++ tlv 8 [flag_of (se_encrypt u)].
Proof.
  intros Hc Hids Ha. unfold openack_packet. rewrite buildOpenAck_layout, <-app_assoc; [done|done..|].
  eapply Forall_impl; [apply Hc|]. by intros d [? _].
Qed.

Lemma tlv_bytes_ok ty v : is_byte ty → bytes v → len v + 2 ≤ 255 → bytes (tlv ty v).
Proof.
  intros Ht Hv Hl. pose proof (len_nonneg v). unfold tlv. rewrite !Forall_cons. split_and!; [done| |done]. split; lia.
Qed.

Lemma dns_tlvs_bytes dns : Forall (λ d, length d = 4%nat ∧ bytes d) dns → bytes (dns_tlvs dns).
Proof.
  destruct dns as [|d0 [|d1 dns]]; cbn [dns_tlvs]; [done|..]; rewrite !Forall_cons; intros H;
    apply tlv_bytes_ok; rewrite ?Forall_app; try tauto; try done; unfold len; rewrite ?length_app; lia.
Qed.

Lemma flag_of_byte b : is_byte (flag_of b).
Proof. by destruct b. Qed.

Lemma length_openack_header u :
  ids_ok (se_key u).1.2 (se_key u).2 →
  length (openack_header u ++ signature (openack_header u)) = 24%nat.
Proof. intros. unfold openack_header. by rewrite length_app, length_signature, length_go_header. Qed.

Lemma openack_packet_bytes cfg u :
  sconfig_ok cfg → ids_ok (se_key u).1.2 (se_key u).2 → length (u_address (se_user u)) = 4%nat →
  bytes (u_address (se_user u)) → bytes (openack_packet cfg u).
Proof.
  intros Hc Hids Ha Hb. rewrite openack_packet_layout by done. rewrite !Forall_app. split_and!.
  - apply go_header_bytes; [done|apply flag_of_byte|done].
  - apply signature_bytes.
  - apply tlv_bytes_ok; [done|apply be_encode_bytes|by rewrite len_be_encode].
  - apply tlv_bytes_ok; [done|done|unfold len; lia].
  - apply dns_tlvs_bytes, Hc.
  - apply tlv_bytes_ok; [done|repeat constructor; apply flag_of_byte|done].
Qed.

Lemma openack_packet_shape cfg u :
  sconfig_ok cfg → ids_ok (se_key u).1.2 (se_key u).2 → length (u_address (se_user u)) = 4%nat →
  bytes (u_address (se_user u)) →
  let p := openack_packet cfg u in bytes p ∧ 8 ≤ len p ≤ 47 ∧ head p = Some PKT_OPENACK.
Proof.
  intros Hc Hids Ha Hb p. split_and!; [by apply openack_packet_bytes| |..]; subst p.
  - rewrite openack_packet_layout, len_app by done. unfold len at 1.
    rewrite length_openack_header by done. match goal with |- _ ≤ _ + len ?l => pose proof (len_nonneg l) end. lia.
  - apply len_buildOpenAck; [done..|]. eapply Forall_impl; [apply Hc|]. by intros d [? _].
  - by rewrite openack_packet_layout.
Qed.

Section handshake.
Context `{OS, TunBackend}.

(** The client's side: an OPENACK of the server establishes the session it describes, unless
    the interface cannot be configured. *)
Lemma openack_client cfg scfg u w :
  cfg_ok cfg → sconfig_ok scfg → ids_ok (se_key u).1.2 (se_key u).2 →
  length (u_address (se_user u)) = 4%nat → bytes (u_address (se_user u)) →
  be_decode (u_address (se_user u)) ≠ 0 → is_u16 (se_mtu u) →
  c_state (w_c w) = STATE_AUTH_SENT →
  let p := openack_packet scfg u in
  ∃ r w', handle_openack cfg p (len p) w = Some (r, w') ∧
    (r = 1 ∧ c_state (w_c w') = STATE_ESTABLISHED ∧
     le_encode 2 (c_session_token (w_c w')) = (se_key u).1.2 ∧
     le_encode 4 (c_session_id (w_c w')) = (se_key u).2 ∧
     c_encrypt (w_c w') = flag_of (se_encrypt u) ∧ c_xor_key (w_c w') = c_xor_key (w_c w) ∧
     c_peer_ip (w_c w') = be_decode (u_address (se_user u)) ∧ c_server_mtu (w_c w') = se_mtu u ∨
     r = 0 ∧ c_state (w_c w') = STATE_CLOSED ∧
     ∃ c tr tr', configure cfg c tr = (false, tr')).
Proof.
  intros Hcfg Hc Hids Ha Hb Hip Hm Hs p.
  pose proof (openack_packet_bytes scfg u Hc Hids Ha Hb) as Hbytes. fold p in Hbytes.
  destruct (wp_run _ _ _ (wp_handle_openack cfg p w _ Hcfg Hbytes (λ r w' H, H)))
    as (r & w' & E & Hack). exists r, w'. split; [exact E|]. clear E.
  pose proof (openack_packet_layout scfg u Hc Hids Ha) as Hp. fold p in Hp.
  destruct (openack_fields_go (w_c w) (openack_header u ++ signature (openack_header u)) (se_mtu u)
    (u_address (se_user u)) (s_dns scfg) (se_encrypt u)) as (d0 & d1 & Hf); try done.
  { by apply length_openack_header. }
  { apply Hc. }
  rewrite <-Hp in Hf.
  assert (pkt_verify p (len p) = Some true) as Hv.
  { rewrite Hp, <-app_assoc. rewrite Hp, <-app_assoc in Hbytes. apply Forall_app in Hbytes as [Hb1 Hb2].
    apply Forall_app in Hb2 as [_ Hb2]. apply pkt_verify_signed; [done|by apply length_go_header|done]. }
  destruct Hack as [Hn|_ _ Hn|now tr ok tr' r script _ _ _ Hnow c Hconf Hres].
  - exfalso. destruct Hn; congruence.
  - exfalso. by rewrite Hf in Hn.
  - destruct ok; destruct Hres as [Hres ->]; [left|right].
    + unfold c. rewrite Hf. cbn [w_c]. clear Hres Hconf c. unfold established.
      destruct Hids as (Ht & Hsid & Htb & Hsb).
      assert (take 2 (drop 2 p) = (se_key u).1.2) as Htok
        by (rewrite Hp; unfold openack_header, go_header; rewrite <-!app_assoc;
            cbn [drop app]; rewrite ?drop_0; by apply take_app_length').
      assert (take 4 (drop 4 p) = (se_key u).2) as Hid.
      { rewrite Hp. unfold openack_header, go_header. rewrite <-!app_assoc, app_assoc.
        rewrite drop_app_length' by (rewrite length_app, Ht; done). by apply take_app_length'. }
      rewrite Htok, Hid. split_and!; try done.
      * transitivity (le_encode 2 (le_decode (se_key u).1.2)); [done|]. rewrite <-Ht. by apply le_encode_decode.
      * transitivity (le_encode 4 (le_decode (se_key u).2)); [done|]. rewrite <-Hsid. by apply le_encode_decode.
    + split_and!; [done|done|eauto].
Qed.

(** The client has the key of the session it asks for. *)
Definition has_key (cfg : config) (c : client) : Prop := derive_xor_key cfg c = Some c.

Lemma has_key_go cfg c :
  cfg_ok cfg → has_key cfg c →
  c_xor_key c = deriveXORKey (c_str (cfg_username cfg)) (c_str (cfg_password cfg)).
Proof.
  intros Hcfg Hk. unfold has_key in Hk. rewrite derive_xor_key_spec in Hk by done.
  injection Hk as Hk. by rewrite <-Hk.
Qed.

(** C12: the handshake.  The OPEN packet of a configured client, sent to a server that has its
    user, is answered with an OPENACK; when the client handles it, the session is the one
    in the server's table: token, identifier, key, address, encryption flag and the smaller
    MTU agree, unless its interface could not be configured and it is CLOSED. *)
Theorem handshake cfg user now remote token sessionID s w :
  server_inv s → cfg_ok cfg → cfg_valid cfg = true → ids_ok token sessionID →
  s_users (sv_config s) !! c_str (cfg_username cfg) = Some user →
  u_password user = c_str (cfg_password cfg) → be_decode (u_address user) ≠ 0 →
  c_state (w_c w) = STATE_AUTH_SENT → has_key cfg (w_c w) →
  ∃ s' p r w',
    handlePacket now (Some (token, sessionID)) remote (open_packet cfg) s =
      Some (s', [WriteToUDP remote p]) ∧ server_inv s' ∧
    handle_openack cfg p (len p) w = Some (r, w') ∧
    (r = 1 ∧ (∃ l u, linked s' remote l u (w_c w') ∧
       c_server_mtu (w_c w') = cfg_mtu cfg `min` s_mtu (sv_config s) ∧
       se_encrypt u = negb (cfg_encrypt cfg =? 0) && u_allowEncrypt user) ∨
     r = 0 ∧ c_state (w_c w') = STATE_CLOSED ∧ ∃ c tr tr', configure cfg c tr = (false, tr')).
Proof.
  intros Hinv Hcfg Hv Hids Hu Hpw Hip Hs Hk.
  pose proof (si_config _ Hinv) as Hc. pose proof (sc_octets _ Hc _ _ Hu) as [Ha Hab].
  pose proof (proj1 (cfg_valid_iff _) Hv) as (_ & _ & _ & _ & Hm & _).
  destruct (open_granted cfg user now remote token sessionID s Hinv Hcfg Hv Hids Hu Hpw)
    as (s' & l & E & Hinv' & Hl & Hh & _).
  set (u := granted (sv_config s) _ _ _ _ _ _) in *.
  assert (is_u16 (se_mtu u)) as Hmtu.
  { cbn [u granted se_mtu client_request r_mtu]. pose proof (sc_mtu _ Hc).
    change MinMTU with 46 in *. change MaxMTU with 1600 in *. unfold is_u. lia. }
  destruct (openack_client cfg (sv_config s) u w) as (r & w' & E' & Hr); try done.
  exists s', (openack_packet (sv_config s) u), r, w'. split_and!; [exact E|done|exact E'|].
  destruct Hr as [(-> & Hst & Htok & Hid & He & Hkey & Hpeer & Hmt)|Hr]; [left|by right].
  split; [done|]. exists l, u. split_and!; [|done..]. split; try done.
  - rewrite Htok, Hid. exact Hl.
  - rewrite Hkey, (has_key_go cfg) by done. cbn [u granted se_user].
    rewrite (sc_key _ Hc _ _ Hu), Hpw. by rewrite (sc_name _ Hc _ _ Hu).
  - rewrite Hpeer. cbn [u granted se_user]. rewrite <-Ha at 1. by apply be_encode_decode.
Qed.
End handshake.

(** ** A refused request *)

Lemma encrypted_password_inj username p1 p2 :
  bytes username → bytes p1 → bytes p2 →
  encrypted_password username p1 = encrypted_password username p2 →
  password_block p1 = password_block p2.
Proof.
  intros Hu H1 H2. unfold encrypted_password.
  pose proof (md5_spec_is_block (magic ++ username)) as Hk.
  rewrite <-!aes_encrypt_block_fips by (done || by apply password_block_is_block).
  intros E. apply (f_equal (λ b, aes_decrypt_block b
    (aes_set_decrypt_key (md5_spec (magic ++ username))))) in E.
  by rewrite !aes_decrypt_encrypt in E by by apply password_block_is_block.
Qed.

(** Only the first sixteen bytes of a password, padded with zeros, are compared; the data key
    is derived from all of it. *)
Lemma password_accepted_iff username p1 p2 :
  bytes username → bytes p1 → bytes p2 →
  passwordMatches username p1 (encrypted_password username p2) = true ↔
  password_block p1 = password_block p2.
Proof.
  intros Hu H1 H2. unfold passwordMatches. rewrite bool_decide_eq_true, encryptedPassword_client. split.
  - intros E. symmetry. exact (encrypted_password_inj _ _ _ Hu H2 H1 E).
  - intros E. unfold encrypted_password. rewrite E. reflexivity.
Qed.

(** Two passwords that are accepted for each other and give different data keys. *)
Example password_prefix_keys :
  let p1 := lit "0123456789abcdef-one" in
  let p2 := lit "0123456789abcdef-two" in
  (passwordMatches (lit "alice") p1 (encrypted_password (lit "alice") p2),
   bool_decide (deriveXORKey (lit "alice") p1 = deriveXORKey (lit "alice") p2)) = (true, false).
Proof. vm_compute. reflexivity. Qed.

(** C18: a client whose password differs from the user's in its first sixteen bytes is refused:
    the server changes nothing and answers OPENREJ, and the client that was waiting closes. *)
Theorem refused cfg user now rnd remote s w :
  server_inv s → cfg_ok cfg → cfg_valid cfg = true →
  s_users (sv_config s) !! c_str (cfg_username cfg) = Some user → bytes (u_password user) →
  password_block (u_password user) ≠ password_block (c_str (cfg_password cfg)) →
  c_state (w_c w) = STATE_AUTH_SENT →
  ∃ p w', handlePacket now rnd remote (open_packet cfg) s = Some (s, [WriteToUDP remote p]) ∧
    handle_openrej p (len p) w = Some ((), w') ∧ head p = Some PKT_OPENREJ ∧
    pkt_verify p (len p) = Some true ∧ c_state (w_c w') = STATE_CLOSED.
Proof.
  intros Hinv Hcfg Hv Hu Hb Hpw Hs. exists buildOpenReject.
  destruct (wp_run _ _ _ (wp_handle_openrej buildOpenReject (len buildOpenReject) w
    (λ _ w', c_state (w_c w') = STATE_CLOSED) ltac:(by rewrite decide_True)))
    as ([] & w' & E & Hc). exists w'. split_and!; [|exact E| |  |done].
  - unfold open_packet, open_header. cbn [app]. change PKT_OPEN with packetOpen.
    rewrite handlePacket_open by (unfold len; cbn [length]; lia). unfold handleOpen.
    pose proof (parseOpenPacket_client cfg Hcfg Hv) as Hp. unfold open_header in Hp.
    cbn [app] in Hp. change PKT_OPEN with packetOpen in Hp. rewrite Hp.
    cbn [mbind option_bind mret res_ret]. cbn [r_username client_request]. rewrite Hu.
    unfold passwordMatches. rewrite bool_decide_eq_false_2; [done|].
    cbn [r_passwordBlock client_request]. rewrite encryptedPassword_client.
    pose proof (sc_name _ (si_config _ Hinv) _ _ Hu) as ->. intros Heq. apply Hpw. symmetry.
    eapply encrypted_password_inj, Heq; [|apply c_str_bytes, Hcfg|done]. apply c_str_bytes, Hcfg.
  - by rewrite buildOpenReject_layout.
  - rewrite buildOpenReject_layout, <-(app_nil_r (signature _)).
    apply pkt_verify_signed; [by apply byte_list_ok|done|done].
Qed.

(** ** Traffic *)

Lemma parseIPv4Packet_len payload ip : parseIPv4Packet payload = mret ip → 20 ≤ len payload.
Proof. unfold parseIPv4Packet. case_match eqn:E; [done|]. by rewrite Z.ltb_ge in E. Qed.

Lemma linked_other s remote l u c :
  server_inv s → linked s remote l u c →
  outboundForAddress s (u_address (se_user u)) = Some (Some (sessionToOutbound u)).
Proof.
  intros Hinv Hlk. unfold outboundForAddress.
  by rewrite (linked_address _ _ _ _ _ Hinv Hlk), (lk_heap _ _ _ _ _ Hlk).
Qed.

(** A client in session writes what the server sends it to its TUN device. *)
Lemma deliver `{OS} c data w :
  c_state (w_c w) = STATE_ESTABLISHED → c_xor_key (w_c w) = c_xor_key c → 0 < len data ≤ 2048 →
  ∃ w', handle_data (data_packet c data) (len (data_packet c data)) w = Some (1, w') ∧
    written (c_tun_fd (w_c w)) (w_t w') = written (c_tun_fd (w_c w)) (w_t w) ++ [data].
Proof.
  intros Hs Hk Hl. set (p := data_packet c data).
  destruct (wp_run _ _ _ (wp_handle_data p w (λ r w', r = 1 ∧
    written (c_tun_fd (w_c w)) (w_t w') = written (c_tun_fd (w_c w)) (w_t w) ++ [data])
    ltac:(cbv zeta; rewrite decide_True by (unfold p; rewrite len_data_packet; split; [done|lia]);
          unfold p; rewrite data_payload_packet by done; split; [done|]; apply written_snoc)))
    as (r & w' & E & -> & Hw). by exists w'.
Qed.

(** What the server does with the IPv4 packet of a client, addressed to a client. *)
Lemma route_to_client s remote l u c source data ip :
  server_inv s → linked s remote l u c →
  parseIPv4Packet data = mret ip → p_destination ip = u_address (se_user u) →
  (s_exit_enabled (sv_config s) = true → p_packet ip = data) →
  (s_exit_enabled (sv_config s) && s_strictSource (sv_config s) = true → p_source ip = o_address source) →
  route_payload source data s = Some (s, [WriteToUDP remote (data_packet c data)]).
Proof.
  intros Hinv Hlk Hp Hd Hex Hsrc. unfold route_payload. rewrite Hp. cbn [mbind option_bind mret res_ret].
  assert ((if s_exit_enabled (sv_config s) then p_packet ip else data) = data) as ->.
  { destruct (s_exit_enabled (sv_config s)); auto. }
  assert (s_exit_enabled (sv_config s) && s_strictSource (sv_config s) &&
    negb (bool_decide (p_source ip = o_address source)) = false) as ->.
  { destruct (s_exit_enabled (sv_config s) && s_strictSource (sv_config s)); [|done].
    cbn [andb]. by rewrite bool_decide_eq_true_2 by auto. }
  rewrite Hd, (linked_other s remote l u c) by done. cbn [mbind option_bind].
  by rewrite (linked_send s remote l u c).
Qed.

(** The server forwards the data packet of a client in session to another one, and keeps
    their sessions. *)
Lemma server_forwards now rnd s remote1 l1 u1 c1 remote2 l2 u2 c2 data ip :
  server_inv s → linked s remote1 l1 u1 c1 → linked s remote2 l2 u2 c2 →
  parseIPv4Packet data = mret ip → p_destination ip = be_encode 4 (c_peer_ip c2) →
  (s_exit_enabled (sv_config s) = true → p_packet ip = data) →
  (s_exit_enabled (sv_config s) && s_strictSource (sv_config s) = true →
    p_source ip = be_encode 4 (c_peer_ip c1)) →
  ∃ s', handlePacket now rnd remote1 (data_packet c1 data) s =
    Some (s', [WriteToUDP remote2 (data_packet c2 data)]) ∧ server_inv s'.
Proof.
  intros Hinv Hlk1 Hlk2 Hp Hd Hex Hsrc.
  pose proof (parseIPv4Packet_len _ _ Hp) as Hl20.
  destruct (touched_linked _ _ _ _ _ l1 u1 now Hlk2 (lk_heap _ _ _ _ _ Hlk1)) as (u2' & Hlk2' & _).
  set (s' := touched _ _ _) in *.
  assert (server_inv s') as Hinv' by (by eapply touched_inv_now). exists s'. split; [|done].
  rewrite (data_packet_go _ _ (se_encrypt u1)), (lk_key _ _ _ _ _ Hlk1) by apply Hlk1.
  rewrite (handlePacket_data now rnd s (key_of remote1 c1) l1 u1) by (apply Hlk1 || done || by intros ->).
  apply (route_to_client s' remote2 l2 u2' c2 _ data ip); try done.
  - by rewrite <-(lk_ip _ _ _ _ _ Hlk2').
  - intros He. cbn [sessionToOutbound o_address]. rewrite <-(lk_ip _ _ _ _ _ Hlk1). auto.
Qed.

(** C13: two clients of the server, end to end: the IPv4 packet one of them reads from its TUN
    device, addressed to the other, is sent, forwarded by the server, and written unchanged
    to the TUN device of the other, whether either session is encrypted or not. *)
Theorem forwarded (os1 os2 : OS) now rnd s w1 w2 remote1 remote2 l1 l2 u1 u2 data ip :
  server_inv s → linked s remote1 l1 u1 (w_c w1) → linked s remote2 l2 u2 (w_c w2) →
  os1 (w_t w1) (SRead (c_tun_fd (w_c w1)) 2040) = Some data → len data ≤ 2040 →
  parseIPv4Packet data = mret ip → p_destination ip = be_encode 4 (c_peer_ip (w_c w2)) →
  (s_exit_enabled (sv_config s) = true → p_packet ip = data) →
  (s_exit_enabled (sv_config s) && s_strictSource (sv_config s) = true →
    p_source ip = be_encode 4 (c_peer_ip (w_c w1))) →
  ∃ p q w1' s' w2',
    handle_tun_recv (H := os1) w1 = Some ((), w1') ∧
    (∃ fd addr port r tr, w_t w1' = Ev (SSendto fd addr port p) r :: tr) ∧
    handlePacket now rnd remote1 p s = Some (s', [WriteToUDP remote2 q]) ∧ server_inv s' ∧
    handle_data (H := os2) q (len q) w2 = Some (1, w2') ∧
    written (c_tun_fd (w_c w2)) (w_t w2') = written (c_tun_fd (w_c w2)) (w_t w2) ++ [data].
Proof.
  intros Hinv Hlk1 Hlk2 Hr Hl Hp Hd Hex Hsrc.
  pose proof (parseIPv4Packet_len _ _ Hp) as Hl20.
  assert (data ≠ []) as Hne by (intros ->; done).
  destruct (server_forwards now rnd s remote1 l1 u1 (w_c w1) remote2 l2 u2 (w_c w2) data ip) as (s' & E & Hinv'); try done.
  destruct (deliver (H := os2) (w_c w2) data w2) as (w2' & E2 & Hw); [apply Hlk2|done|lia|].
  destruct (wp_run _ _ _ (wp_handle_tun_recv (H := os1) w1 (λ _ w', ∃ fd addr port r tr,
    w_t w' = Ev (SSendto fd addr port (data_packet (w_c w1) data)) r :: tr)
    ltac:(cbv zeta; unfold os; rewrite Hr, decide_True by (split; [done|apply Hlk1]); eauto 10)))
    as ([] & w1' & E1 & Hsent).
  by exists (data_packet (w_c w1) data), (data_packet (w_c w2) data), w1', s', w2'.
Qed.

(** An IPv4 packet that the exit device delivers for the address of a client comes out of
    that client's TUN device, cut to the length its header declares. *)
Theorem exit_to_client `{OS} s w remote l u data ip :
  server_inv s → linked s remote l u (w_c w) →
  parseIPv4Packet data = mret ip → p_destination ip = be_encode 4 (c_peer_ip (w_c w)) →
  len data ≤ MaxMTU →
  ∃ q w', handleExitPacket data s = Some (s, [WriteToUDP remote q]) ∧
    handle_data q (len q) w = Some (1, w') ∧
    written (c_tun_fd (w_c w)) (w_t w') = written (c_tun_fd (w_c w)) (w_t w) ++ [p_packet ip].
Proof.
  intros Hinv Hlk Hp Hd Hl. change MaxMTU with 1600 in Hl.
  assert (0 < len (p_packet ip) ≤ len data) as Hlp by (by apply parseIPv4Packet_packet).
  destruct (deliver (w_c w) (p_packet ip) w) as (w' & E & Hw); [apply Hlk|done|lia|].
  exists (data_packet (w_c w) (p_packet ip)), w'. split_and!; [|done|done].
  unfold handleExitPacket. rewrite Hp. cbn [mbind option_bind mret res_ret].
  rewrite Hd, (lk_ip _ _ _ _ _ Hlk), (linked_other s remote l u (w_c w)) by done.
  cbn [mbind option_bind]. by rewrite (linked_send s remote l u (w_c w)).
Qed.

(** ** Keep-alive and closing *)

Lemma buildEchoResp_client c payload :
  buildEchoResp (le_encode 2 (c_session_token c)) (le_encode 4 (c_session_id c)) payload =
  signed_header PKT_ECHORESP c ++ payload.
Proof.
  rewrite buildEchoResp_layout by apply client_ids_ok. unfold signed_header.
  by rewrite session_header_go, <-app_assoc.
Qed.

(** C19: keep-alive.  The ECHO_REQ that a client in session builds is answered by the server,
    which records that the client is alive; and the client that handles the answer measures
    the time from its own clock since it built the request. *)
Theorem keepalive `{OS} now rnd s remote l u w1 w2 :
  server_inv s → linked s remote l u (w_c w1) → c_state (w_c w2) = STATE_ESTABLISHED →
  let t1 := os (w_t w1) SClock in
  let t2 := os (w_t w2) SClock in
  let delay := u32 (u64 (t2.1 * 1000000 + t2.2 / 1000) - u64 (t1.1 * 1000000 + t1.2 / 1000)) in
  ∃ p n w1' s' q w2',
    build_echo_req MAX_PKT_SIZE w1 = Some ((p, n), w1') ∧ n = len p ∧
    handlePacket now rnd remote p s = Some (s', [WriteToUDP remote q]) ∧
    server_inv s' ∧ se_lastSeen <$> (sv_heap s' !! l) = Some now ∧
    handle_echo_resp q (len q) w2 = Some (1, w2') ∧
    c_cur_delay (w_c w2') = delay.
Proof.
  intros Hinv Hlk Hs t1 t2 delay.
  destruct (wp_run _ _ _ (wp_build_echo_req MAX_PKT_SIZE w1 (λ r w', r =
    (signed_header PKT_ECHOREQ (w_c w1) ++ echo_payload (u64 (t1.1 * 1000000 + t1.2 / 1000)) (w_c w1), 60))
    ltac:(done) ltac:(done))) as (r & w1' & E1 & ->).
  destruct (echo_roundtrip (w_c w1) (u64 (t1.1 * 1000000 + t1.2 / 1000)) w2 Hs ltac:(apply u64_is))
    as (w2' & E2 & Hd & _).
  set (now1 := u64 (t1.1 * _ + _)) in *.
  exists (signed_header PKT_ECHOREQ (w_c w1) ++ echo_payload now1 (w_c w1)), 60, w1',
    (touched s l (u <| se_lastSeen := now |>)),
    (signed_header PKT_ECHORESP (w_c w1) ++ echo_payload now1 (w_c w1)), w2'.
  split_and!; [exact E1|by rewrite len_app, len_signed_header, len_echo_payload| | | |exact E2|exact Hd].
  - unfold signed_header. rewrite session_header_go, <-app_assoc.
    rewrite (handlePacket_echo now rnd s (key_of remote (w_c w1)) l u) by (apply Hlk || done).
    cbn [fst snd]. by rewrite buildEchoResp_client.
  - by eapply touched_inv_now.
  - cbn [touched sv_heap]. by rewrite lookup_insert_eq.
Qed.

(** Leaving.  The CLOSE a client in session sends ends its session on the server: neither
    map has it any more, and every other session stays. *)
Theorem leaving `{OS} now rnd s remote l u w :
  server_inv s → linked s remote l u (w_c w) → 0 ≤ c_udp_fd (w_c w) →
  ∃ fd addr port p r w' s',
    send_close w = Some ((), w') ∧ w_t w' = Ev (SSendto fd addr port p) r :: w_t w ∧
    handlePacket now rnd remote p s = Some (s', []) ∧ server_inv s' ∧
    sv_sessions s' = delete (key_of remote (w_c w)) (sv_sessions s) ∧
    sv_byAddress s' = delete (be_encode 4 (c_peer_ip (w_c w))) (sv_byAddress s).
Proof.
  intros Hinv Hlk Hfd.
  destruct (wp_run _ _ _ (wp_send_close w (λ _ w', ∃ r, w_t w' =
    Ev (SSendto (c_udp_fd (w_c w)) (c_server_addr (w_c w)) (c_server_port (w_c w))
         (signed_header PKT_CLOSE (w_c w))) r :: w_t w)
    ltac:(cbv zeta; rewrite bool_decide_eq_true_2 by (split; [apply Hlk|done]); eauto)))
    as ([] & w' & E & r & Ht).
  destruct (handlePacket_close now rnd s (key_of remote (w_c w)) l u Hinv
    (lk_session _ _ _ _ _ Hlk) (lk_heap _ _ _ _ _ Hlk)) as [Ec Hinv'].
  do 5 eexists. exists w', (without s (key_of remote (w_c w)) u).
  split_and!; [exact E|exact Ht|exact Ec|exact Hinv'|done|].
  cbn [without sv_byAddress]. by rewrite (lk_ip _ _ _ _ _ Hlk).
Qed.

(** ** Witnesses

    A server with a session for each of its two users. *)

Definition peer_remote : udp_addr := (0x0a000002, 40001).
Definition sample_session (k : session_key) (user : configuredUser) : user_session :=
  mk_session k user k.1.1 true 1400 0 0.
Abbreviation key1 := (sample_remote, [1; 2], [3; 4; 5; 6]).
Abbreviation key2 := (peer_remote, [7; 8], [9; 10; 11; 12]).
Definition one_session : server :=
  with_session (newServer sample_sconfig) key1 (sample_session key1 sample_user).
Definition two_sessions : server :=
  with_session one_session key2 (sample_session key2 sample_peer).

Lemma one_session_inv : server_inv one_session.
Proof.
  apply with_session_inv; try done; [by apply newServer_inv, sample_sconfig_ok|exact sample_ids_ok].
Qed.

Lemma two_sessions_inv : server_inv two_sessions.
Proof.
  apply with_session_inv; try done; [exact one_session_inv| |].
  - split_and!; try done; by apply byte_list_ok.
  - intros k l c Hk Hc. unfold one_session in Hk, Hc. cbn [with_session newServer sv_sessions sv_heap sv_next] in Hk, Hc.
    apply lookup_insert_Some in Hk as [[_ <-]|[_ Hk]]; [|by rewrite lookup_empty in Hk].
    rewrite lookup_insert_eq in Hc. injection Hc as <-. intros [H|H]; done.
Qed.

Definition sample_client (k : session_key) (user : configuredUser) : client :=
  client_init <| c_state := STATE_ESTABLISHED |> <| c_session_token := le_decode k.1.2 |>
    <| c_session_id := le_decode k.2 |> <| c_encrypt := 1 |> <| c_xor_key := u_xorKey user |>
    <| c_peer_ip := be_decode (u_address user) |> <| c_udp_fd := 4 |> <| c_tun_fd := 5 |>.
Abbreviation client1 := (sample_client key1 sample_user).
Abbreviation client2 := (sample_client key2 sample_peer).

Lemma client1_linked : linked two_sessions sample_remote 0 (sample_session key1 sample_user) client1.
Proof. by split. Qed.
Lemma client2_linked : linked two_sessions peer_remote 1 (sample_session key2 sample_peer) client2.
Proof. by split. Qed.

(** An IPv4 packet from the first client to the second. *)
Definition sample_ip : list Z :=
  [0x45; 0; 0; 21; 0; 0; 0; 0; 64; 17; 0; 0; 10; 0; 0; 2; 10; 0; 0; 3; 42].
Definition sample_parsed : ipv4Packet := mk_ipv4 sample_ip [10; 0; 0; 2] [10; 0; 0; 3].

Definition waiting_client : client :=
  waiting <| c_xor_key := deriveXORKey (c_str (cfg_username sample_cfg)) (c_str (cfg_password sample_cfg)) |>.

Lemma handshake_witness :
  ∃ s' p r w',
    handlePacket 0 (Some ([1; 2], [3; 4; 5; 6])) sample_remote (open_packet sample_cfg)
      (newServer sample_sconfig) = Some (s', [WriteToUDP sample_remote p]) ∧
    handle_openack (H := still_os) (H0 := @Linux.backend still_os) sample_cfg p (len p)
      (mk_world waiting_client []) = Some (r, w').
Proof.
  destruct (handshake (H := still_os) (H0 := @Linux.backend still_os) sample_cfg sample_user 0
    sample_remote [1; 2] [3; 4; 5; 6] (newServer sample_sconfig) (mk_world waiting_client []))
    as (s' & p & r & w' & E & _ & E' & _).
  - exact (newServer_inv _ sample_sconfig_ok).
  - exact sample_cfg_ok.
  - vm_compute. reflexivity.
  - exact sample_ids_ok.
  - vm_compute. reflexivity.
  - reflexivity.
  - vm_compute. discriminate.
  - reflexivity.
  - unfold has_key. rewrite derive_xor_key_spec by exact sample_cfg_ok. reflexivity.
  - exists s', p, r, w'. exact (conj E E').
Defined.

(** On a system where every call succeeds, it ends in session. *)
Example handshake_established :
  match handlePacket 0 (Some ([1; 2], [3; 4; 5; 6])) sample_remote (open_packet sample_cfg)
          (newServer sample_sconfig) with
  | Some (s', [WriteToUDP _ p]) =>
      match handle_openack (H := still_os) (H0 := @Linux.backend still_os) sample_cfg p (len p)
              (mk_world waiting_client []) with
      | Some (r, w') => (r, c_state (w_c w'), c_peer_ip (w_c w'), c_encrypt (w_c w'))
      | None => (-1, 0, 0, 0)
      end
  | _ => (-2, 0, 0, 0)
  end = (1, STATE_ESTABLISHED, 0x0a000002, 1).
Proof. vm_compute. reflexivity. Qed.

Definition wrong_cfg : config := sample_cfg <| cfg_password := buf_of 32 (lit "Secret") |>.

Lemma with_password_ok cfg pw : cfg_ok cfg → is_cbuf 32 pw → cfg_ok (cfg <| cfg_password := pw |>).
Proof. destruct cfg. by intros [] Hpw; split. Qed.

Lemma wrong_cfg_ok : cfg_ok wrong_cfg.
Proof.
  apply with_password_ok; [exact sample_cfg_ok|]. refine (bool_decide_unpack _ _). vm_compute. exact I.
Qed.

Lemma refused_witness :
  ∃ p w', handlePacket 0 None sample_remote (open_packet wrong_cfg) (newServer sample_sconfig) =
            Some (newServer sample_sconfig, [WriteToUDP sample_remote p]) ∧
    handle_openrej p (len p) (mk_world waiting_client []) = Some ((), w') ∧ head p = Some PKT_OPENREJ ∧
    pkt_verify p (len p) = Some true ∧ c_state (w_c w') = STATE_CLOSED.
Proof.
  apply (refused wrong_cfg sample_user 0 None sample_remote (newServer sample_sconfig)
    (mk_world waiting_client [])).
  - exact (newServer_inv _ sample_sconfig_ok).
  - exact wrong_cfg_ok.
  - vm_compute. reflexivity.
  - vm_compute. reflexivity.
  - apply byte_list_ok. vm_compute. reflexivity.
  - vm_compute. discriminate.
  - reflexivity.
Defined.

Lemma forwarded_witness :
  ∃ p q w1' s' w2',
    handle_tun_recv (H := feeding_os sample_ip ([], 0, 0)) (mk_world client1 []) = Some ((), w1') ∧
    (∃ fd addr port r tr, w_t w1' = Ev (SSendto fd addr port p) r :: tr) ∧
    handlePacket 0 None sample_remote p two_sessions = Some (s', [WriteToUDP peer_remote q]) ∧
    server_inv s' ∧
    handle_data (H := still_os) q (len q) (mk_world client2 []) = Some (1, w2') ∧
    written 5 (w_t w2') = written 5 [] ++ [sample_ip].
Proof.
  apply (forwarded (feeding_os sample_ip ([], 0, 0)) still_os 0 None two_sessions (mk_world client1 [])
    (mk_world client2 []) sample_remote peer_remote 0 1 (sample_session key1 sample_user)
    (sample_session key2 sample_peer) sample_ip sample_parsed).
  - exact two_sessions_inv.
  - exact client1_linked.
  - exact client2_linked.
  - reflexivity.
  - vm_compute. discriminate.
  - reflexivity.
  - reflexivity.
  - vm_compute. discriminate.
  - vm_compute. discriminate.
Defined.

Lemma exit_to_client_witness :
  ∃ q w', handleExitPacket sample_ip two_sessions = Some (two_sessions, [WriteToUDP peer_remote q]) ∧
    handle_data (H := still_os) q (len q) (mk_world client2 []) = Some (1, w') ∧
    written 5 (w_t w') = written 5 [] ++ [sample_ip].
Proof.
  apply (exit_to_client (H := still_os) two_sessions (mk_world client2 []) peer_remote 1
    (sample_session key2 sample_peer) sample_ip sample_parsed).
  - exact two_sessions_inv.
  - exact client2_linked.
  - reflexivity.
  - reflexivity.
  - vm_compute. discriminate.
Defined.

Lemma keepalive_witness :
  ∃ p n w1' s' q w2',
    build_echo_req (H := still_os) MAX_PKT_SIZE (mk_world client1 []) = Some ((p, n), w1') ∧ n = len p ∧
    handlePacket 7 None sample_remote p two_sessions = Some (s', [WriteToUDP sample_remote q]) ∧
    server_inv s' ∧ se_lastSeen <$> (sv_heap s' !! 0%nat) = Some 7 ∧
    handle_echo_resp (H := still_os) q (len q) (mk_world client1 []) = Some (1, w2') ∧
    c_cur_delay (w_c w2') = 0.
Proof.
  apply (keepalive (H := still_os) 7 None two_sessions sample_remote 0 (sample_session key1 sample_user)
    (mk_world client1 []) (mk_world client1 [])).
  - exact two_sessions_inv.
  - exact client1_linked.
  - reflexivity.
Defined.

Lemma leaving_witness :
  ∃ fd addr port p r w' s',
    send_close (H := still_os) (mk_world client1 []) = Some ((), w') ∧
    w_t w' = [Ev (SSendto fd addr port p) r] ∧
    handlePacket 0 None sample_remote p two_sessions = Some (s', []) ∧ server_inv s' ∧
    sv_sessions s' = delete key1 (sv_sessions two_sessions) ∧
    sv_byAddress s' = delete [10; 0; 0; 2] (sv_byAddress two_sessions).
Proof.
  apply (leaving (H := still_os) 0 None two_sessions sample_remote 0 (sample_session key1 sample_user)
    (mk_world client1 [])).
  - exact two_sessions_inv.
  - exact client1_linked.
  - vm_compute. discriminate.
Defined.
