(* ===== verification/Forgery.v ===== *)
(** What the address of the server is worth: nothing in the protocol of [src/src/iwand.c]
    authenticates the server but the source of its datagrams.  Whoever can forge it, without
    the password of the account, its key, or any session identifier, can start a session,
    end it, and have the client write packets to its TUN device, even when the session is
    encrypted.  The theorems of [Network] assume that nobody does. *)
From stdpp Require Import gmap.
From S2P Require Import Prelude Libc Md5 Aes Client Config Os Tun TunLinux CMonad Packet OpenAck Frag.
From S2P Require Import Protocol Server Recv Machine Main Interop.

#[local] Opaque md5_spec signature.

Section forgery.
Context `{TunOk}.
Variable (cfg : config).

(** Dispatching a packet of known type. *)
Ltac dispatch :=
  intros Hl HQ; unfold handle_recv; wp_step; [rewrite Z.ltb_lt in *; change HDR_SIZE with 8 in *; lia|];
  wp_step; eapply wp_mem; [reflexivity|]; do 2 wp_step; fold refresh; exact HQ.

Lemma wp_forged_data rest w Q :
  8 ≤ len (PKT_DATA :: rest) →
  wp (r ← handle_data (PKT_DATA :: rest) (len (PKT_DATA :: rest)); refresh r) (received w) Q →
  wp (handle_recv cfg (PKT_DATA :: rest) (len (PKT_DATA :: rest))) w Q.
Proof. dispatch. Qed.
Lemma wp_forged_close rest w Q :
  8 ≤ len (PKT_CLOSE :: rest) →
  wp (r ← handle_close (PKT_CLOSE :: rest) (len (PKT_CLOSE :: rest)); refresh r) (received w) Q →
  wp (handle_recv cfg (PKT_CLOSE :: rest) (len (PKT_CLOSE :: rest))) w Q.
Proof. dispatch. Qed.
Lemma wp_forged_openack rest w Q :
  8 ≤ len (PKT_OPENACK :: rest) →
  wp (r ← handle_openack cfg (PKT_OPENACK :: rest) (len (PKT_OPENACK :: rest)); refresh r) (received w) Q →
  wp (handle_recv cfg (PKT_OPENACK :: rest) (len (PKT_OPENACK :: rest))) w Q.
Proof. dispatch. Qed.

Lemma refresh_keeps r w :
  wp (refresh r) w (λ _ w', c_state (w_c w') = c_state (w_c w) ∧ c_peer_ip (w_c w') = c_peer_ip (w_c w) ∧
    ∀ fd, written fd (w_t w') = written fd (w_t w)).
Proof. unfold refresh. destruct (r =? 0); cbn [negb when]; [by wp_step|]. by do 3 wp_step. Qed.

(** Any data, in any session: the rest of the header is not looked at. *)
Theorem forged_data h d w :
  c_state (w_c w) = STATE_ESTABLISHED → length h = 7%nat → 0 < len d ≤ 2048 →
  let p := PKT_DATA :: h ++ d in
  ∃ w', handle_recv cfg p (len p) w = Some ((), w') ∧
    written (c_tun_fd (w_c w)) (w_t w') = written (c_tun_fd (w_c w)) (w_t w) ++ [d].
Proof.
  intros Hs Hh Hd p. assert (len p = 8 + len d) as Hl.
  { unfold p, len. cbn [length]. rewrite length_app, Hh. lia. }
  enough (wp (handle_recv cfg p (len p)) w (λ _ w',
    written (c_tun_fd (w_c w)) (w_t w') = written (c_tun_fd (w_c w)) (w_t w) ++ [d])) as Hwp.
  { by apply wp_run in Hwp as ([] & w' & E & Hw); exists w'. }
  apply wp_forged_data; [fold p; lia|]. fold p. wp_step. apply wp_handle_data. cbv zeta.
  rewrite decide_True by (split; [exact Hs|lia]).
  assert (data_payload (w_c (received w)) p = d) as ->.
  { unfold data_payload. rewrite decide_False by done. unfold p. cbn [drop]. by rewrite drop_app_length'. }
  eapply wp_mono; [apply refresh_keeps|]. intros _ w' (_ & _ & ->). cbn [w_t].
  apply (written_snoc (c_tun_fd (w_c w))).
Qed.

(** A CLOSE of no session ends any session. *)
Theorem forged_close h w :
  c_state (w_c w) = STATE_ESTABLISHED → length h = 7%nat → bytes h →
  let hdr := PKT_CLOSE :: h in let p := hdr ++ signature hdr in
  ∃ w', handle_recv cfg p (len p) w = Some ((), w') ∧ c_state (w_c w') = STATE_CLOSED.
Proof.
  intros Hs Hh Hb hdr p. assert (bytes hdr) as Hbh by (constructor; [by split|done]).
  enough (wp (handle_recv cfg p (len p)) w (λ _ w', c_state (w_c w') = STATE_CLOSED)) as Hwp.
  { by apply wp_run in Hwp as ([] & w' & E & Hw); exists w'. }
  assert (8 ≤ len p) as Hl.
  { unfold p, hdr, len. rewrite length_app. cbn [length]. rewrite Hh. lia. }
  apply (wp_forged_close (h ++ signature hdr)); [exact Hl|]. change (PKT_CLOSE :: h ++ signature hdr) with p.
  wp_step. apply wp_handle_close; [unfold p; rewrite Forall_app; auto using signature_bytes|].
  rewrite decide_True.
  2:{ split; [exact Hs|]. unfold p. rewrite <-(app_nil_r (signature hdr)).
      apply pkt_verify_signed; [done|unfold hdr; cbn [length]; by rewrite Hh|done]. }
  eapply wp_mono; [apply refresh_keeps|]. by intros _ w' (-> & _).
Qed.

(** An OPENACK that no server has built gives a client that waits for one the session and the
    address of the forger's choice (unless the interface cannot be configured). *)
Theorem forged_openack scfg u w :
  cfg_ok cfg → sconfig_ok scfg → ids_ok (se_key u).1.2 (se_key u).2 →
  length (u_address (se_user u)) = 4%nat → bytes (u_address (se_user u)) →
  be_decode (u_address (se_user u)) ≠ 0 → is_u16 (se_mtu u) →
  c_state (w_c w) = STATE_AUTH_SENT →
  let p := openack_packet scfg u in
  ∃ w', handle_recv cfg p (len p) w = Some ((), w') ∧
    (c_state (w_c w') = STATE_ESTABLISHED ∧ c_peer_ip (w_c w') = be_decode (u_address (se_user u)) ∨
     c_state (w_c w') = STATE_CLOSED).
Proof.
  intros Hcfg Hsc Hids Ha Hb Hip Hm Hs p.
  destruct (openack_packet_shape scfg u Hsc Hids Ha Hb) as (_ & [Hl _] & Hh). fold p in Hl, Hh.
  destruct (openack_client cfg scfg u (received w) Hcfg Hsc Hids Ha Hb Hip Hm Hs) as (r & w1 & E & Hr). fold p in E.
  enough (wp (handle_recv cfg p (len p)) w (λ _ w',
    c_state (w_c w') = STATE_ESTABLISHED ∧ c_peer_ip (w_c w') = be_decode (u_address (se_user u)) ∨
    c_state (w_c w') = STATE_CLOSED)) as Hwp.
  { by apply wp_run in Hwp as ([] & w' & E' & Hw); exists w'. }
  clearbody p. destruct p as [|ty rest]; [done|]. injection Hh as ->. apply wp_forged_openack; [done|].
  wp_step. unfold wp at 1. rewrite E. eapply wp_mono; [apply refresh_keeps|].
  intros _ w' (Es & Ei & _). rewrite Es, Ei. destruct Hr as [(_ & ? & _ & _ & _ & _ & ? & _)|(_ & ? & _)]; auto.
Qed.
End forgery.
