(* ===== verification/Traffic.v ===== *)
(** What a client sends and what it writes to its TUN device, as a function of what it
    receives: each client of [src/iwand.c] as a component of the network of [Network].

    The client is described by what it assumes of its environment ([env_ok]: what the
    datagrams from the server's address are, what its device delivers) and what it guarantees
    ([emits]: the packets it sends, the data it writes), along with the invariant of its
    session ([client_inv]). *)
From stdpp Require Import gmap.
From S2P Require Import Prelude Libc Md5 Aes Client Config Os Tun TunLinux CMonad Packet OpenAck Frag.
From S2P Require Import Protocol Server Recv Machine Main Interop.

#[local] Opaque md5_spec fips_cipher aes_encrypt_block aes_decrypt_block aes_set_encrypt_key
  aes_set_decrypt_key signature build_open_pkt Md5.md5_hash client_init.

(** ** The packets of the two ends *)

(** Whether the session of a client is encrypted. *)
Definition encrypts (cfg : config) (user : configuredUser) : bool :=
  negb (cfg_encrypt cfg =? 0) && u_allowEncrypt user.

(** What a session of this client is like. *)
Record session_of_user (cfg : config) (user : configuredUser) (u : user_session) : Prop := {
  su_ids : ids_ok (se_key u).1.2 (se_key u).2;
  su_user : se_user u = user;
  su_encrypt : se_encrypt u = encrypts cfg user;
  su_mtu : is_u16 (se_mtu u)
}.

(** The session that the client's request gets is. *)
Lemma session_granted scfg cfg user now remote token sessionID :
  sconfig_ok scfg → cfg_valid cfg = true → ids_ok token sessionID →
  session_of_user cfg user (granted scfg (client_request cfg) user now remote token sessionID).
Proof.
  intros Hsc Hv Hids. split; [exact Hids|done|done|]. pose proof (sc_mtu _ Hsc).
  apply cfg_valid_iff in Hv as (_ & _ & _ & _ & Hmtu & _).
  cbn [granted se_mtu client_request r_mtu]. change MinMTU with 46 in *. change MaxMTU with 1600 in *.
  unfold is_u. lia.
Qed.

(** What the server sends to this client, when it forwards data that satisfy [P]. *)
Inductive server_packet (scfg : normalizedConfig) (cfg : config) (user : configuredUser)
  (P : list Z → Prop) : list Z → Prop :=
  | server_openack u :
      session_of_user cfg user u → server_packet scfg cfg user P (openack_packet scfg u)
  | server_openrej : server_packet scfg cfg user P buildOpenReject
  | server_echo token sessionID payload :
      ids_ok token sessionID →
      server_packet scfg cfg user P (buildEchoResp token sessionID payload)
  | server_data token sessionID data :
      ids_ok token sessionID → P data →
      server_packet scfg cfg user P
        (buildDataPacket token sessionID data (encrypts cfg user) (u_xorKey user)).

(** What this client sends, when its device delivers data that satisfy [D]. *)
Inductive client_packet (cfg : config) (user : configuredUser) (D : list Z → Prop)
  : list Z → Prop :=
  | client_open : client_packet cfg user D (open_packet cfg)
  | client_echo token sessionID payload :
      ids_ok token sessionID →
      let hdr := go_header packetEchoReq 0 token sessionID in
      client_packet cfg user D (hdr ++ signature hdr ++ payload)
  | client_close token sessionID :
      ids_ok token sessionID →
      let hdr := go_header packetClose 0 token sessionID in
      client_packet cfg user D (hdr ++ signature hdr)
  | client_data token sessionID data :
      ids_ok token sessionID → D data → data ≠ [] →
      client_packet cfg user D
        (buildDataPacket token sessionID data (encrypts cfg user) (u_xorKey user)).

Lemma client_packet_mono cfg user (D D' : list Z → Prop) p :
  (∀ d, D d → D' d) → client_packet cfg user D p → client_packet cfg user D' p.
Proof. intros HD []; [constructor|by apply client_echo|by apply client_close|apply client_data; auto]. Qed.

Lemma server_packet_mono scfg cfg user (P P' : list Z → Prop) p :
  (∀ d, P d → P' d) → server_packet scfg cfg user P p → server_packet scfg cfg user P' p.
Proof.
  intros HP []; [by apply server_openack|constructor|by apply server_echo|apply server_data; auto].
Qed.

(** The client decrypts what the server encrypted, by the type of the packet. *)
Lemma data_payload_go c token sessionID data e :
  ids_ok token sessionID →
  data_payload c (buildDataPacket token sessionID data e (c_xor_key c)) = data.
Proof.
  intros Hids. rewrite buildDataPacket_layout by done.
  pose proof (length_go_header (if e then packetDataEnc else packetData) (flag_of e) _ _ Hids) as Hl.
  unfold data_payload. rewrite drop_app_length' by done. destruct e; cbn [go_header app head].
  - rewrite decide_True by done. apply xor_bytes_twice.
  - by rewrite decide_False.
Qed.

(** ** Events *)

Section client.
Variables (SA : Z) (scfg : normalizedConfig) (cfg : config) (user : configuredUser).
(** [R]: a datagram has been sent to this client by the server.  [P]: data the server forwards.
    [D]: data the client's device delivers. *)
Variables (R P D : list Z → Prop).

(** What the environment guarantees of one event: datagrams from the server's address are
    the server's, its name resolves to its address. *)
Definition env_ok (ev : event) : Prop :=
  match ev with
  | Ev (SRecvfrom _ _) (Some (p, addr, port)) => addr = SA → port = cfg_port cfg → R p
  | Ev (SGetaddrinfo _) (Some a) => a = SA
  | Ev (SRead _ _) (Some d) => D d
  | _ => True
  end.

(** What the client guarantees: it sends its packets, and writes only data the server
    forwarded. *)
Definition emits (ev : event) : Prop :=
  match ev with
  | Ev (SSendto _ _ _ p) _ => client_packet cfg user D p
  | Ev (SWrite _ d) _ => P d
  | _ => True
  end.

(** A session the server granted. *)
Definition in_session (c : client) : Prop :=
  ∃ u, session_of_user cfg user u ∧ R (openack_packet scfg u) ∧
    le_encode 2 (c_session_token c) = (se_key u).1.2 ∧ le_encode 4 (c_session_id c) = (se_key u).2 ∧
    c_encrypt c = flag_of (encrypts cfg user) ∧ c_peer_ip c = be_decode (u_address user).

Record client_inv (c : client) : Prop := {
  ci_key : c_xor_key c = u_xorKey user;
  ci_port : c_server_port c = cfg_port cfg;
  ci_addr : c_server_addr c = SA ∨ c_state c = STATE_DNS_NEEDED ∧ c_str (c_server_domain c) ≠ [];
  ci_session : c_state c = STATE_ESTABLISHED → in_session c
}.

(** [w'] continues [w]: while the environment keeps its side, the client keeps its own. *)
Definition obeys (w w' : world) : Prop :=
  ∃ new, w_t w' = new ++ w_t w ∧
    (Forall env_ok new → client_inv (w_c w) → client_inv (w_c w') ∧ Forall emits new).

#[export] Instance obeys_preorder : PreOrder obeys.
Proof.
  split; [intros w; by exists []|].
  intros w1 w2 w3 (n1 & E1 & H1) (n2 & E2 & H2). exists (n2 ++ n1).
  split; [by rewrite E2, E1, app_assoc|]. rewrite !Forall_app. intros [Hn2 Hn1] Hc.
  destruct (H1 Hn1 Hc) as [Hc2 He1]. destruct (H2 Hn2 Hc2). auto.
Qed.

Lemma quiet_emits new : Forall quiet new → Forall emits new.
Proof. intros Hn. eapply Forall_impl; [exact Hn|]. intros [s r]. by destruct s. Qed.
Lemma quiet_env new : Forall quiet new → Forall env_ok new.
Proof. intros Hn. eapply Forall_impl; [exact Hn|]. intros [s r]. by destruct s. Qed.

(** Calls that emit nothing, with an update that the invariant does not notice. *)
Lemma obeys_quiet w w' new :
  w_t w' = new ++ w_t w → Forall quiet new → (client_inv (w_c w) → client_inv (w_c w')) → obeys w w'.
Proof. intros E Hn Hc. exists new. split; [done|]. auto using quiet_emits. Qed.

Lemma obeys_event w c' ev :
  (env_ok ev → client_inv (w_c w) → client_inv c' ∧ emits ev) → obeys w (mk_world c' (ev :: w_t w)).
Proof.
  intros Hev. exists [ev]. split; [done|]. rewrite Forall_singleton. intros He Hc.
  destruct (Hev He Hc). auto.
Qed.

Lemma obeys_update w c' : (client_inv (w_c w) → client_inv c') → obeys w (mk_world c' (w_t w)).
Proof. intros Hc. by apply (obeys_quiet _ _ []). Qed.

(** Updates of fields that the invariant does not mention. *)
Definition same_session (c c' : client) : Prop :=
  c_state c' = c_state c ∧ c_encrypt c' = c_encrypt c ∧ c_session_token c' = c_session_token c ∧
  c_session_id c' = c_session_id c ∧ c_peer_ip c' = c_peer_ip c ∧ c_xor_key c' = c_xor_key c ∧
  c_server_addr c' = c_server_addr c ∧ c_server_port c' = c_server_port c ∧
  c_server_domain c' = c_server_domain c.

Lemma client_inv_same c c' : same_session c c' → client_inv c → client_inv c'.
Proof.
  intros (Es & Ee & Et & Ei & Ep & Ek & Ea & Epo & Ed) [Hk Hp Ha Hs]. split.
  - congruence.
  - congruence.
  - by rewrite Ea, Es, Ed.
  - rewrite Es. intros H. unfold in_session. rewrite Ee, Et, Ei, Ep. by apply Hs.
Qed.
End client.

Lemma client_inv_mono SA scfg cfg user (R R' : list Z → Prop) c :
  (∀ p, R p → R' p) → client_inv SA scfg cfg user R c → client_inv SA scfg cfg user R' c.
Proof.
  intros HR [Hk Hp Ha Hs]. split; [done..|]. intros H. destruct (Hs H) as (u & Hu & Hr & Hrest).
  exists u. auto.
Qed.

(** What initialisation does to a configuration changes none of these. *)
Section same_account.
Context {cfg cfg' : config}.
Hypothesis (Hsame : same_account cfg cfg').

Lemma encrypts_same user : encrypts cfg' user = encrypts cfg user.
Proof. unfold encrypts. by rewrite (sa_encrypt _ _ Hsame). Qed.

Lemma open_packet_same : open_packet cfg' = open_packet cfg.
Proof. unfold open_packet, open_header, open_tlvs. by destruct Hsame as [? -> -> ? -> -> -> ->]. Qed.

Lemma session_of_user_same user u : session_of_user cfg' user u ↔ session_of_user cfg user u.
Proof.
  split; intros [? ? He ?]; (split; [done|done| |done]); [by rewrite <-encrypts_same|].
  by rewrite encrypts_same.
Qed.

Lemma server_packet_same scfg user P p :
  server_packet scfg cfg' user P p ↔ server_packet scfg cfg user P p.
Proof.
  split; intros [u Hu| | |]; try by constructor.
  - apply server_openack. by apply session_of_user_same.
  - rewrite encrypts_same. by constructor.
  - apply server_openack. by apply session_of_user_same.
  - rewrite <-encrypts_same. by constructor.
Qed.

Lemma client_packet_same user D p : client_packet cfg' user D p → client_packet cfg user D p.
Proof.
  intros []; [rewrite open_packet_same; constructor|by apply client_echo|by apply client_close|].
  rewrite encrypts_same. by constructor.
Qed.

Lemma client_inv_same_account SA scfg user R c :
  client_inv SA scfg cfg' user R c ↔ client_inv SA scfg cfg user R c.
Proof.
  assert (in_session scfg cfg' user R c ↔ in_session scfg cfg user R c) as Hin.
  { unfold in_session. by setoid_rewrite session_of_user_same; rewrite encrypts_same. }
  pose proof (sa_port _ _ Hsame) as Hport.
  split; intros [Hk Hp Ha Hs]; (split; [done|congruence|done|]); intros H; apply Hin; auto.
Qed.
End same_account.

Ltac same_inv := eapply client_inv_same; [|eassumption]; by split_and!.

(** ** The handlers *)

(** Reading a condition into the result of a run. *)
Lemma wp_conditional {A} (m : M A) w (P : Prop) (Q0 Q : A → world → Prop) :
  wp m w Q0 → (P → wp m w Q) → wp m w (λ x w', Q0 x w' ∧ (P → Q x w')).
Proof. unfold wp. destruct (m w) as [[x w']|]; auto. Qed.

Section handlers.
Context `{OSOk, TunBackend, !TunOk}.
Variables (SA : Z) (scfg : normalizedConfig) (cfg : config) (user : configuredUser).
Variables (R P D : list Z → Prop).
Hypotheses (Hcfg : cfg_ok cfg) (Hserver : c_str (cfg_server cfg) ≠ []) (Hscfg : sconfig_ok scfg).
Hypothesis (Hnum : ∀ a, inet_pton (cfg_server cfg) = Some a → a = SA).
Hypotheses (Haddr : length (u_address user) = 4%nat ∧ bytes (u_address user))
  (Hnonzero : be_decode (u_address user) ≠ 0).
Hypothesis (HR : ∀ p, R p → server_packet scfg cfg user P p).
Implicit Types (w : world) (c : client).

#[local] Abbreviation obeys := (obeys SA scfg cfg user R P D).
#[local] Abbreviation client_inv := (client_inv SA scfg cfg user R).

Lemma client_inv_state c s :
  c_state c ≠ STATE_DNS_NEEDED → s ≠ STATE_ESTABLISHED → client_inv c → client_inv (c <| c_state := s |>).
Proof.
  intros Hs Hs' [Hk Hp Ha _]. split; [done|done| |done]. left. by destruct Ha as [?|[? _]].
Qed.

Lemma refresh_obeys r w0 w :
  obeys w0 w → wp (refresh r) w (λ _ w', obeys w0 w').
Proof.
  intros Hw. unfold refresh. wp_step; [|by wp_step]. do 3 wp_step. etransitivity; [exact Hw|].
  eapply (obeys_quiet _ _ _ _ _ _ _ _ _ [_]); [done|by constructor|]. intros ?; same_inv.
Qed.

Lemma handle_tun_recv_obeys w : wp handle_tun_recv w (λ _ w', obeys w w').
Proof.
  apply wp_handle_tun_recv. cbv zeta. destruct (os (w_t w) (SRead _ _)) as [data|] eqn:Er.
  2:{ by apply obeys_event. }
  destruct (decide _) as [[Hne Hs]|]; [|by apply obeys_event].
  eexists [_; _]. split; [done|]. rewrite !Forall_cons. intros (_ & HD & _) Hc.
  split; [same_inv|]. split_and!; [|done|done]. cbn [emits].
  destruct (ci_session _ _ _ _ _ _ Hc Hs) as (u & _ & _ & _ & _ & He & _).
  rewrite (data_packet_go _ _ _ He), (ci_key _ _ _ _ _ _ Hc).
  apply client_data; [apply client_ids_ok|exact HD|done].
Qed.

(** Dispatching a packet of known type. *)
Ltac recv_dispatch :=
  intros Hl Hty HQ; unfold handle_recv; wp_step; [rewrite Z.ltb_lt in *; change HDR_SIZE with 8 in *; lia|];
  wp_step;
  match goal with pkt : list Z |- _ => destruct pkt as [|? ?]; [done|] end;
  eapply wp_mem; [reflexivity|];
  do 2 wp_step; fold refresh; injection Hty as Hty;
  (subst || destruct Hty; subst); exact HQ.

Lemma wp_recv_data (e : bool) pkt w Q :
  8 ≤ len pkt → head pkt = Some (if e then PKT_DATA_ENC else PKT_DATA) →
  wp (r ← handle_data pkt (len pkt); refresh r) (received w) Q →
  wp (handle_recv cfg pkt (len pkt)) w Q.
Proof. destruct e; recv_dispatch. Qed.
Lemma wp_recv_openack pkt w Q :
  8 ≤ len pkt → head pkt = Some PKT_OPENACK →
  wp (r ← handle_openack cfg pkt (len pkt); refresh r) (received w) Q →
  wp (handle_recv cfg pkt (len pkt)) w Q.
Proof. recv_dispatch. Qed.
Lemma wp_recv_openrej pkt w Q :
  8 ≤ len pkt → head pkt = Some PKT_OPENREJ →
  wp (handle_openrej pkt (len pkt)) (received w) Q → wp (handle_recv cfg pkt (len pkt)) w Q.
Proof. recv_dispatch. Qed.
Lemma wp_recv_echo pkt w Q :
  8 ≤ len pkt → head pkt = Some PKT_ECHORESP →
  wp (r ← handle_echo_resp pkt (len pkt); refresh r) (received w) Q →
  wp (handle_recv cfg pkt (len pkt)) w Q.
Proof. recv_dispatch. Qed.

Lemma received_obeys w : obeys w (received w).
Proof. apply (obeys_update _ _ _ _ _ _ _ w). intros ?; same_inv. Qed.

(** Any packet of the server. *)
Lemma recv_data_obeys token sessionID data w :
  ids_ok token sessionID → P data →
  let p := buildDataPacket token sessionID data (encrypts cfg user) (u_xorKey user) in
  wp (handle_recv cfg p (len p)) w (λ _ w', obeys w w').
Proof.
  intros Hids HP p. pose proof (received_obeys w) as Hrx.
  assert (wp (r ← handle_data p (len p); refresh r) (received w) (λ _ w', obeys w w')) as Hgo.
  { wp_step. apply wp_handle_data. cbv zeta. destruct (decide _); [|by apply refresh_obeys].
    apply refresh_obeys. etransitivity; [exact Hrx|]. apply obeys_event. intros _ Hc. split.
    - destruct (0 <? _); [same_inv|done].
    - cbn [emits]. assert (data_payload (w_c (received w)) p = data) as ->; [|exact HP].
      unfold p. rewrite <-(ci_key _ _ _ _ _ _ Hc). by apply data_payload_go. }
  apply (wp_recv_data (encrypts cfg user)); [| |exact Hgo].
  - unfold p. rewrite len_buildDataPacket by done. pose proof (len_nonneg data). lia.
  - unfold p. rewrite buildDataPacket_layout by done. by destruct (encrypts cfg user).
Qed.

Lemma recv_openrej_obeys w :
  wp (handle_recv cfg buildOpenReject (len buildOpenReject)) w (λ _ w', obeys w w').
Proof.
  pose proof (received_obeys w) as Hrx.
  apply wp_recv_openrej; [by rewrite len_buildOpenReject|by rewrite buildOpenReject_layout|].
  apply wp_handle_openrej. destruct (decide _) as [Hs|]; [|exact Hrx].
  etransitivity; [exact Hrx|]. apply obeys_update. apply client_inv_state; [by rewrite Hs|done].
Qed.

Lemma recv_echo_obeys token sessionID payload w :
  ids_ok token sessionID →
  let p := buildEchoResp token sessionID payload in
  bytes p → wp (handle_recv cfg p (len p)) w (λ _ w', obeys w w').
Proof.
  intros Hids p Hb. pose proof (received_obeys w) as Hrx.
  apply wp_recv_echo.
  - unfold p. rewrite len_buildEchoResp by done. pose proof (len_nonneg payload). lia.
  - unfold p. by rewrite buildEchoResp_layout.
  - wp_step. apply wp_handle_echo_resp; [done|]. cbv zeta.
    destruct (decide _); [|by apply refresh_obeys].
    apply refresh_obeys. etransitivity; [exact Hrx|]. apply obeys_event. intros _ Hc. split; [|done].
    destruct (32 <=? _); [same_inv|done].
Qed.

(** An OPENACK of the server, in any state. *)
Lemma handle_openack_obeys u w :
  session_of_user cfg user u → R (openack_packet scfg u) →
  let p := openack_packet scfg u in
  wp (handle_openack cfg p (len p)) w (λ _ w', obeys w w').
Proof.
  intros Hu HRu p.
  assert (bytes p) as Hb.
  { apply openack_packet_bytes; [done|apply Hu|rewrite (su_user _ _ _ Hu); apply Haddr..]. }
  destruct (decide (c_state (w_c w) = STATE_AUTH_SENT)) as [Hs|Hs].
  2:{ apply wp_handle_openack; [done..|]. intros r w' Hack. by destruct Hack. }
  destruct (openack_client cfg scfg u w) as (r & w' & E & Hr);
    try done; rewrite ?(su_user _ _ _ Hu); try apply Haddr; try apply Hu; [done|].
  assert (openack cfg p w r w') as Hack.
  { pose proof (wp_handle_openack cfg p w (openack cfg p w) Hcfg Hb (λ r w' H, H)) as Hwp.
    unfold wp in Hwp. unfold p in Hwp. by rewrite E in Hwp. }
  eapply wp_mono; [by apply wp_exact|]. intros ? ? [-> ->].
  destruct (openack_quiet _ _ _ _ _ Hack) as (new & En & Hn).
  pose proof (openack_framed _ _ _ _ _ Hb Hack) as Hf. eapply obeys_quiet; [exact En|done|].
  intros [Hk Hp Ha _]. destruct Hf. rewrite Hs in Ha.
  assert (c_server_addr (w_c w') = SA) as Ha' by (rewrite fr_addr; by destruct Ha as [?|[? _]]).
  split; [congruence|congruence|by left|]. intros Hs'.
  destruct Hr as [(_ & _ & Ht & Hi & He & _ & Hip & _)|(_ & Hs'' & _)]; [|by rewrite Hs'' in Hs'].
  exists u. rewrite He, Hip, (su_encrypt _ _ _ Hu), (su_user _ _ _ Hu). by split_and!.
Qed.

Lemma recv_openack_obeys u w :
  session_of_user cfg user u → R (openack_packet scfg u) →
  let p := openack_packet scfg u in
  wp (handle_recv cfg p (len p)) w (λ _ w', obeys w w').
Proof.
  intros Hu HRu p.
  assert (length (u_address (se_user u)) = 4%nat) as Ha by (rewrite (su_user _ _ _ Hu); apply Haddr).
  destruct (openack_packet_shape scfg u) as (_ & [Hl _] & Hh); [done|apply Hu|done|by rewrite (su_user _ _ _ Hu); apply Haddr|].
  apply wp_recv_openack; [done..|].
  wp_step. eapply wp_mono; [by apply handle_openack_obeys|]. intros r w' Hw.
  apply refresh_obeys. etransitivity; [apply received_obeys|exact Hw].
Qed.

Lemma recv_server_obeys p w :
  bytes p → R p → wp (handle_recv cfg p (len p)) w (λ _ w', obeys w w').
Proof.
  intros Hb HRp. destruct (HR p HRp) as [u Hu| |token sessionID payload Hids|token sessionID data Hids HP].
  - by apply recv_openack_obeys.
  - apply recv_openrej_obeys.
  - by apply recv_echo_obeys.
  - by apply recv_data_obeys.
Qed.

(** A client that neither asks for a session nor has one takes no notice. *)
Lemma recv_idle_obeys p w :
  bytes p → c_state (w_c w) = STATE_DNS_NEEDED →
  wp (handle_recv cfg p (len p)) w (λ _ w', obeys w w').
Proof.
  intros Hb Hs. unfold handle_recv. wp_step; [by wp_step|].
  destruct p as [|ty p']; [done|]. wp_step. apply (wp_mem _ ty); [done|].
  set (pkt := ty :: p') in *. do 2 wp_step. fold refresh. fold (received w).
  pose proof (received_obeys w) as Hrx.
  assert (c_state (w_c (received w)) ≠ STATE_ESTABLISHED) as Hne by (change (c_state (w_c w) ≠ STATE_ESTABLISHED); by rewrite Hs).
  wp_step; [eapply wp_not_accepted; [by apply wp_idle_data|done]|].
  wp_step.
  { eapply wp_not_accepted; [|exact Hrx]. apply wp_handle_openack; [done..|].
    intros r w' Hack. change (c_state (w_c (received w)) = STATE_DNS_NEEDED) in Hs.
    destruct Hack as [|Hs' ? ?|now tr ok tr' r' script Hs' ?]; [done|rewrite Hs in Hs'; done..]. }
  wp_step; [apply wp_handle_openrej; rewrite decide_False; [done|]; change (c_state (w_c w) ≠ STATE_AUTH_SENT); by rewrite Hs|].
  wp_step; [eapply wp_not_accepted; [by apply wp_idle_echo|done]|].
  wp_step; [eapply wp_not_accepted; [by apply wp_idle_close|done]|].
  wp_step; [eapply wp_not_accepted; [by apply wp_idle_ipfrag|done]|].
  wp_step; [eapply wp_not_accepted; [by apply wp_idle_segrt|done]|].
  by wp_step.
Qed.

(** ** The event loop *)

Lemma handle_event_obeys fd w :
  inv w → wp (handle_event cfg fd) w (λ _ w', obeys w w').
Proof.
  intros Hi. unfold handle_event. do 2 wp_step. wp_step; [by apply handle_tun_recv_obeys|].
  wp_step; [|by wp_step]. do 2 wp_step. set (s := SRecvfrom _ _).
  destruct (os (w_t w) s) as [[[buf addr] port]|] eqn:Er; [|wp_step; by apply obeys_event].
  cbv zeta. destruct (0 <? len buf); [|wp_step; by apply obeys_event].
  do 2 wp_step. wp_step; [|wp_step; by apply obeys_event].
  assert (bytes buf) as Hb by (by eapply os_recvfrom_ok).
  set (w1 := mk_world _ _). assert (inv w1) as Hi1.
  { destruct w as [c tr]. eapply inv_frame_sent; [exact Hi|apply same_frame_refl|done|done]. }
  eapply wp_mono; [apply (wp_conditional _ _ (R buf ∨ c_state (w_c w1) = STATE_DNS_NEEDED) _
    (λ _ w', obeys w1 w') (handle_recv_reached cfg buf w1 Hcfg Hb Hi1))|].
  { intros [HRb|Hs]; [by apply recv_server_obeys|by apply recv_idle_obeys]. }
  intros _ w' [(_ & _ & new & E) Hob]. exists (new ++ [Ev s (Some (buf, addr, port))]).
  split; [by rewrite E, <-app_assoc|]. rewrite !Forall_app, Forall_singleton. intros [Henv Hev] Hc.
  match goal with H : _ && _ = true |- _ => apply andb_true_iff in H as [Hfrom Hport] end.
  rewrite Z.eqb_eq in Hfrom, Hport.
  destruct Hob as (new' & E' & Hob).
  { destruct (ci_addr _ _ _ _ _ _ Hc) as [Ha|[Hs _]]; [left|by right].
    apply Hev; [congruence|]. rewrite <-(ci_port _ _ _ _ _ _ Hc). congruence. }
  rewrite E in E'. apply app_inv_tail in E' as ->. destruct (Hob Henv Hc).
  split_and!; [done|done|by constructor].
Qed.

Lemma reset_events_emit c new : Forall (reset_event c) new → Forall (emits cfg user P D) new.
Proof.
  intros Hn. eapply Forall_impl; [exact Hn|]. intros [s r] [Hq|[_ Hcl]]; [by destruct s|].
  unfold close_event in Hcl. cbn [ev_call] in Hcl. subst s. cbn [emits]. unfold signed_header.
  rewrite session_header_go. apply (client_close _ _ _ _ _ (client_ids_ok _)).
Qed.

Lemma client_reset_obeys w : inv w → wp (client_reset cfg) w (λ _ w', obeys w w').
Proof.
  intros Hi. apply wp_client_reset; [done|apply Hi|]. intros fd new _ _ Hn _ _.
  exists new. split; [done|]. intros _ [Hk Hp Ha Hs]. split.
  - split; [done|done| |].
    + change (c_server_addr (w_c w) = SA ∨ c_state (reset_client (w_c w) fd) = STATE_DNS_NEEDED ∧
        c_str (c_server_domain (w_c w)) ≠ []).
      destruct Ha as [?|[_ Hd]]; [by left|right]. split; [|done].
      change (c_state (reset_client (w_c w) fd)) with
        (if decide (c_str (c_server_domain (w_c w)) = []) then STATE_IP_READY else STATE_DNS_NEEDED).
      by rewrite decide_False.
    + cbn [w_c]. by destruct (reset_state (w_c w) fd) as [-> | ->].
  - by eapply reset_events_emit.
Qed.

Lemma tick_auth_sent_obeys now w :
  inv w → wp (tick_auth_sent cfg now) w (λ _ w', obeys w w').
Proof.
  intros Hi. apply wp_tick_auth_sent; [done|]. cbv zeta.
  destruct (_ <? _); [by apply client_reset_obeys|]. destruct (_ <=? _); [|done].
  apply obeys_event. intros _ Hc. split; [same_inv|constructor].
Qed.

Lemma tick_established_obeys now w :
  inv w → wp (tick_established cfg now) w (λ _ w', obeys w w').
Proof.
  intros Hi. apply wp_tick_established. cbv zeta.
  destruct (_ <? _); [by apply client_reset_obeys|].
  destruct (Z.even _); [|apply obeys_update; intros ?; same_inv].
  eexists [_; _]. split; [done|]. intros _ Hc. split; [same_inv|].
  rewrite !Forall_cons. split_and!; [|done|done]. cbn [emits]. unfold signed_header.
  rewrite session_header_go, <-app_assoc. apply (client_echo _ _ _ _ _ _ (client_ids_ok _)).
Qed.

Lemma resolve_server_obeys w :
  is_cbuf 64 (c_server_domain (w_c w)) → c_state (w_c w) = STATE_DNS_NEEDED →
  wp (r ← resolve_server cfg;
      when (r =? 0) (mod_c (λ c, c <| c_state := STATE_IP_READY |>))) w (λ _ w', obeys w w').
Proof.
  intros Hdom Hs. wp_step. apply wp_resolve_server; [done|done| |].
  - intros a dom Ha _ _. cbn [Z.eqb when w_c w_t]. wp_step. apply obeys_update. intros [Hk Hp _ _].
    split; [done|done|left; by apply Hnum|done].
  - cbv zeta. intros _ _. set (s := SGetaddrinfo _).
    destruct (os (w_t w) s) as [a|] eqn:Er; cbn [Z.eqb when w_c w_t]; wp_step;
      apply obeys_event; intros He [Hk Hp _ _]; (split; [|done]); split; try done.
    + by left.
    + right. split; [exact Hs|]. apply c_str_snprintf_nonempty; [lia|done].
    + change (c_state (w_c w) = STATE_ESTABLISHED → in_session scfg cfg user R (w_c w)). by rewrite Hs.
Qed.

Lemma tick_dispatch_obeys now w :
  is_u32 now → inv w → wp (tick_dispatch cfg now) w (λ _ w', obeys w w').
Proof.
  intros Hnow Hi. unfold tick_dispatch. do 2 wp_step. cbv zeta.
  wp_step; [by wp_step|].
  wp_step; [rewrite Z.eqb_eq in *; apply resolve_server_obeys; [apply Hi|done]|].
  wp_step.
  { rewrite Z.eqb_eq in *. do 2 wp_step. destruct w as [c tr].
    eapply wp_mono; [apply tick_auth_sent_obeys|].
    - eapply (inv_update c _ tr []); [done| |done|done| |done].
      + intros []. by split.
      + unfold states. rewrite !elem_of_cons. tauto.
    - cbn [w_c w_t]. intros _ w' Hw. etransitivity; [|exact Hw].
      apply (obeys_update _ _ _ _ _ _ _ (mk_world c tr)). intros [Hk _ Ha _]. split; [done|done| |done].
      cbn [w_c] in *. left. destruct Ha as [?|[Hs _]]; [done|]. by rewrite Hs in *. }
  wp_step; [by apply tick_auth_sent_obeys|]. wp_step; [by apply tick_established_obeys|].
  by apply client_reset_obeys.
Qed.

Lemma timer_tick_obeys w : inv w → wp (timer_tick cfg) w (λ _ w', obeys w w').
Proof.
  intros Hi. unfold timer_tick. do 4 wp_step. set (now := u32 _).
  assert (is_u32 now) as Hnow by apply u32_is. clearbody now.
  wp_step. set (clock := Ev SClock _).
  apply (wp_ready (mk_world (w_c w) (clock :: w_t w))); [by apply inv_clock|]. cbn [w_c w_t].
  intros b fd new Hi1 Hn. set (w1 := mk_world _ _) in *.
  assert (obeys w w1) as Hw1.
  { eapply (obeys_quiet _ _ _ _ _ _ _ w w1 (new ++ [clock])); [by rewrite <-app_assoc| |].
    - apply Forall_app. split; [done|by constructor].
    - intros ?. same_inv. }
  destruct b; cbn [negb]; [|by wp_step].
  eapply wp_mono; [by apply tick_dispatch_obeys|]. intros ? w' Hw'. by transitivity w1.
Qed.

(** One turn of the event loop. *)
Lemma main_turn_obeys last w :
  inv w → wp (main_turn cfg last) w (λ _ w', inv w' ∧ obeys w w').
Proof.
  intros Hi.
  assert (∀ w s r, inv w → turn_call s → rel_to obeys w (mk_world (w_c w) (Ev s r :: w_t w))) as Hcall.
  { intros w1 s r Hi1 Hs. split; [|apply obeys_event; intros _ Hc; split; [done|by destruct s]].
    eapply (reached_event w1 s r Hi1). by apply turn_call_neutral. }
  assert (∀ (m : M unit) w1, wp m w1 (λ _ w', reached w1 w') → wp m w1 (λ _ w', obeys w1 w') →
    wp m w1 (λ _ w', rel_to obeys w1 w')) as Hpart.
  { intros m w1 Hr Ho. eapply wp_mono; [apply (wp_and _ _ _ _ Hr Ho)|]. intros _ w' [[Hi' _] Ho']. by split. }
  eapply wp_mono; [refine (wp_main_turn obeys cfg Hcall _ _ _ last w Hi)|].
  - intros fd w1 Hi1. apply Hpart; [by apply handle_event_reached|by apply handle_event_obeys].
  - intros w1 Hi1. apply Hpart; [by apply client_reset_reached|by apply client_reset_obeys].
  - intros w1 Hi1. apply Hpart; [by apply timer_tick_reached|by apply timer_tick_obeys].
  - intros t w' (_ & Hi' & Ho). split; [done|]. etransitivity; [|exact Ho].
    by apply (Hcall w SQuit (os (w_t w) SQuit)).
Qed.

Lemma main_cleanup_obeys w : inv w → wp (main_cleanup cfg) w (λ _ w', obeys w w').
Proof.
  intros Hi. eapply wp_mono; [by apply wp_main_cleanup|]. intros _ w' (Hc & _ & new & E & He).
  exists new. split; [done|]. intros _ Hci. rewrite Hc. split; [done|by eapply reset_events_emit].
Qed.

(** ** Initialisation *)

Lemma keyed_fields cfg1 c :
  c_xor_key (keyed cfg1 c) = take 8 (md5_spec (c_str (cfg_username cfg1) ++ c_str (cfg_password cfg1))) ∧
  c_server_domain (keyed cfg1 c) = c_server_domain c.
Proof. unfold keyed. by destruct (_ =? 0). Qed.

(** Name resolution before the loop. *)
Lemma wp_init_resolve_obeys w :
  is_cbuf 64 (c_server_domain (w_c w)) → Forall quiet (w_t w) →
  wp (resolve_server cfg) w (λ r w', Forall (emits cfg user P D) (w_t w') ∧
    c_xor_key (w_c w') = c_xor_key (w_c w) ∧ c_server_port (w_c w') = c_server_port (w_c w) ∧
    (Forall (env_ok SA cfg R D) (w_t w') →
     if r =? 0 then c_server_addr (w_c w') = SA else c_str (c_server_domain (w_c w')) ≠ [])).
Proof.
  intros Hdom Hq. apply quiet_emits with (cfg := cfg) (user := user) (P := P) (D := D) in Hq.
  apply wp_resolve_server; [done|done| |].
  - intros a dom Ha _ _. split_and!; [done..|]. intros _. by apply Hnum.
  - cbv zeta. intros _ _. set (s := SGetaddrinfo _).
    destruct (os (w_t w) s) as [a|] eqn:Er; cbn [w_c w_t]; (split_and!; [by constructor|done..|]).
    + intros [Ha _]%Forall_cons. exact Ha.
    + intros _. apply c_str_snprintf_nonempty; [lia|done].
Qed.

Lemma main_init_obeys :
  u_xorKey user = take 8 (md5_spec (c_str (cfg_username cfg) ++ c_str (cfg_password cfg))) →
  wp (main_init cfg) (mk_world client_init []) (λ r w', ∀ cfg' last, r = Some (cfg', last) →
    same_account cfg cfg' ∧
    (Forall (env_ok SA cfg R D) (w_t w') →
     client_inv (w_c w') ∧ Forall (emits cfg user P D) (w_t w'))).
Proof.
  intros Hkey. unfold main_init. wp_step.
  eapply wp_io; [apply tun_open_ok, Hcfg|]. intros [fd name] new (Hn & _ & Hname). cbn [fst snd] in *.
  set (cfg1 := cfg <| cfg_tun_name := name |>).
  assert (cfg_ok cfg1) as Hcfg1 by by apply cfg_ok_tun_name.
  do 2 wp_step. wp_step; [by wp_step|].
  cbn [w_c w_t]. rewrite app_nil_r. apply config_events_quiet in Hn.
  set (w1 := mk_world _ _).
  destruct (init_keys cfg1 (w_c w1) Hcfg1) as (c1 & cfg' & E1 & E2 & _ & Hsame).
  assert (same_account cfg cfg') as Hsame' by (destruct Hsame; by split).
  do 3 wp_step. eapply wp_mem; [exact E1|]. wp_step. eapply wp_mem; [exact E2|].
  cbv beta iota. do 4 wp_step. set (w2 := mk_world _ _).
  assert (c_xor_key (w_c w2) = u_xorKey user) as Hk2.
  { change (c_xor_key (keyed cfg1 (w_c w1)) = u_xorKey user). rewrite Hkey. apply (keyed_fields cfg1). }
  assert (c_server_port (w_c w2) = cfg_port cfg) as Hp2 by apply Hsame'.
  assert (is_cbuf 64 (c_server_domain (w_c w2))) as Hd2.
  { change (is_cbuf 64 (c_server_domain (keyed cfg1 (w_c w1)))).
    rewrite (proj2 (keyed_fields cfg1 (w_c w1))). apply client_init_ok. }
  assert (Forall quiet (w_t w2)) as Hq2 by exact Hn. clearbody w2. clear E1 E2 Hsame w1 c1 Hn.
  assert (resolve_server cfg' = resolve_server cfg) as ->
    by (unfold resolve_server; by rewrite (sa_server _ _ Hsame')).
  wp_step. eapply wp_mono; [by apply wp_init_resolve_obeys|].
  intros r w3 (He3 & Hk3 & Hp3 & Ha3). do 2 wp_step.
  wp_step. eapply wp_io; [apply udp_socket_create_spec|]. intros udp new' (_ & Hn & _).
  do 2 wp_step. wp_step; [by do 4 wp_step|]. do 3 wp_step. intros cfg'' last [= <- <-].
  split; [done|]. rewrite Forall_cons, Forall_app. intros (_ & _ & Henv). specialize (Ha3 Henv).
  split.
  - split; [exact (eq_trans Hk3 Hk2)|exact (eq_trans Hp3 Hp2)| |].
    + cbn. destruct (r =? 0); [by left|by right].
    + cbn. by destruct (r =? 0).
  - rewrite Forall_cons, Forall_app. split_and!; [done|by apply quiet_emits|done].
Qed.
End handlers.
