(* ===== verification/Network.v ===== *)
(** The clients and the server as one system.  Any number of clients ([src/src/iwand.c]) and
    a server ([src/server/]) are joined by a network that loses, duplicates, delays and
    reorders datagrams: whatever has been sent may be delivered any number of times, or
    never.  Clients start, run turns of their event loop on any operating system, and leave;
    others, from any address, send the server anything but the password of a user or the
    identifiers of a session. *)
From stdpp Require Import gmap.
From S2P Require Import Prelude Libc Md5 Aes Client Config Os Tun TunLinux CMonad Packet OpenAck Frag.
From S2P Require Import Protocol Server Recv Machine Main Interop Traffic.

#[local] Opaque md5_spec fips_cipher aes_encrypt_block aes_decrypt_block aes_set_encrypt_key
  aes_set_decrypt_key signature build_open_pkt Md5.md5_hash client_init.

(** ** The system *)

(** A client: its configuration file, and the account the server has for it. *)
Record member := mk_member { m_cfg : config; m_user : configuredUser }.

(** A running client: its configuration after initialisation, [last_tick], its state and the
    history of its calls. *)
Record node := mk_node { nd_cfg : config; nd_last : Z; nd_world : world }.

(** What has happened: the state of both ends, the datagrams sent to the server and by it,
    with the address of the client, what the clients' devices delivered and were given, and
    the same for the exit device. *)
Record net := mk_net {
  n_server : server;
  n_nodes : gmap udp_addr node;
  n_up : list (udp_addr * list Z);
  n_down : list (udp_addr * list Z);
  n_read : list (udp_addr * list Z);
  n_written : list (udp_addr * list Z);
  n_exit_read : list (list Z);
  n_exit_written : list (list Z)
}.
#[export] Instance net_eta : Eta net := λ N,
  mk_net (n_server N) (n_nodes N) (n_up N) (n_down N) (n_read N) (n_written N) (n_exit_read N)
    (n_exit_written N).

(** One turn of the client's event loop, and the end of the program when it leaves it. *)
Definition client_turn `{OS, TunBackend} (cfg : config) (last : Z) : M (option Z) :=
  t ← main_turn cfg last;
  match t with
  | Again last => mret (Some last)
  | Leave => _ ← main_cleanup cfg; mret None
  end.

(** The traffic of a history: datagrams to the server, data read from and written to the
    device. *)
Definition datagram_to (SA SP : Z) (ev : event) : option (list Z) :=
  match ev with
  | Ev (SSendto _ addr port p) _ => if (addr =? SA) && (port =? SP) then Some p else None
  | _ => None
  end.
Definition data_read (ev : event) : option (list Z) :=
  match ev with Ev (SRead _ _) (Some d) => Some d | _ => None end.
Definition data_written (ev : event) : option (list Z) :=
  match ev with Ev (SWrite _ d) _ => Some d | _ => None end.

Definition udp_output (o : output) : option (udp_addr * list Z) :=
  match o with WriteToUDP r p => Some (r, p) | _ => None end.
Definition exit_output (o : output) : option (list Z) :=
  match o with ExitWrite p => Some p | _ => None end.

(** No user's name and password are in the packet. *)
Definition no_password (scfg : normalizedConfig) (p : list Z) : Prop :=
  ∀ request user, parseOpenPacket p = mret request →
    s_users scfg !! r_username request = Some user →
    r_passwordBlock request ≠ encryptedPassword (u_username user) (u_password user).

Section network.
(** The server's address and port, its configuration, and the clients by their address. *)
Variables (SA SP : Z) (scfg : normalizedConfig) (members : gmap udp_addr member).

(** The datagrams from the server's address are datagrams the server sent to this client;
    a name resolves to the server's address. *)
Definition deliverable (N : net) (r : udp_addr) (ev : event) : Prop :=
  match ev with
  | Ev (SRecvfrom _ _) (Some (p, addr, port)) => addr = SA → port = SP → (r, p) ∈ n_down N
  | Ev (SGetaddrinfo _) (Some a) => a = SA
  | _ => True
  end.

(** The traffic of the calls [new] of client [r]. *)
Definition absorb (r : udp_addr) (new : trace) (N : net) : net :=
  N <| n_up := (pair r <$> omap (datagram_to SA SP) new) ++ n_up N |>
    <| n_read := (pair r <$> omap data_read new) ++ n_read N |>
    <| n_written := (pair r <$> omap data_written new) ++ n_written N |>.

(** The server after an input, and what it sent. *)
Definition served (s : server) (outs : list output) (N : net) : net :=
  N <| n_server := s |> <| n_down := omap udp_output outs ++ n_down N |>
    <| n_exit_written := omap exit_output outs ++ n_exit_written N |>.

(** A packet of somebody without a password or a session of this address: it is not a
    request with a password, and if it is not a request, it names no session.  The source
    address may be forged. *)
Definition outsider (s : server) (r : udp_addr) (p : list Z) : Prop :=
  no_password scfg p ∧
  (members !! r = None ∨ head p = Some packetOpen ∨ sv_sessions s !! packet_key r p = None).

Inductive step (N : net) : net → Prop :=
  | client_starts r m (o : OS) (b : TunBackend) cfg last w :
      OSOk → TunOk → members !! r = Some m → n_nodes N !! r = None →
      main_init (m_cfg m) (mk_world client_init []) = Some (Some (cfg, last), w) →
      Forall (deliverable N r) (w_t w) →
      step N (absorb r (w_t w) (N <| n_nodes := <[r := mk_node cfg last w]> (n_nodes N) |>))
  | client_turns r nd (o : OS) (b : TunBackend) t w new :
      OSOk → TunOk → n_nodes N !! r = Some nd →
      client_turn (nd_cfg nd) (nd_last nd) (nd_world nd) = Some (t, w) →
      w_t w = new ++ w_t (nd_world nd) → Forall (deliverable N r) new →
      step N (absorb r new (N <| n_nodes := match t with
        | Some last => <[r := mk_node (nd_cfg nd) last w]> (n_nodes N)
        | None => delete r (n_nodes N) end |>))
  | server_handles now rnd r p s outs :
      (r, p) ∈ n_up N → input_ok (Datagram now rnd r p) →
      handlePacket now rnd r p (n_server N) = Some (s, outs) → step N (served s outs N)
  | outsider_sends now rnd r p s outs :
      outsider (n_server N) r p →
      handlePacket now rnd r p (n_server N) = Some (s, outs) → step N (served s outs N)
  | exit_delivers payload s outs :
      s_exit_enabled scfg = true → handleExitPacket payload (n_server N) = Some (s, outs) →
      step N (served s outs (N <| n_exit_read := payload :: n_exit_read N |>)).

(** The server has just been started; no client is running. *)
Definition net_start : net := mk_net (newServer scfg) ∅ [] [] [] [] [] [].
Definition reachable (N : net) : Prop := rtc step net_start N.

(** The accounts: each client has the name and password of a user of the server, and the
    server's address. *)
Record member_ok (m : member) : Prop := {
  mo_cfg : cfg_ok (m_cfg m);
  mo_valid : cfg_valid (m_cfg m) = true;
  mo_port : cfg_port (m_cfg m) = SP;
  mo_server a : inet_pton (cfg_server (m_cfg m)) = Some a → a = SA;
  mo_user : s_users scfg !! c_str (cfg_username (m_cfg m)) = Some (m_user m);
  mo_password : u_password (m_user m) = c_str (cfg_password (m_cfg m));
  mo_address : be_decode (u_address (m_user m)) ≠ 0
}.

(** ** What the server does with the packets of its clients *)

(** Data that may reach the client [m] at [r]: an IPv4 packet for its address that another
    client's device delivered (with an exit device: cut to its length, and with the sender's
    own address as source when that is checked), or the exit device; or, without an exit
    device, its own data back. *)
Inductive delivery (read : udp_addr → list Z → Prop) (exit_read : list Z → Prop)
  (r : udp_addr) (m : member) (d : list Z) : Prop :=
  | from_client r' m' data ip :
      members !! r' = Some m' → read r' data → parseIPv4Packet data = mret ip →
      p_destination ip = u_address (m_user m) →
      (s_exit_enabled scfg = true → s_strictSource scfg = true → p_source ip = u_address (m_user m')) →
      d = (if s_exit_enabled scfg then p_packet ip else data) → delivery read exit_read r m d
  | from_exit data ip :
      s_exit_enabled scfg = true → exit_read data → parseIPv4Packet data = mret ip →
      p_destination ip = u_address (m_user m) → d = p_packet ip → delivery read exit_read r m d
  | sent_back : s_exit_enabled scfg = false → read r d → delivery read exit_read r m d.

(** Data that may reach the exit device. *)
Definition exit_delivery (read : udp_addr → list Z → Prop) (d : list Z) : Prop :=
  ∃ r m data ip, members !! r = Some m ∧ read r data ∧ parseIPv4Packet data = mret ip ∧
    d = p_packet ip ∧ (s_strictSource scfg = true → p_source ip = u_address (m_user m)).

Abbreviation member_packet read exit_read r m :=
  (server_packet scfg (m_cfg m) (m_user m) (delivery read exit_read r m)).

Section server.
Variables (read : udp_addr → list Z → Prop) (exit_read : list Z → Prop).

Definition output_allowed (o : output) : Prop :=
  match o with
  | WriteToUDP r p => ∀ m, members !! r = Some m → member_packet read exit_read r m p
  | ExitWrite d => exit_delivery read d
  end.

(** The sessions are those of the clients. *)
Record known (s : server) : Prop := {
  kn_inv : server_inv s;
  kn_config : sv_config s = scfg;
  kn_sessions k l u : sv_sessions s !! k = Some l → sv_heap s !! l = Some u →
    ∃ m, members !! k.1.1 = Some m ∧ session_of_user (m_cfg m) (m_user m) u
}.

(** What an input leads to. *)
Definition good (r : option (server * list output)) : Prop :=
  ∀ s outs, r = Some (s, outs) → known s ∧ Forall output_allowed outs.

Lemma good_intro s outs : known s → Forall output_allowed outs → good (Some (s, outs)).
Proof. by intros Hs Ho s' outs' [= <- <-]. Qed.

Lemma known_touched s k l u now :
  known s → sv_sessions s !! k = Some l → sv_heap s !! l = Some u →
  known (touched s l (u <| se_lastSeen := now |>)).
Proof.
  intros [Hi Hc Hk] Hl Hu. split; [by eapply touched_inv|done|].
  intros k' l' u'. cbn [touched sv_sessions sv_heap]. intros Hl' Hu'.
  destruct (decide (l' = l)) as [->|Hne].
  - rewrite lookup_insert_eq in Hu'. injection Hu' as <-. destruct (Hk k' l u Hl' Hu) as (m & Hm & []).
    exists m. by split.
  - rewrite lookup_insert_ne in Hu' by done. eauto.
Qed.

Lemma known_without s k l u :
  known s → sv_sessions s !! k = Some l → sv_heap s !! l = Some u → known (without s k u).
Proof.
  intros [Hi Hc Hk] Hl Hu. split; [by eapply removeSessionLocked_spec|done|].
  intros k' l' u'. cbn [without sv_sessions sv_heap]. intros [_ Hl']%lookup_delete_Some. eauto.
Qed.

(** The session that has an address is the client's of that address. *)
Lemma known_target s a l u :
  known s → sv_byAddress s !! a = Some l → sv_heap s !! l = Some u →
  ∃ m, members !! se_remote u = Some m ∧ session_of_user (m_cfg m) (m_user m) u ∧
    u_address (m_user m) = a.
Proof.
  intros [Hi Hc Hk] Hl Hu. destruct (si_address _ Hi _ _ Hl) as (u' & Hu' & Ha & Hs).
  assert (u' = u) as -> by congruence. destruct (Hk _ _ _ Hs Hu) as (m & Hm & Hsu).
  destruct (si_sessions _ Hi _ _ Hs) as (u' & Hu'' & Hok). assert (u' = u) as -> by congruence.
  rewrite (so_remote _ _ _ _ Hok). exists m.
  split_and!; [done..|]. by rewrite <-(su_user _ _ _ Hsu).
Qed.

(** Data sent in a session. *)
Lemma send_data_allowed m u d :
  members !! se_remote u = Some m → session_of_user (m_cfg m) (m_user m) u →
  delivery read exit_read (se_remote u) m d →
  Forall output_allowed (send_data (sessionToOutbound u) d).
Proof.
  intros Hm Hu Hd. apply Forall_singleton. intros m' Hm'. cbn [sessionToOutbound o_remote] in Hm'.
  assert (m' = m) as -> by congruence. unfold sessionToOutbound. cbn [o_token o_sessionID o_encrypt o_xorKey].
  rewrite (su_encrypt _ _ _ Hu), (su_user _ _ _ Hu). apply server_data; [apply Hu|done].
Qed.

(** Data of a client, decrypted: to another client, to the exit device, back, or nowhere. *)
Lemma route_good s r m u data :
  known s → members !! r = Some m → session_of_user (m_cfg m) (m_user m) u →
  se_remote u = r → read r data →
  good (route_payload (sessionToOutbound u) data s).
Proof.
  intros Hs Hm Hu Hr Hd. unfold route_payload. rewrite (kn_config _ Hs).
  assert (good (Some (s, []))) as Hnone by by apply good_intro.
  assert (s_exit_enabled scfg = false →
    good (Some (s, send_data (sessionToOutbound u) data))) as Hback.
  { intros Hex. apply good_intro; [done|]. subst r. eapply send_data_allowed; [done..|].
    by apply sent_back. }
  destruct (parseIPv4Packet_total data) as [[e|ip] E]; rewrite E; cbn [mbind option_bind].
  { destruct (s_exit_enabled scfg); auto. }
  case_match eqn:Hstrict; [done|].
  assert (s_exit_enabled scfg = true → s_strictSource scfg = true → p_source ip = u_address (m_user m)) as Hsrc.
  { intros Hex Hst. rewrite Hex, Hst in Hstrict. cbn [andb] in Hstrict.
    rewrite negb_false_iff, bool_decide_eq_true in Hstrict. rewrite Hstrict.
    cbn [sessionToOutbound o_address]. by rewrite (su_user _ _ _ Hu). }
  destruct (outboundForAddress_spec s (p_destination ip) (kn_inv _ Hs))
    as [[-> _]|(l' & u' & Hl' & Hu' & _ & ->)]; cbn [mbind option_bind].
  - destruct (s_exit_enabled scfg) eqn:Hex; [|auto]. case_match; [done|].
    apply good_intro; [done|]. apply Forall_singleton. exists r, m, data, ip.
    split_and!; [done|done|exact E|done|auto].
  - destruct (known_target _ _ _ _ Hs Hl' Hu') as (m' & Hm' & Hsu' & Ha').
    apply good_intro; [done|]. eapply send_data_allowed; [done..|].
    by apply (from_client _ _ _ _ _ r m data ip).
Qed.

Lemma exit_good s payload :
  known s → s_exit_enabled scfg = true → exit_read payload → good (handleExitPacket payload s).
Proof.
  intros Hs Hex Hd. unfold handleExitPacket.
  destruct (parseIPv4Packet_total payload) as [[e|ip] E]; rewrite E; cbn [mbind option_bind];
    [by apply good_intro|].
  destruct (outboundForAddress_spec s (p_destination ip) (kn_inv _ Hs))
    as [[-> _]|(l' & u' & Hl' & Hu' & _ & ->)]; cbn [mbind option_bind]; (apply good_intro; [done|]); [done|].
  destruct (known_target _ _ _ _ Hs Hl' Hu') as (m' & Hm' & Hsu' & Ha').
  eapply send_data_allowed; [done..|]. by apply (from_exit _ _ _ _ _ payload ip).
Qed.

(** A session key that is in no entry of the table: nothing happens. *)
Lemma unknown_good now rnd r ty flag token sessionID rest s :
  known s → ids_ok token sessionID → ty ≠ packetOpen →
  sv_sessions s !! (r, token, sessionID) = None →
  good (handlePacket now rnd r (go_header ty flag token sessionID ++ rest) s).
Proof.
  intros Hs Hids Hty Hk. rewrite foreign_packet; [by apply good_intro| |by rewrite packet_key_go].
  cbn. congruence.
Qed.

Lemma open_good now rnd r m s :
  known s → members !! r = Some m → member_ok m →
  input_ok (Datagram now rnd r (open_packet (m_cfg m))) →
  good (handlePacket now rnd r (open_packet (m_cfg m)) s).
Proof.
  intros [Hi Hc Hk] Hm Hok Hin. pose proof (mo_cfg _ Hok) as Hcfg.
  pose proof (mo_valid _ Hok) as Hv.
  assert (s_users (sv_config s) !! c_str (cfg_username (m_cfg m)) = Some (m_user m)) as Hu
    by (rewrite Hc; apply Hok).
  destruct rnd as [[token sessionID]|].
  2:{ unfold open_packet. rewrite (open_unlucky _ (m_user m)); [by apply good_intro|done..|apply Hok]. }
  destruct (open_granted (m_cfg m) (m_user m) now r token sessionID s Hi Hcfg Hv Hin Hu)
    as (s' & l & E & Hi' & Hl & Hh & Hrest & Hc' & Hheap); [apply Hok|].
  set (c := granted _ _ _ _ _ _ _) in *. unfold open_packet. rewrite E.
  assert (session_of_user (m_cfg m) (m_user m) c) as Hsu
    by by apply session_granted; [apply Hi|..].
  apply good_intro.
  - split; [done|congruence|]. intros k l' u Hl' Hu'.
    destruct (decide (k = se_key c)) as [->|Hne].
    { assert (u = c) as -> by congruence. exists m. by split. }
    destruct (si_sessions _ Hi' _ _ Hl') as (u' & Hu'' & Hok'). assert (u' = u) as -> by congruence.
    destruct (decide (l' = l)) as [->|Hll].
    { assert (u = c) as -> by congruence. by destruct Hne; rewrite (so_key _ _ _ _ Hok'). }
    rewrite Hheap, lookup_insert_ne in Hu' by done. apply (Hk k l' u); [|done].
    by apply (Hrest k l' u Hne Hu').
  - apply Forall_singleton. intros m' Hm'. assert (m' = m) as -> by congruence.
    rewrite Hc. by apply server_openack.
Qed.

(** Any packet of a client. *)
Lemma serve_client now rnd r m p s :
  known s → members !! r = Some m → member_ok m → input_ok (Datagram now rnd r p) →
  client_packet (m_cfg m) (m_user m) (read r) p →
  good (handlePacket now rnd r p s).
Proof.
  intros Hs Hm Hok Hin Hp. pose proof (kn_inv _ Hs) as Hi.
  assert (∀ token sessionID l, sv_sessions s !! (r, token, sessionID) = Some l →
    ∃ u, sv_heap s !! l = Some u ∧ session_ok s (r, token, sessionID) l u ∧
      session_of_user (m_cfg m) (m_user m) u) as Hsess.
  { intros token sessionID l Hl. destruct (si_sessions _ Hi _ _ Hl) as (u & Hu & Hok').
    exists u. split_and!; [done..|]. destruct (kn_sessions _ Hs _ _ _ Hl Hu) as (m' & Hm' & Hsu).
    cbn [fst] in Hm'. by assert (m' = m) as -> by congruence. }
  destruct Hp as [|token sessionID payload Hids hdr|token sessionID Hids hdr|token sessionID data Hids Hd Hne].
  - by apply open_good.
  - destruct (sv_sessions s !! (r, token, sessionID)) as [l|] eqn:Hl; [|by apply unknown_good].
    destruct (Hsess _ _ _ Hl) as (u & Hu & Hok' & Hsu).
    rewrite (handlePacket_echo now rnd s (r, token, sessionID) l u Hi Hl Hu). cbn [fst snd].
    apply good_intro; [by eapply known_touched|]. apply Forall_singleton. intros m' Hm'.
    by apply server_echo.
  - destruct (sv_sessions s !! (r, token, sessionID)) as [l|] eqn:Hl; [|by apply unknown_good].
    destruct (Hsess _ _ _ Hl) as (u & Hu & Hok' & Hsu).
    destruct (handlePacket_close now rnd s (r, token, sessionID) l u Hi Hl Hu) as [E _].
    cbn [fst snd] in E. unfold hdr. rewrite E. apply good_intro; [by eapply known_without|done].
  - destruct (sv_sessions s !! (r, token, sessionID)) as [l|] eqn:Hl.
    2:{ rewrite buildDataPacket_layout by done. apply unknown_good; [done..| |done].
        by destruct (encrypts _ _). }
    destruct (Hsess _ _ _ Hl) as (u & Hu & Hok' & Hsu).
    pose proof (handlePacket_data now rnd s (r, token, sessionID) l u Hi Hl Hu data Hne) as E.
    cbn [fst snd] in E. rewrite (su_encrypt _ _ _ Hsu), (su_user _ _ _ Hsu) in E. rewrite E.
    eapply route_good; [by eapply known_touched|done|done|by apply Hok'|done].
Qed.

(** Anything from somebody else. *)
Lemma outsider_packet now rnd r p s :
  known s → outsider s r p →
  handlePacket now rnd r p s = Some (s, []) ∨
  handlePacket now rnd r p s = Some (s, [WriteToUDP r buildOpenReject]).
Proof.
  intros Hs [Hp Hr]. destruct (decide (head p = Some packetOpen)) as [Ho|Ho].
  - destruct (Z.ltb_spec (len p) 8) as [Hl|Hl].
    + left. unfold handlePacket. by rewrite (proj2 (Z.ltb_lt _ _)).
    + right. rewrite rejected_open; [done|done|done|by rewrite (kn_config _ Hs)].
  - left. rewrite foreign_packet; [done|done|]. destruct Hr as [Hr|[Hr|Hr]]; [|done..].
    destruct (sv_sessions s !! _) as [l|] eqn:Hl; [|done].
    destruct (si_sessions _ (kn_inv _ Hs) _ _ Hl) as (u & Hu & _).
    destruct (kn_sessions _ Hs _ _ _ Hl Hu) as (m & Hm & _). cbn in Hm. congruence.
Qed.

Lemma serve_outsider now rnd r p s : known s → outsider s r p → good (handlePacket now rnd r p s).
Proof.
  intros Hs Hp. destruct (outsider_packet now rnd r p s Hs Hp) as [-> | ->];
    (apply good_intro; [done|]); [done|].
  apply Forall_singleton. intros m Hm. apply server_openrej.
Qed.
End server.

(** ** The invariant of the system *)

Definition reads (N : net) (r : udp_addr) (d : list Z) : Prop := (r, d) ∈ n_read N.
Definition exit_reads (N : net) (d : list Z) : Prop := d ∈ n_exit_read N.
Definition sent_to (N : net) (r : udp_addr) (p : list Z) : Prop := (r, p) ∈ n_down N.

(** A running client has its account, and its own invariants. *)
Definition node_ok (N : net) (r : udp_addr) (nd : node) : Prop :=
  ∃ m, members !! r = Some m ∧ same_account (m_cfg m) (nd_cfg nd) ∧ cfg_ok (nd_cfg nd) ∧
    inv (nd_world nd) ∧ client_inv SA scfg (m_cfg m) (m_user m) (sent_to N r) (w_c (nd_world nd)).

Record net_inv (N : net) : Prop := {
  ni_server : known (n_server N);
  ni_nodes r nd : n_nodes N !! r = Some nd → node_ok N r nd;
  ni_up r p : (r, p) ∈ n_up N →
    ∃ m, members !! r = Some m ∧ client_packet (m_cfg m) (m_user m) (reads N r) p;
  ni_down r p m : (r, p) ∈ n_down N → members !! r = Some m →
    member_packet (reads N) (exit_reads N) r m p;
  ni_written r d : (r, d) ∈ n_written N →
    ∃ m, members !! r = Some m ∧ delivery (reads N) (exit_reads N) r m d;
  ni_exit d : d ∈ n_exit_written N → exit_delivery (reads N) d
}.

(** Histories only grow. *)
Record grows (N N' : net) : Prop := {
  gr_read r d : reads N r d → reads N' r d;
  gr_exit d : exit_reads N d → exit_reads N' d;
  gr_down r p : sent_to N r p → sent_to N' r p
}.

Lemma delivery_mono N N' r m d :
  grows N N' → delivery (reads N) (exit_reads N) r m d → delivery (reads N') (exit_reads N') r m d.
Proof.
  intros [Hr He _] [r' m' data ip Hm' Hd|data ip Hx Hd|Hx Hd].
  - apply (from_client _ _ _ _ _ r' m' data ip); auto.
  - apply (from_exit _ _ _ _ _ data ip); auto.
  - by apply sent_back; auto.
Qed.

Lemma exit_delivery_mono N N' d :
  grows N N' → exit_delivery (reads N) d → exit_delivery (reads N') d.
Proof. intros [Hr _ _] (r & m & data & ip & ? & ? & ?). exists r, m, data, ip. auto. Qed.

Lemma member_packet_mono N N' r m p :
  grows N N' → member_packet (reads N) (exit_reads N) r m p →
  member_packet (reads N') (exit_reads N') r m p.
Proof. intros Hg. apply server_packet_mono. intros d. by apply delivery_mono. Qed.

Lemma node_ok_mono N N' r nd : grows N N' → node_ok N r nd → node_ok N' r nd.
Proof.
  intros Hg (m & Hm & Hsame & Hcfg & Hi & Hc). exists m. split_and!; [done..|].
  eapply client_inv_mono; [|exact Hc]. intros p. apply (gr_down _ _ Hg).
Qed.

Lemma output_allowed_mono N N' o :
  grows N N' → output_allowed (reads N) (exit_reads N) o → output_allowed (reads N') (exit_reads N') o.
Proof.
  intros Hg. destruct o as [r p|d]; cbn [output_allowed].
  - intros Ho m Hm. eapply member_packet_mono; eauto.
  - by apply exit_delivery_mono.
Qed.

(** The server's inputs keep the invariant. *)
Lemma served_inv N N' s outs :
  net_inv N → grows N N' →
  n_server N' = n_server N → n_nodes N' = n_nodes N → n_up N' = n_up N → n_down N' = n_down N →
  n_written N' = n_written N → n_exit_written N' = n_exit_written N →
  known s → Forall (output_allowed (reads N') (exit_reads N')) outs →
  net_inv (served s outs N').
Proof.
  intros Hi Hg Es En Eu Ed Ew Ex Hs Ho.
  set (N2 := served s outs N').
  assert (grows N' N2) as Hg2.
  { split; [done|done|]. intros r p Hp. apply elem_of_app. by right. }
  assert (grows N N2) as Hg3.
  { destruct Hg, Hg2. split; auto. }
  split; [done|..].
  - intros r nd Hnd. eapply node_ok_mono; [exact Hg3|]. apply (ni_nodes _ Hi).
    cbn [N2 served n_nodes] in Hnd. change (n_nodes N' !! r = Some nd) in Hnd. by rewrite En in Hnd.
  - intros r p Hp. change ((r, p) ∈ n_up N') in Hp. rewrite Eu in Hp.
    destruct (ni_up _ Hi _ _ Hp) as (m & Hm & Hc). exists m. split; [done|].
    eapply client_packet_mono; [|exact Hc]. intros d. apply (gr_read _ _ Hg3).
  - intros r p m Hp Hm. change ((r, p) ∈ omap udp_output outs ++ n_down N') in Hp.
    apply elem_of_app in Hp as [Hp|Hp].
    + apply list_elem_of_omap in Hp as (o & Ho' & Ep). rewrite Forall_forall in Ho.
      specialize (Ho o Ho'). destruct o as [r' p'|]; [|done]. injection Ep as -> ->.
      eapply member_packet_mono; [exact Hg2|]. by apply Ho.
    + rewrite Ed in Hp. eapply member_packet_mono; [exact Hg3|]. by apply (ni_down _ Hi).
  - intros r d Hd. change ((r, d) ∈ n_written N') in Hd. rewrite Ew in Hd.
    destruct (ni_written _ Hi _ _ Hd) as (m & Hm & Hdel). exists m. split; [done|].
    by eapply delivery_mono.
  - intros d Hd. change (d ∈ omap exit_output outs ++ n_exit_written N') in Hd.
    apply elem_of_app in Hd as [Hd|Hd].
    + apply list_elem_of_omap in Hd as (o & Ho' & Ep). rewrite Forall_forall in Ho.
      specialize (Ho o Ho'). destruct o as [|d']; [done|]. injection Ep as ->.
      exact (exit_delivery_mono _ _ _ Hg2 Ho).
    + rewrite Ex in Hd. eapply exit_delivery_mono; [exact Hg3|]. by apply (ni_exit _ Hi).
Qed.

(** ** The clients' turns keep the invariant *)

(** A turn of a client obeys the protocol. *)
Lemma client_turn_obeys `{OSOk, TunBackend, !TunOk} cfg user R P D last w :
  cfg_ok cfg → c_str (cfg_server cfg) ≠ [] → sconfig_ok scfg →
  (∀ a, inet_pton (cfg_server cfg) = Some a → a = SA) →
  length (u_address user) = 4%nat ∧ bytes (u_address user) → be_decode (u_address user) ≠ 0 →
  (∀ p, R p → server_packet scfg cfg user P p) → inv w →
  wp (client_turn cfg last) w (λ t w', obeys SA scfg cfg user R P D w w' ∧ (t ≠ None → inv w')).
Proof.
  intros Hcfg Hsrv Hsc Hnum Ha Hz HR Hi. unfold client_turn. wp_step.
  eapply wp_mono; [by apply (main_turn_obeys SA scfg cfg user R P D)|].
  intros [|last'] w' [Hi' Ho]; [|by wp_step]. wp_step.
  eapply wp_mono; [by apply (main_cleanup_obeys SA scfg cfg user R P D)|].
  intros ? w'' Ho'. wp_step. split; [by transitivity w'|done].
Qed.

Section clients.
Hypothesis (Hsc : sconfig_ok scfg).
Hypothesis (Hmembers : map_Forall (λ _ m, member_ok m) members).

Lemma member_key m :
  member_ok m →
  u_xorKey (m_user m) =
  take 8 (md5_spec (c_str (cfg_username (m_cfg m)) ++ c_str (cfg_password (m_cfg m)))).
Proof.
  intros Hok. rewrite (sc_key _ Hsc _ _ (mo_user _ Hok)), (sc_name _ Hsc _ _ (mo_user _ Hok)).
  by rewrite (mo_password _ Hok).
Qed.

(** What a client reads is recorded. *)
Lemma deliverable_env N r m cfg new (D : list Z → Prop) :
  member_ok m → cfg_port cfg = cfg_port (m_cfg m) →
  (∀ d, d ∈ omap data_read new → D d) → Forall (deliverable N r) new →
  Forall (env_ok SA cfg (sent_to N r) D) new.
Proof.
  intros Hok Hp HD Hn. rewrite Forall_forall in Hn |- *. intros [s res] Hev. specialize (Hn _ Hev).
  destruct s; cbn [env_ok deliverable] in *; try done.
  - destruct res as [d|]; [|done]. apply HD, list_elem_of_omap. by eexists.
  - destruct res as [[[p addr] port]|]; [|done]. rewrite Hp, (mo_port _ Hok). done.
Qed.

(** The traffic of a client's calls joins the network's. *)
Lemma absorb_inv N r m nodes new :
  net_inv N → members !! r = Some m →
  let N' := absorb r new (N <| n_nodes := nodes |>) in
  (∀ r' nd, nodes !! r' = Some nd → n_nodes N !! r' = Some nd ∨ r' = r ∧ node_ok N r nd) →
  Forall (emits (m_cfg m) (m_user m) (delivery (reads N) (exit_reads N) r m) (reads N' r)) new →
  net_inv N'.
Proof.
  intros Hi Hm N' Hnodes Hem. rewrite Forall_forall in Hem.
  assert (grows N N') as Hg.
  { split; [|done|done]. intros r' d Hd. apply elem_of_app. by right. }
  assert (∀ f (x : list Z) r', (r', x) ∈ pair r <$> omap f new → r' = r ∧ ∃ ev, ev ∈ new ∧ f ev = Some x) as Hin.
  { intros f x r' (x' & [= -> ->] & Hx)%list_elem_of_fmap. by apply list_elem_of_omap in Hx. }
  split.
  - apply Hi.
  - intros r' nd Hnd. eapply node_ok_mono; [exact Hg|].
    destruct (Hnodes r' nd Hnd) as [Hold|[-> Hnew]]; [by apply Hi|done].
  - intros r' p [Hp|Hp]%elem_of_app.
    + apply Hin in Hp as (-> & [s res] & Hev & Hf). exists m. split; [done|].
      specialize (Hem _ Hev). destruct s; try done. cbn [datagram_to] in Hf. case_match; [|done].
      by injection Hf as <-.
    + destruct (ni_up _ Hi _ _ Hp) as (m' & Hm' & Hc). exists m'. split; [done|].
      eapply client_packet_mono; [|exact Hc]. intros d. apply (gr_read _ _ Hg).
  - intros r' p m' Hp Hm'. eapply member_packet_mono; [exact Hg|]. by apply (ni_down _ Hi).
  - intros r' d [Hd|Hd]%elem_of_app.
    + apply Hin in Hd as (-> & [s res] & Hev & Hf). exists m. split; [done|].
      specialize (Hem _ Hev). destruct s; try done. injection Hf as <-.
      by eapply delivery_mono.
    + destruct (ni_written _ Hi _ _ Hd) as (m' & Hm' & Hdel). exists m'. split; [done|].
      by eapply delivery_mono.
  - intros d Hd. eapply exit_delivery_mono; [exact Hg|]. by apply Hi.
Qed.

Lemma new_reads N r new nodes d :
  d ∈ omap data_read new → reads (absorb r new (N <| n_nodes := nodes |>)) r d.
Proof. intros Hd. apply elem_of_app. left. apply list_elem_of_fmap. eauto. Qed.

Lemma turns_inv `{OSOk, TunBackend, !TunOk} N r nd t w new :
  net_inv N → n_nodes N !! r = Some nd →
  client_turn (nd_cfg nd) (nd_last nd) (nd_world nd) = Some (t, w) →
  w_t w = new ++ w_t (nd_world nd) → Forall (deliverable N r) new →
  net_inv (absorb r new (N <| n_nodes := match t with
    | Some last => <[r := mk_node (nd_cfg nd) last w]> (n_nodes N)
    | None => delete r (n_nodes N) end |>)).
Proof.
  intros Hi Hnd Et Ew Hdel. destruct (ni_nodes _ Hi _ _ Hnd) as (m & Hm & Hsame & Hcfg & Hinv & Hc).
  pose proof (Hmembers _ _ Hm) as Hok. cbv beta in Hok.
  set (nodes := match t with Some _ => _ | None => _ end).
  set (N' := absorb r new _).
  destruct (wp_exact_with _ _ _ _ _ Et (client_turn_obeys (nd_cfg nd) (m_user m) (sent_to N r)
    (delivery (reads N) (exit_reads N) r m) (reads N' r) (nd_last nd) (nd_world nd) Hcfg
    ltac:(rewrite (sa_server _ _ Hsame); apply (proj1 (cfg_valid_iff _) (mo_valid _ Hok)))
    Hsc ltac:(rewrite (sa_server _ _ Hsame); apply Hok)
    (sc_octets _ Hsc _ _ (mo_user _ Hok)) (mo_address _ Hok)
    ltac:(intros p Hp; apply (server_packet_same Hsame), (ni_down _ Hi); done) Hinv))
    as [(new' & Ew' & Hob) Hinv'].
  rewrite Ew in Ew'. apply app_inv_tail in Ew' as <-.
  destruct Hob as [Hc' Hem].
  { apply (deliverable_env N r m); [done|by rewrite (sa_port _ _ Hsame)| |done]. intros d. apply new_reads. }
  { by apply (client_inv_same_account Hsame). }
  apply (absorb_inv N r m nodes new); [done|done| |].
  - intros r' nd' Hnd'. unfold nodes in Hnd'. destruct t as [last|].
    + apply lookup_insert_Some in Hnd' as [[<- <-]|[_ ?]]; [right|by left]. split; [done|].
      exists m. split_and!; [done..|by apply Hinv'|]. by apply (client_inv_same_account Hsame).
    + apply lookup_delete_Some in Hnd' as [_ ?]. by left.
  - eapply Forall_impl; [exact Hem|]. intros [sy res]. destruct sy; try done. cbn [emits].
    apply (client_packet_same Hsame).
Qed.

Lemma starts_inv `{OSOk, TunBackend, !TunOk} N r m cfg last w :
  net_inv N → members !! r = Some m →
  main_init (m_cfg m) (mk_world client_init []) = Some (Some (cfg, last), w) →
  Forall (deliverable N r) (w_t w) →
  net_inv (absorb r (w_t w) (N <| n_nodes := <[r := mk_node cfg last w]> (n_nodes N) |>)).
Proof.
  intros Hi Hm E Hdel. pose proof (Hmembers _ _ Hm) as Hok. cbv beta in Hok.
  set (N' := absorb r _ _).
  pose proof (wp_exact_with _ _ _ _ _ E (wp_main_init (m_cfg m) (mk_world client_init [])
    (mo_cfg _ Hok) client_init_ok eq_refl)) as (Hcfg & Hinv & _).
  destruct (wp_exact_with _ _ _ _ _ E (main_init_obeys SA scfg (m_cfg m) (m_user m) (sent_to N r)
    (delivery (reads N) (exit_reads N) r m) (reads N' r) (mo_cfg _ Hok)
    ltac:(apply (proj1 (cfg_valid_iff _) (mo_valid _ Hok))) (mo_server _ Hok)
    (sc_octets _ Hsc _ _ (mo_user _ Hok)) (member_key _ Hok))
    cfg last eq_refl) as [Hsame Hob].
  destruct Hob as [Hc Hem].
  { apply (deliverable_env N r m); [done|done| |done]. intros d. apply new_reads. }
  apply (absorb_inv N r m); [done|done| |exact Hem].
  intros r' nd [[<- <-]|[_ ?]]%lookup_insert_Some; [right|by left]. split; [done|].
  exists m. by split_and!.
Qed.

Lemma step_inv N N' : net_inv N → step N N' → net_inv N'.
Proof.
  intros Hi Hstep. pose proof (ni_server _ Hi) as Hs.
  destruct Hstep as [r m o b cfg last w Ho Hb Hm Hr E Hdel|r nd o b t w new Ho Hb Hnd E Ew Hdel
    |now rnd r p s outs Hp Hin E|now rnd r p s outs Hp E|payload s outs Hex E].
  - by eapply starts_inv.
  - by eapply turns_inv.
  - destruct (ni_up _ Hi _ _ Hp) as (m & Hm & Hcl).
    destruct (serve_client (reads N) (exit_reads N) now rnd r m p (n_server N) Hs Hm
      (Hmembers _ _ Hm) Hin Hcl s outs E). by apply (served_inv N N).
  - destruct (serve_outsider (reads N) (exit_reads N) now rnd r p (n_server N) Hs Hp s outs E).
    by apply (served_inv N N).
  - set (N2 := N <| n_exit_read := payload :: n_exit_read N |>).
    assert (grows N N2) as Hg by (split; [done|intros d Hd; by apply elem_of_cons; right|done]).
    destruct (exit_good (reads N2) (exit_reads N2) (n_server N) payload Hs Hex
      ltac:(by apply elem_of_cons; left) s outs E). by apply (served_inv N N2).
Qed.

Lemma start_inv : net_inv net_start.
Proof.
  split; try (intros *; cbn; rewrite ?lookup_empty, ?elem_of_nil; done).
  split; [by apply newServer_inv|done|]. intros k l u. cbn. by rewrite lookup_empty.
Qed.

Lemma reachable_inv N : reachable N → net_inv N.
Proof.
  intros Hr. unfold reachable in Hr. remember net_start as N0 eqn:E.
  assert (net_inv N0) as Hi by (rewrite E; exact start_inv). clear E.
  induction Hr as [|N0 N1 N2 Hstep _ IH]; [done|]. by apply IH, (step_inv N0).
Qed.

(** A client of a reachable system runs its next turn, and only adds to its history. *)
Lemma client_turn_runs `{OSOk, TunBackend, !TunOk} N r nd :
  net_inv N → n_nodes N !! r = Some nd →
  ∃ t w new, client_turn (nd_cfg nd) (nd_last nd) (nd_world nd) = Some (t, w) ∧
    w_t w = new ++ w_t (nd_world nd).
Proof.
  intros Hi Hnd. destruct (ni_nodes _ Hi _ _ Hnd) as (m & Hm & Hsame & Hcfg & Hinv & _).
  pose proof (Hmembers _ _ Hm) as Hok. cbv beta in Hok.
  destruct (wp_run _ _ _ (client_turn_obeys (nd_cfg nd) (m_user m) (sent_to N r)
    (delivery (reads N) (exit_reads N) r m) (λ _, True) (nd_last nd) (nd_world nd) Hcfg
    ltac:(rewrite (sa_server _ _ Hsame); apply (proj1 (cfg_valid_iff _) (mo_valid _ Hok)))
    Hsc ltac:(rewrite (sa_server _ _ Hsame); apply Hok)
    (sc_octets _ Hsc _ _ (mo_user _ Hok)) (mo_address _ Hok)
    ltac:(intros p Hp; apply (server_packet_same Hsame), (ni_down _ Hi); done) Hinv))
    as (t & w & E & (new & Ew & _) & _). eauto.
Qed.

(** ** The theorems *)

(** C2: end-to-end integrity.  Whatever the network loses, duplicates, delays or reorders, and
    whatever others send: every packet written to a client's TUN device is one that the
    device of a client delivered, as an IPv4 packet for the address of the receiver (with an
    exit device: cut to the length of its header, and from the sender's own address when
    sources are checked), or that the exit device delivered for that address; without an
    exit device, a client may also be sent its own packets back. *)
Theorem integrity N r d :
  reachable N → (r, d) ∈ n_written N →
  ∃ m, members !! r = Some m ∧ delivery (reads N) (exit_reads N) r m d.
Proof. intros Hr Hd. by apply (ni_written _ (reachable_inv _ Hr)). Qed.

(** C15: what reaches the exit device is an IPv4 packet that the device of a client delivered, cut
    to its length, and from the client's own address when sources are checked. *)
Theorem exit_integrity N d :
  reachable N → d ∈ n_exit_written N → exit_delivery (reads N) d.
Proof. intros Hr Hd. by apply (ni_exit _ (reachable_inv _ Hr)). Qed.

(** C6: the two ends agree on sessions: a client in session has the token, identifier, encryption
    flag and address of a session that the server granted to it, and the key of its user. *)
Theorem sessions_agree N r nd :
  reachable N → n_nodes N !! r = Some nd → c_state (w_c (nd_world nd)) = STATE_ESTABLISHED →
  let c := w_c (nd_world nd) in
  ∃ m u, members !! r = Some m ∧ session_of_user (m_cfg m) (m_user m) u ∧
    (r, openack_packet scfg u) ∈ n_down N ∧
    le_encode 2 (c_session_token c) = (se_key u).1.2 ∧ le_encode 4 (c_session_id c) = (se_key u).2 ∧
    c_encrypt c = flag_of (se_encrypt u) ∧ be_encode 4 (c_peer_ip c) = u_address (m_user m) ∧
    c_xor_key c = u_xorKey (m_user m).
Proof.
  intros Hr Hnd Hs c. pose proof (reachable_inv _ Hr) as Hi.
  destruct (ni_nodes _ Hi _ _ Hnd) as (m & Hm & _ & _ & _ & Hc).
  destruct (ci_session _ _ _ _ _ _ Hc Hs) as (u & Hu & Hp & Ht & Hid & He & Hip).
  destruct (sc_octets _ Hsc _ _ (mo_user _ (Hmembers _ _ Hm))) as [Hl Hb].
  exists m, u. split_and!; [done..| | |apply Hc].
  - by rewrite (su_encrypt _ _ _ Hu).
  - unfold c. rewrite Hip, <-Hl. by apply be_encode_decode.
Qed.

(** C14: no two clients in session use the same address, unless they share an account. *)
Theorem addresses_distinct N r1 r2 nd1 nd2 m1 m2 :
  reachable N → n_nodes N !! r1 = Some nd1 → n_nodes N !! r2 = Some nd2 →
  c_state (w_c (nd_world nd1)) = STATE_ESTABLISHED → c_state (w_c (nd_world nd2)) = STATE_ESTABLISHED →
  members !! r1 = Some m1 → members !! r2 = Some m2 →
  c_str (cfg_username (m_cfg m1)) ≠ c_str (cfg_username (m_cfg m2)) →
  c_peer_ip (w_c (nd_world nd1)) ≠ c_peer_ip (w_c (nd_world nd2)).
Proof.
  intros Hr Hn1 Hn2 Hs1 Hs2 Hm1 Hm2 Hne Heq. pose proof (reachable_inv _ Hr) as Hi.
  destruct (ni_nodes _ Hi _ _ Hn1) as (m & Hm & _ & _ & _ & Hc1).
  assert (m = m1) as -> by congruence. clear Hm.
  destruct (ni_nodes _ Hi _ _ Hn2) as (m & Hm & _ & _ & _ & Hc2).
  assert (m = m2) as -> by congruence. clear Hm.
  destruct (ci_session _ _ _ _ _ _ Hc1 Hs1) as (_ & _ & _ & _ & _ & _ & Hip1).
  destruct (ci_session _ _ _ _ _ _ Hc2 Hs2) as (_ & _ & _ & _ & _ & _ & Hip2).
  pose proof (mo_user _ (Hmembers _ _ Hm1)) as Hu1. pose proof (mo_user _ (Hmembers _ _ Hm2)) as Hu2.
  destruct (sc_octets _ Hsc _ _ Hu1) as [Hl1 Hb1]. destruct (sc_octets _ Hsc _ _ Hu2) as [Hl2 Hb2].
  apply Hne, (sc_address _ Hsc _ _ _ _ Hu1 Hu2).
  rewrite <-(be_encode_decode _ Hb1), <-(be_encode_decode _ Hb2), Hl1, Hl2. congruence.
Qed.

(** C16: nothing gets stuck: in every state the system can reach, every client's next turn is
    defined on any operating system, the server handles any input, and its session table is
    consistent. *)
Theorem network_total N :
  reachable N →
  server_inv (n_server N) ∧
  (∀ i, input_ok i → ∃ s outs, serve i (n_server N) = Some (s, outs)) ∧
  (∀ r nd (o : OS) (b : TunBackend), OSOk → TunOk → n_nodes N !! r = Some nd →
    ∃ t w new, client_turn (nd_cfg nd) (nd_last nd) (nd_world nd) = Some (t, w) ∧
      w_t w = new ++ w_t (nd_world nd)).
Proof.
  intros Hr. pose proof (reachable_inv _ Hr) as Hi. pose proof (kn_inv _ (ni_server _ Hi)) as Hs.
  split_and!; [done| |].
  - intros i Hin. destruct (serve_handled i (n_server N) Hs Hin) as (s & outs & E & _). eauto.
  - intros r nd o b Ho Hb Hnd.
    by apply (client_turn_runs N r).
Qed.

(** C17: who has neither a password nor a session has no influence, whatever the source address:
    the server's state stays the same, and at most an OPENREJ goes back to that address. *)
Theorem outsider_ignored N now rnd r p :
  reachable N → outsider (n_server N) r p →
  handlePacket now rnd r p (n_server N) = Some (n_server N, []) ∨
  handlePacket now rnd r p (n_server N) = Some (n_server N, [WriteToUDP r buildOpenReject]).
Proof.
  intros Hr Hp. pose proof (ni_server _ (reachable_inv _ Hr)) as Hs. by apply outsider_packet.
Qed.
End clients.
End network.
