(* ===== verification/Runs.v ===== *)
(** Runs of the system of [Network] that can be computed: clients on a simple operating
    system ([driver]) that is told, turn by turn, what is readable and what the time is.
    [exec] runs one step and is sound for [step], so that concrete executions witness the
    theorems of [Network]. *)
From stdpp Require Import gmap.
From S2P Require Import Prelude Libc Md5 Aes Client Config Os Tun TunLinux CMonad Packet OpenAck Frag.
From S2P Require Import Protocol Server Recv Machine Main Interop Traffic Network.

(** ** A system that does as it is told *)

(** What the calls of one turn return: whether a reconnection was asked for, the result of
    poll ([None]: interrupted), the time, the descriptor of a new socket, the address of a
    name, what the device and the socket deliver. *)
Record driver := mk_driver {
  dr_reconnect : bool; dr_poll : option (list bool); dr_clock : Z; dr_socket : Z;
  dr_lookup : option Z; dr_read : option (list Z); dr_recv : option (list Z * Z * Z) }.

(** Data that fit the buffer they are asked for. *)
Definition fits (n : Z) (d : list Z) : bool := bool_decide (len d ≤ n ∧ bytes d).

Definition driver_os (d : driver) : OS := λ tr s,
  match s return resp s with
  | SClock => (u32 (dr_clock d), 0)
  | SSocket => dr_socket d
  | SReconnect => dr_reconnect d
  | SPoll fds => match dr_poll d with
                 | None => PollEintr | Some l => PollOk (resize (length fds) false l) end
  | SGetaddrinfo _ => dr_lookup d
  | SRead _ n => x ← dr_read d; if fits n x then Some x else None
  | SRecvfrom _ n => x ← dr_recv d; if fits n x.1.1 then Some x else None
  | s => still_os tr s
  end.

Lemma driver_os_ok d : @OSOk (driver_os d).
Proof.
  split; try done.
  - intros tr. cbn. pose proof (u32_is (dr_clock d)) as [? _]. lia.
  - intros tr fd n x. cbn. destruct (dr_read d) as [y|]; [|done]. cbn. unfold fits.
    case_bool_decide; [|done]. by intros [= <-].
  - intros tr fd n x a p. cbn. destruct (dr_recv d) as [[[y a'] p']|]; [|done]. cbn. unfold fits.
    case_bool_decide; [|done]. by intros [= <- <- <-].
  - intros tr fds rev. cbn. destruct (dr_poll d); [|done]. intros [= <-]. apply length_resize.
Qed.
Abbreviation driver_linux d := (@Linux.backend (driver_os d)).

(** ** Steps that compute *)

Inductive command :=
  | Start (r : udp_addr) (d : driver)
  | Turn (r : udp_addr) (d : driver)
  | Deliver (r : udp_addr) (d : driver) (i : nat)   (* a turn; the i-th datagram sent by it *)
  | Serve (now : Z) (rnd : option (list Z * list Z)) (i : nat)   (* the i-th datagram sent to it *)
  | FromExitDevice (payload : list Z).

Section runs.
Variables (SA SP : Z) (scfg : normalizedConfig) (members : gmap udp_addr member).

#[export] Instance deliverable_dec N r ev : Decision (deliverable SA SP N r ev).
Proof. destruct ev as [[] res]; cbn [deliverable]; try apply _; repeat case_match; apply _. Defined.
#[export] Instance input_ok_dec i : Decision (input_ok i).
Proof. destruct i as [now [[token sessionID]|] r p|]; cbn [input_ok]; unfold ids_ok; apply _. Defined.

Definition exec_turn (r : udp_addr) (d : driver) (N : net) : option net :=
  nd ← n_nodes N !! r;
  '(t, w) ← client_turn (H := driver_os d) (H0 := driver_linux d) (nd_cfg nd) (nd_last nd) (nd_world nd);
  let new := take (length (w_t w) - length (w_t (nd_world nd))) (w_t w) in
  if decide (Forall (deliverable SA SP N r) new)
  then Some (absorb SA SP r new (N <| n_nodes := match t with
         | Some last => <[r := mk_node (nd_cfg nd) last w]> (n_nodes N)
         | None => delete r (n_nodes N) end |>))
  else None.

Definition exec (c : command) (N : net) : option net :=
  match c with
  | Start r d =>
      m ← members !! r;
      match n_nodes N !! r, main_init (H := driver_os d) (H0 := driver_linux d) (m_cfg m) (mk_world client_init []) with
      | None, Some (Some (cfg, last), w) =>
          if decide (Forall (deliverable SA SP N r) (w_t w))
          then Some (absorb SA SP r (w_t w) (N <| n_nodes := <[r := mk_node cfg last w]> (n_nodes N) |>))
          else None
      | _, _ => None
      end
  | Turn r d => exec_turn r d N
  | Deliver r d i =>
      '(_, p) ← n_down N !! i;
      exec_turn r (mk_driver (dr_reconnect d) (dr_poll d) (dr_clock d) (dr_socket d) (dr_lookup d)
        (dr_read d) (Some (p, SA, SP))) N
  | Serve now rnd i =>
      '(r, p) ← n_up N !! i;
      if decide (input_ok (Datagram now rnd r p)) then
        '(s, outs) ← handlePacket now rnd r p (n_server N); Some (served s outs N)
      else None
  | FromExitDevice payload =>
      if s_exit_enabled scfg then
        '(s, outs) ← handleExitPacket payload (n_server N);
        Some (served s outs (N <| n_exit_read := payload :: n_exit_read N |>))
      else None
  end.

Fixpoint exec_all (cs : list command) (N : net) : option net :=
  match cs with [] => Some N | c :: cs => N ← exec c N; exec_all cs N end.

Hypothesis (Hsc : sconfig_ok scfg).
Hypothesis (Hmembers : map_Forall (λ _ m, member_ok SA SP scfg m) members).

Lemma exec_turn_sound r d N N' :
  reachable SA SP scfg members N → exec_turn r d N = Some N' → step SA SP scfg members N N'.
Proof.
  intros Hr. pose proof (reachable_inv _ _ _ _ Hsc Hmembers _ Hr) as Hi. unfold exec_turn.
  destruct (n_nodes N !! r) as [nd|] eqn:Hnd; cbn [mbind option_bind]; [|done].
  destruct (client_turn_runs (H := driver_os d) (H0 := driver_os_ok d) (H1 := driver_linux d)
    (H2 := Linux.linux_tun_ok) SA SP scfg members Hsc Hmembers N r nd Hi Hnd)
    as (t & w & new & E & Ew). rewrite E. cbn [mbind option_bind].
  assert (take (length (w_t w) - length (w_t (nd_world nd))) (w_t w) = new) as ->.
  { rewrite Ew. apply take_app_length'. rewrite length_app. lia. }
  case_decide; [|done]. intros [= <-].
  eapply (client_turns _ _ _ _ _ _ _ (driver_os d) (driver_linux d)); try done.
  - apply driver_os_ok.
  - apply Linux.linux_tun_ok.
Qed.

Lemma exec_sound c N N' :
  reachable SA SP scfg members N → exec c N = Some N' → step SA SP scfg members N N'.
Proof.
  intros Hr. destruct c as [r d|r d|r d i|now rnd i|payload]; cbn [exec].
  - destruct (members !! r) as [m|] eqn:Hm; cbn [mbind option_bind]; [|done].
    destruct (n_nodes N !! r) eqn:Hn; [done|].
    destruct (main_init _ _) as [[[[cfg last]|] w]|] eqn:E; [|done..]. case_decide; [|done].
    intros [= <-]. eapply (client_starts _ _ _ _ _ _ _ (driver_os d) (driver_linux d)); try done.
    + apply driver_os_ok.
    + apply Linux.linux_tun_ok.
  - by apply exec_turn_sound.
  - destruct (n_down N !! i) as [[r' p]|]; [|done]. by apply exec_turn_sound.
  - destruct (n_up N !! i) as [[r p]|] eqn:Hp; cbn [mbind option_bind]; [|done].
    case_decide; [|done]. destruct (handlePacket _ _ _ _ _) as [[s outs]|] eqn:E; [|done].
    intros [= <-]. eapply server_handles; [by eapply list_elem_of_lookup_2|done..].
  - destruct (s_exit_enabled scfg) eqn:Hex; [|done].
    destruct (handleExitPacket _ _) as [[s outs]|] eqn:E; [|done]. intros [= <-].
    by eapply exit_delivers.
Qed.

Lemma exec_all_reachable cs N N' :
  reachable SA SP scfg members N → exec_all cs N = Some N' → reachable SA SP scfg members N'.
Proof.
  revert N. induction cs as [|c cs IH]; intros N Hr; cbn [exec_all]; [by intros [= <-]|].
  destruct (exec c N) as [N1|] eqn:E; [|done]. cbn [mbind option_bind]. apply IH.
  eapply rtc_r; [exact Hr|]. by eapply exec_sound.
Qed.
End runs.

(** ** An execution

    Two clients ask for sessions and get them; the first sends a packet to the second. *)

Definition sample_SA : Z := htonl 0xC0000201.
Definition peer_cfg : config :=
  sample_cfg <| cfg_username := buf_of 32 (lit "bob") |> <| cfg_password := buf_of 32 (lit "pw") |>.
Definition sample_members : gmap udp_addr member :=
  <[sample_remote := mk_member sample_cfg sample_user]> (<[peer_remote := mk_member peer_cfg sample_peer]> ∅).

(** Nothing to read at time [t]; the socket is readable; a packet of the device. *)
Definition idle (t : Z) : driver := mk_driver false (Some []) t 4 None None None.
Definition receives (t : Z) : driver := mk_driver false (Some [false; true]) t 4 None None None.
Definition reads_ip (t : Z) (d : list Z) : driver := mk_driver false (Some [true]) t 4 None (Some d) None.
Definition reconnects_at (t : Z) : driver := mk_driver true None t 4 None None None.

(** Start, ask for a session, be answered, and handle the answer. *)
Definition connect (r : udp_addr) (ids : list Z * list Z) : list command :=
  [Start r (idle 100); Turn r (idle 101); Serve 0 (Some ids) 0; Deliver r (receives 101) 0].

(** The same server with an exit device, checking the sources. *)
Definition exit_sconfig : normalizedConfig :=
  mk_sconfig (s_listen sample_sconfig) (s_mtu sample_sconfig) (s_dns sample_sconfig)
    (mk_exit true (lit "iwan0") ([10; 0; 0; 1], 24) 1400 true) (s_users sample_sconfig).

Lemma exit_sconfig_ok : sconfig_ok exit_sconfig.
Proof. destruct sample_sconfig_ok. by split. Qed.

Lemma peer_cfg_ok : cfg_ok peer_cfg.
Proof.
  apply with_password_ok; [|refine (bool_decide_unpack _ _); vm_compute; exact I].
  pose proof sample_cfg_ok as H. destruct sample_cfg. destruct H. split; try assumption.
  refine (bool_decide_unpack _ _). vm_compute. exact I.
Qed.

Lemma sample_members_ok scfg :
  s_users scfg = s_users sample_sconfig →
  map_Forall (λ _ m, member_ok sample_SA 8000 scfg m) sample_members.
Proof.
  intros Hu. apply map_Forall_insert_2; [|apply map_Forall_insert_2; [|apply map_Forall_empty]].
  - split; cbn [m_cfg m_user].
    + exact sample_cfg_ok.
    + vm_compute. reflexivity.
    + vm_compute. reflexivity.
    + vm_compute. by intros a [= <-].
    + rewrite Hu. vm_compute. reflexivity.
    + vm_compute. reflexivity.
    + vm_compute. discriminate.
  - split; cbn [m_cfg m_user].
    + exact peer_cfg_ok.
    + vm_compute. reflexivity.
    + vm_compute. reflexivity.
    + vm_compute. by intros a [= <-].
    + rewrite Hu. vm_compute. reflexivity.
    + vm_compute. reflexivity.
    + vm_compute. discriminate.
Qed.

(** The state that a run ends in. *)
Definition run_from_start (scfg : normalizedConfig) (cs : list command) : option net :=
  exec_all sample_SA 8000 scfg sample_members cs (net_start scfg).
Definition final (scfg : normalizedConfig) (cs : list command) : net :=
  default (net_start scfg) (run_from_start scfg cs).

Lemma final_reachable scfg cs :
  sconfig_ok scfg → s_users scfg = s_users sample_sconfig →
  reachable sample_SA 8000 scfg sample_members (final scfg cs).
Proof.
  intros Hsc Hu. unfold final. destruct (run_from_start scfg cs) as [N|] eqn:E; [|constructor].
  eapply exec_all_reachable; [done|by apply sample_members_ok|constructor|exact E].
Qed.

Lemma members_ok : map_Forall (λ _ m, member_ok sample_SA 8000 sample_sconfig m) sample_members.
Proof. by apply sample_members_ok. Qed.
Lemma exit_members_ok : map_Forall (λ _ m, member_ok sample_SA 8000 exit_sconfig m) sample_members.
Proof. by apply sample_members_ok. Qed.

(** Both clients connect, and the first sends a packet to the second. *)
Definition exchange : list command :=
  connect sample_remote ([1; 2], [3; 4; 5; 6]) ++ connect peer_remote ([7; 8], [9; 10; 11; 12]) ++
  [Turn sample_remote (reads_ip 101 sample_ip); Serve 1 None 0; Deliver peer_remote (receives 101) 0].

Definition states_of (N : net) : list (option Z) :=
  (λ r, (λ nd, c_state (w_c (nd_world nd))) <$> n_nodes N !! r) <$> [sample_remote; peer_remote].

Example exchange_delivers :
  (λ N, (n_written N, states_of N)) <$> run_from_start sample_sconfig exchange =
  Some ([(peer_remote, sample_ip)], [Some STATE_ESTABLISHED; Some STATE_ESTABLISHED]).
Proof. vm_compute. reflexivity. Qed.

Abbreviation exchanged := (final sample_sconfig exchange).
Lemma exchanged_reachable : reachable sample_SA 8000 sample_sconfig sample_members exchanged.
Proof. by apply final_reachable; [apply sample_sconfig_ok|]. Qed.

(** The first client connects, and sends a packet to an address that no client has: it goes
    to the exit device, which answers. *)
Definition to_exit : list command :=
  connect sample_remote ([1; 2], [3; 4; 5; 6]) ++
  [Turn sample_remote (reads_ip 101 sample_ip); Serve 1 None 0;
   FromExitDevice (take 12 sample_ip ++ [10; 0; 0; 3; 10; 0; 0; 2; 42]); Deliver sample_remote (receives 101) 0].

Abbreviation exited := (final exit_sconfig to_exit).
Example to_exit_delivers :
  (n_exit_written exited, n_written exited) =
  ([sample_ip], [(sample_remote, take 12 sample_ip ++ [10; 0; 0; 3; 10; 0; 0; 2; 42])]).
Proof. vm_compute. reflexivity. Qed.

(** A client connects, starts over (which sends CLOSE) and asks again; its request is lost,
    but the old OPENACK is delivered a second time. *)
Definition stale : list command :=
  connect sample_remote ([1; 2], [3; 4; 5; 6]) ++
  [Turn sample_remote (reconnects_at 102); Serve 1 None 0; Turn sample_remote (idle 103);
   Deliver sample_remote (receives 103) 0].

(** The two ends need not agree on what sessions exist: an OPENACK names no request, so that
    a delayed copy of an old one is accepted while the client waits for the answer to a new
    request.  The client is then in session, without a session at the server. *)
Theorem stale_session :
  ∃ N nd, reachable sample_SA 8000 sample_sconfig sample_members N ∧
    n_nodes N !! sample_remote = Some nd ∧ c_state (w_c (nd_world nd)) = STATE_ESTABLISHED ∧
    sv_sessions (n_server N) = ∅.
Proof.
  assert (bool_decide (sv_sessions (n_server (final sample_sconfig stale)) = ∅) = true) as He
    by by vm_compute.
  assert ((λ nd, c_state (w_c (nd_world nd))) <$> n_nodes (final sample_sconfig stale) !! sample_remote =
    Some STATE_ESTABLISHED) as Hs by by vm_compute.
  apply fmap_Some in Hs as (nd & Hnd & Hs). exists (final sample_sconfig stale), nd.
  split_and!; [by apply final_reachable; [apply sample_sconfig_ok|]|done|done|by apply bool_decide_eq_true_1 in He].
Qed.

(** ** The theorems of [Network], in these executions *)

Lemma exited_reachable : reachable sample_SA 8000 exit_sconfig sample_members exited.
Proof. by apply final_reachable; [apply exit_sconfig_ok|]. Qed.

Lemma established_in N r :
  (λ nd, c_state (w_c (nd_world nd))) <$> n_nodes N !! r = Some STATE_ESTABLISHED →
  ∃ nd, n_nodes N !! r = Some nd ∧ c_state (w_c (nd_world nd)) = STATE_ESTABLISHED.
Proof. by intros (nd & Hnd & Hs)%fmap_Some; exists nd. Qed.

Lemma integrity_witness :
  ∃ m, sample_members !! peer_remote = Some m ∧
    delivery sample_sconfig sample_members (reads exchanged) (exit_reads exchanged) peer_remote m sample_ip.
Proof.
  apply (integrity sample_SA 8000 sample_sconfig sample_members sample_sconfig_ok members_ok).
  - exact exchanged_reachable.
  - refine (bool_decide_unpack _ _). vm_compute. exact I.
Defined.

Lemma exit_integrity_witness : exit_delivery exit_sconfig sample_members (reads exited) sample_ip.
Proof.
  apply (exit_integrity sample_SA 8000 exit_sconfig sample_members exit_sconfig_ok exit_members_ok).
  - exact exited_reachable.
  - refine (bool_decide_unpack _ _). vm_compute. exact I.
Defined.

Lemma sessions_agree_witness :
  ∃ nd m u, n_nodes exchanged !! peer_remote = Some nd ∧ sample_members !! peer_remote = Some m ∧
    session_of_user (m_cfg m) (m_user m) u ∧
    le_encode 2 (c_session_token (w_c (nd_world nd))) = (se_key u).1.2.
Proof.
  destruct (established_in exchanged peer_remote) as (nd & Hnd & Hs); [vm_compute; reflexivity|].
  destruct (sessions_agree sample_SA 8000 sample_sconfig sample_members sample_sconfig_ok members_ok
    exchanged peer_remote nd exchanged_reachable Hnd Hs) as (m & u & Hm & Hu & _ & Ht & _).
  exists nd, m, u. exact (conj Hnd (conj Hm (conj Hu Ht))).
Defined.

Lemma addresses_distinct_witness :
  ∃ nd1 nd2, n_nodes exchanged !! sample_remote = Some nd1 ∧ n_nodes exchanged !! peer_remote = Some nd2 ∧
    c_peer_ip (w_c (nd_world nd1)) ≠ c_peer_ip (w_c (nd_world nd2)).
Proof.
  destruct (established_in exchanged sample_remote) as (nd1 & Hnd1 & Hs1); [vm_compute; reflexivity|].
  destruct (established_in exchanged peer_remote) as (nd2 & Hnd2 & Hs2); [vm_compute; reflexivity|].
  exists nd1, nd2. split; [exact Hnd1|]. split; [exact Hnd2|].
  apply (addresses_distinct sample_SA 8000 sample_sconfig sample_members sample_sconfig_ok members_ok
    exchanged sample_remote peer_remote nd1 nd2 (mk_member sample_cfg sample_user)
    (mk_member peer_cfg sample_peer) exchanged_reachable Hnd1 Hnd2 Hs1 Hs2).
  - vm_compute. reflexivity.
  - vm_compute. reflexivity.
  - vm_compute. discriminate.
Defined.

Lemma network_total_witness : server_inv (n_server exchanged).
Proof.
  apply (network_total sample_SA 8000 sample_sconfig sample_members sample_sconfig_ok members_ok exchanged
    exchanged_reachable).
Defined.

(** A request with a wrong password, from an address that is no client's. *)
Lemma wrong_password : no_password sample_sconfig (open_packet wrong_cfg).
Proof.
  intros request user E Hu.
  assert (s_users sample_sconfig !! c_str (cfg_username wrong_cfg) = Some sample_user) as Hu' by by vm_compute.
  pose proof (parseOpenPacket_client wrong_cfg wrong_cfg_ok) as Ep.
  specialize (Ep ltac:(by vm_compute)).
  unfold open_packet in E. rewrite Ep in E. injection E as <-.
  assert (user = sample_user) as -> by (cbn [client_request r_username] in Hu; congruence).
  vm_compute. discriminate.
Qed.

(** The address is that of a client. *)
Lemma outsider_ignored_witness :
  handlePacket 5 None peer_remote (open_packet wrong_cfg) (n_server exchanged) = Some (n_server exchanged, []) ∨
  handlePacket 5 None peer_remote (open_packet wrong_cfg) (n_server exchanged) =
    Some (n_server exchanged, [WriteToUDP peer_remote buildOpenReject]).
Proof.
  apply (outsider_ignored sample_SA 8000 sample_sconfig sample_members sample_sconfig_ok members_ok).
  - exact exchanged_reachable.
  - split; [exact wrong_password|]. right. left. reflexivity.
Defined.
