(* ===== verification/Neighbours.v ===== *)
(** What the others do is no concern of a client: in the system of [Network], the steps of the
    other clients, of outsiders and of the exit device leave a client and its session as they
    are, as long as nobody else uses its account. *)
From stdpp Require Import gmap.
From S2P Require Import Prelude Libc Md5 Aes Client Config Os Tun TunLinux CMonad Packet OpenAck Frag.
From S2P Require Import Protocol Server Goroutines Recv Machine Main Interop Traffic Network Runs.

#[local] Opaque md5_spec fips_cipher aes_encrypt_block aes_decrypt_block aes_set_encrypt_key
  aes_set_decrypt_key signature build_open_pkt Md5.md5_hash client_init.

(** The server has the session [u], at [l], under the key [k]. *)
Definition held (s : server) (k : session_key) (l : nat) (u : user_session) : Prop :=
  sv_sessions s !! k = Some l ∧ sv_heap s !! l = Some u.

Section kept.
Variables (s : server) (k : session_key) (l : nat) (u : user_session).
Hypotheses (Hinv : server_inv s) (Hheld : held s k l u).

(** Two sessions at one location are one. *)
Lemma held_same k' l' u' : held s k' l' u' → l' = l → k' = k.
Proof.
  intros [Hk' Hu'] ->. destruct Hheld as [Hk Hu].
  pose proof (session_facts _ _ _ _ Hinv Hk Hu) as Hok. pose proof (session_facts _ _ _ _ Hinv Hk' Hu') as Hok'.
  assert (u' = u) as -> by congruence. by rewrite <-(so_key _ _ _ _ Hok), <-(so_key _ _ _ _ Hok').
Qed.

Lemma held_touched k' l' u' u'' : held s k' l' u' → k' ≠ k → held (touched s l' u'') k l u.
Proof.
  intros Hheld' Hk. destruct Hheld as [Hkl Hu]. split; [done|]. cbn [touched sv_heap].
  rewrite lookup_insert_ne; [done|]. intros ->. by eapply Hk, held_same.
Qed.

Lemma held_without k' u' : k' ≠ k → held (without s k' u') k l u.
Proof. intros Hk. destruct Hheld as [Hkl Hu]. split; [|done]. cbn [without sv_sessions]. by rewrite lookup_delete_ne. Qed.

(** A session granted to somebody else. *)
Lemma held_granted s' l' c r (user : configuredUser) :
  server_inv s' → held s' (se_key c) l' c → sv_heap s' = <[l' := c]> (sv_heap s) →
  (∀ k l c', k ≠ se_key c → sv_heap s !! l = Some c' →
    sv_sessions s' !! k = Some l ↔ sv_sessions s !! k = Some l ∧ ¬ replaced r (u_username user) c') →
  k ≠ se_key c → k.1.1 ≠ r → u_username (se_user u) ≠ u_username user → held s' k l u.
Proof.
  intros Hs' [Hc Hc'] Hheap Hrest Hk Hr Hu. destruct Hheld as [Hkl Hul].
  pose proof (session_facts _ _ _ _ Hinv Hkl Hul) as Hok.
  assert (sv_sessions s' !! k = Some l) as Hk'.
  { apply (Hrest _ _ u Hk Hul). split; [done|]. intros [H|H]; [|done]. by rewrite (so_key _ _ _ _ Hok) in H. }
  split; [done|]. rewrite Hheap. destruct (decide (l' = l)) as [->|Hne]; [|by rewrite lookup_insert_ne].
  destruct (si_sessions _ Hs' _ _ Hk') as (u2 & Hu2 & Hok2). assert (u2 = c) as -> by congruence.
  by destruct Hk; rewrite (so_key _ _ _ _ Hok2).
Qed.
End kept.

(** Routing data leaves the server as it is. *)
Lemma route_payload_same source data s s' outs : route_payload source data s = Some (s', outs) → s' = s.
Proof.
  rewrite <-(run_route (sv_config s)) by done. apply reader_run, route_reader.
Qed.

Lemma handleExitPacket_same payload s s' outs : handleExitPacket payload s = Some (s', outs) → s' = s.
Proof.
  unfold handleExitPacket. destruct (parseIPv4Packet payload) as [[e|parsed]|]; cbn [mbind option_bind]; [by intros [= <- _]| |done].
  destruct (outboundForAddress s _); cbn [mbind option_bind]; [by intros [= <- _]|done].
Qed.

Section neighbours.
Variables (SA SP : Z) (scfg : normalizedConfig) (members : gmap udp_addr member).
Hypothesis (Hsc : sconfig_ok scfg).
Hypothesis (Hmembers : map_Forall (λ _ m, member_ok SA SP scfg m) members).

#[local] Abbreviation reachable := (reachable SA SP scfg members).
#[local] Abbreviation known := (known scfg members).

(** The packet of another client, of another account. *)
Lemma serve_kept now rnd r m D p s s' outs k l u :
  known s → members !! r = Some m → input_ok (Datagram now rnd r p) →
  client_packet (m_cfg m) (m_user m) D p → k.1.1 ≠ r → u_username (se_user u) ≠ u_username (m_user m) →
  handlePacket now rnd r p s = Some (s', outs) → held s k l u → held s' k l u.
Proof.
  intros Hs Hm Hin Hp Hr Hu E Hheld. pose proof (kn_inv _ _ _ Hs) as Hi. pose proof (kn_config _ _ _ Hs) as Hc.
  pose proof (Hmembers _ _ Hm) as Hok. cbv beta in Hok.
  assert (∀ token sessionID, (r, token, sessionID) ≠ k) as Hne by (intros token sessionID <-; done).
  assert (∀ ty flag token sessionID rest, ids_ok token sessionID → ty ≠ packetOpen →
    sv_sessions s !! (r, token, sessionID) = None →
    handlePacket now rnd r (go_header ty flag token sessionID ++ rest) s = Some (s, [])) as Hunknown.
  { intros ty flag token sessionID rest Hids Hty Hk. apply foreign_packet; [by intros [= ?]|by rewrite packet_key_go]. }
  destruct Hp as [|token sessionID payload Hids hdr|token sessionID Hids hdr|token sessionID data Hids Hd Hdata].
  - destruct rnd as [[token sessionID]|].
    + destruct (open_granted (m_cfg m) (m_user m) now r token sessionID s Hi (mo_cfg _ _ _ _ Hok)
        (mo_valid _ _ _ _ Hok) Hin) as (s1 & l1 & E1 & Hs1 & Hl1 & Hh1 & Hrest & _ & Hheap);
        [rewrite Hc; apply Hok|apply Hok|].
      unfold open_packet in E. rewrite E1 in E. injection E as <- _.
      eapply (held_granted s k l u Hi Hheld s1 l1 _ r (m_user m)); [done|by split|exact Hheap|exact Hrest|by intros ->|done|done].
    + unfold open_packet in E. rewrite (open_unlucky _ (m_user m)) in E;
        [|done|apply Hok|apply Hok|rewrite Hc; apply Hok|apply Hok]. by injection E as <- _.
  - destruct (sv_sessions s !! (r, token, sessionID)) as [l'|] eqn:Hl'.
    + destruct (si_sessions _ Hi _ _ Hl') as (u' & Hu' & _).
      pose proof (handlePacket_echo now rnd s _ l' u' Hi Hl' Hu' payload) as E'. cbn [fst snd] in E'. unfold hdr in E.
      rewrite E' in E. injection E as <- _. by eapply (held_touched s k l u Hi Hheld (r, token, sessionID)).
    + unfold hdr in E. rewrite Hunknown in E by done. by injection E as <- _.
  - destruct (sv_sessions s !! (r, token, sessionID)) as [l'|] eqn:Hl'.
    + destruct (si_sessions _ Hi _ _ Hl') as (u' & Hu' & _).
      destruct (handlePacket_close now rnd s _ l' u' Hi Hl' Hu') as [E' _]. cbn [fst snd] in E'. unfold hdr in E.
      rewrite E' in E. injection E as <- _. by apply (held_without s k l u Hheld).
    + unfold hdr in E. rewrite Hunknown in E by done. by injection E as <- _.
  - destruct (sv_sessions s !! (r, token, sessionID)) as [l'|] eqn:Hl'.
    + destruct (si_sessions _ Hi _ _ Hl') as (u' & Hu' & _).
      destruct (kn_sessions _ _ _ Hs _ _ _ Hl' Hu') as (m' & Hm' & Hsu). cbn [fst] in Hm'.
      assert (m' = m) as -> by congruence.
      pose proof (handlePacket_data now rnd s _ l' u' Hi Hl' Hu' data Hdata) as E'. cbn [fst snd] in E'.
      rewrite (su_encrypt _ _ _ Hsu), (su_user _ _ _ Hsu) in E'. rewrite E' in E.
      apply route_payload_same in E as ->. by eapply (held_touched s k l u Hi Hheld (r, token, sessionID)).
    + rewrite buildDataPacket_layout, Hunknown in E by (done || by destruct (encrypts _ _)). by injection E as <- _.
Qed.

(** ** The others *)

(** A step of the system that neither the client at [r], nor another user of its account
    takes, nor the server for one of them. *)
Inductive others (r : udp_addr) (N : net) : net → Prop :=
  | others_start r' m (o : OS) (b : TunBackend) cfg last w :
      r' ≠ r → OSOk → TunOk → members !! r' = Some m → n_nodes N !! r' = None →
      main_init (m_cfg m) (mk_world client_init []) = Some (Some (cfg, last), w) →
      Forall (deliverable SA SP N r') (w_t w) →
      others r N (absorb SA SP r' (w_t w) (N <| n_nodes := <[r' := mk_node cfg last w]> (n_nodes N) |>))
  | others_turn r' nd (o : OS) (b : TunBackend) t w new :
      r' ≠ r → OSOk → TunOk → n_nodes N !! r' = Some nd →
      client_turn (nd_cfg nd) (nd_last nd) (nd_world nd) = Some (t, w) →
      w_t w = new ++ w_t (nd_world nd) → Forall (deliverable SA SP N r') new →
      others r N (absorb SA SP r' new (N <| n_nodes := match t with
        | Some last => <[r' := mk_node (nd_cfg nd) last w]> (n_nodes N)
        | None => delete r' (n_nodes N) end |>))
  | others_served now rnd r' p s outs :
      r' ≠ r →
      (∀ m m', members !! r = Some m → members !! r' = Some m' → u_username (m_user m) ≠ u_username (m_user m')) →
      (r', p) ∈ n_up N → input_ok (Datagram now rnd r' p) →
      handlePacket now rnd r' p (n_server N) = Some (s, outs) → others r N (served s outs N)
  | others_outside now rnd r' p s outs :
      outsider scfg members (n_server N) r' p →
      handlePacket now rnd r' p (n_server N) = Some (s, outs) → others r N (served s outs N)
  | others_exit payload s outs :
      s_exit_enabled scfg = true → handleExitPacket payload (n_server N) = Some (s, outs) →
      others r N (served s outs (N <| n_exit_read := payload :: n_exit_read N |>)).

Lemma others_step r N N' : others r N N' → step SA SP scfg members N N'.
Proof.
  destruct 1; [by eapply client_starts|by eapply client_turns|by eapply server_handles|by eapply outsider_sends|
    by eapply exit_delivers].
Qed.

(** What the client at [r] has: itself, the datagrams sent to it, and its sessions. *)
Record unaffected (r : udp_addr) (N N' : net) : Prop := {
  un_node : n_nodes N' !! r = n_nodes N !! r;
  un_down p : (r, p) ∈ n_down N → (r, p) ∈ n_down N';
  un_session k l u : k.1.1 = r → held (n_server N) k l u → held (n_server N') k l u
}.

#[export] Instance unaffected_preorder r : PreOrder (unaffected r).
Proof.
  split; [by split|]. intros N1 N2 N3 [En1 Hd1 Hs1] [En2 Hd2 Hs2]. split; [by rewrite En2|auto|].
  intros k l u Hk Hh. apply Hs2, Hs1; done.
Qed.

Lemma others_unaffected r N N' : reachable N → others r N N' → unaffected r N N'.
Proof.
  intros Hr Hstep. pose proof (reachable_inv _ _ _ _ Hsc Hmembers _ Hr) as Hi.
  pose proof (ni_server _ _ _ _ Hi) as Hs.
  destruct Hstep as [r' m o b cfg last w Hne _ _ _ _ _ _|r' nd o b t w new Hne _ _ _ _ _ _
    |now rnd r' p s outs Hne Hname Hp Hin E|now rnd r' p s outs Ho E|payload s outs Hex E].
  - split; [by apply lookup_insert_ne|done|done].
  - split; [|done|done]. cbn. destruct t; [by apply lookup_insert_ne|by apply lookup_delete_ne].
  - split; [done|intros q Hq; apply elem_of_app; by right|]. intros k l u Hk Hh.
    destruct (ni_up _ _ _ _ Hi _ _ Hp) as (m' & Hm' & Hc).
    destruct Hh as [Hkl Hu] eqn:Eh. destruct (kn_sessions _ _ _ Hs _ _ _ Hkl Hu) as (m & Hm & Hsu). rewrite Hk in Hm.
    eapply (serve_kept now rnd r' m'); try done.
    + rewrite Hk. by intros ->.
    + rewrite (su_user _ _ _ Hsu). by apply Hname.
  - destruct (outsider_packet _ _ now rnd r' p (n_server N) Hs Ho) as [E'|E']; rewrite E' in E; injection E as <- <-;
      (split; [done|intros q Hq; apply elem_of_app; by right|done]).
  - apply handleExitPacket_same in E as ->. split; [done|intros q Hq; apply elem_of_app; by right|done].
Qed.

Lemma others_reachable r N N' : reachable N → rtc (others r) N N' → reachable N' ∧ unaffected r N N'.
Proof.
  intros Hr Hsteps. induction Hsteps as [N|N N1 N2 Hstep _ IH]; [done|].
  pose proof (others_unaffected _ _ _ Hr Hstep) as Hu.
  destruct IH as [Hr2 Hu2]; [eapply rtc_r; [exact Hr|by eapply others_step]|]. split; [done|by etransitivity].
Qed.

(** C4: isolation.  Whatever the other clients, outsiders and the exit device do, from any state
    that the system can reach: a client keeps its state, and the session it shares with the
    server, as long as nobody else uses its account. *)
Theorem isolation N N' r nd :
  reachable N → rtc (others r) N N' → n_nodes N !! r = Some nd →
  n_nodes N' !! r = Some nd ∧
  ∀ l u, linked (n_server N) r l u (w_c (nd_world nd)) → linked (n_server N') r l u (w_c (nd_world nd)).
Proof.
  intros Hr Hsteps Hnd. destruct (others_reachable r N N' Hr Hsteps) as [_ [En _ Hs]]. split; [by rewrite En|].
  intros l u [Hst Hk Hh He Hkey Hip]. by destruct (Hs (key_of r (w_c (nd_world nd))) l u eq_refl (conj Hk Hh)).
Qed.
End neighbours.

(** A request with a wrong password, which seems to come from a client's address, when both
    clients are in session. *)
Lemma forged_request s outs :
  handlePacket 5 None peer_remote (open_packet wrong_cfg) (n_server exchanged) = Some (s, outs) →
  others sample_SA 8000 sample_sconfig sample_members sample_remote exchanged (served s outs exchanged).
Proof.
  intros E. eapply others_outside; [|exact E]. split; [exact wrong_password|]. right. left. reflexivity.
Qed.

Lemma isolation_witness :
  ∃ N' nd, others sample_SA 8000 sample_sconfig sample_members sample_remote exchanged N' ∧
    n_nodes N' !! sample_remote = Some nd ∧
    ∀ l u, linked (n_server exchanged) sample_remote l u (w_c (nd_world nd)) →
      linked (n_server N') sample_remote l u (w_c (nd_world nd)).
Proof.
  destruct (established_in exchanged sample_remote) as (nd & Hnd & _); [vm_compute; reflexivity|].
  destruct (handlePacket 5 None peer_remote (open_packet wrong_cfg) (n_server exchanged)) as [[s outs]|] eqn:E.
  - exists (served s outs exchanged), nd. split; [exact (forged_request s outs E)|].
    apply (isolation sample_SA 8000 sample_sconfig sample_members sample_sconfig_ok members_ok exchanged).
    + exact exchanged_reachable.
    + exact (rtc_once _ _ (forged_request s outs E)).
    + exact Hnd.
  - exfalso. assert (bool_decide (is_Some (handlePacket 5 None peer_remote (open_packet wrong_cfg)
      (n_server exchanged))) = true) as Hsome by (vm_compute; reflexivity).
    apply bool_decide_eq_true_1 in Hsome as [x Hx]. congruence.
Defined.
