(* ===== verification/Recovery.v ===== *)
(** Recovery: from every state the system of [Network] can reach, whatever the client, the
    server and the network hold, each running client can get a session. *)
From stdpp Require Import gmap.
From S2P Require Import Prelude Libc Md5 Aes Client Config Os Tun TunLinux CMonad Packet OpenAck Frag.
From S2P Require Import Protocol Server Recv Machine Main Interop Traffic Network Runs.

#[local] Opaque md5_spec fips_cipher aes_encrypt_block aes_decrypt_block aes_set_encrypt_key
  aes_set_decrypt_key signature build_open_pkt Md5.md5_hash client_init.

(** ** Turns on a system that does as it is told *)

(** A call whose answer does not come from the network. *)
Definition local_call (ev : event) : Prop :=
  match ev_call ev with SRecvfrom _ _ | SGetaddrinfo _ => False | _ => True end.

Lemma quiet_local ev : quiet ev → local_call ev.
Proof. destruct ev as [s r]. by destruct s. Qed.

Lemma reset_events_local c new : Forall (reset_event c) new → Forall local_call new.
Proof.
  intros Hn. eapply Forall_impl; [exact Hn|]. intros [s r] [Hq|[_ Hcl]]; [by destruct s|].
  unfold close_event in Hcl. cbn [ev_call] in Hcl. by subst s.
Qed.

Section turns.
Variables (d : driver) (cfg : config).
#[local] Instance turns_os : OS := driver_os d.
#[local] Instance turns_tun : TunBackend := driver_linux d.
#[local] Instance turns_os_ok : OSOk := driver_os_ok d.
#[local] Instance turns_tun_ok : TunOk := Linux.linux_tun_ok.

(** A reconnection, then an interrupted poll. *)
Lemma wp_turn_reset last w (Q : option Z → world → Prop) :
  dr_reconnect d = true → dr_poll d = None → 0 ≤ dr_socket d → cfg_ok cfg → inv w →
  (∀ new, Forall local_call new →
    Q (Some last) (mk_world (reset_client (w_c w) (dr_socket d)) (new ++ w_t w))) →
  wp (client_turn cfg last) w Q.
Proof.
  intros Hr Hp Hs Hcfg Hi HQ. unfold client_turn, main_turn. do 3 wp_step.
  change (os (w_t w) SQuit) with false. cbv iota. do 2 wp_step.
  change (os _ SReconnect) with (dr_reconnect d). rewrite Hr. cbn [when]. wp_step.
  apply wp_client_reset; [done|apply Hi|]. cbn [w_c w_t]. intros fd new _ Hfd Hnew _ _.
  destruct Hfd as [tr ->]; [done|]. do 4 wp_step.
  change (os _ (SPoll _)) with (match dr_poll d with None => PollEintr | Some l =>
    PollOk (resize (length (poll_fds (reset_client (w_c w) (dr_socket d)))) false l) end).
  rewrite Hp. do 2 wp_step.
  match goal with |- Q _ (mk_world _ (?e0 :: new ++ ?e1 :: ?e2 :: w_t w)) =>
    replace (e0 :: new ++ e1 :: e2 :: w_t w) with ((e0 :: new ++ [e1; e2]) ++ w_t w)
      by (cbn; by rewrite <-app_assoc) end.
  apply HQ.
  constructor; [done|]. rewrite !Forall_app. split; [|by repeat constructor].
  by eapply reset_events_local.
Qed.

Lemma handle_events_idle (n : nat) fds w (Q : unit → world → Prop) :
  Q () w → wp (handle_events cfg fds (resize n false [])) w Q.
Proof.
  rewrite resize_nil. revert n. induction fds as [|fd fds IH]; intros [|n] HQ; try done.
  cbn [handle_events replicate when]. do 2 wp_step. by apply IH.
Qed.

(** A tick, with nothing readable. *)
Lemma wp_turn_tick last w (Q : option Z → world → Prop) :
  let now := u32 (dr_clock d) in
  dr_reconnect d = false → dr_poll d = Some [] → now ≠ last → 0 ≤ c_udp_fd (w_c w) →
  (∀ pre, Forall quiet pre →
    wp (tick_dispatch cfg now) (mk_world (w_c w) (pre ++ w_t w)) (λ _ w', Q (Some now) w')) →
  wp (client_turn cfg last) w Q.
Proof.
  intros now Hr Hp Hlast Hu HQ. unfold client_turn, main_turn. do 3 wp_step.
  change (os (w_t w) SQuit) with false. cbv iota. do 2 wp_step.
  change (os _ SReconnect) with (dr_reconnect d). rewrite Hr. cbn [when]. do 6 wp_step.
  change (os _ (SPoll _)) with (match dr_poll d with None => PollEintr | Some l =>
    PollOk (resize (length (poll_fds (w_c w))) false l) end).
  rewrite Hp. wp_step. apply handle_events_idle. do 2 wp_step.
  change (u32 (os _ SClock).1) with (u32 now). rewrite (u32_id now) by apply u32_is.
  rewrite (proj2 (Z.eqb_neq now last)) by done. cbn [negb]. wp_step.
  apply wp_tick_dispatch; [done|]. cbv zeta. cbn [w_c w_t].
  change (u32 (os _ SClock).1) with (u32 now). rewrite (u32_id now) by apply u32_is.
  match goal with |- wp _ (mk_world _ (?e1 :: ?e2 :: ?e3 :: ?e4 :: ?e5 :: w_t w)) _ =>
    eapply wp_mono; [apply (HQ [e1; e2; e3; e4; e5]); by repeat constructor|] end.
  intros ? w' HQ'. by do 2 wp_step.
Qed.

(** A datagram of the server, at the time of the last tick. *)
Lemma wp_turn_receive last w p SA SP (Q : option Z → world → Prop) :
  let c := w_c w in
  let ev := Ev (SRecvfrom (c_udp_fd c) MAX_PKT_SIZE) (Some (p, SA, SP)) in
  dr_reconnect d = false → dr_poll d = Some [false; true] → u32 (dr_clock d) = last →
  dr_recv d = Some (p, SA, SP) → fits MAX_PKT_SIZE p = true → 0 < len p →
  0 ≤ c_tun_fd c → 0 ≤ c_udp_fd c → c_udp_fd c ≠ c_tun_fd c →
  c_server_addr c = SA → c_server_port c = SP →
  (∀ pre, Forall quiet pre →
    wp (handle_recv cfg p (len p)) (mk_world c (ev :: pre ++ w_t w)) (λ _ w', ∀ e, quiet e →
      Q (Some last) (mk_world (w_c w') (e :: w_t w')))) →
  wp (client_turn cfg last) w Q.
Proof.
  intros c ev Hr Hp Hlast Hrecv Hfit Hl Ht Hu Hne HA HP HQ. unfold client_turn, main_turn. do 3 wp_step.
  change (os (w_t w) SQuit) with false. cbv iota. do 2 wp_step.
  change (os _ SReconnect) with (dr_reconnect d). rewrite Hr. cbn [when]. do 6 wp_step. fold c.
  change (os _ (SPoll _)) with (match dr_poll d with None => PollEintr | Some l =>
    PollOk (resize (length (poll_fds c)) false l) end).
  assert (poll_fds c = [c_tun_fd c; c_udp_fd c]) as Hfds.
  { unfold poll_fds. by rewrite !(proj2 (Z.leb_le 0 _)). }
  rewrite Hp, Hfds. wp_step. cbn [length resize handle_events when]. do 3 wp_step.
  unfold handle_event. do 2 wp_step. cbn [w_c]. fold c. rewrite (proj2 (Z.eqb_neq _ _) Hne), Z.eqb_refl.
  do 2 wp_step.
  change (os _ (SRecvfrom _ MAX_PKT_SIZE)) with
    (x ← dr_recv d; if fits MAX_PKT_SIZE x.1.1 then Some x else None).
  rewrite Hrecv. cbn [mbind option_bind fst]. rewrite Hfit. cbv beta iota zeta.
  rewrite (proj2 (Z.ltb_lt 0 (len p))) by done. do 2 wp_step. cbn [w_c]. fold c.
  rewrite HA, HP, !Z.eqb_refl. cbn [andb].
  match goal with |- wp _ (mk_world _ (?e0 :: ?e1 :: ?e2 :: ?e3 :: w_t w)) _ =>
    eapply wp_mono; [apply (HQ [e1; e2; e3]); by repeat constructor|] end.
  intros ? w' HQ'. wp_step. do 2 wp_step.
  change (u32 (os _ SClock).1) with (u32 (u32 (dr_clock d))).
  rewrite (u32_id (u32 (dr_clock d))) by apply u32_is. rewrite Hlast, Z.eqb_refl. cbn [negb].
  do 2 wp_step. by apply HQ'.
Qed.

(** A packet of the device, in a session, at the time of the last tick. *)
Lemma wp_turn_device last w data (Q : option Z → world → Prop) :
  let c := w_c w in
  dr_reconnect d = false → dr_poll d = Some [true] → u32 (dr_clock d) = last →
  dr_read d = Some data → fits 2040 data = true → data ≠ [] →
  0 ≤ c_tun_fd c → 0 ≤ c_udp_fd c → c_state c = STATE_ESTABLISHED →
  (∀ pre post r c', Forall quiet pre → Forall quiet post → same_session c c' →
    Q (Some last) (mk_world c' (post ++
      Ev (SSendto (c_udp_fd c) (c_server_addr c) (c_server_port c) (data_packet c data)) r ::
      Ev (SRead (c_tun_fd c) 2040) (Some data) :: pre ++ w_t w))) →
  wp (client_turn cfg last) w Q.
Proof.
  intros c Hr Hp Hlast Hread Hfit Hne Ht Hu Hs HQ. unfold client_turn, main_turn. do 3 wp_step.
  change (os (w_t w) SQuit) with false. cbv iota. do 2 wp_step.
  change (os _ SReconnect) with (dr_reconnect d). rewrite Hr. cbn [when]. do 6 wp_step. fold c.
  change (os _ (SPoll _)) with (match dr_poll d with None => PollEintr | Some l =>
    PollOk (resize (length (poll_fds c)) false l) end).
  assert (poll_fds c = [c_tun_fd c; c_udp_fd c]) as Hfds.
  { unfold poll_fds. by rewrite !(proj2 (Z.leb_le 0 _)). }
  rewrite Hp, Hfds. wp_step. cbn [length resize replicate handle_events when]. wp_step.
  unfold handle_event. do 2 wp_step. cbn [w_c]. fold c. rewrite Z.eqb_refl.
  apply wp_handle_tun_recv. cbv zeta. cbn [w_c w_t]. fold c.
  change (os _ (SRead _ 2040)) with (x ← dr_read d; if fits 2040 x then Some x else None).
  rewrite Hread. cbn [mbind option_bind]. rewrite Hfit. rewrite decide_True by done.
  do 5 wp_step.
  change (u32 (os _ SClock).1) with (u32 (u32 (dr_clock d))).
  rewrite (u32_id (u32 (dr_clock d))) by apply u32_is. rewrite Hlast, Z.eqb_refl. cbn [negb].
  do 2 wp_step.
  match goal with |- Q _ (mk_world ?c' (?e :: ?s :: ?rd :: ?e1 :: ?e2 :: ?e3 :: w_t w)) =>
    apply (HQ [e1; e2; e3] [e]) end; by repeat constructor.
Qed.

(** The interface can always be configured. *)
Lemma driver_configure c tr : 0 ≤ dr_socket d → ∃ tr', configure cfg c tr = (true, tr').
Proof.
  intros Hs. apply Z.ltb_ge in Hs.
  assert (∀ ip mask tr, ∃ tr', tun_set_ip (cfg_tun_name cfg) ip mask tr = (0, tr')) as Hip.
  { intros ip mask tr0. eexists. change (tun_set_ip (cfg_tun_name cfg) ip mask) with
      (@Linux.tun_set_ip turns_os (cfg_tun_name cfg) ip mask).
    cbv [Linux.tun_set_ip mbind io_bind_inst mret io_ret_inst call os turns_os driver_os still_os io_ret].
    rewrite Hs. reflexivity. }
  assert (∀ mtu tr, ∃ tr', tun_set_mtu (cfg_tun_name cfg) mtu tr = (0, tr')) as Hmtu.
  { intros mtu tr0. eexists. change (tun_set_mtu (cfg_tun_name cfg) mtu) with
      (@Linux.tun_set_mtu turns_os (cfg_tun_name cfg) mtu).
    cbv [Linux.tun_set_mtu mbind io_bind_inst mret io_ret_inst call os turns_os driver_os still_os io_ret].
    rewrite Hs. reflexivity. }
  unfold configure, mbind, io_bind_inst.
  destruct (Hip (htonl (c_peer_ip c)) (htonl 0xffffff00) tr) as [tr1 ->].
  cbn [Z.ltb Z.compare]. destruct (Hmtu (eff_mtu cfg c) tr1) as [tr2 ->]. by exists tr2.
Qed.

(** Whatever a datagram does, it keeps the frame. *)
Lemma wp_recv_framed p w (Q : unit → world → Prop) :
  cfg_ok cfg → client_ok (w_c w) → bytes p → wp (handle_recv cfg p (len p)) w Q →
  wp (handle_recv cfg p (len p)) w (λ x w', framed w w' ∧ Q x w').
Proof.
  intros Hcfg Hc Hp HQ. eapply wp_mono.
  - apply (wp_conditional _ _ True); [by apply wp_handle_recv|by intros _].
  - intros x w' [[Hf _] HQ']. auto.
Qed.

(** An OPENACK of the server establishes its session. *)
Lemma wp_openack_establishes scfg u w :
  let p := openack_packet scfg u in let user := se_user u in
  0 ≤ dr_socket d → cfg_ok cfg → sconfig_ok scfg → session_of_user cfg user u →
  length (u_address user) = 4%nat → bytes (u_address user) → be_decode (u_address user) ≠ 0 →
  c_state (w_c w) = STATE_AUTH_SENT → c_xor_key (w_c w) = u_xorKey user →
  wp (r ← handle_openack cfg p (len p); refresh r) w (λ _ w',
    (∃ new, w_t w' = new ++ w_t w ∧ Forall quiet new) ∧ c_last_recv_time (w_c w') = u32 (dr_clock d) ∧
    ∀ s remote l, sv_sessions s !! (remote, (se_key u).1.2, (se_key u).2) = Some l →
      sv_heap s !! l = Some u → linked s remote l u (w_c w')).
Proof.
  intros p user Hsock Hcfg Hsc Hu Ha Hb Hip Hs Hk.
  destruct (openack_packet_shape scfg u) as (Hp & _); [done|apply Hu|done..|].
  destruct (openack_client cfg scfg u w) as (r & w1 & E & Hr); [done..|apply Hu|done|done|done|apply Hu|done|].
  fold p in E. wp_step. unfold wp at 1. rewrite E. cbv beta iota.
  pose proof (wp_exact_with _ _ _ _ _ E (wp_handle_openack cfg p w (openack cfg p w) Hcfg Hp (λ r w' H, H))) as Hack.
  apply openack_quiet in Hack as (new & Ew & Hnew).
  destruct Hr as [(-> & Hst & Ht & Hid & He & Hkey & Hpeer & _)|(_ & _ & c & tr & tr' & Hconf)].
  2:{ by destruct (driver_configure c tr Hsock) as [tr'' Hconf']; rewrite Hconf in Hconf'. }
  unfold refresh. cbn [Z.eqb negb when]. do 3 wp_step. split_and!.
  - eexists (_ :: new). split; [by rewrite Ew|]. by constructor.
  - change (u32 (u32 (dr_clock d)) = u32 (dr_clock d)). by apply u32_id, u32_is.
  - intros s remote l Hl Hh. split; [done| |done| | |].
    + change (sv_sessions s !! (remote, le_encode 2 (c_session_token (w_c w1)), le_encode 4 (c_session_id (w_c w1))) = Some l).
      by rewrite Ht, Hid.
    + exact He.
    + change (c_xor_key (w_c w1) = u_xorKey user). by rewrite Hkey.
    + change (be_encode 4 (c_peer_ip (w_c w1)) = u_address user). rewrite Hpeer.
      unfold user. rewrite <-Ha. by apply be_encode_decode.
Qed.
End turns.

(** ** The way back to a session *)

Section recovery.
Variables (SA SP : Z) (scfg : normalizedConfig) (members : gmap udp_addr member).
Hypothesis (Hsc : sconfig_ok scfg).
Hypothesis (Hmembers : map_Forall (λ _ m, member_ok SA SP scfg m) members).

#[local] Abbreviation reachable := (reachable SA SP scfg members).
#[local] Abbreviation step := (step SA SP scfg members).
#[local] Abbreviation deliverable := (deliverable SA SP).
#[local] Abbreviation after_turn r new nd last w N :=
  (absorb SA SP r new (N <| n_nodes := <[r := mk_node (nd_cfg nd) last w]> (n_nodes N) |>)).

(** What the way back of one client, whose account is [name], leaves alone: the other
    clients, and the sessions of other accounts. *)
Definition undisturbed (r : udp_addr) (name : list Z) (N N' : net) : Prop :=
  (∀ r', r' ≠ r → n_nodes N' !! r' = n_nodes N !! r') ∧
  (∀ r' l u c, r' ≠ r → u_username (se_user u) ≠ name →
    linked (n_server N) r' l u c → linked (n_server N') r' l u c).

#[export] Instance undisturbed_preorder r name : PreOrder (undisturbed r name).
Proof.
  split; [by intros N|]. intros N1 N2 N3 [Hn1 Hl1] [Hn2 Hl2]. split.
  - intros r' Hr'. by rewrite Hn2, Hn1.
  - intros r' l u c Hr' Hu Hlk. auto.
Qed.

(** A step on the way. *)
Definition moves (r : udp_addr) (name : list Z) (N N' : net) : Prop :=
  step N N' ∧ undisturbed r name N N'.

Lemma moves_path r name N N' :
  rtc (moves r name) N N' → rtc step N N' ∧ undisturbed r name N N'.
Proof.
  induction 1 as [N|N N1 N' [Hstep Hu] _ [IH1 IH2]]; [done|]. split; [by eapply rtc_l|by etransitivity].
Qed.

(** A turn on a driver is a step of the system. *)
Lemma turn_step N r name nd d (Q : Z → trace → world → Prop) :
  n_nodes N !! r = Some nd →
  wp (client_turn (H := driver_os d) (H0 := driver_linux d) (nd_cfg nd) (nd_last nd)) (nd_world nd)
    (λ t w, ∃ last new, t = Some last ∧ w_t w = new ++ w_t (nd_world nd) ∧
      Forall (deliverable N r) new ∧ Q last new w) →
  ∃ last new w, Q last new w ∧ moves r name N (after_turn r new nd last w N).
Proof.
  intros Hnd Hwp. apply wp_run in Hwp as (t & w & E & last & new & -> & Ew & Hdel & HQ).
  exists last, new, w. split; [done|]. split.
  - eapply (client_turns _ _ _ _ _ _ nd (driver_os d) (driver_linux d) (Some last)); try done.
    + apply driver_os_ok.
    + apply Linux.linux_tun_ok.
  - split; [|done]. intros r' Hr'. by apply lookup_insert_ne.
Qed.

Lemma local_call_deliverable N r ev : local_call ev → deliverable N r ev.
Proof. destruct ev as [s res]. by destruct s. Qed.
Lemma local_deliverable N r new : Forall local_call new → Forall (deliverable N r) new.
Proof. intros Hn. eapply Forall_impl; [exact Hn|]. apply local_call_deliverable. Qed.

Lemma quiet_deliverable N r new : Forall quiet new → Forall (deliverable N r) new.
Proof. intros Hn. eapply local_deliverable, Forall_impl; [exact Hn|]. apply quiet_local. Qed.

(** A client with a socket that is not its device. *)
Definition two_fds (c : client) : Prop := 0 ≤ c_tun_fd c ∧ 0 ≤ c_udp_fd c ∧ c_udp_fd c ≠ c_tun_fd c.

(** The node at [r] satisfies [P]. *)
Definition node_at (N : net) (r : udp_addr) (P : node → Prop) : Prop :=
  ∃ nd, n_nodes N !! r = Some nd ∧ P nd.

Lemma node_at_after r new nd last w N (P : node → Prop) :
  P (mk_node (nd_cfg nd) last w) → node_at (after_turn r new nd last w N) r P.
Proof. intros HP. eexists. split; [apply lookup_insert_eq|done]. Qed.

(** First it starts over. *)
Lemma recover_reset N r name :
  reachable N → node_at N r (λ _, True) →
  ∃ N', moves r name N N' ∧ node_at N' r (λ nd, let c := w_c (nd_world nd) in
    two_fds c ∧ (c_state c = STATE_IP_READY ∨ c_state c = STATE_DNS_NEEDED)).
Proof.
  intros Hr (nd & Hnd & _). pose proof (reachable_inv _ _ _ _ Hsc Hmembers _ Hr) as Hi.
  destruct (ni_nodes _ _ _ _ Hi _ _ Hnd) as (m & _ & _ & Hcfg & Hinv & _).
  pose proof (inv_tun _ Hinv) as Ht. set (c := w_c (nd_world nd)) in *.
  set (d := mk_driver true None 0 (c_tun_fd c + 1) None None None).
  destruct (turn_step N r name nd d (λ last new w, w_c w = reset_client c (c_tun_fd c + 1)) Hnd)
    as (last & new & w & Hc & Hstep).
  { apply wp_turn_reset; [done|done|cbn; lia|done|done|].
    intros new Hnew. eexists _, new. split_and!; [done..|by apply local_deliverable|done]. }
  eexists. split; [exact Hstep|]. apply node_at_after. cbn [nd_world]. rewrite Hc. split.
  - split_and!; [done|change (0 ≤ c_tun_fd c + 1); lia|change (c_tun_fd c + 1 ≠ c_tun_fd c); lia].
  - apply reset_state.
Qed.

(** A time other than that of the last tick. *)
Definition another_time (last : Z) : Z := if decide (last = 100) then 200 else 100.
Lemma another_time_ok last :
  u32 (another_time last) = another_time last ∧ 2 ≤ another_time last ∧ another_time last ≠ last.
Proof. unfold another_time. destruct (decide (last = 100)); split_and!; try done; lia. Qed.

(** Then the name of the server is looked up, if there is one. *)
Lemma recover_resolve N r name :
  reachable N →
  node_at N r (λ nd, let c := w_c (nd_world nd) in two_fds c ∧ c_state c = STATE_DNS_NEEDED) →
  ∃ N', moves r name N N' ∧ node_at N' r (λ nd, let c := w_c (nd_world nd) in
    two_fds c ∧ c_state c = STATE_IP_READY).
Proof.
  intros Hr (nd & Hnd & (Ht & Hu & Hne) & Hs). pose proof (reachable_inv _ _ _ _ Hsc Hmembers _ Hr) as Hi.
  destruct (ni_nodes _ _ _ _ Hi _ _ Hnd) as (m & _ & _ & Hcfg & Hinv & _).
  set (c := w_c (nd_world nd)) in *.
  destruct (another_time_ok (nd_last nd)) as (Ht1 & Ht2 & Ht3). set (t := another_time _) in *.
  set (d := mk_driver false (Some []) t 0 (Some SA) None None).
  destruct (turn_step N r name nd d (λ last new w, two_fds (w_c w) ∧ c_state (w_c w) = STATE_IP_READY) Hnd)
    as (last & new & w & Hc & Hstep).
  { apply wp_turn_tick; [done|done|cbn; by rewrite Ht1|done|]. intros pre Hpre.
    unfold tick_dispatch. do 2 wp_step. cbv zeta. cbn [w_c]. fold c. rewrite Hs.
    cbn [Z.eqb Pos.eqb STATE_NOT_READY STATE_DNS_NEEDED]. wp_step.
    apply (wp_resolve_server (H := driver_os d)); [done|apply Hinv| |].
    - intros a dom _ _ _. cbn [Z.eqb when w_c w_t]. wp_step. eexists _, pre.
      split_and!; [done..|by apply quiet_deliverable|done|done].
    - cbv zeta. intros _ _. change (os _ (SGetaddrinfo _)) with (Some SA). cbn [Z.eqb when w_c w_t].
      wp_step. eexists _, (_ :: pre). split_and!; [done|done| |done|done].
      constructor; [done|by apply quiet_deliverable]. }
  eexists. split; [exact Hstep|]. by apply node_at_after.
Qed.

(** The client asks for a session. *)
Lemma recover_ask N r name m :
  reachable N → members !! r = Some m →
  node_at N r (λ nd, let c := w_c (nd_world nd) in two_fds c ∧ c_state c = STATE_IP_READY) →
  ∃ N', moves r name N N' ∧ (r, open_packet (m_cfg m)) ∈ n_up N' ∧
    node_at N' r (λ nd, let c := w_c (nd_world nd) in
      two_fds c ∧ c_state c = STATE_AUTH_SENT ∧ u32 (nd_last nd) = nd_last nd).
Proof.
  intros Hr Hm (nd & Hnd & (Ht & Hu & Hne) & Hs). pose proof (reachable_inv _ _ _ _ Hsc Hmembers _ Hr) as Hi.
  destruct (ni_nodes _ _ _ _ Hi _ _ Hnd) as (m' & Hm' & Hsame & Hcfg & Hinv & Hci).
  assert (m' = m) as -> by congruence. pose proof (Hmembers _ _ Hm) as Hok. cbv beta in Hok.
  assert (c_server_addr (w_c (nd_world nd)) = SA) as HA.
  { destruct (ci_addr _ _ _ _ _ _ Hci) as [?|[Hs' _]]; [done|by rewrite Hs in Hs']. }
  set (c := w_c (nd_world nd)) in *.
  destruct (another_time_ok (nd_last nd)) as (Ht1 & Ht2 & Ht3). set (t := another_time _) in *.
  set (d := mk_driver false (Some []) t 0 None None None).
  destruct (turn_step N r name nd d (λ last new w, last = t ∧ open_packet (m_cfg m) ∈ omap (datagram_to SA SP) new ∧
    two_fds (w_c w) ∧ c_state (w_c w) = STATE_AUTH_SENT) Hnd) as (last & new & w & (-> & Hp & Hc) & Hstep).
  { apply wp_turn_tick; [done|done|cbn; by rewrite Ht1|done|]. intros pre Hpre. cbn [dr_clock d]. rewrite Ht1.
    unfold tick_dispatch. do 2 wp_step. cbv zeta. cbn [w_c]. fold c. rewrite Hs.
    cbn [Z.eqb Pos.eqb STATE_NOT_READY STATE_DNS_NEEDED STATE_IP_READY]. do 2 wp_step.
    apply (wp_tick_auth_sent (H := driver_os d) (H0 := driver_linux d)); [done|]. cbv zeta. cbn [w_c w_t].
    set (c' := c <| c_server_port := _ |> <| c_last_recv_time := _ |> <| c_last_open_time := _ |> <| c_state := _ |>).
    change (c_last_recv_time c') with t. change (c_last_open_time c') with 0.
    rewrite Z.sub_diag, Z.sub_0_r, Ht1. change (AUTH_TIMEOUT <? u32 0) with false. cbv iota.
    rewrite (proj2 (Z.leb_le AUTH_RETRY_INTERVAL t)) by done.
    eexists _, (_ :: pre). split_and!; [done|done| |done| |done|done].
    - constructor; [done|by apply quiet_deliverable].
    - rewrite (open_packet_same Hsame). apply list_elem_of_omap. eexists. split; [apply elem_of_cons; by left|].
      cbn [datagram_to]. change (c_server_addr c') with (c_server_addr c). change (c_server_port c') with (cfg_port (nd_cfg nd)).
      by rewrite HA, (sa_port _ _ Hsame), (mo_port _ _ _ _ Hok), !Z.eqb_refl. }
  eexists. split; [exact Hstep|]. split.
  - apply elem_of_app. left. apply list_elem_of_fmap. eauto.
  - apply node_at_after. cbn [nd_last nd_world]. destruct Hc. by split_and!.
Qed.

(** A session granted to one client is not another's. *)
Lemma other_granted s s' r u l r' l' u' c (name : list Z) :
  server_inv s → server_inv s' → sv_heap s' = <[l := u]> (sv_heap s) →
  (∀ k l' c', k ≠ se_key u → sv_heap s !! l' = Some c' → 
    sv_sessions s !! k = Some l' ∧ ¬ replaced r name c' → sv_sessions s' !! k = Some l') →
  key_of r' c ≠ se_key u → r' ≠ r → u_username (se_user u') ≠ name →
  linked s r' l' u' c → linked s' r' l' u' c.
Proof.
  intros Hs Hs' Hheap Hrest Hk Hr Hu Hlk. pose proof (linked_ok _ _ _ _ _ Hs Hlk) as Hok.
  assert (sv_sessions s' !! key_of r' c = Some l') as Hl'.
  { apply (Hrest _ l' u' Hk (lk_heap _ _ _ _ _ Hlk)). split; [apply Hlk|].
    intros [Hr'|Hn]; [|done]. by rewrite (so_key _ _ _ _ Hok) in Hr'. }
  destruct Hlk as [Hst _ Hh He Hkey Hip]. split; try done.
  rewrite Hheap. destruct (decide (l' = l)) as [->|Hne]; [|by rewrite lookup_insert_ne].
  destruct (si_sessions _ Hs' _ _ Hl') as (u2 & Hu2 & Hok2).
  rewrite Hheap, lookup_insert_eq in Hu2. injection Hu2 as <-. by rewrite (so_key _ _ _ _ Hok2) in Hk.
Qed.

(** The server grants it, at any time and whatever identifiers it draws. *)
Lemma grant now ids N r m :
  reachable N → members !! r = Some m → ids_ok ids.1 ids.2 →
  ∃ s l u, handlePacket now (Some ids) r (open_packet (m_cfg m)) (n_server N) =
      Some (s, [WriteToUDP r (openack_packet scfg u)]) ∧
    sv_sessions s !! (r, (se_key u).1.2, (se_key u).2) = Some l ∧ sv_heap s !! l = Some u ∧
    session_of_user (m_cfg m) (m_user m) u ∧
    ∀ r' l' u' c, r' ≠ r → u_username (se_user u') ≠ u_username (m_user m) →
      linked (n_server N) r' l' u' c → linked s r' l' u' c.
Proof.
  intros Hr Hm Hids. pose proof (reachable_inv _ _ _ _ Hsc Hmembers _ Hr) as Hi.
  pose proof (Hmembers _ _ Hm) as Hok. cbv beta in Hok. pose proof (ni_server _ _ _ _ Hi) as [Hs Hc _].
  pose proof (mo_cfg _ _ _ _ Hok) as Hcfg. pose proof (mo_valid _ _ _ _ Hok) as Hv.
  destruct ids as [token sessionID]. cbn [fst snd] in Hids.
  destruct (open_granted (m_cfg m) (m_user m) now r token sessionID (n_server N) Hs Hcfg Hv Hids)
    as (s' & l & E & Hs' & Hl & Hh & Hrest & _ & Hheap); [rewrite Hc; apply Hok|apply Hok|].
  rewrite Hc in Hl, Hh, E, Hrest, Hheap. set (u := granted _ _ _ _ _ _ _) in *.
  exists s', l, u. split_and!; [exact E|exact Hl|exact Hh|by apply session_granted|].
  intros r' l' u' c Hr' Hu' Hlk. eapply (other_granted (n_server N)); try done.
  - intros k l2 u2 Hk Hu2 Hl2. by apply (Hrest k l2 u2 Hk Hu2).
  - by intros [[= ?] _]%pair_equal_spec.
Qed.

Lemma recover_answer N r m :
  reachable N → members !! r = Some m → (r, open_packet (m_cfg m)) ∈ n_up N →
  ∃ N' l u, moves r (u_username (m_user m)) N N' ∧ n_nodes N' = n_nodes N ∧ (r, openack_packet scfg u) ∈ n_down N' ∧
    sv_sessions (n_server N') !! (r, (se_key u).1.2, (se_key u).2) = Some l ∧
    sv_heap (n_server N') !! l = Some u ∧ session_of_user (m_cfg m) (m_user m) u.
Proof.
  intros Hr Hm Hp. assert (ids_ok [0; 0] [0; 0; 0; 0]) as Hids by (split_and!; by repeat constructor).
  destruct (grant 0 ([0; 0], [0; 0; 0; 0]) N r m Hr Hm Hids) as (s & l & u & E & Hl & Hh & Hu & Hrest).
  exists (served s [WriteToUDP r (openack_packet scfg u)] N), l, u. split_and!; try done.
  - split; [by eapply (server_handles _ _ _ _ _ 0 (Some ([0; 0], [0; 0; 0; 0])))|]. split; [done|exact Hrest].
  - apply elem_of_app. left. by apply elem_of_cons; left.
Qed.

(** A client that holds a session of the server, at the time of its last tick. *)
Definition in_touch (s : server) (r : udp_addr) (l : nat) (u : user_session) (nd : node) : Prop :=
  linked s r l u (w_c (nd_world nd)) ∧ two_fds (w_c (nd_world nd)) ∧ u32 (nd_last nd) = nd_last nd.

(** The client handles the answer. *)
Lemma recover_receive N r name m l u :
  reachable N → members !! r = Some m → (r, openack_packet scfg u) ∈ n_down N →
  sv_sessions (n_server N) !! (r, (se_key u).1.2, (se_key u).2) = Some l →
  sv_heap (n_server N) !! l = Some u → session_of_user (m_cfg m) (m_user m) u →
  node_at N r (λ nd, let c := w_c (nd_world nd) in
    two_fds c ∧ c_state c = STATE_AUTH_SENT ∧ u32 (nd_last nd) = nd_last nd) →
  ∃ N', moves r name N N' ∧ node_at N' r (in_touch (n_server N') r l u).
Proof.
  intros Hr Hm Hdown Hl Hh Hu (nd & Hnd & (Ht & Hud & Hne) & Hs & Hlast).
  pose proof (reachable_inv _ _ _ _ Hsc Hmembers _ Hr) as Hi.
  destruct (ni_nodes _ _ _ _ Hi _ _ Hnd) as (m' & Hm' & Hsame & Hcfg & Hinv & Hci).
  assert (m' = m) as -> by congruence. pose proof (Hmembers _ _ Hm) as Hok. cbv beta in Hok.
  destruct (sc_octets _ Hsc _ _ (mo_user _ _ _ _ Hok)) as [Ha Hb].
  assert (c_server_addr (w_c (nd_world nd)) = SA) as HA.
  { destruct (ci_addr _ _ _ _ _ _ Hci) as [?|[Hs' _]]; [done|by rewrite Hs in Hs']. }
  assert (c_server_port (w_c (nd_world nd)) = SP) as HP.
  { by rewrite (ci_port _ _ _ _ _ _ Hci), (mo_port _ _ _ _ Hok). }
  set (p := openack_packet scfg u).
  destruct (openack_packet_shape scfg u) as (Hp & [Hp1 Hp2] & Hp3);
    [done|apply Hu|by rewrite (su_user _ _ _ Hu)..|fold p in Hp, Hp1, Hp2, Hp3].
  set (d := mk_driver false (Some [false; true]) (nd_last nd) 0 None None (Some (p, SA, SP))).
  destruct (turn_step N r name nd d (λ last new w, last = nd_last nd ∧
    linked (n_server N) r l u (w_c w) ∧ two_fds (w_c w)) Hnd) as (last & new & w & (-> & Hc) & Hstep).
  { apply (wp_turn_receive d _ _ _ p SA SP); try done.
    - apply bool_decide_eq_true_2. split; [by transitivity 47|done].
    - by apply Z.lt_le_trans with 8.
    - intros pre Hpre. eapply wp_mono.
      { apply (wp_recv_framed d); [done|apply Hinv|done|].
        apply (wp_recv_openack _ (m_user m)); [done..|].
        apply (wp_openack_establishes d); rewrite ?(su_user _ _ _ Hu); try done.
        - by apply (session_of_user_same Hsame).
        - apply Hok.
        - apply Hci. }
      intros ? w' [[Eu Et _ _ _ _ _ _] [(new & Ew & Hnew) [_ Hlink]]] e He.
      cbn [w_c] in Eu, Et. eexists _, (e :: new ++ _ :: pre).
      split_and!; [done| | |done|by apply Hlink|..].
      3:{ unfold two_fds. cbn [w_c]. by rewrite Eu, Et. }
      + cbn [w_t]. rewrite Ew. cbn [received w_t]. cbn [app]. by rewrite <-app_assoc.
      + constructor; [by apply local_call_deliverable, quiet_local|]. apply Forall_app.
        split; [by apply quiet_deliverable|]. constructor; [by intros _ _|by apply quiet_deliverable]. }
  eexists. split; [exact Hstep|]. apply node_at_after. by destruct Hc.
Qed.

Lemma reachable_step N N' : reachable N → step N N' → reachable N'.
Proof. apply rtc_r. Qed.

(** All the way. *)
Lemma recover N r m :
  reachable N → members !! r = Some m → is_Some (n_nodes N !! r) →
  ∃ N' l u, rtc (moves r (u_username (m_user m))) N N' ∧ node_at N' r (in_touch (n_server N') r l u) ∧
    se_user u = m_user m.
Proof.
  intros Hr Hm [nd Hnd]. set (name := u_username (m_user m)).
  assert (∀ N1 N2, reachable N1 → moves r name N1 N2 → reachable N2) as Hreach
    by (intros N1 N2 H1 [H2 _]; by eapply reachable_step).
  destruct (recover_reset N r name Hr) as (N1 & H1 & nd1 & Hnd1 & Hfd1 & Hs1); [by exists nd|].
  pose proof (Hreach _ _ Hr H1) as Hr1.
  assert (∃ N2, rtc (moves r name) N1 N2 ∧ reachable N2 ∧ node_at N2 r (λ nd, let c := w_c (nd_world nd) in
    two_fds c ∧ c_state c = STATE_IP_READY)) as (N2 & H2 & Hr2 & Hat2).
  { destruct Hs1 as [Hs1|Hs1]; [exists N1; split_and!; [done..|by exists nd1]|].
    destruct (recover_resolve N1 r name Hr1) as (N2 & H2 & Hat2); [by exists nd1|].
    exists N2. split_and!; [by apply rtc_once|by eapply Hreach|done]. }
  destruct (recover_ask N2 r name m Hr2 Hm Hat2) as (N3 & H3 & Hp & Hat3).
  pose proof (Hreach _ _ Hr2 H3) as Hr3.
  destruct (recover_answer N3 r m Hr3 Hm Hp) as (N4 & l & u & H4 & En & Hdown & Hl & Hh & Hu).
  pose proof (Hreach _ _ Hr3 H4) as Hr4.
  destruct (recover_receive N4 r name m l u Hr4 Hm Hdown Hl Hh Hu) as (N5 & H5 & Hat5).
  { unfold node_at. by rewrite En. }
  exists N5, l, u. split_and!; [|done|apply Hu].
  do 3 (eapply rtc_r; [|done]). by apply (rtc_l _ _ N1).
Qed.

(** Recovery.  In every state that the system can reach, whatever was lost, whatever either
    end holds and whatever is still in the network, a running client can get back in session
    with the server: some continuation of the execution leads there. *)
Theorem recoverable N r nd :
  reachable N → n_nodes N !! r = Some nd →
  ∃ N' nd' l u, rtc step N N' ∧ n_nodes N' !! r = Some nd' ∧
    linked (n_server N') r l u (w_c (nd_world nd')).
Proof.
  intros Hr Hnd.
  destruct (ni_nodes _ _ _ _ (reachable_inv _ _ _ _ Hsc Hmembers _ Hr) _ _ Hnd) as (m & Hm & _).
  destruct (recover N r m Hr Hm) as (N' & l & u & [Hsteps _]%moves_path & (nd' & Hnd' & Hlk & _) & _); [by eexists|].
  by exists N', nd', l, u.
Qed.
End recovery.

(** From the state of [stale_session]. *)
Lemma recoverable_witness :
  ∃ N' nd' l u, rtc (Network.step sample_SA 8000 sample_sconfig sample_members) (final sample_sconfig stale) N' ∧
    n_nodes N' !! sample_remote = Some nd' ∧ linked (n_server N') sample_remote l u (w_c (nd_world nd')).
Proof.
  destruct (established_in (final sample_sconfig stale) sample_remote) as (nd & Hnd & _);
    [vm_compute; reflexivity|].
  apply (recoverable sample_SA 8000 sample_sconfig sample_members sample_sconfig_ok members_ok
    (final sample_sconfig stale) sample_remote nd).
  - apply final_reachable; [exact sample_sconfig_ok|reflexivity].
  - exact Hnd.
Defined.
