(* ===== verification/Delivery.v ===== *)
(** Delivery: from every state the system of [Network] can reach, a packet can still be
    carried from the device of one running client to the device of another.  With the
    integrity of [Network] (nothing else is ever written), this is what the tunnel is for. *)
From stdpp Require Import gmap.
From S2P Require Import Prelude Libc Md5 Aes Client Config Os Tun TunLinux CMonad Packet OpenAck Frag.
From S2P Require Import Protocol Server Recv Machine Main Interop Traffic Network Runs Recovery.

#[local] Opaque md5_spec fips_cipher aes_encrypt_block aes_decrypt_block aes_set_encrypt_key
  aes_set_decrypt_key signature build_open_pkt Md5.md5_hash client_init.

(** ** The data of a turn *)

(** Calls that move no data leave no traffic. *)
Lemma quiet_no_traffic SA SP new :
  Forall quiet new →
  omap (datagram_to SA SP) new = [] ∧ omap data_read new = [] ∧ omap data_written new = [].
Proof.
  induction 1 as [|[s r] new Hev _ (IH1 & IH2 & IH3)]; [done|].
  destruct s; cbn [omap list_omap datagram_to data_read data_written]; auto; done.
Qed.

Lemma data_packet_shape c data :
  client_ok c → bytes data →
  bytes (data_packet c data) ∧
  head (data_packet c data) = Some (if negb (c_encrypt c =? 0) then PKT_DATA_ENC else PKT_DATA).
Proof.
  intros Hc Hd. unfold data_packet. destruct (c_encrypt c =? 0) eqn:He; cbn [negb]; (split; [|done]).
  - apply Forall_app. split; [|done]. by apply session_header_ok.
  - rewrite !Forall_app. split_and!; auto using le_encode_bytes.
    + repeat constructor; apply Hc || done.
    + apply xor_bytes_bytes; [apply Hc|done].
Qed.

(** The session of a client is not in its counters. *)
Lemma linked_same s r l u c c' : same_session c c' → linked s r l u c → linked s r l u c'.
Proof.
  intros (Es & Ee & Et & Ei & Ep & Ek & _) [Hs Hk Hh He Hkey Hip].
  split; rewrite ?Es, ?Ee, ?Et, ?Ei, ?Ep, ?Ek; done.
Qed.

Section delivery.
Variables (SA SP : Z) (scfg : normalizedConfig) (members : gmap udp_addr member).
Hypothesis (Hsc : sconfig_ok scfg).
Hypothesis (Hmembers : map_Forall (λ _ m, member_ok SA SP scfg m) members).

#[local] Abbreviation reachable := (reachable SA SP scfg members).
#[local] Abbreviation step := (step SA SP scfg members).
#[local] Abbreviation moves := (moves SA SP scfg members).

(** A client in session talks to the server. *)
Lemma session_endpoint N r nd :
  reachable N → n_nodes N !! r = Some nd → c_state (w_c (nd_world nd)) = STATE_ESTABLISHED →
  client_ok (w_c (nd_world nd)) ∧ c_server_addr (w_c (nd_world nd)) = SA ∧
  c_server_port (w_c (nd_world nd)) = SP ∧ cfg_ok (nd_cfg nd).
Proof.
  intros Hr Hnd Hs. pose proof (reachable_inv _ _ _ _ Hsc Hmembers _ Hr) as Hi.
  destruct (ni_nodes _ _ _ _ Hi _ _ Hnd) as (m & Hm & _ & Hcfg & Hinv & Hci).
  split_and!; [apply Hinv| | |done].
  - destruct (ci_addr _ _ _ _ _ _ Hci) as [?|[Hs' _]]; [done|by rewrite Hs in Hs'].
  - by rewrite (ci_port _ _ _ _ _ _ Hci), (mo_port _ _ _ _ (Hmembers _ _ Hm)).
Qed.

(** The sender reads the packet from its device and sends it. *)
Lemma deliver_send N r name nd l u data :
  reachable N → n_nodes N !! r = Some nd → in_touch (n_server N) r l u nd →
  data ≠ [] → len data ≤ 2040 → bytes data →
  ∃ N', moves r name N N' ∧ n_server N' = n_server N ∧
    (r, data_packet (w_c (nd_world nd)) data) ∈ n_up N' ∧
    n_read N' = (r, data) :: n_read N ∧ n_written N' = n_written N ∧
    node_at N' r (λ nd', same_session (w_c (nd_world nd)) (w_c (nd_world nd'))).
Proof.
  intros Hr Hnd (Hlk & (Ht & Hu & Hne) & Hlast) Hd Hl Hb. pose proof (lk_state _ _ _ _ _ Hlk) as Hs.
  destruct (session_endpoint N r nd Hr Hnd Hs) as (_ & HA & HP & _). set (c := w_c (nd_world nd)) in *.
  set (d := mk_driver false (Some [true]) (nd_last nd) 0 None (Some data) None).
  destruct (turn_step SA SP scfg members N r name nd d (λ last new w, same_session c (w_c w) ∧
    omap (datagram_to SA SP) new = [data_packet c data] ∧ omap data_read new = [data] ∧
    omap data_written new = []) Hnd) as (last & new & w & (Hsame & Hup & Hrd & Hwr) & Hstep).
  { apply (wp_turn_device d _ _ _ data); try done; [by apply bool_decide_eq_true_2|].
    intros pre post r' c' Hpre Hpost Hsame. fold c in Hsame. fold c.
    eexists _, (post ++ Ev (SSendto (c_udp_fd c) (c_server_addr c) (c_server_port c) (data_packet c data)) r' ::
      Ev (SRead (c_tun_fd c) 2040) (Some data) :: pre).
    destruct (quiet_no_traffic SA SP _ Hpre) as (E1 & E2 & E3).
    destruct (quiet_no_traffic SA SP _ Hpost) as (F1 & F2 & F3).
    split_and!; [done|cbn [w_t]; by rewrite <-app_assoc| |done|..].
    - apply Forall_app. split; [by apply quiet_deliverable|].
      do 2 (constructor; [done|]). by apply quiet_deliverable.
    - rewrite omap_app, F1. cbn [omap list_omap datagram_to app]. by rewrite HA, HP, !Z.eqb_refl, E1.
    - rewrite omap_app, F2. cbn [omap list_omap data_read app]. by rewrite E2.
    - rewrite omap_app, F3. cbn [omap list_omap data_written app]. exact E3. }
  eexists. split; [exact Hstep|]. cbn [absorb n_server n_up n_read n_written]. split_and!; [done| | | |].
  - unfold absorb. cbn [n_up]. rewrite Hup. by apply elem_of_app; left; apply elem_of_cons; left.
  - unfold absorb. cbn [n_read]. by rewrite Hrd.
  - unfold absorb. cbn [n_written]. by rewrite Hwr.
  - by apply node_at_after.
Qed.
(** The server forwards it. *)
Lemma deliver_forward N r1 l1 u1 c1 r2 l2 u2 c2 data ip :
  reachable N → linked (n_server N) r1 l1 u1 c1 → linked (n_server N) r2 l2 u2 c2 →
  (r1, data_packet c1 data) ∈ n_up N → parseIPv4Packet data = mret ip → p_packet ip = data →
  p_source ip = u_address (se_user u1) → p_destination ip = u_address (se_user u2) →
  ∃ N', step N N' ∧ n_nodes N' = n_nodes N ∧ (r2, data_packet c2 data) ∈ n_down N' ∧
    n_read N' = n_read N ∧ n_written N' = n_written N.
Proof.
  intros Hr H1 H2 Hup Hp Hpk Hsrc Hdst.
  pose proof (kn_inv _ _ _ (ni_server _ _ _ _ (reachable_inv _ _ _ _ Hsc Hmembers _ Hr))) as Hs.
  destruct (server_forwards 0 None (n_server N) r1 l1 u1 c1 r2 l2 u2 c2 data ip Hs H1 H2 Hp)
    as (s' & E & _); [by rewrite (lk_ip _ _ _ _ _ H2)|done|by rewrite (lk_ip _ _ _ _ _ H1)|].
  exists (served s' [WriteToUDP r2 (data_packet c2 data)] N). split_and!; try done.
  - by eapply (server_handles _ _ _ _ _ 0 None r1).
  - apply elem_of_app. left. by apply elem_of_cons; left.
Qed.

(** The receiver writes it to its device. *)
Lemma deliver_receive N r name nd data :
  reachable N → n_nodes N !! r = Some nd → c_state (w_c (nd_world nd)) = STATE_ESTABLISHED →
  two_fds (w_c (nd_world nd)) → u32 (nd_last nd) = nd_last nd →
  (r, data_packet (w_c (nd_world nd)) data) ∈ n_down N → 0 < len data ≤ 2040 → bytes data →
  ∃ N', moves r name N N' ∧ n_read N' = n_read N ∧ n_written N' = (r, data) :: n_written N.
Proof.
  intros Hr Hnd Hs (Ht & Hu & Hne) Hlast Hdown Hl Hb.
  destruct (session_endpoint N r nd Hr Hnd Hs) as (Hc & HA & HP & Hcfg). set (c := w_c (nd_world nd)) in *.
  set (p := data_packet c data) in *.
  destruct (data_packet_shape c data Hc Hb) as [Hpb Hph]; fold p in Hpb, Hph.
  assert (len p = 8 + len data) as Hpl by apply len_data_packet.
  pose proof (reachable_inv _ _ _ _ Hsc Hmembers _ Hr) as Hi.
  destruct (ni_nodes _ _ _ _ Hi _ _ Hnd) as (m & Hm & _).
  pose proof (sc_octets _ Hsc _ _ (mo_user _ _ _ _ (Hmembers _ _ Hm))) as Haddr.
  set (d := mk_driver false (Some [false; true]) (nd_last nd) 0 None None (Some (p, SA, SP))).
  destruct (turn_step SA SP scfg members N r name nd d (λ last new w,
    omap data_read new = [] ∧ omap data_written new = [data]) Hnd) as (last & new & w & (Hrd & Hwr) & Hstep).
  { apply (wp_turn_receive d _ _ _ p SA SP); try done.
    - apply bool_decide_eq_true_2. split; [change MAX_PKT_SIZE with 2048; lia|done].
    - lia.
    - intros pre Hpre. apply (wp_recv_data _ (m_user m) Haddr (negb (c_encrypt c =? 0))); [lia|done|].
      wp_step. apply wp_handle_data. cbv zeta. cbn [received w_c w_t]. rewrite decide_True by (split; [done|lia]).
      unfold p. rewrite data_payload_packet by done. unfold refresh. cbn [Z.eqb Pos.eqb negb when]. do 3 wp_step.
      intros e He. destruct (quiet_no_traffic SA SP _ Hpre) as (_ & E2 & E3).
      destruct (quiet_no_traffic SA SP [e]) as (_ & F2 & F3); [by constructor|].
      match goal with |- ∃ last new, _ ∧ ?e0 :: ?e1 :: ?e2 :: ?e3 :: _ = _ ∧ _ =>
        eexists _, ([e0] ++ e1 :: e2 :: e3 :: pre) end.
      split_and!; [done..| | |].
      + constructor; [by apply local_call_deliverable, quiet_local|]. do 2 (constructor; [done|]).
        constructor; [by intros _ _|by apply quiet_deliverable].
      + rewrite omap_app, F2. cbn [omap list_omap data_read app]. exact E2.
      + rewrite omap_app, F3. cbn [omap list_omap data_written app]. by rewrite E3. }
  eexists. split; [exact Hstep|]. unfold absorb. cbn [n_read n_written]. by rewrite Hrd, Hwr.
Qed.
(** Both ends of the path in session. *)
Lemma both_recover N r1 r2 m1 m2 :
  reachable N → members !! r1 = Some m1 → members !! r2 = Some m2 → r1 ≠ r2 →
  u_username (m_user m1) ≠ u_username (m_user m2) →
  is_Some (n_nodes N !! r1) → is_Some (n_nodes N !! r2) →
  ∃ N' l1 u1 l2 u2, rtc step N N' ∧
    node_at N' r1 (in_touch (n_server N') r1 l1 u1) ∧ se_user u1 = m_user m1 ∧
    node_at N' r2 (in_touch (n_server N') r2 l2 u2) ∧ se_user u2 = m_user m2.
Proof.
  intros Hr Hm1 Hm2 Hne Hname H1 H2.
  destruct (recover SA SP scfg members Hsc Hmembers N r1 m1 Hr Hm1 H1)
    as (N1 & l1 & u1 & [Hs1 [Hn1 _]]%moves_path & (nd1 & Hnd1 & Hlk1 & Hin1) & Hu1).
  assert (reachable N1) as Hr1 by (unfold Network.reachable in *; by transitivity N).
  destruct (recover SA SP scfg members Hsc Hmembers N1 r2 m2 Hr1 Hm2)
    as (N2 & l2 & u2 & [Hs2 [Hn2 Hl2]]%moves_path & Hat2 & Hu2); [by rewrite Hn1|].
  exists N2, l1, u1, l2, u2. split_and!; try done; [by transitivity N1|].
  exists nd1. split; [by rewrite Hn2|]. split; [|done]. apply Hl2; [done| |done]. by rewrite Hu1.
Qed.

(** C5: delivery.  In every state that the system can reach, whatever was lost and whatever either
    end holds, an IPv4 packet between two running clients of different users can get
    through: some continuation of the execution has the device of the first deliver it and
    ends with the device of the second being given exactly that packet. *)
Theorem deliverable_packet N r1 r2 m1 m2 data ip :
  reachable N → members !! r1 = Some m1 → members !! r2 = Some m2 →
  u_username (m_user m1) ≠ u_username (m_user m2) →
  is_Some (n_nodes N !! r1) → is_Some (n_nodes N !! r2) →
  parseIPv4Packet data = mret ip → p_packet ip = data → len data ≤ 2040 → bytes data →
  p_source ip = u_address (m_user m1) → p_destination ip = u_address (m_user m2) →
  ∃ N1 N2, rtc step N N1 ∧ rtc step N1 N2 ∧
    n_read N2 = (r1, data) :: n_read N1 ∧ n_written N2 = (r2, data) :: n_written N1.
Proof.
  intros Hr Hm1 Hm2 Hname H1 H2 Hp Hpk Hl Hb Hsrc Hdst.
  assert (r1 ≠ r2) as Hne by (intros ->; congruence).
  destruct (both_recover N r1 r2 m1 m2 Hr Hm1 Hm2 Hne Hname H1 H2) as (N1 & l1 & u1 & l2 & u2 & Hs1 &
    (nd1 & Hnd1 & Hin1) & Hu1 & (nd2 & Hnd2 & Hlk2 & Hfd2 & Hlast2) & Hu2).
  assert (reachable N1) as Hr1 by (unfold Network.reachable in *; by transitivity N).
  pose proof (parseIPv4Packet_len _ _ Hp) as Hl20.
  destruct (deliver_send N1 r1 [] nd1 l1 u1 data Hr1 Hnd1 Hin1) as (N2 & [Hs2 [Hn2 _]] & Es2 & Hup & Er2 & Ew2 & _);
    [by intros ->|done|done|].
  pose proof (reachable_step _ _ _ _ _ _ Hr1 Hs2) as Hr2.
  destruct (deliver_forward N2 r1 l1 u1 (w_c (nd_world nd1)) r2 l2 u2 (w_c (nd_world nd2)) data ip)
    as (N3 & Hs3 & En3 & Hdown & Er3 & Ew3); try done; rewrite ?Es2, ?Hu1, ?Hu2; try done; [apply Hin1|].
  pose proof (reachable_step _ _ _ _ _ _ Hr2 Hs3) as Hr3.
  destruct (deliver_receive N3 r2 [] nd2 data Hr3) as (N4 & [Hs4 _] & Er4 & Ew4); try done.
  { rewrite En3, Hn2; done. }
  { apply Hlk2. }
  { lia. }
  exists N1, N4. split_and!; [done| |congruence|congruence].
  eapply rtc_l; [exact Hs2|]. eapply rtc_l; [exact Hs3|]. by apply rtc_once.
Qed.
End delivery.

(** From a state where only one of the two is in session, and believes so in vain. *)
Definition stale_peer : list command := stale ++ [Start peer_remote (idle 100)].

Lemma deliverable_packet_witness :
  ∃ N1 N2, rtc (Network.step sample_SA 8000 sample_sconfig sample_members) (final sample_sconfig stale_peer) N1 ∧
    rtc (Network.step sample_SA 8000 sample_sconfig sample_members) N1 N2 ∧
    n_read N2 = (sample_remote, sample_ip) :: n_read N1 ∧
    n_written N2 = (peer_remote, sample_ip) :: n_written N1.
Proof.
  apply (deliverable_packet sample_SA 8000 sample_sconfig sample_members sample_sconfig_ok members_ok
    (final sample_sconfig stale_peer) sample_remote peer_remote (mk_member sample_cfg sample_user)
    (mk_member peer_cfg sample_peer) sample_ip sample_parsed).
  - apply final_reachable; [exact sample_sconfig_ok|reflexivity].
  - reflexivity.
  - reflexivity.
  - vm_compute. discriminate.
  - apply (is_Some_alt _). vm_compute. exact I.
  - apply (is_Some_alt _). vm_compute. exact I.
  - reflexivity.
  - reflexivity.
  - vm_compute. discriminate.
  - apply byte_list_ok. vm_compute. reflexivity.
  - reflexivity.
  - reflexivity.
Defined.
