(* ===== verification/Convergence.v ===== *)
(** Convergence: when the network works, a client gets in session with the server by itself
    and stays there.  [Recovery] shows a way back that exists; here is the way that the
    timers of [src/src/iwand.c] take, second by second, from every state the system can
    reach, with a bound on the time.

    A second ([second]): the event loop of the client runs one turn, in which it is given
    the answer the server has sent it, if any, and its timer expires; then the server handles
    what the client has sent.  How far a client is from a session is measured ([stage]); each
    second brings it nearer ([second_nearer]), and what others do between the seconds does
    not set it back ([nearing_others]). *)
From stdpp Require Import gmap.
From S2P Require Import Prelude Libc Md5 Aes Client Config Os Tun TunLinux CMonad Packet OpenAck Frag.
From S2P Require Import Protocol Server Recv Machine Main Interop Traffic Network Runs Neighbours Recovery Delivery.

#[local] Opaque md5_spec fips_cipher aes_encrypt_block aes_decrypt_block aes_set_encrypt_key
  aes_set_decrypt_key signature build_open_pkt Md5.md5_hash client_init.

(** ** One turn of the client in a working second *)

(** A call that sends nothing and is given nothing by the network. *)
Definition unsent (ev : event) : Prop :=
  match ev_call ev with SSendto _ _ _ _ | SRecvfrom _ _ | SGetaddrinfo _ => False | _ => True end.

Lemma quiet_unsent new : Forall quiet new → Forall unsent new.
Proof. intros Hn. eapply Forall_impl; [exact Hn|]. intros [s r]. by destruct s. Qed.

(** A client that has a socket, the new one [fd] if it had none. *)
Definition socketed (c : client) (fd : Z) : client :=
  if c_udp_fd c <? 0 then c <| c_udp_fd := fd |> else c.

(** What the timer does at time [t], and what it sends.  [opening] is the client as it
    enters the authentication. *)
Definition opening (cfg : config) (t : Z) (c : client) : client :=
  if c_state c =? STATE_IP_READY
  then c <| c_server_port := cfg_port cfg |> <| c_last_recv_time := t |> <| c_last_open_time := 0 |>
         <| c_state := STATE_AUTH_SENT |>
  else c.
Definition ping (c : client) (ts : Z) : list Z := signed_header PKT_ECHOREQ c ++ echo_payload ts c.
Definition counted (c : client) : client := c <| c_echo_counter := u32 (c_echo_counter c + 1) |>.

Inductive tick_out (cfg : config) (t fd : Z) (c : client) : client → list (list Z) → Prop :=
  | tick_resolves c' :
      c_state c = STATE_DNS_NEEDED → c_state c' = STATE_IP_READY → c_udp_fd c' = c_udp_fd c →
      c_tun_fd c' = c_tun_fd c → tick_out cfg t fd c c' []
  | tick_asks :
      let c1 := opening cfg t c in
      c_state c1 = STATE_AUTH_SENT → u32 (t - c_last_recv_time c1) ≤ AUTH_TIMEOUT →
      AUTH_RETRY_INTERVAL ≤ u32 (t - c_last_open_time c1) →
      tick_out cfg t fd c (c1 <| c_last_open_time := t |>) [open_packet cfg]
  | tick_waits :
      let c1 := opening cfg t c in
      c_state c1 = STATE_AUTH_SENT → u32 (t - c_last_recv_time c1) ≤ AUTH_TIMEOUT →
      u32 (t - c_last_open_time c1) < AUTH_RETRY_INTERVAL → tick_out cfg t fd c c1 []
  | tick_pings ts :
      c_state c = STATE_ESTABLISHED → u32 (t - c_last_recv_time c) ≤ DATA_TIMEOUT →
      Z.even (c_echo_counter c + 1) = true → tick_out cfg t fd c (counted c) [ping c ts]
  | tick_silent :
      c_state c = STATE_ESTABLISHED → u32 (t - c_last_recv_time c) ≤ DATA_TIMEOUT →
      Z.even (c_echo_counter c + 1) = false → tick_out cfg t fd c (counted c) []
  | tick_resets ups :
      c_state c = STATE_CLOSED ∨
      c_state c = STATE_AUTH_SENT ∧ AUTH_TIMEOUT < u32 (t - c_last_recv_time c) ∨
      c_state c = STATE_ESTABLISHED ∧ DATA_TIMEOUT < u32 (t - c_last_recv_time c) →
      Forall (λ p, p = signed_header PKT_CLOSE c) ups → tick_out cfg t fd c (reset_client c fd) ups.

Section turns.
Variables (d : driver) (cfg : config) (SA SP : Z).
#[local] Instance seconds_os : OS := driver_os d.
#[local] Instance seconds_tun : TunBackend := driver_linux d.
#[local] Instance seconds_os_ok : OSOk := driver_os_ok d.
#[local] Instance seconds_tun_ok : TunOk := Linux.linux_tun_ok.
Hypothesis (Hsock : 0 ≤ dr_socket d).

Lemma wp_tick_socketed w (Q : unit → world → Prop) :
  (∀ pre, Forall quiet pre →
    wp (tick_dispatch cfg (u32 (dr_clock d))) (mk_world (socketed (w_c w) (dr_socket d)) (pre ++ w_t w)) Q) →
  wp (timer_tick cfg) w Q.
Proof.
  intros HQ. destruct (Z.ltb_spec (c_udp_fd (w_c w)) 0) as [Hu|Hu].
  - unfold timer_tick. do 5 wp_step. rewrite (proj2 (Z.ltb_lt _ 0)) by done. wp_step.
    eapply wp_io; [apply udp_socket_create_spec|]. intros fd new (_ & Hn & _ & Hfd). do 3 wp_step.
    destruct Hfd as [tr ->]; [done|]. change (os tr SSocket) with (dr_socket d).
    rewrite (proj2 (Z.ltb_ge _ 0)) by done. cbn [negb].
    change (u32 (os (w_t w) SClock).1) with (u32 (u32 (dr_clock d))).
    rewrite (u32_id (u32 (dr_clock d))) by apply u32_is.
    specialize (HQ (new ++ [Ev SClock (os (w_t w) SClock)])). unfold socketed in HQ.
    rewrite (proj2 (Z.ltb_lt _ 0)), <-app_assoc in HQ by done. apply HQ, Forall_app.
    split; [done|by repeat constructor].
  - apply wp_tick_dispatch; [done|]. cbv zeta.
    change (u32 (os (w_t w) SClock).1) with (u32 (u32 (dr_clock d))).
    rewrite (u32_id (u32 (dr_clock d))) by apply u32_is.
    specialize (HQ [Ev SClock (os (w_t w) SClock)]). unfold socketed in HQ.
    rewrite (proj2 (Z.ltb_ge _ 0)) in HQ by done. apply HQ. by repeat constructor.
Qed.

(** The turn: what is readable is handled, then the timer expires. *)
Lemma wp_turn_second last rev w (Q : option Z → world → Prop) :
  let t := u32 (dr_clock d) in let c := w_c w in
  dr_reconnect d = false → dr_poll d = Some rev → t ≠ last →
  (∀ pre, Forall quiet pre →
    wp (handle_events cfg (poll_fds c) (resize (length (poll_fds c)) false rev))
      (mk_world c (pre ++ w_t w)) (λ _ w1, ∀ pre1, Forall quiet pre1 →
        wp (tick_dispatch cfg t) (mk_world (socketed (w_c w1) (dr_socket d)) (pre1 ++ w_t w1))
          (λ _ w2, Q (Some t) w2))) →
  wp (client_turn cfg last) w Q.
Proof.
  intros t c Hr Hp Hlast HQ. unfold client_turn, main_turn. do 3 wp_step.
  change (os (w_t w) SQuit) with false. cbv iota. do 2 wp_step.
  change (os _ SReconnect) with (dr_reconnect d). rewrite Hr. cbn [when]. do 6 wp_step. fold c.
  change (os _ (SPoll _)) with (match dr_poll d with None => PollEintr | Some l =>
    PollOk (resize (length (poll_fds c)) false l) end).
  rewrite Hp. wp_step.
  match goal with |- wp _ (mk_world _ (?e1 :: ?e2 :: ?e3 :: w_t w)) _ =>
    eapply wp_mono; [apply (HQ [e1; e2; e3]); by repeat constructor|] end.
  intros ? w1 Hw1. do 2 wp_step.
  change (u32 (os _ SClock).1) with (u32 (u32 (dr_clock d))).
  rewrite (u32_id (u32 (dr_clock d))) by apply u32_is. fold t.
  rewrite (proj2 (Z.eqb_neq t last)) by done. cbn [negb]. wp_step.
  apply wp_tick_socketed. intros pre Hpre. cbn [w_c w_t].
  match goal with |- wp _ (mk_world _ (pre ++ ?e :: w_t w1)) _ =>
    specialize (Hw1 (pre ++ [e])) end.
  rewrite <-app_assoc in Hw1. eapply wp_mono; [apply Hw1, Forall_app; split; [done|by repeat constructor]|].
  intros ? w2 HQ2. by do 2 wp_step.
Qed.
(** What a tick does and sends. *)
Definition tick_spec (t : Z) (w w' : world) : Prop :=
  ∃ new, w_t w' = new ++ w_t w ∧
    (∀ N r, Forall (deliverable SA SP N r) new) ∧
    tick_out cfg t (dr_socket d) (w_c w) (w_c w') (omap (datagram_to SA SP) new).

Lemma reset_sends c new :
  c_server_addr c = SA → c_server_port c = SP → Forall (reset_event c) new →
  (∀ N r, Forall (deliverable SA SP N r) new) ∧
  Forall (λ p, p = signed_header PKT_CLOSE c) (omap (datagram_to SA SP) new).
Proof.
  intros HA HP. induction 1 as [|[s res] new Hev _ [IH1 IH2]]; [by repeat constructor|]. split.
  - intros N r. constructor; [|done]. destruct Hev as [Hq|[_ Hc]]; [by destruct s|].
    unfold close_event in Hc. cbn [ev_call] in Hc. by subst s.
  - destruct Hev as [Hq|[_ Hc]].
    + cbn [omap list_omap]. by destruct s.
    + unfold close_event in Hc. cbn [ev_call] in Hc. subst s. cbn [omap list_omap datagram_to].
      rewrite HA, HP, !Z.eqb_refl. by constructor.
Qed.

Lemma wp_reset_spec t w :
  cfg_ok cfg → client_ok (w_c w) → c_server_addr (w_c w) = SA → c_server_port (w_c w) = SP →
  c_state (w_c w) = STATE_CLOSED ∨
    c_state (w_c w) = STATE_AUTH_SENT ∧ AUTH_TIMEOUT < u32 (t - c_last_recv_time (w_c w)) ∨
    c_state (w_c w) = STATE_ESTABLISHED ∧ DATA_TIMEOUT < u32 (t - c_last_recv_time (w_c w)) →
  wp (client_reset cfg) w (λ _ w', tick_spec t w w').
Proof.
  intros Hcfg Hc HA HP Hs. apply wp_client_reset; [done|apply Hc|]. intros fd new _ Hfd Hnew _ _.
  destruct Hfd as [tr ->]; [done|]. change (os tr SSocket) with (dr_socket d).
  destruct (reset_sends _ _ HA HP Hnew) as [Hdel Hups]. exists new. split_and!; [done..|]. by apply tick_resets.
Qed.

Lemma wp_auth_spec t c tr0 tr :
  cfg_ok cfg → client_ok c → c_server_addr c = SA → c_server_port (opening cfg t c) = SP →
  c_state (opening cfg t c) = STATE_AUTH_SENT → (c_state c = STATE_IP_READY ∨ c_state c = STATE_AUTH_SENT) →
  tr = tr0 →
  wp (tick_auth_sent cfg t) (mk_world (opening cfg t c) tr) (λ _ w', tick_spec t (mk_world c tr0) w').
Proof.
  intros Hcfg Hc HA HP Hs1 Hs ->. set (c1 := opening cfg t c) in *.
  assert (c_server_addr c1 = SA) as HA1 by (unfold c1, opening; by destruct (_ =? _)).
  apply wp_tick_auth_sent; [done|]. cbv zeta. cbn [w_c w_t].
  destruct (Z.ltb_spec AUTH_TIMEOUT (u32 (t - c_last_recv_time c1))) as [Hto|Hto].
  - destruct Hs as [Hs|Hs].
    { exfalso. unfold c1, opening in Hto. rewrite Hs, Z.eqb_refl in Hto.
      change (AUTH_TIMEOUT < u32 (t - t)) in Hto. by rewrite Z.sub_diag in Hto. }
    assert (c1 = c) as Ec by (unfold c1, opening; by rewrite Hs). rewrite Ec in *.
    apply wp_reset_spec; try done. cbn [w_c]. auto.
  - destruct (Z.leb_spec AUTH_RETRY_INTERVAL (u32 (t - c_last_open_time c1))) as [Hd|Hd].
    + eexists [_]. split_and!; [done|intros N r; by repeat constructor|].
      cbn [w_c omap list_omap datagram_to]. rewrite HA1, HP, !Z.eqb_refl. cbn [andb]. by apply tick_asks.
    + exists []. split_and!; [done|intros N r; constructor|]. by apply tick_waits.
Qed.

Lemma wp_established_spec t w :
  cfg_ok cfg → client_ok (w_c w) → c_server_addr (w_c w) = SA → c_server_port (w_c w) = SP →
  c_state (w_c w) = STATE_ESTABLISHED →
  wp (tick_established cfg t) w (λ _ w', tick_spec t w w').
Proof.
  intros Hcfg Hc HA HP Hs. apply wp_tick_established. cbv zeta.
  destruct (Z.ltb_spec DATA_TIMEOUT (u32 (t - c_last_recv_time (w_c w)))) as [Hto|Hto].
  - apply wp_reset_spec; auto.
  - destruct (Z.even (c_echo_counter (w_c w) + 1)) eqn:He.
    + eexists [_; _]. split_and!; [done|intros N r; by repeat constructor|].
      cbn [w_c omap list_omap datagram_to]. rewrite HA, HP, !Z.eqb_refl. cbn [andb]. by apply tick_pings.
    + exists []. split_and!; [done|intros N r; constructor|]. by apply tick_silent.
Qed.

Lemma wp_tick_spec t w :
  cfg_ok cfg → client_ok (w_c w) → c_state (w_c w) ∈ states → cfg_port cfg = SP →
  (c_state (w_c w) = STATE_DNS_NEEDED ∨ c_server_addr (w_c w) = SA) → c_server_port (w_c w) = SP →
  dr_lookup d = Some SA →
  wp (tick_dispatch cfg t) w (λ _ w', tick_spec t w w').
Proof.
  intros Hcfg Hc Hst Hport HA HP Hl. unfold tick_dispatch. do 2 wp_step. cbv zeta.
  unfold states in Hst. rewrite !elem_of_cons, elem_of_nil in Hst. destruct w as [c tr]. cbn [w_c w_t] in *.
  wp_step; [rewrite Z.eqb_eq in *; by rewrite Heqb in Hst; repeat destruct Hst as [[=]|Hst]|]. wp_step.
  { rewrite Z.eqb_eq in *. wp_step. apply wp_resolve_server; [done|apply Hc| |].
    - intros a dom _ _ _. cbn [Z.eqb when w_c w_t]. wp_step. exists []. split_and!; [done|intros; constructor|].
      by apply tick_resolves.
    - cbv zeta. intros _ _. change (os _ (SGetaddrinfo _)) with (dr_lookup d). rewrite Hl.
      cbn [Z.eqb when w_c w_t]. wp_step. eexists [_]. split_and!; [done|intros; by repeat constructor|].
      by apply tick_resolves. }
  rewrite Z.eqb_neq in *. destruct HA as [?|HA]; [done|].
  wp_step.
  { rewrite Z.eqb_eq in *. do 2 wp_step.
    match goal with |- wp _ (mk_world ?c1 _) _ => assert (c1 = opening cfg t c) as -> end.
    { unfold opening. by rewrite (proj2 (Z.eqb_eq (c_state c) STATE_IP_READY)) by done. }
    apply wp_auth_spec; try done; [| |by left];
      unfold opening; by rewrite (proj2 (Z.eqb_eq (c_state c) STATE_IP_READY)) by done. }
  assert (opening cfg t c = c) as Ho by (unfold opening; by match goal with H : (_ =? STATE_IP_READY) = false |- _ => rewrite H end).
  wp_step.
  { rewrite Z.eqb_eq in *. pose proof (wp_auth_spec t c tr tr) as Ha. rewrite Ho in Ha. auto. }
  wp_step; [rewrite Z.eqb_eq in *; by apply wp_established_spec|].
  rewrite !Z.eqb_neq in *. apply wp_reset_spec; try done. left. cbn [w_c]. tauto.
Qed.
(** An answer is missed by a client without a socket of its own... *)
Lemma wp_events_missed w (Q : unit → world → Prop) :
  let c := w_c w in
  0 ≤ c_tun_fd c → ¬ two_fds c → dr_read d = None →
  (∀ pre, Forall unsent pre → Q () (mk_world c (pre ++ w_t w))) →
  wp (handle_events cfg (poll_fds c) (resize (length (poll_fds c)) false [false; true])) w Q.
Proof.
  intros c Ht Hfd Hread HQ. unfold poll_fds. rewrite (proj2 (Z.leb_le 0 _)) by done.
  assert (Q () w) as HQ0 by (destruct w; by apply (HQ [])).
  destruct (Z.leb_spec 0 (c_udp_fd c)) as [Hu|Hu]; cbn [app length resize replicate handle_events when]; do 2 wp_step.
  2:{ by wp_step. }
  assert (c_udp_fd c = c_tun_fd c) as E by (destruct (decide (c_udp_fd c = c_tun_fd c)); [done|by destruct Hfd]).
  unfold handle_event. do 3 wp_step. fold c. rewrite E, Z.eqb_refl. apply wp_handle_tun_recv. cbv zeta.
  change (os _ (SRead _ 2040)) with (x ← dr_read d; if fits 2040 x then Some x else None).
  rewrite Hread. cbn [mbind option_bind]. wp_step. apply (HQ [_]). by repeat constructor.
Qed.

(** ... and handled by one that has. *)
Lemma wp_events_received w p (Q : unit → world → Prop) :
  let c := w_c w in
  two_fds c → c_server_addr c = SA → c_server_port c = SP → dr_recv d = Some (p, SA, SP) →
  fits MAX_PKT_SIZE p = true → 0 < len p →
  wp (handle_recv cfg p (len p))
    (mk_world c (Ev (SRecvfrom (c_udp_fd c) MAX_PKT_SIZE) (Some (p, SA, SP)) :: w_t w)) Q →
  wp (handle_events cfg (poll_fds c) (resize (length (poll_fds c)) false [false; true])) w Q.
Proof.
  intros c (Ht & Hu & Hne) HA HP Hrecv Hfit Hl HQ. unfold poll_fds. rewrite !(proj2 (Z.leb_le 0 _)) by done.
  cbn [app length resize replicate handle_events when]. do 3 wp_step.
  unfold handle_event. do 2 wp_step. fold c. rewrite (proj2 (Z.eqb_neq _ _) Hne), Z.eqb_refl.
  do 2 wp_step.
  change (os _ (SRecvfrom _ MAX_PKT_SIZE)) with (x ← dr_recv d; if fits MAX_PKT_SIZE x.1.1 then Some x else None).
  rewrite Hrecv. cbn [mbind option_bind fst]. rewrite Hfit. cbv beta iota zeta.
  rewrite (proj2 (Z.ltb_lt 0 (len p))) by done. do 2 wp_step. cbn [w_c]. fold c.
  rewrite HA, HP, !Z.eqb_refl. cbn [andb]. eapply wp_mono; [exact HQ|]. intros [] w' HQ'. by wp_step.
Qed.
End turns.

(** ** How far a client is from a session *)

(** A second more. *)
Lemma age_next t x : u32 (t - x) < 0xffffffff → u32 (u32 (t + 1) - x) = u32 (t - x) + 1.
Proof.
  intros Ha. unfold u32 in *. rewrite Zminus_mod_idemp_l.
  replace (t + 1 - x) with (t - x + 1) by lia. pose proof (Z.mod_pos_bound (t - x) (2 ^ 32)).
  rewrite <-Zplus_mod_idemp_l. apply Z.mod_small. lia.
Qed.

Lemma even_u32 z : Z.even (u32 z) = Z.even z.
Proof. unfold u32. rewrite Z.mod_eq by done. rewrite Z.even_sub, Z.even_mul. by destruct (Z.even z). Qed.

(** A client in session, with a session of the server. *)
Definition known_to (s : server) (r : udp_addr) (c : client) : Prop :=
  c_state c = STATE_ESTABLISHED ∧ is_Some (sv_sessions s !! key_of r c).

(** A client that the tick at time [t] will find in session, and that will ask the server for
    a sign of life before it is too late; [q] is the answer on its way. *)
Definition healthy (s : server) (r : udp_addr) (t : Z) (c : client) (q : option (list Z)) : Prop :=
  known_to s r c ∧ two_fds c ∧
  (is_Some q ∨ u32 (t - c_last_recv_time c) ≤
     if Z.even (c_echo_counter c + 1) then DATA_TIMEOUT else DATA_TIMEOUT - 1).

(** The seconds a client may need, from the tick at time [t], to be healthy. *)
Inductive stage (t : Z) (c : client) (q : option (list Z)) : Z → Prop :=
  | stage_answered : c_state c = STATE_AUTH_SENT → two_fds c → is_Some q → stage t c q 1
  | stage_asking n :
      c_state c = STATE_AUTH_SENT → two_fds c → 0 ≤ n → u32 (t - c_last_recv_time c) + n ≤ AUTH_TIMEOUT →
      AUTH_RETRY_INTERVAL ≤ u32 (t - c_last_open_time c) + n → stage t c q (2 + n)
  | stage_ready : c_state c = STATE_IP_READY → two_fds c → stage t c q 4
  | stage_dns : c_state c = STATE_DNS_NEEDED → two_fds c → stage t c q 5
  | stage_closed : c_state c = STATE_CLOSED → stage t c q 6
  | stage_waiting n :
      c_state c = STATE_AUTH_SENT → 0 ≤ n → AUTH_TIMEOUT < u32 (t - c_last_recv_time c) + n →
      stage t c q (6 + n)
  | stage_established n :
      c_state c = STATE_ESTABLISHED → 0 ≤ n → DATA_TIMEOUT < u32 (t - c_last_recv_time c) + n →
      stage t c q (6 + n)
  | stage_ready_any : c_state c = STATE_IP_READY → stage t c q 14
  | stage_dns_any : c_state c = STATE_DNS_NEEDED → stage t c q 15.

Lemma stage_pos t c q k : stage t c q k → 1 ≤ k.
Proof. destruct 1; lia. Qed.

(** Every client is at some distance. *)
Lemma stage_any t c q : c_state c ∈ states → ∃ k, stage t c q k ∧ k ≤ 22.
Proof.
  unfold states. rewrite !elem_of_cons, elem_of_nil.
  pose proof (u32_is (t - c_last_recv_time c)) as [Ha _].
  intros [Hs|[Hs|[Hs|[Hs|[Hs|[]]]]]].
  - exists 15. split; [by apply stage_dns_any|done].
  - exists 14. split; [by apply stage_ready_any|done].
  - exists (6 + 7). split; [apply stage_waiting; [done..|]|done]. change AUTH_TIMEOUT with 6. lia.
  - exists (6 + 16). split; [apply stage_established; [done..|]|done]. change DATA_TIMEOUT with 15. lia.
  - exists 6. split; [by apply stage_closed|done].
Qed.

Lemma socketed_fields c fd :
  let c' := socketed c fd in
  c_state c' = c_state c ∧ c_last_recv_time c' = c_last_recv_time c ∧
  c_last_open_time c' = c_last_open_time c ∧ c_tun_fd c' = c_tun_fd c.
Proof. unfold socketed. by destruct (_ <? 0). Qed.
Lemma socketed_id c fd : two_fds c → socketed c fd = c.
Proof. intros (_ & Hu & _). unfold socketed. by rewrite (proj2 (Z.ltb_ge _ _)). Qed.

Lemma tick_tun cfg t fd c c' ups : tick_out cfg t fd c c' ups → c_tun_fd c' = c_tun_fd c.
Proof. destruct 1; subst; try done; unfold c1, opening; by destruct (_ =? _). Qed.

(** A client in session and in touch stays so. *)
Lemma healthy_tick cfg s s' r t fd c c' ups q' :
  known_to s r c → two_fds c →
  u32 (t - c_last_recv_time c) ≤ (if Z.even (c_echo_counter c + 1) then DATA_TIMEOUT else DATA_TIMEOUT - 1) →
  tick_out cfg t fd (socketed c fd) c' ups →
  (known_to s r c' → known_to s' r c' ∧ (ups ≠ [] → is_Some q')) →
  healthy s' r (u32 (t + 1)) c' q'.
Proof.
  intros Hk H2 Hage Hout Hans. rewrite socketed_id in Hout by done. pose proof Hk as [Hs _].
  assert (opening cfg t c = c) as Ho by (unfold opening; by rewrite Hs).
  assert (u32 (t - c_last_recv_time c) ≤ DATA_TIMEOUT) as Hage'
    by (change DATA_TIMEOUT with 15 in *; by case_match; lia).
  inversion Hout as [? Hs'|c1 Hs'|c1 Hs'|ts Hs' _ He|Hs' _ He|ups' Hr]; subst;
    try (unfold c1 in Hs'; rewrite Ho in Hs'); try (rewrite Hs in Hs'; done).
  - destruct (Hans Hk) as [Hk' Hq]. split; [exact Hk'|]. split; [exact H2|]. left. by apply Hq.
  - destruct (Hans Hk) as [Hk' _]. split; [exact Hk'|]. split; [exact H2|]. right.
    rewrite He in Hage.
    change (u32 (u32 (t + 1) - c_last_recv_time c) ≤
      if Z.even (u32 (c_echo_counter c + 1) + 1) then DATA_TIMEOUT else DATA_TIMEOUT - 1).
    rewrite age_next by (change DATA_TIMEOUT with 15 in *; lia).
    assert (Z.even (u32 (c_echo_counter c + 1) + 1) = true) as ->; [|lia].
    by rewrite Z.even_add, even_u32, He.
  - exfalso. rewrite Hs in Hr. destruct Hr as [?|[[? _]|[_ ?]]]; [done..|lia].
Qed.

(** Without an answer, a client that is given a socket is as far as before. *)
Lemma stage_socketed t fd c q k :
  stage t c q k → q = None ∨ ¬ two_fds c → stage t (socketed c fd) None k.
Proof.
  destruct (socketed_fields c fd) as (Es & Er & Eo & Et).
  intros Hk Hq. destruct Hk as [? ? [? ->]|? ? Hfd|? Hfd|? Hfd| | | | |].
  - by destruct Hq.
  - rewrite socketed_id by done. by apply stage_asking.
  - rewrite socketed_id by done. by apply stage_ready.
  - rewrite socketed_id by done. by apply stage_dns.
  - apply stage_closed. by rewrite Es.
  - apply stage_waiting; by rewrite ?Es, ?Er.
  - apply stage_established; by rewrite ?Es, ?Er.
  - apply stage_ready_any. by rewrite Es.
  - apply stage_dns_any. by rewrite Es.
Qed.

(** The tick brings it nearer. *)
Section stages.
Variables (cfg : config) (t fd : Z) (c : client).
Hypotheses (Ht : u32 t = t) (Htun : 0 ≤ c_tun_fd c) (Hfd : 0 ≤ fd) (Hne : fd ≠ c_tun_fd c).

Lemma reset_stage q : ∃ k, stage (u32 (t + 1)) (reset_client c fd) q k ∧ k ≤ 5.
Proof.
  assert (two_fds (reset_client c fd)) as H2 by by split_and!.
  destruct (reset_state c fd) as [Hs|Hs].
  - exists 4. split; [by apply stage_ready|done].
  - exists 5. split; [by apply stage_dns|done].
Qed.

(** One tick, by the state of the client. *)
Lemma tick_from_auth c' ups q' n :
  c_state c = STATE_AUTH_SENT → tick_out cfg t fd c c' ups → 0 ≤ n →
  AUTH_TIMEOUT < u32 (t - c_last_recv_time c) + n → ∃ k, k < 6 + n ∧ stage (u32 (t + 1)) c' q' k.
Proof.
  intros Hs Hout Hn Hage. change AUTH_TIMEOUT with 6 in Hage.
  assert (opening cfg t c = c) as Ho by (unfold opening; by rewrite Hs).
  inversion Hout as [? Hs'|c1 Hs' Hle|c1 Hs' Hle|ts Hs'|Hs'|ups' Hr]; subst;
    try (unfold c1 in *; rewrite Ho in *); try (rewrite Hs in Hs'; done);
    try change AUTH_TIMEOUT with 6 in Hle.
  - exists (6 + (n - 1)). split; [lia|]. apply stage_waiting; [exact Hs|lia|].
    change (AUTH_TIMEOUT < u32 (u32 (t + 1) - c_last_recv_time c) + (n - 1)).
    change AUTH_TIMEOUT with 6. rewrite age_next; lia.
  - exists (6 + (n - 1)). split; [lia|]. apply stage_waiting; [exact Hs|lia|].
    change AUTH_TIMEOUT with 6. rewrite age_next; lia.
  - destruct (reset_stage q') as (k & Hk & Hle). exists k. split; [lia|done].
Qed.

Lemma tick_asking c' ups q' n :
  c_state c = STATE_AUTH_SENT → two_fds c → tick_out cfg t fd c c' ups → 0 ≤ n →
  u32 (t - c_last_recv_time c) + n ≤ AUTH_TIMEOUT → AUTH_RETRY_INTERVAL ≤ u32 (t - c_last_open_time c) + n →
  (c_state c' = STATE_AUTH_SENT → ups ≠ [] → is_Some q') → ∃ k, k < 2 + n ∧ stage (u32 (t + 1)) c' q' k.
Proof.
  intros Hs H2 Hout Hn Hage Hopen Hq. change AUTH_TIMEOUT with 6 in Hage. change AUTH_RETRY_INTERVAL with 2 in Hopen.
  assert (opening cfg t c = c) as Ho by (unfold opening; by rewrite Hs).
  inversion Hout as [? Hs'|c1 Hs' Hle|c1 Hs' Hle Hlt|ts Hs'|Hs'|ups' Hr]; subst;
    try (unfold c1 in *; rewrite Ho in *); try (rewrite Hs in Hs'; done).
  - exists 1. split; [lia|]. apply stage_answered; [exact Hs|exact H2|by apply Hq].
  - change AUTH_RETRY_INTERVAL with 2 in Hlt.
    exists (2 + (n - 1)). split; [lia|]. apply stage_asking; [done|done|lia|..]; rewrite age_next by lia.
    + change AUTH_TIMEOUT with 6. lia.
    + change AUTH_RETRY_INTERVAL with 2. lia.
  - exfalso. rewrite Hs in Hr. change AUTH_TIMEOUT with 6 in Hr. by destruct Hr as [?|[[_ ?]|[? _]]]; [|lia|].
Qed.

Lemma tick_from_ready c' ups q' :
  c_state c = STATE_IP_READY → tick_out cfg t fd c c' ups →
  (c_state c' = STATE_AUTH_SENT → ups ≠ [] → is_Some q') →
  (two_fds c → ∃ k, k < 4 ∧ stage (u32 (t + 1)) c' q' k) ∧ ∃ k, k < 14 ∧ stage (u32 (t + 1)) c' q' k.
Proof.
  intros Hs Hout Hq.
  assert (u32 (u32 (t + 1) - t) = 1) as Hage.
  { rewrite age_next; rewrite Z.sub_diag; done. }
  assert (∀ c2, c_state c2 = STATE_AUTH_SENT → c_last_recv_time c2 = t →
    ∃ k, k < 14 ∧ stage (u32 (t + 1)) c2 q' k) as Hany.
  { intros c2 Hs2 Hr2. exists (6 + 6). split; [done|]. apply stage_waiting; [done..|]. by rewrite Hr2, Hage. }
  inversion Hout as [? Hs'|c1 Hs' Hle|c1 Hs' Hle Hlt|ts Hs'|Hs'|ups' Hr]; subst; try (rewrite Hs in Hs'; done).
  1,2: assert (c_last_recv_time c1 = t ∧ c_last_open_time c1 = 0 ∧ c_tun_fd c1 = c_tun_fd c ∧ c_udp_fd c1 = c_udp_fd c)
    as (Er & Eo & Et & Eu) by (unfold c1, opening; by rewrite Hs).
  - split; [|by apply Hany]. intros (H2 & H3 & H4). exists 1. split; [done|]. apply stage_answered; [exact Hs'| |by apply Hq].
    unfold two_fds. change (0 ≤ c_tun_fd c1 ∧ 0 ≤ c_udp_fd c1 ∧ c_udp_fd c1 ≠ c_tun_fd c1). by rewrite Et, Eu.
  - split; [|by apply Hany]. intros (H2 & H3 & H4). rewrite Eo, Z.sub_0_r, Ht in Hlt.
    change AUTH_RETRY_INTERVAL with 2 in Hlt. pose proof (u32_is t) as [Ht0 _]. rewrite Ht in Ht0.
    exists (2 + (1 - t)). split; [lia|]. apply stage_asking; [done|by unfold two_fds; rewrite Et, Eu|lia|..].
    + rewrite Er, Hage. change AUTH_TIMEOUT with 6. lia.
    + rewrite Eo, Z.sub_0_r. rewrite (u32_id (u32 (t + 1))) by apply u32_is.
      rewrite u32_id by (split; lia). change AUTH_RETRY_INTERVAL with 2. lia.
  - exfalso. rewrite Hs in Hr. by destruct Hr as [?|[[? _]|[? _]]].
Qed.

Lemma tick_from_established c' ups q' n :
  c_state c = STATE_ESTABLISHED → tick_out cfg t fd c c' ups → 0 ≤ n →
  DATA_TIMEOUT < u32 (t - c_last_recv_time c) + n → ∃ k, k < 6 + n ∧ stage (u32 (t + 1)) c' q' k.
Proof.
  intros Hs Hout Hn Hage. change DATA_TIMEOUT with 15 in Hage.
  assert (opening cfg t c = c) as Ho by (unfold opening; by rewrite Hs).
  assert (u32 (t - c_last_recv_time c) ≤ DATA_TIMEOUT → 
    ∃ k, k < 6 + n ∧ stage (u32 (t + 1)) (counted c) q' k) as Hwait.
  { intros Hle. change DATA_TIMEOUT with 15 in Hle.
    exists (6 + (n - 1)). split; [lia|]. apply stage_established; [exact Hs|lia|].
    change (DATA_TIMEOUT < u32 (u32 (t + 1) - c_last_recv_time c) + (n - 1)).
    change DATA_TIMEOUT with 15. rewrite age_next; lia. }
  inversion Hout as [? Hs'|c1 Hs' Hle|c1 Hs' Hle|ts Hs'|Hs'|ups' Hr]; subst;
    try (unfold c1 in *; rewrite Ho in *); try (rewrite Hs in Hs'; done); try by apply Hwait.
  destruct (reset_stage q') as (k & Hk & Hle). exists k. split; [lia|done].
Qed.

Lemma stage_tick c' ups q' k :
  stage t c None k → tick_out cfg t fd c c' ups →
  (c_state c' = STATE_AUTH_SENT → ups ≠ [] → is_Some q') → ∃ k', k' < k ∧ stage (u32 (t + 1)) c' q' k'.
Proof.
  intros Hk Hout Hq. destruct Hk as [? ? [? [=]]|n Hs H2 Hn H3 H4|Hs H2|Hs H2|Hs|n Hs Hn H3|n Hs Hn H3|Hs|Hs].
  - by eapply tick_asking.
  - by eapply tick_from_ready.
  - assert (opening cfg t c = c) as Ho by (unfold opening; by rewrite Hs).
    inversion Hout as [? Hs' Hs'' Eu Et|c1 Hs'|c1 Hs'|ts Hs'|Hs'|ups' Hr]; subst;
      try (unfold c1 in Hs'; rewrite Ho in Hs'); try (rewrite Hs in Hs'; done).
    + exists 4. split; [done|]. apply stage_ready; [done|]. unfold two_fds. by rewrite Eu, Et.
    + exfalso. rewrite Hs in Hr. by destruct Hr as [?|[[? _]|[? _]]].
  - assert (opening cfg t c = c) as Ho by (unfold opening; by rewrite Hs).
    inversion Hout as [? Hs' Hs'' Eu Et|c1 Hs'|c1 Hs'|ts Hs'|Hs'|ups' Hr]; subst;
      try (unfold c1 in Hs'; rewrite Ho in Hs'); try (rewrite Hs in Hs'; done).
    destruct (reset_stage q') as (k & Hk & Hle). exists k. split; [lia|done].
  - by eapply tick_from_auth.
  - by eapply tick_from_established.
  - by eapply tick_from_ready.
  - assert (opening cfg t c = c) as Ho by (unfold opening; by rewrite Hs).
    inversion Hout as [? Hs' Hs'' Eu Et|c1 Hs'|c1 Hs'|ts Hs'|Hs'|ups' Hr]; subst;
      try (unfold c1 in Hs'; rewrite Ho in Hs'); try (rewrite Hs in Hs'; done).
    + exists 14. split; [done|]. by apply stage_ready_any.
    + exfalso. rewrite Hs in Hr. by destruct Hr as [?|[[? _]|[? _]]].
Qed.
End stages.

(** ** A second of a working network *)

(** The system the client runs on: what its turn is given. *)
Definition second_driver (SA SP t fd : Z) (q : option (list Z)) : driver :=
  mk_driver false (Some (match q with None => [] | Some _ => [false; true] end)) t fd (Some SA) None
    ((λ p, (p, SA, SP)) <$> q).

(** The server handles the datagrams [ups] of the client, in order; the last answer to it. *)
Fixpoint answer_all (now : Z) (ids : list Z * list Z) (r : udp_addr) (ups : list (list Z)) (q : option (list Z))
    (N : net) : option (net * option (list Z)) :=
  match ups with
  | [] => Some (N, q)
  | p :: ups =>
      '(s, outs) ← handlePacket now (Some ids) r p (n_server N);
      answer_all now ids r ups (match omap udp_output outs with (_, a) :: _ => Some a | [] => q end)
        (served s outs N)
  end.

Section seconds.
Variables (SA SP : Z) (scfg : normalizedConfig) (members : gmap udp_addr member).

(** The state of the system, and the answer on its way. *)
Definition second (r : udp_addr) (t fd : Z) (ids : list Z * list Z) (st : net * option (list Z)) :
    option (net * option (list Z)) :=
  N1 ← exec_turn SA SP r (second_driver SA SP t fd st.2) st.1;
  let ups := rev (take (length (n_up N1) - length (n_up st.1)) (n_up N1)).*2 in
  answer_all t ids r ups None N1.

(** [n] seconds from time [t]: [env] gives the socket and the random identifiers of each. *)
Fixpoint seconds (r : udp_addr) (t : Z) (env : nat → Z * (list Z * list Z)) (n : nat)
    (st : net * option (list Z)) : option (net * option (list Z)) :=
  match n with
  | O => Some st
  | S n => st ← second r (u32 t) (env O).1 (env O).2 st; seconds r (t + 1) (env ∘ S) n st
  end.

Hypothesis (Hsc : sconfig_ok scfg).
Hypothesis (Hmembers : map_Forall (λ _ m, member_ok SA SP scfg m) members).

#[local] Abbreviation reachable := (reachable SA SP scfg members).
#[local] Abbreviation step := (step SA SP scfg members).

(** *** The turn *)

(** The answer on its way: to the request of the client, or to its ECHO_REQ. *)
Inductive answer (N : net) (r : udp_addr) (m : member) (c : client) : list Z → Prop :=
  | answer_open l u :
      c_state c = STATE_AUTH_SENT → session_of_user (m_cfg m) (m_user m) u →
      sv_sessions (n_server N) !! (r, (se_key u).1.2, (se_key u).2) = Some l →
      sv_heap (n_server N) !! l = Some u → answer N r m c (openack_packet scfg u)
  | answer_ping payload :
      known_to (n_server N) r c → bytes payload → len payload ≤ 100 →
      answer N r m c (signed_header PKT_ECHORESP c ++ payload).

Definition answered_with (N : net) (r : udp_addr) (m : member) (c : client) (q : option (list Z)) : Prop :=
  match q with None => True | Some p => (r, p) ∈ n_down N ∧ answer N r m c p end.

(** What the client is after it has been given the answer. *)
Definition events_out (s : server) (r : udp_addr) (t : Z) (c : client) (q : option (list Z)) (c1 : client) : Prop :=
  c1 = c ∧ (q = None ∨ ¬ two_fds c) ∨
  two_fds c ∧ is_Some q ∧ known_to s r c1 ∧ c_udp_fd c1 = c_udp_fd c ∧ c_tun_fd c1 = c_tun_fd c ∧
    c_last_recv_time c1 = t.

Lemma answer_shape N r m c p :
  members !! r = Some m → answer N r m c p → bytes p ∧ 8 ≤ len p ≤ MAX_PKT_SIZE.
Proof.
  intros Hm Hp. destruct Hp as [l u _ Hu _ _|payload _ Hb Hl].
  - pose proof (Hmembers _ _ Hm) as Hok. cbv beta in Hok.
    destruct (sc_octets _ Hsc _ _ (mo_user _ _ _ _ Hok)) as [Ha Hb].
    destruct (openack_packet_shape scfg u) as (Hp & [? ?] & _);
      [done|apply Hu|by rewrite (su_user _ _ _ Hu)..|]. split; [done|]. change MAX_PKT_SIZE with 2048. lia.
  - split.
    + unfold signed_header. rewrite !Forall_app. split_and!; [|apply signature_bytes|done].
      by apply session_header_ok.
    + rewrite len_app, len_signed_header. pose proof (len_nonneg payload). change MAX_PKT_SIZE with 2048. lia.
Qed.

(** A running client of the system. *)
Record running (N : net) (r : udp_addr) (nd : node) (m : member) : Prop := {
  rn_node : n_nodes N !! r = Some nd;
  rn_member : members !! r = Some m;
  rn_same : same_account (m_cfg m) (nd_cfg nd);
  rn_cfg : cfg_ok (nd_cfg nd);
  rn_inv : inv (nd_world nd);
  rn_client : client_inv SA scfg (m_cfg m) (m_user m) (sent_to N r) (w_c (nd_world nd));
  rn_port : cfg_port (nd_cfg nd) = SP
}.

Lemma running_in N r nd : reachable N → n_nodes N !! r = Some nd → ∃ m, running N r nd m.
Proof.
  intros Hr Hnd. pose proof (reachable_inv _ _ _ _ Hsc Hmembers _ Hr) as Hi.
  destruct (ni_nodes _ _ _ _ Hi _ _ Hnd) as (m & Hm & Hsame & Hcfg & Hinv & Hci).
  exists m. split; try done. by rewrite (sa_port _ _ Hsame), (mo_port _ _ _ _ (Hmembers _ _ Hm)).
Qed.

Lemma running_addr N r nd m :
  running N r nd m → let c := w_c (nd_world nd) in
  (c_state c = STATE_DNS_NEEDED ∨ c_server_addr c = SA) ∧ c_server_port c = SP.
Proof.
  intros [_ Hm Hsame _ _ Hci Hp] c. split.
  - destruct (ci_addr _ _ _ _ _ _ Hci) as [?|[? _]]; auto.
  - unfold c. by rewrite (ci_port _ _ _ _ _ _ Hci), <-Hp, (sa_port _ _ Hsame).
Qed.

(** The client handles the answer. *)
Lemma wp_answer d N r nd m p w :
  0 ≤ dr_socket d → running N r nd m → w_c w = w_c (nd_world nd) → answer N r m (w_c w) p →
  wp (handle_recv (H := driver_os d) (H0 := driver_linux d) (nd_cfg nd) p (len p)) w (λ _ w', framed w w' ∧
    (∃ new, w_t w' = new ++ w_t w ∧ Forall quiet new) ∧ known_to (n_server N) r (w_c w') ∧
    c_last_recv_time (w_c w') = u32 (dr_clock d)).
Proof.
  intros Hsock Hrun Ew Hp. destruct (answer_shape _ _ _ _ _ (rn_member _ _ _ _ Hrun) Hp) as [Hb [Hl _]].
  pose proof (Hmembers _ _ (rn_member _ _ _ _ Hrun)) as Hok. cbv beta in Hok.
  destruct (sc_octets _ Hsc _ _ (mo_user _ _ _ _ Hok)) as [Ha Hba].
  apply (wp_recv_framed d); [apply Hrun|rewrite Ew; apply Hrun|done|].
  destruct Hp as [l u Hs Hu Hl1 Hh1|payload [Hs Hk] Hbp Hlp].
  - destruct (openack_packet_shape scfg u) as (_ & _ & Hty);
      [done|apply Hu|by rewrite (su_user _ _ _ Hu)..|].
    apply (wp_recv_openack _ (m_user m)); [done..|].
    eapply wp_mono; [apply (wp_openack_establishes d); rewrite ?(su_user _ _ _ Hu); try done|].
    + apply Hrun.
    + by apply (session_of_user_same (rn_same _ _ _ _ Hrun)).
    + apply Hok.
    + change (c_xor_key (w_c w) = u_xorKey (m_user m)). rewrite Ew. apply Hrun.
    + intros _ w' (Hnew & Ht & Hlk). destruct (Hlk _ _ _ Hl1 Hh1) as [Hs' Hk' _ _ _ _].
      split; [exact Hnew|]. split; [split; [exact Hs'|by exists l]|exact Ht].
  - destruct (session_header_ok PKT_ECHORESP (w_c w) ltac:(done)) as [Hbh Hlh].
    apply (wp_recv_echo _ (m_user m)); [done..|]. wp_step. apply wp_handle_echo_resp; [done|]. cbv zeta.
    rewrite decide_True.
    2:{ split; [done|]. unfold signed_header. rewrite <-app_assoc. by apply pkt_verify_signed. }
    unfold refresh. cbn [Z.eqb negb when]. do 3 wp_step. split_and!.
    + eexists [_; _]. split; [done|by repeat constructor].
    + cbn [w_c]. unfold known_to. by destruct (32 <=? _).
    + change (u32 (u32 (dr_clock d)) = u32 (dr_clock d)). by apply u32_id, u32_is.
Qed.

(** Calls that leave no traffic. *)
Definition trafficless (N : net) (r : udp_addr) (new : trace) : Prop :=
  Forall (deliverable SA SP N r) new ∧ omap (datagram_to SA SP) new = [].

Lemma unsent_trafficless N r new : Forall unsent new → trafficless N r new.
Proof.
  induction 1 as [|[s res] new Hev _ [IH1 IH2]]; [by split|]. split.
  - constructor; [by destruct s|done].
  - cbn [omap list_omap]. by destruct s.
Qed.
Lemma trafficless_app N r new new' :
  trafficless N r new → trafficless N r new' → trafficless N r (new ++ new').
Proof.
  intros [H1 H2] [H3 H4]. split; [by apply Forall_app|]. by rewrite omap_app, H2, H4.
Qed.

(** A client that talks to the server. *)
Definition talks (c : client) : Prop :=
  client_ok c ∧ c_state c ∈ states ∧ (c_state c = STATE_DNS_NEEDED ∨ c_server_addr c = SA) ∧
  c_server_port c = SP.

Definition events_spec (N : net) (r : udp_addr) (t : Z) (q : option (list Z)) (w w' : world) : Prop :=
  (∃ new, w_t w' = new ++ w_t w ∧ trafficless N r new) ∧ talks (w_c w') ∧
  events_out (n_server N) r t (w_c w) q (w_c w').

Lemma wp_second_events N r nd m q t fd pre :
  let w := nd_world nd in let c := w_c w in let d := second_driver SA SP t fd q in
  0 ≤ fd → u32 t = t → running N r nd m → answered_with N r m c q → Forall quiet pre →
  wp (handle_events (H := driver_os d) (H0 := driver_linux d) (nd_cfg nd) (poll_fds c)
    (resize (length (poll_fds c)) false (match q with None => [] | Some _ => [false; true] end)))
    (mk_world c (pre ++ w_t w)) (λ _ w', events_spec N r t q w w').
Proof.
  intros w c d Hfd Ht Hrun Hq Hpre. destruct (running_addr _ _ _ _ Hrun) as [HA HP].
  pose proof (rn_inv _ _ _ _ Hrun) as Hi.
  assert (talks c) as Hc by (split_and!; [apply Hi..|done|done]).
  assert (∀ new, Forall unsent new → q = None ∨ ¬ two_fds c →
    events_spec N r t q w (mk_world c (new ++ w_t w))) as Hmissed.
  { intros new Hn Hm. split; [|split; [done|by left]]. eexists. split; [done|by apply unsent_trafficless]. }
  destruct q as [p|].
  2:{ apply handle_events_idle, Hmissed; [by apply quiet_unsent|by left]. }
  destruct Hq as [Hdown Hp]. destruct (answer_shape _ _ _ _ _ (rn_member _ _ _ _ Hrun) Hp) as [Hb [Hl1 Hl2]].
  assert (Decision (two_fds c)) as Hdec by (unfold two_fds; apply _).
  destruct (decide (two_fds c)) as [H2|H2].
  - assert (c_server_addr c = SA) as HA'.
    { destruct HA as [Hs|]; [|done]. exfalso. unfold c, w in Hp. by destruct Hp as [l u Hs' _ _ _|payload [Hs' _] _ _]; rewrite Hs in Hs'. }
    apply (wp_events_received d (nd_cfg nd) SA SP (mk_world c (pre ++ w_t w)) p); try done; [|lia|].
    { unfold fits. by apply bool_decide_eq_true_2. }
    cbn [w_c]. eapply wp_mono; [by apply (wp_answer d N r nd m)|].
    intros _ w' ([Eu Et Ea Ep _ _ Hok _] & (new & Ew & Hnew) & Hk & Hlast).
    cbn [w_c w_t] in Eu, Et, Ea, Ep, Hok, Ew. split; [|split].
    + exists (new ++ [Ev (SRecvfrom (c_udp_fd c) MAX_PKT_SIZE) (Some (p, SA, SP))] ++ pre).
      split; [by rewrite Ew, <-!app_assoc|].
      apply trafficless_app; [by apply unsent_trafficless, quiet_unsent|].
      apply trafficless_app; [|by apply unsent_trafficless, quiet_unsent]. split; [apply Forall_singleton; intros _ _; exact Hdown|done].
    + split_and!; [apply Hok, Hc|destruct Hk as [-> _]; by do 3 right; left|right; by rewrite Ea|by rewrite Ep].
    + right. split_and!; [done|by eexists|done..|]. by rewrite Hlast.
  - apply (wp_events_missed d _ (mk_world c (pre ++ w_t w))); [apply Hi|done|done|]. intros new Hn. cbn [w_c w_t].
    rewrite app_assoc. apply Hmissed; [|by right]. apply Forall_app. split; [done|by apply quiet_unsent].
Qed.

Lemma socketed_talks c fd : talks c → talks (socketed c fd).
Proof.
  unfold socketed. destruct (_ <? 0); [|done]. intros (Hok & Hst & HA & HP).
  split_and!; [|done..]. by destruct Hok.
Qed.

(** What a second does to the client, which sends [ups], the last datagram first. *)
Definition turn_spec (N : net) (r : udp_addr) (t fd : Z) (q : option (list Z)) (cfg : config) (w w' : world)
    (ups : list (list Z)) : Prop :=
  ∃ c1, events_out (n_server N) r t (w_c w) q c1 ∧ tick_out cfg t fd (socketed c1 fd) (w_c w') ups.

Lemma wp_second_turn N r nd m q t fd :
  let d := second_driver SA SP t fd q in
  0 ≤ fd → u32 t = t → t ≠ nd_last nd → running N r nd m → answered_with N r m (w_c (nd_world nd)) q →
  wp (client_turn (H := driver_os d) (H0 := driver_linux d) (nd_cfg nd) (nd_last nd)) (nd_world nd)
    (λ last w', last = Some t ∧ ∃ new, w_t w' = new ++ w_t (nd_world nd) ∧ Forall (deliverable SA SP N r) new ∧
      turn_spec N r t fd q (nd_cfg nd) (nd_world nd) w' (omap (datagram_to SA SP) new)).
Proof.
  intros d Hfd Ht Hlast Hrun Hq.
  eapply (wp_turn_second d); [done|done|reflexivity|by change (u32 t ≠ nd_last nd); rewrite Ht|]. intros pre Hpre.
  eapply wp_mono; [by apply (wp_second_events N r nd m q t fd)|].
  intros _ w1 ((new1 & E1 & [Hd1 Ho1]) & Hc1 & Hev) pre1 Hpre1.
  destruct (socketed_talks _ fd Hc1) as (Hok & Hst & HA & HP).
  destruct (unsent_trafficless N r pre1 (quiet_unsent _ Hpre1)) as [Hd2 Ho2].
  eapply wp_mono; [apply (wp_tick_spec d (nd_cfg nd) SA SP); try done; apply Hrun|].
  cbn [w_c w_t]. intros _ w2 (new2 & E2 & Hd3 & Hout). cbn [w_c w_t dr_clock dr_socket d second_driver] in *. rewrite Ht in *.
  split; [done|]. exists (new2 ++ pre1 ++ new1). split_and!.
  - by rewrite E2, E1, <-!app_assoc.
  - by rewrite !Forall_app.
  - rewrite !omap_app, Ho1, Ho2, !app_nil_r. by exists (w_c w1).
Qed.

Lemma second_turn N r nd m q t fd :
  reachable N → 0 ≤ fd → u32 t = t → t ≠ nd_last nd → running N r nd m →
  answered_with N r m (w_c (nd_world nd)) q →
  ∃ N1 w ups, exec_turn SA SP r (second_driver SA SP t fd q) N = Some N1 ∧ step N N1 ∧
    n_server N1 = n_server N ∧ n_nodes N1 !! r = Some (mk_node (nd_cfg nd) t w) ∧
    n_up N1 = (pair r <$> ups) ++ n_up N ∧ turn_spec N r t fd q (nd_cfg nd) (nd_world nd) w ups.
Proof.
  intros Hr Hfd Ht Hlast Hrun Hq.
  destruct (wp_run _ _ _ (wp_second_turn N r nd m q t fd Hfd Ht Hlast Hrun Hq))
    as (last & w & E & -> & new & Ew & Hdel & Hturn).
  pose proof (rn_node _ _ _ _ Hrun) as Hnd.
  assert (exec_turn SA SP r (second_driver SA SP t fd q) N =
    Some (absorb SA SP r new (N <| n_nodes := <[r := mk_node (nd_cfg nd) t w]> (n_nodes N) |>))) as Ex.
  { unfold exec_turn. rewrite Hnd. cbn [mbind option_bind]. rewrite E. cbn [mbind option_bind].
    rewrite Ew, length_app, Nat.add_sub, take_app_length. by rewrite decide_True. }
  eexists _, w, _. split_and!; [exact Ex| |done|apply lookup_insert_eq|done|exact Hturn].
  by eapply exec_turn_sound.
Qed.

(** *** The server's answers *)

(** The server handles one datagram of the client. *)
Lemma serve_step N r p now ids s outs :
  (r, p) ∈ n_up N → ids_ok ids.1 ids.2 →
  handlePacket now (Some ids) r p (n_server N) = Some (s, outs) → step N (served s outs N).
Proof. intros Hp Hids E. eapply (server_handles _ _ _ _ _ now (Some ids)); [done| |done]. by destruct ids. Qed.

(** A packet of the client, with no session of the server. *)
Lemma serve_unknown now rnd r ty c rest s :
  ty ≠ packetOpen → sv_sessions s !! key_of r c = None →
  handlePacket now rnd r (session_header ty c ++ rest) s = Some (s, []).
Proof.
  intros Hty Hk. rewrite session_header_go. apply foreign_packet; [by intros [= ?]|].
  by rewrite packet_key_go by apply client_ids_ok.
Qed.

Lemma served_more s outs N r p : (r, p) ∈ n_up N → (r, p) ∈ n_up (served s outs N).
Proof. done. Qed.

(** What it has not answered, it has not answered: CLOSE packets. *)
Lemma answer_closes now ids r c ups N :
  reachable N → ids_ok ids.1 ids.2 → Forall (λ p, p = signed_header PKT_CLOSE c) ups →
  (∀ p, p ∈ ups → (r, p) ∈ n_up N) →
  ∃ N', answer_all now ids r ups None N = Some (N', None) ∧ rtc step N N' ∧ n_nodes N' = n_nodes N.
Proof.
  intros Hr Hids Hups. revert N Hr. induction Hups as [|p ups -> _ IH]; intros N Hr Hin; [by exists N|].
  assert (∃ s, handlePacket now (Some ids) r (signed_header PKT_CLOSE c) (n_server N) = Some (s, [])) as [s E].
  { destruct (sv_sessions (n_server N) !! key_of r c) as [l|] eqn:Hl.
    - pose proof (ni_server _ _ _ _ (reachable_inv _ _ _ _ Hsc Hmembers _ Hr)) as [Hs _ _].
      destruct (si_sessions _ Hs _ _ Hl) as (u & Hu & _).
      eexists. apply (handlePacket_close now (Some ids) _ _ _ _ Hs Hl Hu).
    - eexists. by apply serve_unknown. }
  assert (step N (served s [] N)) as Hstep by (eapply serve_step; [apply Hin; by left|done|done]).
  destruct (IH (served s [] N)) as (N' & E' & Hsteps & En); [by eapply reachable_step| |].
  { intros p Hp. apply served_more, Hin. by right. }
  exists N'. split_and!; [|by eapply rtc_l|done]. cbn [answer_all]. by rewrite E.
Qed.

(** The ECHO_REQ of a client in session. *)
Lemma answer_echo now ids r m c ts N :
  reachable N → ids_ok ids.1 ids.2 → (r, ping c ts) ∈ n_up N → c_state c = STATE_ESTABLISHED →
  ∃ N' q, answer_all now ids r [ping c ts] None N = Some (N', q) ∧ rtc step N N' ∧ n_nodes N' = n_nodes N ∧
    answered_with N' r m (counted c) q ∧
    (known_to (n_server N) r (counted c) → known_to (n_server N') r (counted c) ∧ is_Some q).
Proof.
  intros Hr Hids Hin Hs.
  destruct (sv_sessions (n_server N) !! key_of r c) as [l|] eqn:Hl.
  - pose proof (ni_server _ _ _ _ (reachable_inv _ _ _ _ Hsc Hmembers _ Hr)) as [Hi _ _].
    destruct (si_sessions _ Hi _ _ Hl) as (u & Hu & _).
    pose proof (handlePacket_echo now (Some ids) _ _ _ _ Hi Hl Hu (echo_payload ts c)) as E.
    cbn [fst snd] in E. rewrite buildEchoResp_client in E.
    assert (handlePacket now (Some ids) r (ping c ts) (n_server N) = _) as E'
      by (unfold ping, signed_header; rewrite <-app_assoc; exact E).
    set (s := touched _ _ _) in E'. set (p := signed_header PKT_ECHORESP c ++ echo_payload ts c) in E'.
    assert (known_to s r (counted c)) as Hk by (split; [done|by exists l]).
    exists (served s [WriteToUDP r p] N), (Some p). split_and!.
    + cbn [answer_all]. by rewrite E'.
    + by eapply rtc_once, serve_step.
    + done.
    + split; [apply elem_of_app; left; by apply elem_of_cons; left|].
      apply (answer_ping (served s [WriteToUDP r p] N) r m (counted c)); [done| |by rewrite len_echo_payload].
      unfold echo_payload. rewrite !Forall_app. split_and!; auto with c_ints; by apply byte_list_ok.
    + intros _. split; [done|by eexists].
  - exists N, None. split_and!; [|done..|].
    + cbn [answer_all]. unfold ping, signed_header. rewrite <-app_assoc, serve_unknown by done.
      by destruct N.
    + intros [_ [l Hl']]. change (sv_sessions (n_server N) !! key_of r c = Some l) in Hl'. congruence.
Qed.

(** The request of a client. *)
Lemma answer_request now ids r m c N :
  reachable N → ids_ok ids.1 ids.2 → members !! r = Some m → (r, open_packet (m_cfg m)) ∈ n_up N →
  c_state c = STATE_AUTH_SENT →
  ∃ N' q, answer_all now ids r [open_packet (m_cfg m)] None N = Some (N', q) ∧ rtc step N N' ∧
    n_nodes N' = n_nodes N ∧ answered_with N' r m c q ∧ is_Some q.
Proof.
  intros Hr Hids Hm Hin Hs.
  destruct (grant SA SP scfg members Hsc Hmembers now ids N r m Hr Hm Hids) as (s & l & u & E & Hl & Hh & Hu & _).
  set (p := openack_packet scfg u) in *. exists (served s [WriteToUDP r p] N), (Some p). split_and!.
  - cbn [answer_all]. by rewrite E.
  - by eapply rtc_once, serve_step.
  - done.
  - split; [apply elem_of_app; left; by apply elem_of_cons; left|]. by eapply answer_open.
  - by eexists.
Qed.

(** All that a turn sends. *)
Lemma second_answers now ids r m cfg t fd c c' ups N :
  reachable N → ids_ok ids.1 ids.2 → members !! r = Some m → same_account (m_cfg m) cfg →
  tick_out cfg t fd c c' ups → (∀ p, p ∈ ups → (r, p) ∈ n_up N) →
  ∃ N' q, answer_all now ids r (rev ups) None N = Some (N', q) ∧ rtc step N N' ∧
    n_nodes N' = n_nodes N ∧ answered_with N' r m c' q ∧
    (c_state c' = STATE_AUTH_SENT → ups ≠ [] → is_Some q) ∧
    (known_to (n_server N) r c' → known_to (n_server N') r c' ∧ (ups ≠ [] → is_Some q)).
Proof.
  intros Hr Hids Hm Hsame Hout Hin.
  assert (ups = [] → ∃ N' q, answer_all now ids r (rev ups) None N = Some (N', q) ∧ rtc step N N' ∧
    n_nodes N' = n_nodes N ∧ answered_with N' r m c' q ∧
    (c_state c' = STATE_AUTH_SENT → ups ≠ [] → is_Some q) ∧
    (known_to (n_server N) r c' → known_to (n_server N') r c' ∧ (ups ≠ [] → is_Some q))) as Hnone.
  { intros ->. exists N, None. by split_and!. }
  destruct Hout as [c'|c1 Hs _ _|c1|ts Hs _ _| |ups _ Hups]; try by apply Hnone.
  - rewrite (open_packet_same Hsame) in Hin |- *. cbn [rev app].
    destruct (answer_request now ids r m (c1 <| c_last_open_time := t |>) N) as (N' & q & E & Hsteps & En & Ha & Hq);
      [done..|apply Hin; by left|exact Hs|].
    exists N', q. split_and!; [done..|]. intros [Hs' _]. change (c_state c1 = STATE_ESTABLISHED) in Hs'. by rewrite Hs in Hs'.
  - destruct (answer_echo now ids r m c ts N) as (N' & q & E & Hsteps & En & Ha & Hk); [done..|apply Hin; by left|done|].
    exists N', q. split_and!; [done..| |].
    + intros Hs'. change (c_state c = STATE_AUTH_SENT) in Hs'. by rewrite Hs in Hs'.
    + intros Hk'. destruct (Hk Hk') as [H1 H2]. split; [exact H1|intros _; exact H2].
  - destruct (answer_closes now ids r c (rev ups) N) as (N' & E & Hsteps & En); [done..| | |].
    { by apply Forall_rev. }
    { intros p Hp. apply Hin. by apply list_elem_of_In, in_rev, list_elem_of_In. }
    exists N', None. split_and!; [done..| |].
    + intros Hs'. by destruct (reset_state c fd) as [E'|E']; rewrite E' in Hs'.
    + intros [Hs' _]. by destruct (reset_state c fd) as [E'|E']; rewrite E' in Hs'.
Qed.

(** The whole second. *)
Lemma second_spec N r nd m q t fd ids :
  reachable N → 0 ≤ fd → u32 t = t → t ≠ nd_last nd → running N r nd m → ids_ok ids.1 ids.2 →
  answered_with N r m (w_c (nd_world nd)) q →
  ∃ N' q' w c1 ups, second r t fd ids (N, q) = Some (N', q') ∧ rtc step N N' ∧
    n_nodes N' !! r = Some (mk_node (nd_cfg nd) t w) ∧
    events_out (n_server N) r t (w_c (nd_world nd)) q c1 ∧
    tick_out (nd_cfg nd) t fd (socketed c1 fd) (w_c w) ups ∧ answered_with N' r m (w_c w) q' ∧
    (c_state (w_c w) = STATE_AUTH_SENT → ups ≠ [] → is_Some q') ∧
    (known_to (n_server N) r (w_c w) → known_to (n_server N') r (w_c w) ∧ (ups ≠ [] → is_Some q')).
Proof.
  intros Hr Hfd Ht Hlast Hrun Hids Hq.
  destruct (second_turn N r nd m q t fd Hr Hfd Ht Hlast Hrun Hq)
    as (N1 & w & ups & Ex & Hstep & Es & En & Eu & c1 & Hev & Hout).
  destruct (second_answers t ids r m (nd_cfg nd) t fd (socketed c1 fd) (w_c w) ups N1)
    as (N' & q' & E & Hsteps & En' & Hans); [by eapply reachable_step|done|apply Hrun..|done| |].
  { intros p Hp. rewrite Eu. apply elem_of_app. left. apply list_elem_of_fmap. eauto. }
  rewrite Es in Hans. exists N', q', w, c1, ups. split_and!; try apply Hans; [|by eapply rtc_l|by rewrite En'|done..].
  unfold second. cbn [fst snd]. rewrite Ex. cbn [mbind option_bind].
  rewrite Eu, length_app, Nat.add_sub, take_app_length, <-list_fmap_compose.
  assert (snd ∘ pair r <$> ups = ups) as -> by apply list_fmap_id. done.
Qed.

(** *** Second by second *)

(** The state at time [t]: the client is healthy, or needs at most [k] seconds. *)
Definition nearing (k : Z) (N : net) (r : udp_addr) (t tun : Z) (q : option (list Z)) : Prop :=
  reachable N ∧ ∃ nd m, running N r nd m ∧ u32 t ≠ nd_last nd ∧ answered_with N r m (w_c (nd_world nd)) q ∧
    c_tun_fd (w_c (nd_world nd)) = tun ∧
    (healthy (n_server N) r (u32 t) (w_c (nd_world nd)) q ∨
     ∃ k', k' ≤ k ∧ stage (u32 t) (w_c (nd_world nd)) q k').

Lemma reachable_steps N N' : reachable N → rtc step N N' → reachable N'.
Proof. intros Hr Hs. unfold Network.reachable in *. by transitivity N. Qed.

Lemma u32_next t : u32 (u32 t + 1) = u32 (t + 1).
Proof. unfold u32. by rewrite Zplus_mod_idemp_l. Qed.
Lemma u32_next_ne t : u32 (t + 1) ≠ u32 t.
Proof. unfold u32. intros E. pose proof (Z.mod_pos_bound t (2 ^ 32)).
  rewrite <-Zplus_mod_idemp_l in E. destruct (Z.eq_dec (t mod 2 ^ 32) (2 ^ 32 - 1)) as [E'|Hne].
  - rewrite E' in E. discriminate E.
  - rewrite Z.mod_small in E; lia.
Qed.

(** What the client is after what it was given, and the tick. *)
Lemma nearer_tick cfg s s' r t fd c c1 c' q q' ups k :
  u32 t = t → 0 ≤ c_tun_fd c → 0 ≤ fd → fd ≠ c_tun_fd c →
  (healthy s r t c q ∨ ∃ k', k' ≤ k ∧ stage t c q k') → events_out s r t c q c1 →
  tick_out cfg t fd (socketed c1 fd) c' ups →
  (c_state c' = STATE_AUTH_SENT → ups ≠ [] → is_Some q') →
  (known_to s r c' → known_to s' r c' ∧ (ups ≠ [] → is_Some q')) →
  c_tun_fd c' = c_tun_fd c ∧
  (healthy s' r (u32 (t + 1)) c' q' ∨ ∃ k', k' ≤ k - 1 ∧ stage (u32 (t + 1)) c' q' k').
Proof.
  intros Ht Htun Hfd Hne Hat Hev Hout Hq Hk.
  assert (c_tun_fd c1 = c_tun_fd c) as Et by (destruct Hev as [[-> _]|(_ & _ & _ & _ & ? & _)]; done).
  destruct (socketed_fields c1 fd) as (_ & _ & _ & Et1). split; [by rewrite (tick_tun _ _ _ _ _ _ Hout), Et1|].
  destruct Hev as [[-> Hq0]|(H2 & _ & Hk1 & Eu & _ & Er)].
  - destruct Hat as [(Hk1 & H2 & Hage)|(k0 & Hle & Hst)].
    + left. eapply healthy_tick; [done|done| |done|done].
      destruct Hage as [[? ->]|?]; [by destruct Hq0|done].
    + right. destruct (stage_tick cfg t fd (socketed c fd)) with (c' := c') (ups := ups) (q' := q') (k := k0)
        as (k' & Hlt & Hst'); rewrite ?Et1; try done; [by eapply stage_socketed|].
      exists k'. split; [lia|done].
  - left. eapply healthy_tick; [exact Hk1| | |done|done].
    + unfold two_fds. by rewrite Eu, Et.
    + rewrite Er, Z.sub_diag. change DATA_TIMEOUT with 15. by case_match.
Qed.

Lemma second_nearer k N r t tun q fd ids :
  0 ≤ fd → fd ≠ tun → ids_ok ids.1 ids.2 → nearing k N r t tun q →
  ∃ N' q', second r (u32 t) fd ids (N, q) = Some (N', q') ∧ rtc step N N' ∧ nearing (k - 1) N' r (t + 1) tun q'.
Proof.
  intros Hfd Hne Hids (Hr & nd & m & Hrun & Hlast & Hq & Htun & Hat).
  assert (u32 (u32 t) = u32 t) as Ht by apply u32_id, u32_is.
  destruct (second_spec N r nd m q (u32 t) fd ids Hr Hfd Ht Hlast Hrun Hids Hq)
    as (N' & q' & w & c1 & ups & E & Hsteps & Hnd & Hev & Hout & Hq' & Hask & Hk).
  pose proof (reachable_steps _ _ Hr Hsteps) as Hr'.
  destruct (running_in N' r _ Hr' Hnd) as [m' Hrun'].
  assert (m' = m) as -> by (pose proof (rn_member _ _ _ _ Hrun); pose proof (rn_member _ _ _ _ Hrun'); congruence).
  destruct (nearer_tick (nd_cfg nd) (n_server N) (n_server N') r (u32 t) fd (w_c (nd_world nd)) c1 (w_c w) q q' ups k)
    as [Etun Hat']; try done; [apply Hrun|by rewrite Htun|].
  rewrite u32_next in Hat'. exists N', q'. split_and!; [done..|]. split; [done|].
  exists (mk_node (nd_cfg nd) (u32 t) w), m. split_and!; [done|apply u32_next_ne|done|by rewrite <-Htun|done].
Qed.

(** The environment: the sockets the client is given, and the identifiers the server draws. *)
Definition env_good (tun : Z) (env : nat → Z * (list Z * list Z)) : Prop :=
  ∀ i, 0 ≤ (env i).1 ∧ (env i).1 ≠ tun ∧ ids_ok (env i).2.1 (env i).2.2.

Lemma seconds_nearer r tun n env k N t q :
  env_good tun env → nearing k N r t tun q →
  ∃ N' q', seconds r t env n (N, q) = Some (N', q') ∧ rtc step N N' ∧
    nearing (k - Z.of_nat n) N' r (t + Z.of_nat n) tun q'.
Proof.
  revert env k N t q. induction n as [|n IH]; intros env k N t q Henv Hat.
  { exists N, q. split_and!; [done..|]. by rewrite Z.sub_0_r, Z.add_0_r. }
  destruct (Henv O) as (Hfd & Hne & Hids).
  destruct (second_nearer k N r t tun q _ _ Hfd Hne Hids Hat) as (N1 & q1 & E & Hsteps & Hat1).
  destruct (IH (env ∘ S) (k - 1) N1 (t + 1) q1) as (N' & q' & E' & Hsteps' & Hat'); [intros i; apply Henv|done|].
  exists N', q'. split_and!; [|by transitivity N1|].
  - cbn [seconds]. by rewrite E.
  - replace (k - Z.of_nat (S n)) with (k - 1 - Z.of_nat n) by lia.
    by replace (t + Z.of_nat (S n)) with (t + 1 + Z.of_nat n) by lia.
Qed.

(** A session of the server that the client knows is one the two share. *)
Lemma known_linked N r nd m :
  reachable N → running N r nd m → known_to (n_server N) r (w_c (nd_world nd)) →
  ∃ l u, linked (n_server N) r l u (w_c (nd_world nd)).
Proof.
  intros Hr Hrun [Hs [l Hl]]. pose proof (ni_server _ _ _ _ (reachable_inv _ _ _ _ Hsc Hmembers _ Hr)) as [Hi _ Hkn].
  destruct (si_sessions _ Hi _ _ Hl) as (u & Hu & _). destruct (Hkn _ _ _ Hl Hu) as (m' & Hm' & Hsu).
  pose proof (rn_member _ _ _ _ Hrun) as Hm. cbn [fst] in Hm'. assert (m' = m) as -> by congruence.
  pose proof (Hmembers _ _ Hm) as Hok. cbv beta in Hok.
  destruct (sc_octets _ Hsc _ _ (mo_user _ _ _ _ Hok)) as [Ha Hb].
  pose proof (rn_client _ _ _ _ Hrun) as Hci.
  destruct (ci_session _ _ _ _ _ _ Hci Hs) as (u' & _ & _ & _ & _ & He & Hip).
  exists l, u. split; [done|done|done| | |].
  - by rewrite He, (su_encrypt _ _ _ Hsu).
  - by rewrite (ci_key _ _ _ _ _ _ Hci), (su_user _ _ _ Hsu).
  - rewrite Hip, (su_user _ _ _ Hsu), <-Ha. by apply be_encode_decode.
Qed.

Lemma nearing_linked N r t tun q :
  nearing 0 N r t tun q → ∃ nd l u, n_nodes N !! r = Some nd ∧ linked (n_server N) r l u (w_c (nd_world nd)).
Proof.
  intros (Hr & nd & m & Hrun & _ & _ & _ & Hat).
  destruct Hat as [(Hkn & _)|(k & Hle & Hk)]; [|apply stage_pos in Hk; lia].
  destruct (known_linked N r nd m Hr Hrun Hkn) as (l & u & Hlk). exists nd, l, u. split; [apply Hrun|done].
Qed.

Lemma nearing_start N r nd t :
  reachable N → n_nodes N !! r = Some nd → u32 t ≠ nd_last nd →
  nearing 22 N r t (c_tun_fd (w_c (nd_world nd))) None.
Proof.
  intros Hr Hnd Hlast. destruct (running_in N r nd Hr Hnd) as [m Hrun].
  destruct (stage_any (u32 t) (w_c (nd_world nd)) None) as (k & Hk & Hle); [apply Hrun|].
  split; [done|]. exists nd, m. split_and!; try done. right. by exists k.
Qed.

Lemma nearing_weaken k k' N r t tun q : k ≤ k' → nearing k N r t tun q → nearing k' N r t tun q.
Proof.
  intros Hk (Hr & nd & m & Hrun & Hlast & Hq & Htun & Hat). split; [done|]. exists nd, m. split_and!; try done.
  destruct Hat as [?|(k0 & Hle & Hst)]; [by left|right]. exists k0. split; [lia|done].
Qed.

(** *** Among others *)

(** What the others do between two seconds does not set the client back. *)
Lemma known_to_kept r N N' c :
  reachable N → unaffected r N N' → known_to (n_server N) r c → known_to (n_server N') r c.
Proof.
  intros Hr Hu [Hs [l Hl]]. split; [done|].
  pose proof (ni_server _ _ _ _ (reachable_inv _ _ _ _ Hsc Hmembers _ Hr)) as [Hi _ _].
  destruct (si_sessions _ Hi _ _ Hl) as (u & Hul & _).
  destruct (un_session _ _ _ Hu (key_of r c) l u eq_refl (conj Hl Hul)) as [Hl' _]. by exists l.
Qed.

Lemma nearing_others k N N' r t tun q :
  nearing k N r t tun q → rtc (others SA SP scfg members r) N N' → nearing k N' r t tun q.
Proof.
  intros (Hr & nd & m & Hrun & Hlast & Hq & Htun & Hat) Hsteps.
  destruct (others_reachable SA SP scfg members Hsc Hmembers r N N' Hr Hsteps) as [Hr' Hu].
  assert (n_nodes N' !! r = Some nd) as Hnd by (rewrite (un_node _ _ _ Hu); apply Hrun).
  destruct (running_in N' r nd Hr' Hnd) as [m' Hrun'].
  assert (m' = m) as -> by (pose proof (rn_member _ _ _ _ Hrun); pose proof (rn_member _ _ _ _ Hrun'); congruence).
  split; [done|]. exists nd, m. split_and!; try done.
  - destruct q as [p|]; [|done]. destruct Hq as [Hdown Hp]. split; [by apply (un_down _ _ _ Hu)|].
    destruct Hp as [l u Hs Hsu Hl Hh|payload Hk Hb Hlp].
    + destruct (un_session _ _ _ Hu (r, (se_key u).1.2, (se_key u).2) l u eq_refl (conj Hl Hh)). by eapply answer_open.
    + eapply (answer_ping N' r m _ payload); [by apply (known_to_kept r N N')|exact Hb|exact Hlp].
  - destruct Hat as [(Hk & Hrest)|?]; [left|by right]. split; [by apply (known_to_kept r N N')|done].
Qed.

(** Whatever the others do before each of the next [n] seconds, and whatever socket the client
    and identifiers the server are given then, the seconds pass and the client ends up in
    session with the server. *)
Fixpoint in_session_after (r : udp_addr) (tun : Z) (n : nat) (t : Z) (st : net * option (list Z)) : Prop :=
  match n with
  | O => ∃ nd l u, n_nodes st.1 !! r = Some nd ∧ linked (n_server st.1) r l u (w_c (nd_world nd))
  | S n =>
      ∀ N fd ids, rtc (others SA SP scfg members r) st.1 N → 0 ≤ fd → fd ≠ tun → ids_ok ids.1 ids.2 →
      ∃ st', second r (u32 t) fd ids (N, st.2) = Some st' ∧ rtc step N st'.1 ∧ in_session_after r tun n (t + 1) st'
  end.

Lemma nearing_in_session n r t tun N q : nearing (Z.of_nat n) N r t tun q → in_session_after r tun n t (N, q).
Proof.
  revert N t q. induction n as [|n IH]; intros N t q Hat; cbn [in_session_after fst snd]; [by eapply nearing_linked|].
  intros N1 fd ids Hoth Hfd Hne Hids. pose proof (nearing_others _ _ _ _ _ _ _ Hat Hoth) as Hat1.
  destruct (second_nearer (Z.of_nat (S n)) N1 r t tun q fd ids Hfd Hne Hids Hat1) as (N' & q' & E & Hsteps & Hat').
  exists (N', q'). split_and!; [done..|]. apply IH. by replace (Z.of_nat n) with (Z.of_nat (S n) - 1) by lia.
Qed.


(** When nobody else acts: the seconds, computed. *)
Theorem converges_alone N r nd t env n :
  reachable N → n_nodes N !! r = Some nd → u32 t ≠ nd_last nd →
  env_good (c_tun_fd (w_c (nd_world nd))) env → (22 ≤ n)%nat →
  ∃ N' q nd' l u, seconds r t env n (N, None) = Some (N', q) ∧ rtc step N N' ∧
    n_nodes N' !! r = Some nd' ∧ linked (n_server N') r l u (w_c (nd_world nd')).
Proof.
  intros Hr Hnd Hlast Henv Hn.
  destruct (seconds_nearer r _ n env 22 N t None Henv (nearing_start N r nd t Hr Hnd Hlast))
    as (N' & q & E & Hsteps & Hat).
  apply (nearing_weaken _ 0) in Hat; [|lia]. destruct (nearing_linked _ _ _ _ _ Hat) as (nd' & l & u & Hnd' & Hlk).
  by exists N', q, nd', l, u.
Qed.
End seconds.

(** From the state of [stale_session], where the client believes in a session that the server
    has closed. *)
Definition sample_env (i : nat) : Z * (list Z * list Z) := (9, ([1; 2], [3; 4; 5; 6])).

(** Second by second: the state of the client at the end of each second. *)
Definition states_over (N : net) (t : Z) (n : nat) : list (option Z) :=
  (λ i, '(N', _) ← seconds sample_SA 8000 sample_remote t sample_env i (N, None);
    nd ← n_nodes N' !! sample_remote; Some (c_state (w_c (nd_world nd)))) <$> seq 1 n.

Example stale_converges :
  states_over (final sample_sconfig stale) 104 19 =
  Some <$> replicate 15 STATE_ESTABLISHED ++ [STATE_IP_READY; STATE_AUTH_SENT] ++ replicate 2 STATE_ESTABLISHED.
Proof. vm_compute. reflexivity. Qed.

